(* ===== verification/_CoqProject ===== *)
-Q . S2P
Prelude.v
Nom.v
CiphertextParser.v
CiphertextStream.v
Libs.v
Net.v
Egress.v
Jws.v
CpError.v
EgressProxy.v
TlsProxy.v
Context.v
Health.v
Logging.v
TrxHandler.v
E3.v
Layers.v
Stack.v
Server.v
Config.v
ConfigRef.v
Acme.v
AcmeStore.v
AcmeScript.v
AcmeSystem.v
AcmeClient.v
AcmeOrder.v
AcmeCert.v
AcmeNonce.v
AcmeShare.v
AcmeSigning.v
AcmeRef.v
ProxyProtocol.v
Host.v
Attest.v
CertResolver.v
TlsServer.v
TlsRef.v
Addr.v
DnsDriver.v
VsockProxy.v
Provisioner.v
Listeners.v
Relay.v
HealthServer.v
Processes.v
EgressSystem.v
TlsAccept.v
Startup.v
Tower.v
TlsClient.v
Wiring.v
