(* ===== verification/Prelude.v ===== *)
(** * A verification of the Evervault enclaves runtime

    The program runs a customer's process inside a Nitro enclave. The data
    plane is inside the enclave: it terminates TLS, authenticates requests
    with E3 (the encryption service), decrypts the ciphertexts in them,
    forwards them to the customer's process and logs them; it filters the
    process's own traffic. The control plane is the only way out of the
    enclave: it proxies TLS, DNS and egress traffic, serves tokens, object
    storage and signatures to the data plane and reports its health. shared is
    what both planes use.

    ** Files and the code they model

    - [Prelude]: results, the effect monad [M W E] (a world, an error, and the
      outcome of a panic), frames ([keeps]), Rust's string functions, UTF-8.
    - [Libs]: the libraries as interfaces: a class of operations, a class of
      laws with their documented behaviour, a reference instance
      (tokio_retry, hyper's header maps, serde_json). [Net]: byte streams and
      IP addresses.
    - [Nom], [CiphertextParser], [CiphertextStream]: nom's combinators
      (interface), data-plane/src/crypto/parser.rs and stream.rs. A stream is
      the decoder's offset and buffer; [framed_run] is the reader loop of
      tokio_util as a relation, [run_reads] the same as a function.
    - [Egress], [EgressProxy], [TlsProxy]: shared/src/server/egress.rs and
      sni.rs, the handlers of the egress and DNS proxies of both planes,
      control-plane/src/tls_proxy.rs. [EgressSystem]: the two egress proxies as
      one system. [Addr]: the number and address parsers
      of the standard library. [DnsDriver]: the DNS server of the enclave
      (data-plane/src/dns/enclavedns.rs) as a step function on events, and the
      listener of control-plane/src/dnsproxy.rs.
    - [Context]: data-plane/src/lib.rs. [Health]: shared/src/server/health.rs,
      data-plane/src/health, control-plane/src/health.rs. [HealthServer]: the
      loops of the agent and of the two health servers, and the shutdown of
      control-plane/src/main.rs as steps over time.
    - [Logging]: shared/src/logging.rs. [TrxHandler]: data-plane/src/utils/trx_handler.rs.
    - [E3]: data-plane/src/e3client, base_tls_client, crypto/token.rs, and the
      trait the layers are written against as the class [E3Api].
    - [Layers]: the services of data-plane/src/server/layers, each a function
      from a request to an effectful response. [Stack]: their composition in
      the order of server.rs. [Tower]: the same services as the objects of the
      code, built by the service builder of tower. [Server]:
      data-plane/src/server/http and the task of a connection in server.rs.
    - [TlsClient]: data-plane/src/base_tls_client with its verifiers and
      connection.rs, under the clients of E3 and of the provisioner. [Wiring]:
      the addresses both planes bind and dial for a port, in both builds.
    - [Jws]: shared/src/acme. [Config]: the configuration server
      (control-plane/src/config_server.rs, configuration.rs) and client
      (data-plane/src/config_client.rs); [ConfigRef]: reference instances.
    - [CpError]: control-plane/src/error.rs. [Provisioner]:
      control-plane/src/clients, behind the tokens of the configuration server.
    - [Acme], [AcmeStore]: data-plane/src/acme/{provider,lock,key,utils}.rs
      against the interface [StorageConfigClient], which [AcmeStore]
      discharges for the configuration client talking to the server.
      [AcmeScript]: the same code run one call at a time, and the protocol of
      the lock as an automaton it never leaves. [AcmeSystem]: any number of
      instances interleaved call by call on one storage.
    - [AcmeClient], [AcmeOrder], [AcmeCert]: the ACME protocol
      (data-plane/src/acme/{client,directory,account,order,authorization}.rs)
      and the certificate with its renewal (cert.rs, raw_cert.rs). [AcmeNonce]:
      what the server sees of an order. [AcmeShare]: the certificate as an
      abstract cell shared by the instances. [AcmeSigning]: orders and the
      control plane's checks together. [AcmeRef]: reference instances.
    - [Attest]: data-plane/src/crypto/{api,attest}.rs, utils/nsm.rs.
      [CertResolver]: data-plane/src/server/tls/cert_resolver.rs. [TlsServer]:
      tls_server.rs, inter_ca_retreiver.rs, cert_provisioner_client and the
      start of the user process. [TlsAccept]: the accept loop with the resolver
      inside its handshakes. [TlsRef]: reference instances.
    - [ProxyProtocol]: shared/src/server/proxy_protocol.rs. [Host]:
      data-plane/src/time and env. [Listeners]: shared/src/server/{mod,tcp,vsock}.rs
      and the accept loop of data-plane/src/server/server.rs. [Relay]: what
      pipes one connection to another (shared/src/utils.rs, e3proxy.rs, the
      ingress of both main.rs, the statistics packets). [VsockProxy]:
      crates/vsock-proxy. [Processes]: both main.rs, the remaining accept
      loops and the metrics. [Startup]: the limits, the statsd clients, and what
      both programs do when they could not be set up or a service has ended.

    A handler is a function of the world it changes: the record holds what the
    code mutates and what it sends (requests forwarded, bytes written, lines
    printed). A [?] is a throw, an unwrap or expect that can fail is a panic,
    both are outcomes of the model. Randomness, clocks and replies are
    arguments, so a theorem holds for all of them.

    ** What the theorems show

    - Requests: with API-key authentication on, nothing of a connection
      reaches the process unless E3 accepted the key
      ([unauthenticated_connection_is_sealed], [forwarded_only_if_authenticated],
      [authenticate_means_accepted]); the process receives the body with the
      ciphertexts the reader found replaced in place, the decrypted headers set,
      or nothing when E3 does not answer ([decrypted_body_is_woven]); a request
      is logged at most once, and answered and logged exactly once when logging
      is on, the process behaves, the client of E3 does not panic and keeps the
      ranges, and the timer can be read ([stack_answers_and_logs_once]);
      parsing accounts for every byte and the connection's loop ends
      ([request_bytes_accounted], [connection_terminates]). The service
      [run] builds is the composition these are about
      ([built_service_is_the_stack]). What they rest on: E3 is whoever answers
      on its port of the host ([any_peer_is_taken_for_e3]).
    - Ciphertexts: the parser recognises exactly the grammar and printing
      inverts it, the reader ends on every split of a body, its ranges are in
      order and hold the ciphertexts, and well-formed bodies split as written.
    - Traffic: nothing is written to the host for a connection of the process
      before its address was checked ([handover_only_allowed]), the host dials
      only allowed addresses outside the special blocks
      ([egress_listener_dials_only_allowed]), and a connection handed over comes
      out once, as it was, or not at all, as the host's single read of the
      message has it ([egress_system_delivers]); the bit tests are CIDR
      membership, TLS goes only to configured hosts
      ([tls_forwards_only_targets]); a port has one address for both planes, in
      both builds ([addresses_agree]). The enclave's DNS server runs at most 250
      lookups, loses no permit, accounts for every request, answers it with the
      reply to its own query and always drains ([dns_concurrency_bounded],
      [dns_requests_accounted], [dns_driver_drains]). Without TLS termination
      the process receives the client's bytes through both planes
      ([ingress_reaches_user_process]).
    - Configuration: the account key signs orders only for the enclave's own
      domains, stored objects come back through client, retries, server and
      namespace, namespaces are isolated, tokens are those the provisioner issued to this enclave
      ([enclave_tokens_are_issued]).
    - Keys shared by the instances, in every interleaving of their calls: the
      lock excludes when it is written within two seconds of the read and
      nothing is done under an expired lock ([lock_excludes]), a pair is then
      stored whole ([stored_pair_is_whole]), a pair that is there is kept and
      is the one every instance uses ([stored_pair_is_kept]), and a lock that was
      left behind holds everyone up until it expires ([left_lock_holds_up]).
    - Certificates: the instances of an enclave refine one shared abstract
      certificate ([certificate_service_refines]); an order replays no nonce,
      stores a challenge before it is validated and makes boundedly many
      requests; a renewal that does not panic schedules one successor, unless
      another instance was faster ([renewal_task_successor]); a session for a name with
      a nonce has an attested certificate ([sessions_with_nonce_attested]); the process starts after
      the trusted certificate has been obtained; connections to the secure
      module are closed again; the crypto API serves its three routes with the
      answers of E3 and of the secure module and panics only when the client of
      E3 does ([crypto_api_responses]).
    - Observability: only trusted headers are logged in the clear, logs are
      shipped in order and exactly the batches whose post fails are lost
      ([handler_ships_in_order]), the health reported is the worst of the recent
      results, and an enclave is terminated only after a signal (SIGINT, SIGTERM
      or SIGHUP) and 55 seconds from whose start every ECS check received
      failed ([shutdown_drains_first]).
    - Where the code does not do what it means to, a theorem states what it
      does: a first message dropped because it is long or split
      ([split_message_is_dropped]), a lost batch of logs, a lost DNS request, an allow list opened
      by a comma, a ciphertext missed or cut, a connection that panics, a clock
      that lags, a server stopped by the secure module, a silent client that
      blocks the server, an override that turns DNS off, a control plane that
      ends for want of a statsd client ([ingress_needs_statistics]), a renewal
      ended by a panic ([broken_directory_ends_renewal]), two instances that
      end with different keys ([instances_may_disagree]).

    ** Bounds

    Loops that are not structural take fuel that is never used up: the fuel is
    one more than the size of what the loop consumes, and a lemma shows that
    any larger fuel gives the same result ([read_body_loop_fuel],
    [parse_loop_fuel], [loop_fuel], [pp_loop_fuel], [run_reads_complete]). The
    loops that never end (listeners, the health agent, the clock) run on the
    sequence of what they are delivered. The retries for the intermediate CA,
    which the code repeats until they succeed, take the number of attempts.
    Machine integers are kept at their width where they can overflow (the
    content length, the capacity of a buffer, the seconds of the clock).

    ** Not modelled

    Tasks interleave at the steps named in a model (a datagram, a lookup, a
    request, the receipt and the answer of a health check; every call of the key
    pair's code), not inside a
    handler. TLS, sockets, the copying
    of bytes, JSON, cryptography and the secure module are parameters with
    laws. Not modelled: logging set-up, the inside of the statsd client, the
    display texts of the data plane's errors, parameters where they are sent;
    of the builds for local runs only the addresses; mocks and end-to-end
    tests. The interleavings of the certificate service are not a theorem
    of their own: a certificate is taken under the same lock code as the key
    pair, whose interleavings are [AcmeSystem]; for the certificate
    [AcmeShare] has the instances one after the other. *)
From Stdlib Require Import Ascii String ZArith Lia.
From stdpp Require Import base gmap strings list pretty.

#[global] Set Default Goal Selector "!".
#[global] Arguments String.append !_ _ / : simpl nomatch.

(** ** Notations, automation *)

Declare Scope enclave_scope.
Delimit Scope enclave_scope with encl.

(** [Vec<u8>] and [&[u8]]: a byte is an [ascii]. *)
Abbreviation bytes := (list ascii).

(** A byte-string literal [b"..."]. *)
Definition b (s : string) : bytes := String.list_ascii_of_string s.
#[global] Arguments b s : simpl nomatch.

Create HintDb encl.

(** Case analysis on the scrutinee of the first [match] or [if] of the goal. *)
Ltac case_goal :=
  match goal with
  | |- context [ match ?x with _ => _ end ] =>
      lazymatch x with
      | context [ match _ with _ => _ end ] => fail
      | _ => let E := fresh "E" in destruct x eqn:E
      end
  end.

(** The same in a hypothesis. *)
Ltac case_hyp H :=
  match type of H with
  | context [ match ?x with _ => _ end ] =>
      lazymatch x with
      | context [ match _ with _ => _ end ] => fail
      | _ => let E := fresh "E" in destruct x eqn:E
      end
  end.

(** Split everything the hypothesis matches on and discard the impossible cases. *)
Ltac run_hyp H := repeat (case_hyp H; simplify_eq/=).

(** ** Results and effects

    [result] is Rust's [Result]; [exec] adds the outcome of a panic, and
    [M W E] threads a world [W] (the state a handler mutates and the
    services it talks to) through code that uses [?]. *)

Inductive result (E A : Type) : Type :=
| Ok (a : A)
| Err (e : E).
#[global] Arguments Ok {E A} a.
#[global] Arguments Err {E A} e.

Definition is_ok {E A} (r : result E A) : bool :=
  match r with Ok _ => true | Err _ => false end.

(** [Result::ok] *)
Definition ok {E A} (r : result E A) : option A :=
  match r with Ok a => Some a | Err _ => None end.

(** [Result::map_err] *)
Definition map_err {E F A} (f : E → F) (r : result E A) : result F A :=
  match r with Ok a => Ok a | Err e => Err (f e) end.

(** [Option::is_some] *)
Definition is_some {A} (o : option A) : bool :=
  match o with Some _ => true | None => false end.

(** [Option::ok_or] *)
Definition ok_or {E A} (o : option A) (e : E) : result E A :=
  match o with Some a => Ok a | None => Err e end.

Definition rbind {E A B} (r : result E A) (f : A → result E B) : result E B :=
  match r with Ok a => f a | Err e => Err e end.

Notation "'let?' x ':=' r 'in' k" := (rbind r (fun x => k))
  (at level 10, x pattern, r at level 100, k at level 200) : enclave_scope.

Inductive exec (E A : Type) : Type :=
| Ret (a : A)
| Throw (e : E)
| Panic.
#[global] Arguments Ret {E A} a.
#[global] Arguments Throw {E A} e.
#[global] Arguments Panic {E A}.

Definition M (W E A : Type) : Type := W → exec E A * W.

Section Effects.
Context {W E : Type}.

Definition mret {A} (a : A) : M W E A := fun w => (Ret a, w).
Definition mthrow {A} (e : E) : M W E A := fun w => (Throw e, w).
Definition mpanic {A} : M W E A := fun w => (Panic, w).

Definition mbind {A B} (m : M W E A) (f : A → M W E B) : M W E B := fun w =>
  match m w with
  | (Ret a, w') => f a w'
  | (Throw e, w') => (Throw e, w')
  | (Panic, w') => (Panic, w')
  end.

Definition mget : M W E W := fun w => (Ret w, w).
Definition mmodify (f : W → W) : M W E unit := fun w => (Ret tt, f w).

(** [?] on a pure result. *)
Definition mlift {A} (r : result E A) : M W E A :=
  match r with Ok a => mret a | Err e => mthrow e end.

Lemma mbind_ret_l {A B} (a : A) (f : A → M W E B) w : mbind (mret a) f w = f a w.
Proof. done. Qed.

Lemma mbind_inv {A B} (m : M W E A) (f : A → M W E B) w r w' :
  mbind m f w = (Ret r, w') →
  ∃ a w1, m w = (Ret a, w1) ∧ f a w1 = (Ret r, w').
Proof. unfold mbind. destruct (m w) as [[]]; naive_solver. Qed.

(** Every way a bind can end. *)
Lemma mbind_cases {A B} (m : M W E A) (f : A → M W E B) w r w' : mbind m f w = (r, w') →
  ∃ r0 w1, m w = (r0, w1) ∧
    match r0 with
    | Ret a => f a w1 = (r, w')
    | Throw e => r = Throw e ∧ w' = w1
    | Panic => r = Panic ∧ w' = w1
    end.
Proof. unfold mbind. destruct (m w) as [[]]; naive_solver. Qed.

Lemma mlift_ok {A} (r : result E A) (w : W) a w' : mlift r w = (Ret a, w') → r = Ok a ∧ w' = w.
Proof. by destruct r; intros [=]; subst. Qed.

Lemma ok_or_ok {A} (o : option A) (e : E) a : ok_or o e = Ok a → o = Some a.
Proof. by destruct o; intros [=]; subst. Qed.
End Effects.

(** A computation on a part of the world. *)
Definition zoom {W V E A} (get : W → V) (set : V → W → W) (m : M V E A) : M W E A := fun w =>
  let '(r, x) := m (get w) in (r, set x w).

Lemma zoom_inv {W V E A} (get : W → V) (set : V → W → W) (m : M V E A) w r w' :
  zoom get set m w = (r, w') → ∃ x, m (get w) = (r, x) ∧ w' = set x w.
Proof. unfold zoom. destruct (m (get w)) as [r0 x]. intros [= <- <-]. by exists x. Qed.

(** A [match] on the [Result] of an effectful call: a panic still unwinds. *)
Definition mtry {W E F A} (m : M W E A) : M W F (result E A) := fun w =>
  match m w with
  | (Ret a, w') => (Ret (Ok a), w')
  | (Throw e, w') => (Ret (Err e), w')
  | (Panic, w') => (Panic, w')
  end.

(** [.map_err(f)?] on an effectful call. *)
Definition mmap_err {W E F A} (f : E → F) (m : M W E A) : M W F A := fun w =>
  match m w with
  | (Ret a, w') => (Ret a, w')
  | (Throw e, w') => (Throw (f e), w')
  | (Panic, w') => (Panic, w')
  end.

Notation "'let!' x ':=' m 'in' k" := (mbind m (fun x => k))
  (at level 10, x pattern, m at level 100, k at level 200) : enclave_scope.
Notation "m ';!' k" := (mbind m (fun _ => k))
  (at level 199, right associativity, k at level 200) : enclave_scope.

#[export] Hint Unfold mret mthrow mpanic mbind mget mmodify mlift mtry mmap_err : encl.

(** ** Frames

    [keeps P m]: every run of [m] relates the worlds before and after by [P]. *)

Definition keeps {W E A} (P : relation W) (m : M W E A) : Prop :=
  ∀ w r w', m w = (r, w') → P w w'.

Section Keeps.
Context {W : Type} (P : relation W) {PO : PreOrder P}.

Lemma keeps_ret {E A} (a : A) : keeps P (mret (E := E) a).
Proof. intros w r w' [= <- <-]. reflexivity. Qed.

Lemma keeps_throw {E A} (e : E) : keeps P (mthrow (A := A) e).
Proof. intros w r w' [= <- <-]. reflexivity. Qed.

Lemma keeps_panic {E A} : keeps P (mpanic (E := E) (A := A)).
Proof. intros w r w' [= <- <-]. reflexivity. Qed.

Lemma keeps_get {E} : keeps P (mget (E := E)).
Proof. intros w r w' [= <- <-]. reflexivity. Qed.

Lemma keeps_modify {E} f : (∀ w, P w (f w)) → keeps P (mmodify (E := E) f).
Proof. intros Hf w r w' [= <- <-]. apply Hf. Qed.

Lemma keeps_bind {E A B} (m : M W E A) (f : A → M W E B) :
  keeps P m → (∀ a, keeps P (f a)) → keeps P (mbind m f).
Proof.
  intros Hm Hf w r w'. unfold mbind. destruct (m w) as [[a|e|] w1] eqn:Em; apply Hm in Em.
  - intros Hr%Hf. by transitivity w1.
  - by intros [= <- <-].
  - by intros [= <- <-].
Qed.

Lemma keeps_try {E F A} (m : M W E A) : keeps P m → keeps P (mtry (F := F) m).
Proof.
  intros Hm w r w'. unfold mtry. destruct (m w) as [[a|e|] w1] eqn:Em; apply Hm in Em;
    by intros [= <- <-].
Qed.

Lemma keeps_map_err {E F A} (f : E → F) (m : M W E A) : keeps P m → keeps P (mmap_err f m).
Proof.
  intros Hm w r w'. unfold mmap_err. destruct (m w) as [[a|e|] w1] eqn:Em; apply Hm in Em;
    by intros [= <- <-].
Qed.

Lemma keeps_lift {E A} (r : result E A) : keeps P (mlift r).
Proof. destruct r; [apply keeps_ret|apply keeps_throw]. Qed.
End Keeps.

Lemma keeps_zoom {W V E A} (P : relation V) (Q : relation W) (get : W → V) (set : V → W → W)
    (m : M V E A) :
  (∀ w x, P (get w) x → Q w (set x w)) → keeps P m → keeps Q (zoom get set m).
Proof. intros HQ Hm w r w' (x & Hr & ->)%zoom_inv. by apply HQ, (Hm _ r). Qed.

#[export] Hint Resolve keeps_ret keeps_throw keeps_panic keeps_get keeps_lift : encl.

(** Follow the binds and matches of an effectful program. *)
Ltac keep_steps :=
  repeat (eauto with encl typeclass_instances;
    match goal with
    | |- keeps _ (mbind _ _) => apply keeps_bind; [typeclasses eauto| |intros ?]
    | |- keeps _ (mtry _) => apply keeps_try
    | |- keeps _ (mmap_err _ _) => apply keeps_map_err
    | |- keeps _ (match ?x with _ => _ end) => destruct x eqn:?
    end).

(** ** Budgets

    [costs c n m]: a run of [m], whatever its outcome, adds at most [n] to the
    counter [c] of the world. *)

Definition costs {W E A} (c : W → nat) (n : nat) (m : M W E A) : Prop :=
  ∀ w r w', m w = (r, w') → c w' ≤ c w + n.

Section Costs.
Context {W E : Type} (c : W → nat).

Lemma costs_le {A} n n' (m : M W E A) : costs c n m → n ≤ n' → costs c n' m.
Proof. intros Hm Hn w r w' Hr%Hm. lia. Qed.

Lemma costs_ret {A} n (a : A) : costs c n (mret (E := E) a).
Proof. intros w r w' [= <- <-]. lia. Qed.

Lemma costs_throw {A} n (e : E) : costs c n (mthrow (A := A) e).
Proof. intros w r w' [= <- <-]. lia. Qed.

Lemma costs_panic {A} n : costs c n (mpanic (E := E) (A := A)).
Proof. intros w r w' [= <- <-]. lia. Qed.

Lemma costs_lift {A} n (r : result E A) : costs c n (mlift r).
Proof. destruct r; [apply costs_ret|apply costs_throw]. Qed.

(** The continuation may use what the first part is known to return. *)
Lemma costs_bind_post {A B} (Q : A → Prop) n n' (m : M W E A) (f : A → M W E B) :
  costs c n m → (∀ w a w', m w = (Ret a, w') → Q a) → (∀ a, Q a → costs c n' (f a)) →
  costs c (n + n') (mbind m f).
Proof.
  intros Hm HQ Hf w r w'. unfold mbind. destruct (m w) as [[a|e|] w1] eqn:Em; pose proof (Hm _ _ _ Em).
  - intros Hr%(Hf a (HQ _ _ _ Em)). lia.
  - intros [= <- <-]. lia.
  - intros [= <- <-]. lia.
Qed.

Lemma costs_bind {A B} n n' (m : M W E A) (f : A → M W E B) :
  costs c n m → (∀ a, costs c n' (f a)) → costs c (n + n') (mbind m f).
Proof. intros Hm Hf. apply (costs_bind_post (fun _ => True)); auto. Qed.

Lemma costs_bind_lift {A B} n (r : result E A) (f : A → M W E B) :
  (∀ a, costs c n (f a)) → costs c n (mbind (mlift r) f).
Proof. intros Hf. apply (costs_bind 0 n); [apply costs_lift|done]. Qed.
End Costs.

#[export] Hint Resolve costs_ret costs_throw costs_panic costs_lift : encl.

(** Follow the parts of a program that are free. *)
Ltac cost_steps :=
  repeat (eauto with encl;
    match goal with
    | |- costs _ _ (mbind (mlift _) _) => apply costs_bind_lift; intros ?
    | |- ∀ _, costs _ _ _ => intros ?
    | |- costs _ _ (match ?x with _ => _ end) => destruct x
    end).

(** ** Strings

    The functions of [str] and [String] the sources use. *)

#[local] Open Scope string_scope.

(** [str::starts_with] *)
Definition starts_with (s p : string) : bool := String.prefix p s.

(** [str::ends_with] *)
Fixpoint ends_with (s p : string) : bool :=
  if String.eqb s p then true
  else match s with
       | EmptyString => false
       | String _ s' => ends_with s' p
       end.

(** [str::contains] with a string pattern. *)
Fixpoint contains (s p : string) : bool :=
  if String.prefix p s then true
  else match s with
       | EmptyString => false
       | String _ s' => contains s' p
       end.

(** [str::strip_prefix] with a [char] pattern. *)
Definition strip_prefix_char (s : string) (c : ascii) : option string :=
  match s with
  | String a s' => if Ascii.eqb a c then Some s' else None
  | EmptyString => None
  end.

(** [str::replace] of a [char] by a one-character string. *)
Fixpoint replace_char (s : string) (from to : ascii) : string :=
  match s with
  | EmptyString => EmptyString
  | String a s' => String (if Ascii.eqb a from then to else a) (replace_char s' from to)
  end.

(** [str::split] on a [char]: always at least one token. *)
Fixpoint split (c : ascii) (s : string) : list string :=
  match s with
  | EmptyString => [EmptyString]
  | String a s' =>
      if Ascii.eqb a c then EmptyString :: split c s'
      else match split c s' with
           | [] => [String a EmptyString]
           | t :: ts => String a t :: ts
           end
  end.

(** [slice::join] on strings with a one-character separator. *)
Fixpoint join (c : ascii) (l : list string) : string :=
  match l with
  | [] => EmptyString
  | [s] => s
  | s :: l' => s +:+ String c (join c l')
  end.

Fixpoint str_mem (s : string) (l : list string) : bool :=
  match l with
  | [] => false
  | x :: l' => String.eqb x s || str_mem s l'
  end.

Fixpoint no_char (c : ascii) (s : string) : bool :=
  match s with
  | EmptyString => true
  | String a s' => negb (Ascii.eqb a c) && no_char c s'
  end.

Lemma str_app_nil_r (s : string) : s +:+ "" = s.
Proof. induction s as [|a s IH]; simpl; [done|]. by f_equal. Qed.

Lemma str_app_assoc (s t u : string) : s +:+ (t +:+ u) = (s +:+ t) +:+ u.
Proof. induction s as [|a s IH]; simpl; [done|]. by f_equal. Qed.

Lemma str_length_app (s t : string) :
  String.length (s +:+ t) = String.length s + String.length t.
Proof. induction s as [|a s IH]; simpl; [done|]. by rewrite IH. Qed.

Lemma str_app_inj_l (s t u : string) : s +:+ t = s +:+ u → t = u.
Proof. induction s as [|a s IH]; simpl; [done|]. intros [= H]. by apply IH. Qed.

Lemma starts_with_spec s p : starts_with s p = true ↔ ∃ t, s = p +:+ t.
Proof.
  unfold starts_with. revert s. induction p as [|a p IH]; intros s.
  - split; [intros _; by exists s|]. by destruct s.
  - destruct s as [|c s]; simpl; [split; [done|]; by intros [? [=]]|].
    destruct (ascii_dec a c) as [->|Hne].
    + rewrite IH. split; intros [t Ht]; exists t; congruence.
    + split; [done|]. intros [t Ht]. congruence.
Qed.

Lemma ends_with_spec s p : ends_with s p = true ↔ ∃ t, s = t +:+ p.
Proof.
  induction s as [|a s IH]; cbn [ends_with].
  - destruct (String.eqb_spec "" p) as [<-|Hne].
    + split; [|done]. intros _. by exists "".
    + split; [done|]. intros [[|] Ht]; simpl in Ht; congruence.
  - destruct (String.eqb_spec (String a s) p) as [<-|Hne].
    + split; [|done]. intros _. by exists "".
    + rewrite IH. split.
      * intros [t ->]. by exists (String a t).
      * intros [[|c t] Ht]; simpl in Ht; simplify_eq. by exists t.
Qed.

Lemma contains_spec s p : contains s p = true ↔ ∃ t u, s = t +:+ (p +:+ u).
Proof.
  induction s as [|a s IH]; cbn [contains]; destruct (String.prefix p _) eqn:E.
  - split; [|done]. intros _. apply starts_with_spec in E as [u E]. by exists "", u.
  - split; [done|]. intros (t & u & H). destruct t; [|naive_solver].
    simpl in H. assert (starts_with "" p = true) as E'
      by (apply starts_with_spec; by exists u). unfold starts_with in E'. congruence.
  - split; [|done]. intros _. apply starts_with_spec in E as [u E]. by exists "", u.
  - rewrite IH. split.
    + intros (t & u & ->). by exists (String a t), u.
    + intros ([|c t] & u & H); simpl in H; [|naive_solver].
      assert (starts_with (String a s) p = true) as E'
        by (apply starts_with_spec; by exists u). unfold starts_with in E'. congruence.
Qed.

Lemma str_mem_spec s l : str_mem s l = true ↔ s ∈ l.
Proof.
  induction l as [|x l IH]; simpl.
  - set_solver.
  - destruct (String.eqb_spec x s) as [->|Hne]; simpl; set_solver.
Qed.

Lemma split_not_nil c s : split c s ≠ [].
Proof. destruct s as [|a s]; simpl; [done|]. destruct (Ascii.eqb a c); [done|]. by destruct (split c s). Qed.

Lemma split_no_char c s : no_char c s = true → split c s = [s].
Proof.
  induction s as [|a s IH]; simpl; [done|].
  rewrite andb_true_iff, negb_true_iff. intros [-> Hs]. by rewrite (IH Hs).
Qed.

Lemma split_app c s t :
  no_char c s = true → split c (s +:+ String c t) = s :: split c t.
Proof.
  induction s as [|a s IH]; simpl.
  - by rewrite Ascii.eqb_refl.
  - rewrite andb_true_iff, negb_true_iff. intros [-> Hs]. by rewrite (IH Hs).
Qed.

Lemma join_split c s : join c (split c s) = s.
Proof.
  induction s as [|a s IH]; simpl; [done|].
  pose proof (split_not_nil c s) as Hn. destruct (split c s) as [|t ts]; [done|].
  destruct (Ascii.eqb_spec a c) as [->|Hne]; [by rewrite <-IH|].
  destruct ts; simpl in *; by rewrite <-IH.
Qed.

Lemma split_tokens c s : Forall (fun t => no_char c t = true) (split c s).
Proof.
  induction s as [|a s IH]; simpl; [repeat constructor|].
  destruct (Ascii.eqb a c) eqn:Ea; [by constructor|].
  destruct (split c s) as [|t ts]; inversion IH; subst.
  - repeat constructor. simpl. by rewrite Ea.
  - constructor; [|done]. simpl. by rewrite Ea.
Qed.

(** A separator-joined list of separator-free tokens splits back into it. *)
Lemma split_join c l :
  l ≠ [] → Forall (fun t => no_char c t = true) l → split c (join c l) = l.
Proof.
  induction l as [|s l IH]; intros Hl Hc; [done|].
  inversion Hc as [|?? Hs Hc']; subst. destruct l as [|t l].
  - simpl. by apply split_no_char.
  - cbn [join]. rewrite split_app by done. f_equal. by apply IH.
Qed.

Lemma replace_char_no_char s c d : c ≠ d → no_char c (replace_char s c d) = true.
Proof.
  intros Hne. induction s as [|a s IH]; simpl; [done|]. rewrite IH, andb_true_r.
  destruct (Ascii.eqb_spec a c) as [->|]; apply negb_true_iff, Ascii.eqb_neq; congruence.
Qed.

Lemma replace_char_id s c d : no_char c s = true → replace_char s c d = s.
Proof.
  induction s as [|a s IH]; simpl; [done|].
  rewrite andb_true_iff, negb_true_iff. intros [-> Hs]. by rewrite (IH Hs).
Qed.

Lemma b_app s t : b (s +:+ t) = (b s ++ b t)%list.
Proof. induction s as [|a s IH]; simpl; [done|]. by rewrite IH. Qed.

Lemma length_b s : length (b s) = String.length s.
Proof. induction s as [|a s IH]; simpl; [done|]. by rewrite IH. Qed.

#[export] Hint Rewrite b_app length_b str_length_app : encl.

#[local] Close Scope string_scope.

(** ** Lists of bytes *)

(** [&[u8] == b"..."] and [slice::starts_with] as boolean functions. *)
Fixpoint bytes_eqb (x y : bytes) : bool :=
  match x, y with
  | [], [] => true
  | a :: x', c :: y' => Ascii.eqb a c && bytes_eqb x' y'
  | _, _ => false
  end.

Fixpoint is_prefix (p x : bytes) : bool :=
  match p, x with
  | [], _ => true
  | a :: p', c :: x' => Ascii.eqb a c && is_prefix p' x'
  | _ :: _, [] => false
  end.

Lemma bytes_eqb_spec x y : bytes_eqb x y = true ↔ x = y.
Proof.
  revert y. induction x as [|a x IH]; intros [|c y]; simpl; try naive_solver.
  rewrite andb_true_iff, IH, Ascii.eqb_eq. naive_solver.
Qed.

Lemma is_prefix_spec p x : is_prefix p x = true ↔ ∃ y, x = p ++ y.
Proof.
  revert x. induction p as [|a p IH]; intros x; simpl.
  - split; [|done]. intros _. by exists x.
  - destruct x as [|c x]; simpl; [split; [done|naive_solver]|].
    rewrite andb_true_iff, IH, Ascii.eqb_eq. naive_solver.
Qed.

Lemma is_prefix_app p x : is_prefix p (p ++ x) = true.
Proof. apply is_prefix_spec. by exists x. Qed.

Lemma is_prefix_nil x : is_prefix x [] = true → x = [].
Proof. by destruct x. Qed.

Lemma is_prefix_longer p x : length x < length p → is_prefix p x = false.
Proof.
  intros H. destruct (is_prefix p x) eqn:E; [|done].
  apply is_prefix_spec in E as [y ->]. rewrite length_app in H. lia.
Qed.

#[export] Hint Resolve is_prefix_app split_not_nil : encl.

(** ** UTF-8 validity, as [std::str::from_utf8] checks it *)

Definition code (c : ascii) : nat := nat_of_ascii c.

Definition in_range (lo hi : nat) (c : ascii) : bool :=
  Nat.leb lo (code c) && Nat.leb (code c) hi.

Definition cont (c : ascii) : bool := in_range 128 191 c.

(** [fuel] is at least the length of the input: each step drops a byte. *)
Fixpoint utf8_valid_fuel (fuel : nat) (i : bytes) : bool :=
  match fuel with
  | O => match i with [] => true | _ => false end
  | S n =>
      match i with
      | [] => true
      | a :: i1 =>
          if Nat.ltb (code a) 128 then utf8_valid_fuel n i1
          else if in_range 194 223 a then
            match i1 with
            | c1 :: i2 => cont c1 && utf8_valid_fuel n i2
            | _ => false
            end
          else if in_range 224 239 a then
            match i1 with
            | c1 :: c2 :: i3 =>
                (if Nat.eqb (code a) 224 then in_range 160 191 c1
                 else if Nat.eqb (code a) 237 then in_range 128 159 c1
                 else cont c1) && cont c2 && utf8_valid_fuel n i3
            | _ => false
            end
          else if in_range 240 244 a then
            match i1 with
            | c1 :: c2 :: c3 :: i4 =>
                (if Nat.eqb (code a) 240 then in_range 144 191 c1
                 else if Nat.eqb (code a) 244 then in_range 128 143 c1
                 else cont c1) && cont c2 && cont c3 && utf8_valid_fuel n i4
            | _ => false
            end
          else false
      end
  end.

Definition utf8_valid (i : bytes) : bool := utf8_valid_fuel (length i) i.

(** [std::str::from_utf8(..).ok()] *)
Definition from_utf8 (i : bytes) : option string :=
  if utf8_valid i then Some (String.string_of_list_ascii i) else None.

Lemma utf8_valid_ascii i : Forall (fun c => code c < 128) i → utf8_valid i = true.
Proof.
  unfold utf8_valid. induction 1 as [|c i Hc Hi IH]; [done|].
  cbn [utf8_valid_fuel length]. by rewrite (proj2 (Nat.ltb_lt _ _) Hc).
Qed.

Lemma b_string_of_list i : b (String.string_of_list_ascii i) = i.
Proof. apply String.list_ascii_of_string_of_list_ascii. Qed.

Lemma from_utf8_ascii i :
  Forall (fun c => code c < 128) i → from_utf8 i = Some (String.string_of_list_ascii i).
Proof. intros H. unfold from_utf8. by rewrite utf8_valid_ascii. Qed.
