(* ===== verification/Nom.v ===== *)
(** * The nom parser combinators used by the data plane

    [data-plane/src/crypto/parser.rs] is written with the streaming
    combinators of the [nom] crate, which is not part of the repository.
    The crate enters the development as the class [Nom] of the combinators
    the parser calls, with the behaviour its documentation gives them as the
    class [NomLaws]. [nom_ref] is an executable instance, so that the
    theorems proved against the interface can be evaluated. *)
From Stdlib Require Import Ascii String Lia.
From stdpp Require Import base strings list.
From S2P Require Import Prelude.

(** [nom::Needed] *)
Inductive Needed : Type :=
| Unknown
| Size (n : nat).

(** [nom::IResult<&[u8], A>]: the remaining input and the output, or the
    three variants of [nom::Err]. *)
Inductive IResult (A : Type) : Type :=
| POk (rest : bytes) (a : A)
| PIncomplete (n : Needed)
| PError
| PFailure.
#[global] Arguments POk {A} rest a.
#[global] Arguments PIncomplete {A} n.
#[global] Arguments PError {A}.
#[global] Arguments PFailure {A}.

Definition parser (A : Type) : Type := bytes → IResult A.

Definition presult_bind {A B} (r : IResult A) (k : bytes → A → IResult B) : IResult B :=
  match r with
  | POk rest a => k rest a
  | PIncomplete n => PIncomplete n
  | PError => PError
  | PFailure => PFailure
  end.

(** The combinators of the crate. *)
Class Nom : Type := {
  tag : bytes → parser bytes;
  take_until : bytes → parser bytes;
  take_while : (ascii → bool) → parser bytes;
  take_while_m_n : nat → nat → (ascii → bool) → parser bytes;
  opt : ∀ {A}, parser A → parser (option A);
  pmap : ∀ {A B}, parser A → (A → B) → parser B;
  map_res : ∀ {A B}, parser A → (A → result unit B) → parser B;
  alt : ∀ {A}, list (parser A) → parser A;
  pair_p : ∀ {A B}, parser A → parser B → parser (A * B);
  terminated : ∀ {A B}, parser A → parser B → parser A;
  delimited : ∀ {A B C}, parser A → parser B → parser C → parser B;
  tuple2 : ∀ {A B}, parser A → parser B → parser (A * B);
  tuple3 : ∀ {A B C}, parser A → parser B → parser C → parser (A * B * C);
  tuple6 : ∀ {A B C D E F}, parser A → parser B → parser C → parser D →
           parser E → parser F → parser (A * B * C * D * E * F)
}.

(** Length of the longest prefix whose bytes satisfy [cond]. *)
Fixpoint span_len (cond : ascii → bool) (i : bytes) : nat :=
  match i with
  | [] => 0
  | c :: i' => if cond c then S (span_len cond i') else 0
  end.

(** Position of the first occurrence of [t]. *)
Fixpoint find_sub (t i : bytes) : option nat :=
  if is_prefix t i then Some 0
  else match i with
       | [] => None
       | _ :: i' => S <$> find_sub t i'
       end.

(** The documented behaviour of each combinator. *)
Class NomLaws (N : Nom) : Prop := {
  tag_law t i : tag t i =
    if is_prefix t i then POk (drop (length t) i) t
    else if is_prefix i t then PIncomplete (Size (length t - length i))
    else PError;
  take_until_law t i : take_until t i =
    match find_sub t i with
    | Some n => POk (drop n i) (take n i)
    | None => PIncomplete Unknown
    end;
  take_while_law cond i : take_while cond i =
    let n := span_len cond i in
    if Nat.ltb n (length i) then POk (drop n i) (take n i)
    else PIncomplete (Size 1);
  take_while_m_n_law m n cond i : take_while_m_n m n cond i =
    let k := span_len cond i in
    if Nat.ltb k (length i) then
      if Nat.leb m k
      then let k' := Nat.min k n in POk (drop k' i) (take k' i)
      else PError
    else if Nat.leb n k then POk (drop n i) (take n i)
    else PIncomplete (Size (if Nat.ltb k m then m - k else 1));
  opt_law {A} (p : parser A) i : opt p i =
    match p i with
    | POk rest a => POk rest (Some a)
    | PError => POk i None
    | PIncomplete n => PIncomplete n
    | PFailure => PFailure
    end;
  pmap_law {A B} (p : parser A) (f : A → B) i : pmap p f i =
    presult_bind (p i) (fun rest a => POk rest (f a));
  map_res_law {A B} (p : parser A) (f : A → result unit B) i : map_res p f i =
    presult_bind (p i) (fun rest a =>
      match f a with Ok x => POk rest x | Err _ => PError end);
  alt_nil_law {A} i : alt ([] : list (parser A)) i = PError;
  alt_cons_law {A} (p : parser A) ps i : alt (p :: ps) i =
    match p i with PError => alt ps i | r => r end;
  pair_law {A B} (p : parser A) (q : parser B) i : pair_p p q i =
    presult_bind (p i) (fun i1 a => presult_bind (q i1) (fun i2 x => POk i2 (a, x)));
  terminated_law {A B} (p : parser A) (q : parser B) i : terminated p q i =
    presult_bind (p i) (fun i1 a => presult_bind (q i1) (fun i2 _ => POk i2 a));
  delimited_law {A B C} (p : parser A) (q : parser B) (r : parser C) i :
    delimited p q r i =
    presult_bind (p i) (fun i1 _ =>
    presult_bind (q i1) (fun i2 x => presult_bind (r i2) (fun i3 _ => POk i3 x)));
  tuple2_law {A B} (p : parser A) (q : parser B) i : tuple2 p q i =
    presult_bind (p i) (fun i1 a => presult_bind (q i1) (fun i2 x => POk i2 (a, x)));
  tuple3_law {A B C} (p : parser A) (q : parser B) (r : parser C) i :
    tuple3 p q r i =
    presult_bind (p i) (fun i1 a => presult_bind (q i1) (fun i2 x =>
    presult_bind (r i2) (fun i3 y => POk i3 (a, x, y))));
  tuple6_law {A B C D E F} (p1 : parser A) (p2 : parser B) (p3 : parser C)
    (p4 : parser D) (p5 : parser E) (p6 : parser F) i :
    tuple6 p1 p2 p3 p4 p5 p6 i =
    presult_bind (p1 i) (fun i1 a1 => presult_bind (p2 i1) (fun i2 a2 =>
    presult_bind (p3 i2) (fun i3 a3 => presult_bind (p4 i3) (fun i4 a4 =>
    presult_bind (p5 i4) (fun i5 a5 => presult_bind (p6 i5) (fun i6 a6 =>
    POk i6 (a1, a2, a3, a4, a5, a6)))))))
}.

(** ** An executable instance *)

Definition alt_ref {A} (ps : list (parser A)) : parser A := fun i =>
  foldr (fun (p : parser A) (r : IResult A) => match p i with PError => r | x => x end) PError ps.

#[export] Instance nom_ref : Nom := {
  tag t i :=
    if is_prefix t i then POk (drop (length t) i) t
    else if is_prefix i t then PIncomplete (Size (length t - length i))
    else PError;
  take_until t i :=
    match find_sub t i with
    | Some n => POk (drop n i) (take n i)
    | None => PIncomplete Unknown
    end;
  take_while cond i :=
    let n := span_len cond i in
    if Nat.ltb n (length i) then POk (drop n i) (take n i)
    else PIncomplete (Size 1);
  take_while_m_n m n cond i :=
    let k := span_len cond i in
    if Nat.ltb k (length i) then
      if Nat.leb m k
      then let k' := Nat.min k n in POk (drop k' i) (take k' i)
      else PError
    else if Nat.leb n k then POk (drop n i) (take n i)
    else PIncomplete (Size (if Nat.ltb k m then m - k else 1));
  opt _ p i :=
    match p i with
    | POk rest a => POk rest (Some a)
    | PError => POk i None
    | PIncomplete n => PIncomplete n
    | PFailure => PFailure
    end;
  pmap _ _ p f i := presult_bind (p i) (fun rest a => POk rest (f a));
  map_res _ _ p f i :=
    presult_bind (p i) (fun rest a =>
      match f a with Ok x => POk rest x | Err _ => PError end);
  alt _ ps i := alt_ref ps i;
  pair_p _ _ p q i :=
    presult_bind (p i) (fun i1 a => presult_bind (q i1) (fun i2 x => POk i2 (a, x)));
  terminated _ _ p q i :=
    presult_bind (p i) (fun i1 a => presult_bind (q i1) (fun i2 _ => POk i2 a));
  delimited _ _ _ p q r i :=
    presult_bind (p i) (fun i1 _ =>
    presult_bind (q i1) (fun i2 x => presult_bind (r i2) (fun i3 _ => POk i3 x)));
  tuple2 _ _ p q i :=
    presult_bind (p i) (fun i1 a => presult_bind (q i1) (fun i2 x => POk i2 (a, x)));
  tuple3 _ _ _ p q r i :=
    presult_bind (p i) (fun i1 a => presult_bind (q i1) (fun i2 x =>
    presult_bind (r i2) (fun i3 y => POk i3 (a, x, y))));
  tuple6 _ _ _ _ _ _ p1 p2 p3 p4 p5 p6 i :=
    presult_bind (p1 i) (fun i1 a1 => presult_bind (p2 i1) (fun i2 a2 =>
    presult_bind (p3 i2) (fun i3 a3 => presult_bind (p4 i3) (fun i4 a4 =>
    presult_bind (p5 i4) (fun i5 a5 => presult_bind (p6 i5) (fun i6 a6 =>
    POk i6 (a1, a2, a3, a4, a5, a6)))))))
}.

#[export] Instance nom_ref_laws : NomLaws nom_ref.
Proof. constructor; reflexivity. Qed.

(** ** Consequences of the laws shared by the parser's proofs *)

Lemma presult_bind_ok {A B} (r : IResult A) (k : bytes → A → IResult B) rest x :
  presult_bind r k = POk rest x → ∃ i a, r = POk i a ∧ k i a = POk rest x.
Proof. destruct r; naive_solver. Qed.

Lemma span_len_le cond i : span_len cond i ≤ length i.
Proof. induction i as [|c i IH]; simpl; [lia|]. destruct (cond c); simpl; lia. Qed.

Lemma take_span_forall cond n i : n ≤ span_len cond i → Forall (fun c => cond c = true) (take n i).
Proof.
  revert n. induction i as [|c i IH]; intros n Hn; simpl in *; [by rewrite take_nil|].
  destruct n as [|n]; [constructor|]. destruct (cond c) eqn:E; [|lia].
  constructor; [done|]. apply IH. lia.
Qed.

Lemma span_len_app cond p c i :
  Forall (fun c => cond c = true) p → cond c = false →
  span_len cond (p ++ c :: i) = length p.
Proof.
  induction 1 as [|a p Ha Hp IH]; intros Hc; simpl; [by rewrite Hc|].
  rewrite Ha. f_equal. by apply IH.
Qed.

Lemma find_sub_some t i n :
  find_sub t i = Some n → ∃ rest, i = take n i ++ t ++ rest ∧ n ≤ length i.
Proof.
  revert n. induction i as [|c i IH]; intros n H; cbn [find_sub] in H.
  - destruct (is_prefix t []) eqn:E; [|done]. apply is_prefix_nil in E. simplify_eq.
    exists []. split; [done|lia].
  - destruct (is_prefix t (c :: i)) eqn:E.
    + simplify_eq. apply is_prefix_spec in E as [y E]. exists y. split; [done|]. simpl. lia.
    + destruct (find_sub t i) as [m|] eqn:Ei; simpl in H; simplify_eq.
      destruct (IH m eq_refl) as (rest & Hi & Hm). exists rest. simpl.
      split; [by f_equal|lia].
Qed.

Lemma find_sub_app t i : find_sub t (t ++ i) = Some 0.
Proof. destruct (t ++ i) eqn:E; cbn [find_sub]; by rewrite <-E, is_prefix_app. Qed.

Section Laws.
Context {N : Nom} {L : NomLaws N}.

(** A tag that the input starts with is consumed. *)
Lemma tag_app t i : tag t (t ++ i) = POk i t.
Proof. by rewrite tag_law, is_prefix_app, drop_app_length. Qed.

Lemma tag_ok t i rest x : tag t i = POk rest x → i = t ++ rest ∧ x = t.
Proof.
  rewrite tag_law. destruct (is_prefix t i) eqn:E; [|destruct (is_prefix i t); done].
  apply is_prefix_spec in E as [y ->]. rewrite drop_app_length. naive_solver.
Qed.

(** A tag whose first bytes differ from the input's fails. *)
Lemma tag_mismatch t i :
  is_prefix t i = false → is_prefix i t = false → tag t i = PError.
Proof. rewrite tag_law. by intros -> ->. Qed.

Lemma take_while_ok cond i rest x :
  take_while cond i = POk rest x →
  i = x ++ rest ∧ Forall (fun c => cond c = true) x.
Proof.
  rewrite take_while_law. cbn zeta. destruct (Nat.ltb _ _); [|done]. intros H. simplify_eq.
  split; [by rewrite take_drop|]. by apply take_span_forall.
Qed.

Lemma take_while_app cond p c i :
  Forall (fun c => cond c = true) p → cond c = false →
  take_while cond (p ++ c :: i) = POk (c :: i) p.
Proof.
  intros Hp Hc. rewrite take_while_law. cbn zeta. rewrite span_len_app by done.
  rewrite (proj2 (Nat.ltb_lt _ _)) by (rewrite length_app; simpl; lia).
  by rewrite drop_app_length, take_app_length.
Qed.

Lemma take_while_n_n_ok n cond i rest x :
  take_while_m_n n n cond i = POk rest x →
  i = x ++ rest ∧ length x = n ∧ Forall (fun c => cond c = true) x.
Proof.
  rewrite take_while_m_n_law. cbn zeta.
  pose proof (span_len_le cond i) as Hle.
  destruct (Nat.ltb_spec (span_len cond i) (length i)) as [Hlt|Hge].
  - destruct (Nat.leb_spec n (span_len cond i)) as [Hn|]; [|done].
    rewrite Nat.min_r by done. intros H. simplify_eq.
    split; [by rewrite take_drop|]. split; [rewrite length_take; lia|]. by apply take_span_forall.
  - destruct (Nat.leb_spec n (span_len cond i)) as [Hn|]; [|done].
    intros H. simplify_eq.
    split; [by rewrite take_drop|]. split; [rewrite length_take; lia|]. by apply take_span_forall.
Qed.

Lemma take_while_n_n_app cond p c i :
  Forall (fun c => cond c = true) p → cond c = false →
  take_while_m_n (length p) (length p) cond (p ++ c :: i) = POk (c :: i) p.
Proof.
  intros Hp Hc. rewrite take_while_m_n_law. cbn zeta. rewrite span_len_app by done.
  rewrite (proj2 (Nat.ltb_lt _ _)) by (rewrite length_app; simpl; lia).
  rewrite Nat.leb_refl, Nat.min_id. by rewrite drop_app_length, take_app_length.
Qed.

(** None of the primitives returns [nom::Err::Failure]. *)
Lemma tag_no_failure t i : tag t i ≠ PFailure.
Proof. rewrite tag_law. by repeat case_match. Qed.

Lemma take_while_no_failure cond i : take_while cond i ≠ PFailure.
Proof. rewrite take_while_law. cbn zeta. by repeat case_match. Qed.

Lemma take_while_m_n_no_failure m n cond i : take_while_m_n m n cond i ≠ PFailure.
Proof. rewrite take_while_m_n_law. cbn zeta. by repeat case_match. Qed.
End Laws.

#[export] Hint Resolve tag_no_failure take_while_no_failure take_while_m_n_no_failure : encl.
