(* ===== verification/CiphertextParser.v ===== *)
(** * Ciphertext grammar (data-plane/src/crypto/parser.rs)

    The parser of Evervault ciphertexts, its data, and the printer
    ([Display]) that serialises a parsed ciphertext for E3. The theorems
    relate all three to one grammar, [encode]. *)
From Stdlib Require Import Ascii String Lia.
From stdpp Require Import base strings list.
From S2P Require Import Prelude Nom.
#[local] Open Scope string_scope.
#[local] Open Scope list_scope.

(** ** Data *)

Inductive CiphertextVersion : Type :=
| Rfvc | T1jl | Tk9d | Tenz | Qljv | QkTC | S0lS.

Inductive Datatype : Type :=
| DtBoolean | DtNumber | DtString.

#[export] Instance CiphertextVersion_eq_dec : EqDecision CiphertextVersion.
Proof. solve_decision. Defined.
#[export] Instance Datatype_eq_dec : EqDecision Datatype.
Proof. solve_decision. Defined.

(** [CiphertextVersion::try_from] *)
Definition CiphertextVersion_try_from (value : bytes) : result unit CiphertextVersion :=
  if bytes_eqb value (b "RFVC") then Ok Rfvc
  else if bytes_eqb value (b "T1JL") then Ok T1jl
  else if bytes_eqb value (b "Tk9D") then Ok Tk9d
  else if bytes_eqb value (b "TENZ") then Ok Tenz
  else if bytes_eqb value (b "QlJV") then Ok Qljv
  else if bytes_eqb value (b "QkTC") then Ok QkTC
  else if bytes_eqb value (b "S0lS") then Ok S0lS
  else Err tt.

(** [impl Display for CiphertextVersion] *)
Definition CiphertextVersion_display (v : CiphertextVersion) : string :=
  match v with
  | Rfvc => "RFVC" | T1jl => "T1JL" | Tk9d => "Tk9D" | Tenz => "TENZ"
  | Qljv => "QlJV" | QkTC => "QkTC" | S0lS => "S0lS"
  end.

(** [Datatype::len] *)
Definition Datatype_len (dt : Datatype) : nat :=
  match dt with DtBoolean => 7 | DtNumber => 6 | DtString => 6 end.

(** [Datatype::is_string] *)
Definition is_string (dt : Datatype) : bool :=
  match dt with DtString => true | _ => false end.

(** [Datatype::try_from] *)
Definition Datatype_try_from (value : bytes) : result unit Datatype :=
  if bytes_eqb value (b "boolean") then Ok DtBoolean
  else if bytes_eqb value (b "string") then Ok DtString
  else if bytes_eqb value (b "number") then Ok DtNumber
  else Err tt.

(** [impl Display for Datatype] *)
Definition Datatype_display (dt : Datatype) : string :=
  match dt with DtBoolean => "boolean" | DtNumber => "number" | DtString => "" end.

Record Ciphertext : Type := mkCiphertext {
  ct_debug : bool;
  ct_version : option CiphertextVersion;
  ct_datatype : option Datatype;
  ct_iv : bytes;
  ct_public_key : bytes;
  ct_encrypted_value : bytes;
  ct_has_leading_quote : bool;
  ct_has_trailing_quote : bool
}.

Definition ParsedCiphertext : Type :=
  bool * option CiphertextVersion * option Datatype * bytes * bytes * bytes.

(** [Ciphertext::new] *)
Definition Ciphertext_new (parsed : ParsedCiphertext)
    (has_leading_quote has_trailing_quote : bool) : Ciphertext :=
  let '(debug, version, datatype, iv, pub_key, encrypted_val) := parsed in
  mkCiphertext debug version datatype iv pub_key encrypted_val
    has_leading_quote has_trailing_quote.

(** [impl From<ParsedCiphertext> for Ciphertext] *)
Definition Ciphertext_from (parsed : ParsedCiphertext) : Ciphertext :=
  Ciphertext_new parsed false false.

Definition set_leading_quote (c : Ciphertext) (q : bool) : Ciphertext :=
  mkCiphertext (ct_debug c) (ct_version c) (ct_datatype c) (ct_iv c)
    (ct_public_key c) (ct_encrypted_value c) q (ct_has_trailing_quote c).

Definition set_trailing_quote (c : Ciphertext) (q : bool) : Ciphertext :=
  mkCiphertext (ct_debug c) (ct_version c) (ct_datatype c) (ct_iv c)
    (ct_public_key c) (ct_encrypted_value c) (ct_has_leading_quote c) q.

(** [Ciphertext::is_in_quotes] *)
Definition is_in_quotes (c : Ciphertext) : bool :=
  ct_has_leading_quote c && ct_has_trailing_quote c.

(** [Ciphertext::should_discard_quotes] *)
Definition should_discard_quotes (c : Ciphertext) : bool :=
  is_in_quotes c &&
  match ct_datatype c with Some dt => negb (is_string dt) | None => false end.

(** [Ciphertext::len] *)
Definition Ciphertext_len (c : Ciphertext) : nat :=
  3 + match ct_version c with Some _ => 5 | None => 0 end
  + match ct_datatype c with Some dt => Datatype_len dt + 1 | None => 0 end
  + length (ct_iv c)
  + 1
  + length (ct_public_key c)
  + 1
  + length (ct_encrypted_value c)
  + 2
  + (if is_in_quotes c then 2 else 0)
  + (if ct_debug c then 6 else 0).

(** [impl Display for Ciphertext]; [None] is the panic of an [expect]. *)
Definition Ciphertext_display (c : Ciphertext) : option string :=
  match from_utf8 (ct_iv c) with
  | None => None
  | Some iv =>
      match from_utf8 (ct_public_key c) with
      | None => None
      | Some public_key =>
          match from_utf8 (ct_encrypted_value c) with
          | None => None
          | Some encrypted_value =>
              Some ("ev:"
                +:+ (if ct_debug c then "debug:" else "")
                +:+ match ct_version c with
                    | Some vers => CiphertextVersion_display vers +:+ ":"
                    | None => "" end
                +:+ match ct_datatype c with
                    | Some datatype => Datatype_display datatype +:+ ":"
                    | None => "" end
                +:+ iv +:+ ":" +:+ public_key +:+ ":" +:+ encrypted_value +:+ ":$")
          end
      end
  end.

(** [u8::is_ascii_alphanumeric] *)
Definition is_ascii_alphanumeric (c : ascii) : bool :=
  in_range 48 57 c || in_range 65 90 c || in_range 97 122 c.

Definition quote_byte : ascii := ascii_of_nat 34.

Definition is_base64 (input : ascii) : bool :=
  is_ascii_alphanumeric input || Ascii.eqb input "=" || Ascii.eqb input "/"
  || Ascii.eqb input "+".

(** ** Parsers *)
Section Parsers.
Context {N : Nom}.

Definition find_ciphertext_prefix : parser bytes := take_until (b "ev:").

Definition quote : parser bytes := tag [quote_byte].
Definition ciphertext_prefix : parser bytes := tag (b "ev").
Definition ciphertext_delimiter : parser bytes := tag (b ":").
Definition ciphertext_iv : parser bytes := take_while_m_n 16 16 is_base64.
Definition ciphertext_public_key : parser bytes := take_while_m_n 44 44 is_base64.
Definition ciphertext_encrypted_value : parser bytes := take_while is_base64.
Definition ciphertext_suffix : parser bytes := tag (b "$").

Definition version : parser CiphertextVersion :=
  map_res
    (alt [tag (b "RFVC"); tag (b "T1JL"); tag (b "Tk9D"); tag (b "TENZ");
          tag (b "QlJV"); tag (b "QkTC"); tag (b "S0lS")])
    CiphertextVersion_try_from.

Definition debug : parser bytes := tag (b "debug").

Definition datatype : parser Datatype :=
  map_res (alt [tag (b "string"); tag (b "boolean"); tag (b "number")])
    Datatype_try_from.

Definition ciphertext : parser Ciphertext :=
  pmap
    (delimited
       (tuple2 ciphertext_prefix ciphertext_delimiter)
       (tuple6
          (pmap (opt (pair_p debug ciphertext_delimiter))
             is_some)
          (opt (terminated version ciphertext_delimiter))
          (opt (terminated datatype ciphertext_delimiter))
          (terminated ciphertext_iv ciphertext_delimiter)
          (terminated ciphertext_public_key ciphertext_delimiter)
          (terminated ciphertext_encrypted_value ciphertext_delimiter))
       ciphertext_suffix)
    Ciphertext_from.

Definition context_aware_ciphertext : parser Ciphertext :=
  pmap
    (tuple3
       (pmap (opt quote) is_some)
       ciphertext
       (pmap (opt quote) is_some))
    (fun '(leading_quote, ciphertext, trailing_quote) =>
       set_trailing_quote (set_leading_quote ciphertext leading_quote) trailing_quote).

Definition parse_ciphertexts : parser (option Ciphertext) :=
  opt context_aware_ciphertext.
End Parsers.

(** ** The grammar

    [encode c] is the text of a ciphertext, without surrounding quotes. *)

Definition Datatype_name (dt : Datatype) : string :=
  match dt with DtBoolean => "boolean" | DtNumber => "number" | DtString => "string" end.

Definition colon : ascii := ":".

(** A token followed by the delimiter. *)
Definition field (t : bytes) (rest : bytes) : bytes := t ++ colon :: rest.

Definition encode_app (c : Ciphertext) (rest : bytes) : bytes :=
  field (b "ev")
    ((if ct_debug c then field (b "debug") else id)
      (match ct_version c with
       | Some v => field (b (CiphertextVersion_display v)) | None => id end
         (match ct_datatype c with
          | Some dt => field (b (Datatype_name dt)) | None => id end
            (field (ct_iv c) (field (ct_public_key c)
              (field (ct_encrypted_value c) (b "$" ++ rest))))))).

Definition encode (c : Ciphertext) : bytes := encode_app c [].

Abbreviation base64 := (Forall (fun c => is_base64 c = true)).

(** What the parser guarantees of a ciphertext it returns. *)
Definition wf_ciphertext (c : Ciphertext) : Prop :=
  base64 (ct_iv c) ∧ length (ct_iv c) = 16 ∧
  base64 (ct_public_key c) ∧ length (ct_public_key c) = 44 ∧
  base64 (ct_encrypted_value c).

Definition unquoted (c : Ciphertext) : Ciphertext :=
  set_trailing_quote (set_leading_quote c false) false.

(** ** Lemmas *)

Lemma field_app t r s : field t r ++ s = field t (r ++ s).
Proof. unfold field. by rewrite <-app_assoc. Qed.

Lemma encode_app_eq c rest : encode_app c rest = encode c ++ rest.
Proof.
  unfold encode, encode_app.
  destruct (ct_debug c), (ct_version c), (ct_datatype c); unfold id; by rewrite !field_app.
Qed.

Lemma length_field t r : length (field t r) = length t + 1 + length r.
Proof. unfold field. rewrite length_app. simpl. lia. Qed.

Lemma length_encode c :
  length (encode c) = Ciphertext_len c - (if is_in_quotes c then 2 else 0).
Proof.
  unfold encode, encode_app, Ciphertext_len.
  destruct (ct_debug c), (ct_version c) as [[]|], (ct_datatype c) as [[]|], (is_in_quotes c);
    unfold id; rewrite !length_field; simpl; lia.
Qed.

Lemma colon_not_base64 : is_base64 colon = false.
Proof. done. Qed.

Lemma base64_lt_128 c : is_base64 c = true → code c < 128.
Proof.
  unfold is_base64, is_ascii_alphanumeric, in_range, code. intros H.
  rewrite !orb_true_iff, !andb_true_iff, !Nat.leb_le, !Ascii.eqb_eq in H.
  destruct H as [[[[[H|H]|H]|H]|H]|H]; [lia..| | |]; subst; by apply Nat.ltb_lt.
Qed.

Lemma base64_from_utf8 i :
  base64 i → from_utf8 i = Some (String.string_of_list_ascii i).
Proof. intros H. apply from_utf8_ascii. eapply Forall_impl; [exact H|]. apply base64_lt_128. Qed.

Lemma CiphertextVersion_try_from_ok p v :
  CiphertextVersion_try_from p = Ok v ↔ p = b (CiphertextVersion_display v).
Proof.
  split.
  - unfold CiphertextVersion_try_from. intros H.
    repeat match type of H with
           | (if bytes_eqb ?x ?y then _ else _) = _ =>
               let E := fresh in destruct (bytes_eqb x y) eqn:E;
                 [apply bytes_eqb_spec in E; by simplify_eq|clear E]
           end. done.
  - intros ->. by destruct v.
Qed.

Lemma Datatype_try_from_ok p dt :
  Datatype_try_from p = Ok dt ↔ p = b (Datatype_name dt).
Proof.
  split.
  - unfold Datatype_try_from. intros H.
    repeat match type of H with
           | (if bytes_eqb ?x ?y then _ else _) = _ =>
               let E := fresh in destruct (bytes_eqb x y) eqn:E;
                 [apply bytes_eqb_spec in E; by simplify_eq|clear E]
           end. done.
  - intros ->. by destruct dt.
Qed.

Lemma version_base64 v : base64 (b (CiphertextVersion_display v)).
Proof. destruct v; repeat constructor. Qed.

Lemma datatype_base64 dt : base64 (b (Datatype_name dt)).
Proof. destruct dt; repeat constructor. Qed.

#[export] Hint Resolve colon_not_base64 version_base64 datatype_base64 : encl.

(** A base64 word is a prefix of [p] followed by a delimiter exactly when it
    is a prefix of [p]. *)
Lemma is_prefix_field t p r : base64 t → is_prefix t (field p r) = is_prefix t p.
Proof.
  intros Ht. revert p. induction Ht as [|a t Ha Ht IH]; intros p; [done|].
  destruct p as [|c p]; cbn [is_prefix field app].
  - destruct (Ascii.eqb_spec a colon) as [->|]; [|done]. by rewrite colon_not_base64 in Ha.
  - f_equal. apply IH.
Qed.

Lemma field_not_prefix t p r : base64 t → is_prefix (field p r) t = false.
Proof.
  intros Ht. revert p. induction Ht as [|a t Ha Ht IH]; intros p; [by destruct p|].
  destruct p as [|c p]; cbn [is_prefix field app].
  - destruct (Ascii.eqb_spec colon a) as [<-|]; [|done]. by rewrite colon_not_base64 in Ha.
  - unfold field in IH. rewrite (IH p). apply andb_false_r.
Qed.

Section ParserLemmas.
Context {N : Nom} {L : NomLaws N}.

Lemma delimiter_ok r : ciphertext_delimiter (colon :: r) = POk r (b ":").
Proof. apply (tag_app (b ":") r). Qed.

(** The delimiter parser fails on a base64 byte. *)
Lemma delimiter_fail a r : is_base64 a = true → ciphertext_delimiter (a :: r) = PError.
Proof.
  intros Ha. unfold ciphertext_delimiter. apply tag_mismatch.
  - cbn [is_prefix b String.list_ascii_of_string].
    by destruct (Ascii.eqb_spec ":" a) as [<-|].
  - cbn [is_prefix b String.list_ascii_of_string].
    by destruct (Ascii.eqb_spec a ":") as [->|].
Qed.

Lemma tag_field t p r : base64 t →
  tag t (field p r) =
    if is_prefix t p then POk (field (drop (length t) p) r) t else PError.
Proof.
  intros Ht. rewrite tag_law, is_prefix_field, field_not_prefix by done.
  destruct (is_prefix t p) eqn:E; [|done]. unfold field.
  apply is_prefix_spec in E as [y ->]. rewrite drop_app_length.
  by rewrite <-app_assoc, drop_app_length.
Qed.

(** Ordered choice between word tags picks the first one that prefixes [p]. *)
Lemma alt_tags ts p r : Forall (fun t => base64 t) ts →
  alt (map tag ts) (field p r) =
    match List.find (fun t => is_prefix t p) ts with
    | Some t => POk (field (drop (length t) p) r) t
    | None => PError
    end.
Proof.
  induction 1 as [|t ts Ht Hts IH]; simpl; [apply alt_nil_law|].
  rewrite alt_cons_law, tag_field by done. by destruct (is_prefix t p).
Qed.

(** A delimited token is accepted exactly when the whole token is one of
    the words: no word is cut short and no longer word is truncated. *)
Lemma terminated_words {A} (f : bytes → result unit A) ts p r :
  Forall (fun t => base64 t ∧ ∃ v, f t = Ok v) ts →
  (∀ v, f p = Ok v → List.find (fun t => is_prefix t p) ts = Some p) →
  base64 p →
  terminated (map_res (alt (map tag ts)) f) ciphertext_delimiter (field p r) =
    match f p with Ok v => POk r v | Err _ => PError end.
Proof.
  intros Hts Hf Hp. rewrite terminated_law, map_res_law, alt_tags
    by (eapply Forall_impl; [exact Hts|]; naive_solver).
  destruct (f p) as [v|e] eqn:Ef.
  - rewrite (Hf v) by done. simpl. rewrite Ef. simpl.
    rewrite drop_all. unfold field. simpl. by rewrite delimiter_ok.
  - destruct (List.find _ ts) as [t|] eqn:Et; [|done].
    apply List.find_some in Et as [Hin Hpre]. apply list_elem_of_In in Hin.
    rewrite Forall_forall in Hts. destruct (Hts t Hin) as [Hb [v Hv]].
    simpl. rewrite Hv. simpl.
    apply is_prefix_spec in Hpre as [q ->]. rewrite drop_app_length.
    destruct q as [|a q]; [rewrite app_nil_r in Ef; congruence|].
    apply Forall_app in Hp as [_ Hp]. inversion Hp; subst.
    unfold field. simpl. by rewrite delimiter_fail.
Qed.

Lemma version_field p r : base64 p →
  opt (terminated version ciphertext_delimiter) (field p r) =
    match CiphertextVersion_try_from p with
    | Ok v => POk r (Some v) | Err _ => POk (field p r) None end.
Proof.
  intros Hp. rewrite opt_law. unfold version.
  rewrite (terminated_words CiphertextVersion_try_from
    [b "RFVC"; b "T1JL"; b "Tk9D"; b "TENZ"; b "QlJV"; b "QkTC"; b "S0lS"]).
  - by destruct (CiphertextVersion_try_from p).
  - repeat constructor; by eexists.
  - intros v ->%CiphertextVersion_try_from_ok. by destruct v.
  - done.
Qed.

Lemma datatype_field p r : base64 p →
  opt (terminated datatype ciphertext_delimiter) (field p r) =
    match Datatype_try_from p with
    | Ok v => POk r (Some v) | Err _ => POk (field p r) None end.
Proof.
  intros Hp. rewrite opt_law. unfold datatype.
  rewrite (terminated_words Datatype_try_from [b "string"; b "boolean"; b "number"]).
  - by destruct (Datatype_try_from p).
  - repeat constructor; by eexists.
  - intros v ->%Datatype_try_from_ok. by destruct v.
  - done.
Qed.

Lemma debug_field p r : base64 p →
  opt (pair_p debug ciphertext_delimiter) (field p r) =
    if bytes_eqb p (b "debug") then POk r (Some (b "debug", b ":"))
    else POk (field p r) None.
Proof.
  intros Hp. rewrite opt_law, pair_law. unfold debug.
  rewrite tag_field by repeat constructor.
  destruct (bytes_eqb p (b "debug")) eqn:E.
  - apply bytes_eqb_spec in E as ->. simpl. unfold field. simpl. by rewrite delimiter_ok.
  - destruct (is_prefix (b "debug") p) eqn:Epre; [|done].
    apply is_prefix_spec in Epre as [q ->].
    destruct q as [|a q]; [done|]. apply Forall_app in Hp as [_ Hp]. inversion Hp; subst.
    cbn [presult_bind]. rewrite drop_app_length. unfold field. simpl. by rewrite delimiter_fail.
Qed.

(** The three optional fields leave a token of none of their words alone. *)
Lemma iv_not_version p : length p = 16 → CiphertextVersion_try_from p = Err tt.
Proof.
  intros Hl. destruct (CiphertextVersion_try_from p) as [v|[]] eqn:E; [|done].
  apply CiphertextVersion_try_from_ok in E as ->. by destruct v.
Qed.

Lemma iv_not_datatype p : length p = 16 → Datatype_try_from p = Err tt.
Proof.
  intros Hl. destruct (Datatype_try_from p) as [v|[]] eqn:E; [|done].
  apply Datatype_try_from_ok in E as ->. by destruct v.
Qed.

Lemma iv_not_debug p : length p = 16 → bytes_eqb p (b "debug") = false.
Proof.
  intros Hl. destruct (bytes_eqb p (b "debug")) eqn:E; [|done].
  by apply bytes_eqb_spec in E as ->.
Qed.

Lemma version_not_datatype v :
  Datatype_try_from (b (CiphertextVersion_display v)) = Err tt.
Proof. by destruct v. Qed.

Lemma iv_field p r : base64 p → length p = 16 →
  terminated ciphertext_iv ciphertext_delimiter (field p r) = POk r p.
Proof.
  intros Hp Hl. rewrite terminated_law. unfold ciphertext_iv, field. rewrite <-Hl.
  rewrite take_while_n_n_app by done. cbn [presult_bind]. by rewrite delimiter_ok.
Qed.

Lemma public_key_field p r : base64 p → length p = 44 →
  terminated ciphertext_public_key ciphertext_delimiter (field p r) = POk r p.
Proof.
  intros Hp Hl. rewrite terminated_law. unfold ciphertext_public_key, field. rewrite <-Hl.
  rewrite take_while_n_n_app by done. cbn [presult_bind]. by rewrite delimiter_ok.
Qed.

Lemma encrypted_value_field p r : base64 p →
  terminated ciphertext_encrypted_value ciphertext_delimiter (field p r) = POk r p.
Proof.
  intros Hp. rewrite terminated_law. unfold ciphertext_encrypted_value, field.
  rewrite take_while_app by done. cbn [presult_bind]. by rewrite delimiter_ok.
Qed.

(** The body of [ciphertext], on each layout of the optional fields. *)
Lemma ciphertext_fields i d v dt iv pk ev i1 i2 rest :
  base64 iv → length iv = 16 → base64 pk → length pk = 44 → base64 ev →
  opt (pair_p debug ciphertext_delimiter) i = POk i1 d →
  opt (terminated version ciphertext_delimiter) i1 = POk i2 v →
  opt (terminated datatype ciphertext_delimiter) i2 =
    POk (field iv (field pk (field ev (b "$" ++ rest)))) dt →
  ciphertext (field (b "ev") i) = POk rest (mkCiphertext (is_some d) v dt iv pk ev false false).
Proof.
  intros Hiv Hivl Hpk Hpkl Hev Hd Hv Hdt.
  unfold ciphertext. rewrite pmap_law, delimited_law, tuple2_law.
  unfold field at 1. unfold ciphertext_prefix.
  rewrite tag_app. cbn [presult_bind]. rewrite delimiter_ok. cbn [presult_bind].
  rewrite tuple6_law, pmap_law, Hd. cbn [presult_bind]. rewrite Hv. cbn [presult_bind].
  rewrite Hdt. cbn [presult_bind]. rewrite iv_field by done. cbn [presult_bind].
  rewrite public_key_field by done. cbn [presult_bind].
  rewrite encrypted_value_field by done. cbn [presult_bind].
  unfold ciphertext_suffix. by rewrite tag_app.
Qed.

(** An optional field is read when present and skipped when absent,
    provided the token after it is not one of its words. *)
Lemma opt_debug_field (d : bool) p r :
  base64 p → bytes_eqb p (b "debug") = false →
  opt (pair_p debug ciphertext_delimiter)
    ((if d then field (b "debug") else id) (field p r)) =
  POk (field p r) (if d then Some (b "debug", b ":") else None).
Proof.
  intros Hp Hne. destruct d; unfold id; rewrite debug_field; [done|repeat constructor| |done].
  by rewrite Hne.
Qed.

Lemma opt_version_field (v : option CiphertextVersion) p r :
  base64 p → CiphertextVersion_try_from p = Err tt →
  opt (terminated version ciphertext_delimiter)
    (match v with Some v => field (b (CiphertextVersion_display v)) | None => id end
      (field p r)) = POk (field p r) v.
Proof.
  intros Hp Hne. destruct v as [v|]; unfold id; rewrite version_field by eauto with encl.
  - by rewrite (proj2 (CiphertextVersion_try_from_ok _ v)).
  - by rewrite Hne.
Qed.

Lemma opt_datatype_field (dt : option Datatype) p r :
  base64 p → Datatype_try_from p = Err tt →
  opt (terminated datatype ciphertext_delimiter)
    (match dt with Some dt => field (b (Datatype_name dt)) | None => id end (field p r)) =
  POk (field p r) dt.
Proof.
  intros Hp Hne. destruct dt as [dt|]; unfold id; rewrite datatype_field by eauto with encl.
  - by rewrite (proj2 (Datatype_try_from_ok _ dt)).
  - by rewrite Hne.
Qed.

Lemma ciphertext_encode c rest : wf_ciphertext c →
  ciphertext (encode c ++ rest) = POk rest (unquoted c).
Proof.
  intros (Hiv & Hivl & Hpk & Hpkl & Hev). rewrite <-encode_app_eq. unfold encode_app.
  set (i3 := field (ct_iv c) _).
  set (i2 := match ct_datatype c with Some _ => _ | None => _ end i3).
  set (i1 := match ct_version c with Some _ => _ | None => _ end i2).
  assert (∃ p r, i2 = field p r ∧ base64 p ∧ CiphertextVersion_try_from p = Err tt
    ∧ bytes_eqb p (b "debug") = false) as (p2 & r2 & E2 & Hp2 & Hv2 & Hd2).
  { subst i2 i3. destruct (ct_datatype c) as [dt|]; unfold id; do 2 eexists;
      (split; [reflexivity|]); [split; [eauto with encl|by destruct dt]|].
    by rewrite iv_not_version, iv_not_debug. }
  assert (∃ p r, i1 = field p r ∧ base64 p ∧ bytes_eqb p (b "debug") = false)
    as (p1 & r1 & E1 & Hp1 & Hd1).
  { subst i1. destruct (ct_version c) as [v|]; unfold id; [|by exists p2, r2].
    do 2 eexists. split; [reflexivity|]. split; [eauto with encl|by destruct v]. }
  erewrite (ciphertext_fields _ (if ct_debug c then Some (b "debug", b ":") else None)
    (ct_version c) (ct_datatype c) (ct_iv c) (ct_public_key c) (ct_encrypted_value c) i1 i2);
    [by destruct c as [[]]|done..| | |].
  - rewrite E1. by apply opt_debug_field.
  - subst i1. rewrite E2. by apply opt_version_field.
  - subst i2 i3. by apply opt_datatype_field, iv_not_datatype.
Qed.

(** ** Soundness *)

Lemma terminated_ok {A B} (p : parser A) (q : parser B) i rest a :
  terminated p q i = POk rest a → ∃ i1 x, p i = POk i1 a ∧ q i1 = POk rest x.
Proof.
  rewrite terminated_law. intros (i1 & a1 & H1 & H)%presult_bind_ok.
  apply presult_bind_ok in H as (i2 & x & H2 & H). naive_solver.
Qed.

Lemma opt_ok {A} (p : parser A) i rest o :
  opt p i = POk rest o →
  match o with Some a => p i = POk rest a | None => rest = i end.
Proof. rewrite opt_law. destruct (p i); naive_solver. Qed.

Lemma alt_tags_ok ts i rest t : alt (map tag ts) i = POk rest t → i = t ++ rest.
Proof.
  induction ts as [|t' ts IH]; simpl; [by rewrite alt_nil_law|].
  rewrite alt_cons_law. destruct (tag t' i) as [r x| | |] eqn:E; try done.
  intros H. simplify_eq. by apply tag_ok in E as [-> ->].
Qed.

(** A field [p] followed by the delimiter consumes a [field]. *)
Lemma terminated_field {A} (p : parser A) i rest a (name : A → bytes) :
  (∀ j r x, p j = POk r x → j = name x ++ r) →
  terminated p ciphertext_delimiter i = POk rest a → i = field (name a) rest.
Proof.
  intros Hp (i1 & x & H1 & H2)%terminated_ok. apply Hp in H1 as ->.
  unfold ciphertext_delimiter in H2. by apply tag_ok in H2 as [-> _].
Qed.

Lemma version_ok i rest v :
  version i = POk rest v → i = b (CiphertextVersion_display v) ++ rest.
Proof.
  unfold version. rewrite map_res_law. intros (i1 & t & H1 & H)%presult_bind_ok.
  destruct (CiphertextVersion_try_from t) eqn:E; simplify_eq.
  apply CiphertextVersion_try_from_ok in E as ->.
  by apply (alt_tags_ok [b "RFVC"; b "T1JL"; b "Tk9D"; b "TENZ"; b "QlJV"; b "QkTC"; b "S0lS"]).
Qed.

Lemma datatype_ok i rest v :
  datatype i = POk rest v → i = b (Datatype_name v) ++ rest.
Proof.
  unfold datatype. rewrite map_res_law. intros (i1 & t & H1 & H)%presult_bind_ok.
  destruct (Datatype_try_from t) eqn:E; simplify_eq.
  apply Datatype_try_from_ok in E as ->.
  by apply (alt_tags_ok [b "string"; b "boolean"; b "number"]).
Qed.

Lemma debug_ok i rest d :
  opt (pair_p debug ciphertext_delimiter) i = POk rest d →
  i = (if is_some d then field (b "debug") else id) rest.
Proof.
  intros H%opt_ok. destruct d as [[x y]|]; [|by rewrite H]. rewrite pair_law in H.
  apply presult_bind_ok in H as (i1 & a & H1 & H).
  apply presult_bind_ok in H as (i2 & c & H2 & H). simplify_eq.
  unfold debug in H1. apply tag_ok in H1 as [-> ->].
  unfold ciphertext_delimiter in H2. by apply tag_ok in H2 as [-> _].
Qed.

Lemma ciphertext_sound i rest c :
  ciphertext i = POk rest c → i = encode c ++ rest ∧ wf_ciphertext c ∧ unquoted c = c.
Proof.
  unfold ciphertext. rewrite pmap_law. intros (j & p & H & Hc)%presult_bind_ok. simplify_eq.
  rewrite delimited_law in H. apply presult_bind_ok in H as (i0 & x0 & H0 & H).
  rewrite tuple2_law in H0. apply presult_bind_ok in H0 as (k & y & Hk & H0).
  apply presult_bind_ok in H0 as (k' & y' & Hk' & H0). simplify_eq.
  unfold ciphertext_prefix in Hk. apply tag_ok in Hk as [-> ->].
  unfold ciphertext_delimiter in Hk'. apply tag_ok in Hk' as [-> ->].
  apply presult_bind_ok in H as (j1 & p1 & H & Hs).
  apply presult_bind_ok in Hs as (j2 & s & Hs & Hj). simplify_eq.
  unfold ciphertext_suffix in Hs. apply tag_ok in Hs as [-> ->].
  rewrite tuple6_law, pmap_law in H.
  repeat (apply presult_bind_ok in H as (? & ? & ? & H)). simplify_eq.
  match goal with H1 : presult_bind (opt _ _) _ = _ |- _ =>
    apply presult_bind_ok in H1 as (? & d & Hd & H1); simplify_eq end.
  apply debug_ok in Hd.
  repeat match goal with H1 : opt _ _ = POk _ _ |- _ => apply opt_ok in H1 end.
  repeat match goal with
  | H1 : terminated ciphertext_iv _ _ = _ |- _ =>
      apply terminated_ok in H1 as (? & ? & H1 & ?); apply take_while_n_n_ok in H1 as (-> & ? & ?)
  | H1 : terminated ciphertext_public_key _ _ = _ |- _ =>
      apply terminated_ok in H1 as (? & ? & H1 & ?); apply take_while_n_n_ok in H1 as (-> & ? & ?)
  | H1 : terminated ciphertext_encrypted_value _ _ = _ |- _ =>
      apply terminated_ok in H1 as (? & ? & H1 & ?); apply take_while_ok in H1 as (-> & ?)
  end.
  repeat match goal with H1 : ciphertext_delimiter _ = _ |- _ =>
    unfold ciphertext_delimiter in H1; apply tag_ok in H1 as [-> _] end.
  split; [|done]. rewrite <-encode_app_eq. unfold encode_app. cbn.
  repeat match goal with
  | H1 : match ?o with Some _ => terminated version _ _ = _ | None => _ end |- _ =>
      destruct o; [apply (terminated_field _ _ _ _ (fun v => b (CiphertextVersion_display v)) version_ok) in H1|]; subst
  | H1 : match ?o with Some _ => terminated datatype _ _ = _ | None => _ end |- _ =>
      destruct o; [apply (terminated_field _ _ _ _ (fun v => b (Datatype_name v)) datatype_ok) in H1|]; subst
  end; reflexivity.
Qed.

Lemma iv_empty r : terminated ciphertext_iv ciphertext_delimiter (field [] r) = PError.
Proof.
  rewrite terminated_law. unfold ciphertext_iv. rewrite take_while_m_n_law.
  by rewrite (span_len_app _ [] colon r).
Qed.

(** ** The quote-aware parser *)

Lemma quote_ok i rest q :
  pmap (opt quote) is_some i = POk rest q → i = (if q then [quote_byte] else []) ++ rest.
Proof.
  rewrite pmap_law. intros (j & o & H & Ho)%presult_bind_ok. simplify_eq.
  apply opt_ok in H. destruct o; [|by rewrite H]. unfold quote in H. by apply tag_ok in H as [-> _].
Qed.

Lemma context_aware_sound i rest c :
  context_aware_ciphertext i = POk rest c →
  i = (if ct_has_leading_quote c then [quote_byte] else []) ++ encode c
      ++ (if ct_has_trailing_quote c then [quote_byte] else []) ++ rest
  ∧ wf_ciphertext c.
Proof.
  unfold context_aware_ciphertext. rewrite pmap_law.
  intros (j & [[q1 c1] q2] & H & Hc)%presult_bind_ok. simplify_eq.
  rewrite tuple3_law in H. apply presult_bind_ok in H as (i1 & x & H1 & H).
  apply presult_bind_ok in H as (i2 & y & H2 & H).
  apply presult_bind_ok in H as (i3 & z & H3 & H). simplify_eq.
  apply quote_ok in H1. apply quote_ok in H3. apply ciphertext_sound in H2 as (-> & Hwf & _).
  subst. by destruct c1.
Qed.

Lemma parse_ciphertexts_ok i rest c :
  parse_ciphertexts i = POk rest (Some c) →
  i = (if ct_has_leading_quote c then [quote_byte] else []) ++ encode c
      ++ (if ct_has_trailing_quote c then [quote_byte] else []) ++ rest
  ∧ wf_ciphertext c.
Proof. unfold parse_ciphertexts. intros H. by apply opt_ok, context_aware_sound in H. Qed.

(** ** Errors: the parsers never return [nom::Err::Failure] *)

Definition no_failure {A} (p : parser A) : Prop := ∀ i, p i ≠ PFailure.

Lemma bind_no_failure {A B} (r : IResult A) (k : bytes → A → IResult B) :
  r ≠ PFailure → (∀ i a, k i a ≠ PFailure) → presult_bind r k ≠ PFailure.
Proof. destruct r; naive_solver. Qed.

Lemma tag_nf t : no_failure (tag t).
Proof. intros i. apply tag_no_failure. Qed.
Lemma opt_nf {A} (p : parser A) : no_failure p → no_failure (opt p).
Proof. intros Hp i. rewrite opt_law. specialize (Hp i). by destruct (p i). Qed.
Lemma terminated_nf {A B} (p : parser A) (q : parser B) :
  no_failure p → no_failure q → no_failure (terminated p q).
Proof. intros Hp Hq i. rewrite terminated_law. auto using bind_no_failure. Qed.
Lemma alt_nf {A} (ps : list (parser A)) : Forall no_failure ps → no_failure (alt ps).
Proof.
  induction 1 as [|p ps Hp Hps IH]; intros i; [by rewrite alt_nil_law|].
  rewrite alt_cons_law. specialize (Hp i). by destruct (p i).
Qed.
Lemma map_res_nf {A B} (p : parser A) (f : A → result unit B) :
  no_failure p → no_failure (map_res p f).
Proof.
  intros Hp i. rewrite map_res_law. apply bind_no_failure; [done|]. intros ? a.
  by destruct (f a).
Qed.
Lemma pmap_nf {A B} (p : parser A) (f : A → B) : no_failure p → no_failure (pmap p f).
Proof. intros Hp i. rewrite pmap_law. by apply bind_no_failure. Qed.

Lemma version_nf : no_failure version.
Proof. apply map_res_nf, alt_nf. repeat constructor; apply tag_nf. Qed.
Lemma datatype_nf : no_failure datatype.
Proof. apply map_res_nf, alt_nf. repeat constructor; apply tag_nf. Qed.

Lemma ciphertext_nf : no_failure ciphertext.
Proof.
  apply pmap_nf. intros i. rewrite delimited_law.
  assert (no_failure ciphertext_delimiter) as Hdel by apply tag_nf.
  apply bind_no_failure; [|intros i1 ?; apply bind_no_failure].
  - rewrite tuple2_law. apply bind_no_failure; [apply tag_nf|intros i1 ?].
    by apply bind_no_failure; [apply Hdel|].
  - rewrite tuple6_law.
    apply bind_no_failure; [|intros i2 ?].
    { apply pmap_nf, opt_nf. intros j. rewrite pair_law.
      apply bind_no_failure; [apply tag_nf|intros j1 ?]. by apply bind_no_failure; [apply Hdel|]. }
    apply bind_no_failure; [by apply opt_nf, terminated_nf; [apply version_nf|]|intros i3 ?].
    apply bind_no_failure; [by apply opt_nf, terminated_nf; [apply datatype_nf|]|intros i4 ?].
    apply bind_no_failure;
      [apply terminated_nf; [intros j; apply take_while_m_n_no_failure|done]|intros i5 ?].
    apply bind_no_failure;
      [apply terminated_nf; [intros j; apply take_while_m_n_no_failure|done]|intros i6 ?].
    apply bind_no_failure;
      [apply terminated_nf; [intros j; apply take_while_no_failure|done]|done].
  - intros i2 ?. apply bind_no_failure; [apply tag_nf|done].
Qed.

(** [parse_ciphertexts] succeeds or asks for more input. *)
Lemma parse_ciphertexts_no_error i :
  parse_ciphertexts i ≠ PError ∧ parse_ciphertexts i ≠ PFailure.
Proof.
  unfold parse_ciphertexts. rewrite opt_law.
  assert (no_failure context_aware_ciphertext) as H;
    [|specialize (H i); by destruct (context_aware_ciphertext i)].
  apply pmap_nf. intros j. rewrite tuple3_law.
  apply bind_no_failure; [apply pmap_nf, opt_nf, tag_nf|intros i1 ?].
  apply bind_no_failure; [apply ciphertext_nf|intros i2 ?].
  apply bind_no_failure; [apply pmap_nf, opt_nf, tag_nf|done].
Qed.

Lemma find_prefix_spec i :
  match find_ciphertext_prefix i with
  | POk rest p => i = p ++ rest ∧ ∃ r, rest = b "ev:" ++ r
  | PIncomplete _ => find_sub (b "ev:") i = None
  | _ => False
  end.
Proof.
  unfold find_ciphertext_prefix. rewrite take_until_law.
  destruct (find_sub (b "ev:") i) as [n|] eqn:E; [|done].
  split; [by rewrite take_drop|]. apply find_sub_some in E as (r & Hr & Hn).
  exists r. rewrite Hr at 1. by rewrite drop_app_length' by (rewrite length_take; lia).
Qed.
End ParserLemmas.

(** ** Printing *)

Lemma b_cons_field t r : b (t +:+ ":") ++ r = field (b t) r.
Proof. rewrite b_app. unfold field. by rewrite <-app_assoc. Qed.

(** What [Display] writes: the grammar with [Datatype_display] for the type. *)
Definition printed (c : Ciphertext) : bytes :=
  field (b "ev")
    ((if ct_debug c then field (b "debug") else id)
      (match ct_version c with
       | Some v => field (b (CiphertextVersion_display v)) | None => id end
         (match ct_datatype c with
          | Some dt => field (b (Datatype_display dt)) | None => id end
            (field (ct_iv c) (field (ct_public_key c)
              (field (ct_encrypted_value c) (b "$"))))))).

Lemma Ciphertext_display_printed c : wf_ciphertext c →
  ∃ s, Ciphertext_display c = Some s ∧ b s = printed c.
Proof.
  intros (Hiv & _ & Hpk & _ & Hev). unfold Ciphertext_display.
  rewrite !base64_from_utf8 by done. eexists. split; [reflexivity|].
  unfold printed. rewrite !b_app, !b_string_of_list.
  destruct (ct_debug c), (ct_version c), (ct_datatype c); unfold id, field;
    rewrite ?b_app, <-?app_assoc; reflexivity.
Qed.

Lemma printed_encode c : ct_datatype c ≠ Some DtString → printed c = encode c.
Proof. unfold printed, encode, encode_app. by destruct (ct_datatype c) as [[]|]. Qed.

Section Properties.
Context {N : Nom} {L : NomLaws N}.

(** C9. Soundness of the parser: whatever [parse_ciphertexts] accepts is the
    text of the returned ciphertext, with exactly the quotes its flags
    record around it, and the iv, key and value it returns are base64
    tokens of 16, 44 and any number of bytes. *)
Theorem parse_ciphertexts_sound i rest c :
  parse_ciphertexts i = POk rest (Some c) →
  i = (if ct_has_leading_quote c then [quote_byte] else []) ++ encode c
      ++ (if ct_has_trailing_quote c then [quote_byte] else []) ++ rest
  ∧ wf_ciphertext c.
Proof. apply parse_ciphertexts_ok. Qed.

(** C10. Printing and parsing are inverse: the text [Display] writes for a
    well-formed ciphertext whose type tag is not [string] parses back, in
    front of any further input, to the same ciphertext. *)
Theorem display_parse_roundtrip c rest :
  wf_ciphertext c → ct_datatype c ≠ Some DtString →
  ∃ s, Ciphertext_display c = Some s ∧ ciphertext (b s ++ rest) = POk rest (unquoted c).
Proof.
  intros Hwf Hdt. destruct (Ciphertext_display_printed c Hwf) as (s & Hs & Hb).
  exists s. split; [done|]. rewrite Hb, printed_encode by done. by apply ciphertext_encode.
Qed.

(** A ciphertext parsed with the [string] type tag does not survive
    printing: [Display] writes an empty type, and the text is rejected by
    the parser that produced the ciphertext. *)
Theorem display_string_unparsable c rest :
  wf_ciphertext c → ct_datatype c = Some DtString →
  ∃ s, Ciphertext_display c = Some s ∧ ciphertext (b s ++ rest) = PError.
Proof.
  intros Hwf Hdt. destruct (Ciphertext_display_printed c Hwf) as (s & Hs & Hb).
  exists s. split; [done|]. rewrite Hb. unfold printed. rewrite Hdt. clear s Hs Hb.
  set (tl := field (ct_iv c) _). change (field (b (Datatype_display DtString)) tl) with (field [] tl).
  unfold ciphertext. rewrite pmap_law, delimited_law, tuple2_law.
  rewrite field_app. unfold field at 1. unfold ciphertext_prefix. rewrite tag_app.
  cbn [presult_bind]. rewrite delimiter_ok. cbn [presult_bind].
  rewrite tuple6_law, pmap_law.
  assert (Hd : ∀ r, ∃ d, opt (pair_p debug ciphertext_delimiter)
     ((if ct_debug c then field (b "debug") else id)
       (match ct_version c with
        | Some v => field (b (CiphertextVersion_display v)) | None => id end (field [] r))) =
     POk (match ct_version c with
        | Some v => field (b (CiphertextVersion_display v)) | None => id end (field [] r)) d).
  { intros r. destruct (ct_version c) as [v|];
      [|change (id (field [] r)) with (field [] r)];
      eexists; apply opt_debug_field; eauto with encl; by destruct v. }
  assert (Ha : ∀ r1 r2, (if ct_debug c then field (b "debug") else id)
     (match ct_version c with
      | Some v => field (b (CiphertextVersion_display v)) | None => id end (field [] r1)) ++ r2
    = (if ct_debug c then field (b "debug") else id)
     (match ct_version c with
      | Some v => field (b (CiphertextVersion_display v)) | None => id end (field [] (r1 ++ r2)))).
  { intros r1 r2. destruct (ct_debug c), (ct_version c); unfold id; by rewrite !field_app. }
  rewrite Ha. destruct (Hd (tl ++ rest)) as [d ->]. cbn [presult_bind].
  rewrite opt_version_field by done. cbn [presult_bind].
  rewrite (opt_datatype_field None [] (tl ++ rest)) by done. cbn [presult_bind].
  by rewrite iv_empty.
Qed.
End Properties.

(** ** Witnesses *)

Definition sample : Ciphertext :=
  mkCiphertext false (Some Tk9d) (Some DtNumber) (b "YGJVktHhdj3ds3wC")
    (b "A6rkaTU8lez7NSBT8nTqbhBIu3tX4/lyH3aJVBUcGmLh")
    (b "8hI5qEp32kWcVK367yaC09bDRbk") false false.

Definition sample_of (dt : option Datatype) : Ciphertext :=
  mkCiphertext false (Some Tk9d) dt (ct_iv sample) (ct_public_key sample)
    (ct_encrypted_value sample) false false.

Lemma sample_wf dt : wf_ciphertext (sample_of dt).
Proof.
  split; [|split; [done|split; [|split; [done|]]]]; apply Forall_forall;
    intros x Hx; cbn in Hx; repeat (apply elem_of_cons in Hx as [->|Hx]; [done|]);
    by apply not_elem_of_nil in Hx.
Qed.

Lemma parse_ciphertexts_sound_witness :
  parse_ciphertexts (quote_byte :: encode sample ++ [quote_byte; "x"%char]) =
    POk ["x"%char] (Some (set_trailing_quote (set_leading_quote sample true) true))
  ∧ wf_ciphertext (set_trailing_quote (set_leading_quote sample true) true).
Proof.
  split; [vm_compute; reflexivity|].
  apply (parse_ciphertexts_sound (quote_byte :: encode sample ++ [quote_byte; "x"%char]) ["x"%char]).
  vm_compute; reflexivity.
Defined.

Lemma display_parse_roundtrip_witness :
  ∃ s, Ciphertext_display (sample_of (Some DtNumber)) = Some s
    ∧ ciphertext (b s ++ b "tail") = POk (b "tail") (unquoted (sample_of (Some DtNumber))).
Proof. apply display_parse_roundtrip; [apply sample_wf|discriminate]. Defined.

Lemma display_string_unparsable_witness :
  ∃ s, Ciphertext_display (sample_of (Some DtString)) = Some s
    ∧ ciphertext (b s ++ b "tail") = PError.
Proof. apply display_string_unparsable; [apply sample_wf|reflexivity]. Defined.
