(* ===== verification/CiphertextStream.v ===== *)
(** * Ciphertext stream decoder (data-plane/src/crypto/stream.rs)

    [IncomingStreamDecoder] cuts the bytes of a request body into plaintext
    and ciphertext frames and records where each ciphertext sits in the body.
    Its state (the decoder's [offset] and the [BytesMut] it is given) is the
    world of the monad [M]; [advance] and [copy_to_bytes] panic past the end
    of the buffer, as the [bytes] crate documents. The [FramedRead] loop that
    drives a decoder is the relation [framed_run], for any way the body is
    split into reads. *)
From Stdlib Require Import Ascii String Lia.
From stdpp Require Import base strings list.
From S2P Require Import Prelude Nom CiphertextParser.
#[local] Open Scope list_scope.
#[local] Open Scope enclave_scope.

(** ** Data *)

Definition Range : Type := nat * nat.

Inductive IncomingFrame : Type :=
| Plaintext (p : bytes)
| CiphertextFrame (range : Range) (c : Ciphertext).

Inductive IncomingStreamError : Type :=
| NomError
| NomFailure
| Incomplete (n : option nat)
| IoError.

(** The decoder and the buffer it is called with. *)
Record Stream : Type := mkStream { offset : nat; src : bytes }.

Abbreviation SM := (M Stream IncomingStreamError).

Definition CiphertextCandidate : Type := bytes * bytes.

Definition zero_byte : ascii := ascii_of_nat 0.

(** [BytesMut::copy_to_bytes] *)
Definition copy_to_bytes (n : nat) : SM bytes := fun s =>
  if Nat.leb n (length (src s))
  then (Ret (take n (src s)), mkStream (offset s) (drop n (src s)))
  else (Panic, s).

(** [Buf::advance] *)
Definition advance (n : nat) : SM unit := fun s =>
  if Nat.leb n (length (src s))
  then (Ret tt, mkStream (offset s) (drop n (src s)))
  else (Panic, s).

(** [BufMut::put_bytes] *)
Definition put_bytes (val : ascii) (n : nat) : SM unit :=
  mmodify (fun s => mkStream (offset s) (src s ++ repeat val n)).

Definition add_offset (n : nat) : SM unit :=
  mmodify (fun s => mkStream (offset s + n) (src s)).

Section Decoder.
Context {N : Nom}.

Definition find_next_ciphertext_candidate (src : bytes) :
    result IncomingStreamError (option CiphertextCandidate) :=
  match find_ciphertext_prefix src with
  | PIncomplete _ => Ok None
  | PError => Err NomError
  | PFailure => Err NomFailure
  | POk rest prefix => Ok (Some (rest, prefix))
  end.

Definition create_slice (slice_length : nat) : SM bytes :=
  add_offset slice_length ;!
  copy_to_bytes slice_length.

Definition decode_ciphertexts : SM (option IncomingFrame) :=
  let! s := mget in
  if Nat.eqb (length (src s)) 0 then mret None
  else
  let! next_candidate := mlift (find_next_ciphertext_candidate (src s)) in
  match next_candidate with
  | None =>
      let! plaintext_bytes := create_slice (length (src s)) in
      mret (Some (Plaintext plaintext_bytes))
  | Some (potential_ciphertext, prefix) =>
      let prefix_len := length prefix in
      let quote_precedes_cipher :=
        Nat.ltb 0 prefix_len && bytes_eqb (drop (prefix_len - 1) prefix) [quote_byte] in
      let plaintext_len :=
        if quote_precedes_cipher then prefix_len - 1 else prefix_len in
      if Nat.ltb 0 plaintext_len then
        let! plaintext_bytes := create_slice plaintext_len in
        mret (Some (Plaintext plaintext_bytes))
      else
      match parse_ciphertexts potential_ciphertext with
      | POk _ (Some ciphertext) =>
          let ciphertext := set_leading_quote ciphertext quote_precedes_cipher in
          advance (Ciphertext_len ciphertext) ;!
          let! s1 := mget in
          let ciphertext_start := offset s1 in
          add_offset (Ciphertext_len ciphertext) ;!
          let! s2 := mget in
          mret (Some (CiphertextFrame (ciphertext_start, offset s2) ciphertext))
      | POk input None =>
          if Nat.ltb (length input) 3 then mpanic
          else
          let! next_candidate := mlift (find_next_ciphertext_candidate (drop 3 input)) in
          match next_candidate with
          | Some (_, prefix) =>
              let prefix_len := length prefix in
              let! plaintext_bytes := create_slice (prefix_len + 3) in
              mret (Some (Plaintext plaintext_bytes))
          | None =>
              let! entire_buffer := create_slice (length (src s)) in
              mret (Some (Plaintext entire_buffer))
          end
      | PIncomplete (Size known_size) => mthrow (Incomplete (Some known_size))
      | PIncomplete Unknown => mthrow (Incomplete None)
      | PError => mthrow NomError
      | PFailure => mthrow NomFailure
      end
  end.

(** [impl Decoder for IncomingStreamDecoder] *)
Definition decode : SM (option IncomingFrame) :=
  let! r := mtry decode_ciphertexts in
  match r with
  | Ok f => mret f
  | Err (Incomplete _) => mret None
  | Err err => mthrow err
  end.

Definition decode_eof : SM (option IncomingFrame) :=
  let! s := mget in
  if Nat.eqb (length (src s)) 0 then mret None
  else
  let! r := mtry decode_ciphertexts in
  match r with
  | Ok f => mret f
  | Err (Incomplete (Some 1)) =>
      put_bytes zero_byte 1 ;!
      let! r2 := mtry decode_ciphertexts in
      match r2 with
      | Ok f => mret f
      | Err (Incomplete _) =>
          let! s2 := mget in
          let! remainder_less_injected_byte := copy_to_bytes (length (src s2) - 1) in
          mret (Some (Plaintext remainder_less_injected_byte))
      | Err second_err => mthrow second_err
      end
  | Err (Incomplete _) =>
      let! s2 := mget in
      let! rest := create_slice (length (src s2)) in
      mret (Some (Plaintext rest))
  | Err err => mthrow err
  end.
End Decoder.

(** [IncomingStreamDecoder::default] on an empty buffer: the state of
    [create_reader]. *)
Definition new_stream : Stream := mkStream 0 [].

(** ** The reader loop

    [FramedRead] decodes frames out of its buffer until the decoder asks for
    more, then reads; when the source is exhausted it calls [decode_eof]
    until that returns [None]. A decoder error is the last item. *)
Section FramedRead.
Context {N : Nom}.

Inductive framed_eof : Stream → list (result IncomingStreamError IncomingFrame) → Prop :=
| fe_frame s f s' outs :
    decode_eof s = (Ret (Some f), s') → framed_eof s' outs → framed_eof s (Ok f :: outs)
| fe_done s s' : decode_eof s = (Ret None, s') → framed_eof s []
| fe_err s e s' : decode_eof s = (Throw e, s') → framed_eof s [Err e].

Inductive framed_run :
    Stream → list bytes → list (result IncomingStreamError IncomingFrame) → Prop :=
| fr_frame s f s' reads outs :
    decode s = (Ret (Some f), s') → framed_run s' reads outs →
    framed_run s reads (Ok f :: outs)
| fr_read s s' chunk reads outs :
    decode s = (Ret None, s') →
    framed_run (mkStream (offset s') (src s' ++ chunk)) reads outs →
    framed_run s (chunk :: reads) outs
| fr_eof s s' outs :
    decode s = (Ret None, s') → framed_eof s' outs → framed_run s [] outs
| fr_err s e s' reads :
    decode s = (Throw e, s') → framed_run s reads [Err e].
End FramedRead.

(** ** Positions *)

(** The bytes of the body a ciphertext frame stands for: [Ciphertext::len]
    bytes of the quoted text. *)
Definition quoted (c : Ciphertext) : bytes :=
  (if ct_has_leading_quote c then [quote_byte] else []) ++ encode c
  ++ (if ct_has_trailing_quote c then [quote_byte] else []).

Definition covered (c : Ciphertext) : bytes := take (Ciphertext_len c) (quoted c).

(** Every ciphertext frame lies in [body] after position [pos], in order,
    without overlap, at the bytes it covers. *)
Fixpoint placed (body : bytes) (pos : nat)
    (outs : list (result IncomingStreamError IncomingFrame)) : Prop :=
  match outs with
  | [] => True
  | Ok (CiphertextFrame (s, e) c) :: outs' =>
      pos ≤ s ∧ s < e ∧ e ≤ length body ∧
      take (e - s) (drop s body) = covered c ∧ wf_ciphertext c ∧ placed body e outs'
  | _ :: outs' => placed body pos outs'
  end.

(** ** Lemmas on one call of the decoder *)

Lemma Ciphertext_len_lb c : 5 ≤ Ciphertext_len c.
Proof. unfold Ciphertext_len. destruct (ct_version c), (ct_datatype c); lia. Qed.

Lemma length_quoted c : Ciphertext_len c ≤ length (quoted c).
Proof.
  unfold quoted. rewrite !length_app, length_encode. unfold is_in_quotes.
  pose proof (Ciphertext_len_lb c).
  destruct (ct_has_leading_quote c), (ct_has_trailing_quote c); cbn [length andb]; lia.
Qed.

Lemma length_covered c : length (covered c) = Ciphertext_len c.
Proof. unfold covered. rewrite length_take. pose proof (length_quoted c). lia. Qed.

(** What one call of [decode_ciphertexts] does to the stream. *)
Inductive decoded (s : Stream) : exec IncomingStreamError (option IncomingFrame) → Stream → Prop :=
| dec_empty : src s = [] → decoded s (Ret None) s
| dec_plain p rest :
    src s = p ++ rest → p ≠ [] →
    decoded s (Ret (Some (Plaintext p))) (mkStream (offset s + length p) rest)
| dec_cipher c rest :
    src s = covered c ++ rest → wf_ciphertext c →
    decoded s
      (Ret (Some (CiphertextFrame (offset s, offset s + Ciphertext_len c) c)))
      (mkStream (offset s + Ciphertext_len c) rest)
| dec_incomplete n x rest :
    src s = x :: rest → x ≠ zero_byte → decoded s (Throw (Incomplete n)) s.

Section Lemmas.
Context {N : Nom} {L : NomLaws N}.

Lemma create_slice_ok n s : n ≤ length (src s) →
  create_slice n s = (Ret (take n (src s)), mkStream (offset s + n) (drop n (src s))).
Proof.
  intros H. unfold create_slice, add_offset, copy_to_bytes, mbind, mmodify. simpl.
  by rewrite (proj2 (Nat.leb_le _ _)).
Qed.

Lemma plain_slice n s : 0 < n → n ≤ length (src s) →
  decoded s (Ret (Some (Plaintext (take n (src s))))) (mkStream (offset s + n) (drop n (src s))).
Proof.
  intros H0 H1. rewrite <-(length_take_le (src s) n) at 2 by done.
  apply dec_plain; [by rewrite take_drop|]. intros E%(f_equal length).
  rewrite length_take_le in E by done. simpl in E. lia.
Qed.

Lemma candidate_spec i :
  match find_next_ciphertext_candidate i with
  | Ok (Some (rest, p)) => i = p ++ rest ∧ ∃ r, rest = b "ev:" ++ r
  | Ok None => True
  | Err _ => False
  end.
Proof.
  unfold find_next_ciphertext_candidate. pose proof (find_prefix_spec i) as H.
  by destruct (find_ciphertext_prefix i).
Qed.

Lemma quote_precedes_spec (prefix : bytes) :
  Nat.ltb 0 (length prefix) && bytes_eqb (drop (length prefix - 1) prefix) [quote_byte] = true →
  ∃ p, prefix = p ++ [quote_byte] ∧ length p = length prefix - 1.
Proof.
  rewrite andb_true_iff, Nat.ltb_lt, bytes_eqb_spec. intros [Hl Hd].
  exists (take (length prefix - 1) prefix). split; [by rewrite <-Hd, take_drop|].
  rewrite length_take. lia.
Qed.

Lemma decode_ciphertexts_spec s :
  ∃ r s', decode_ciphertexts s = (r, s') ∧ decoded s r s'.
Proof.
  unfold decode_ciphertexts. unfold mbind at 1, mget at 1.
  destruct (Nat.eqb_spec (length (src s)) 0) as [Hz|Hne].
  { do 2 eexists. split; [done|]. constructor. by apply length_zero_iff_nil. }
  unfold mbind at 1. pose proof (candidate_spec (src s)) as Hc.
  destruct (find_next_ciphertext_candidate (src s)) as [[[pot prefix]|]|]; [| |done].
  2: { cbn [mlift mret]. unfold mbind, mret. rewrite create_slice_ok by lia.
       do 2 eexists. split; [done|]. apply plain_slice; lia. }
  cbn [mlift mret]. destruct Hc as [Hs [r Hr]].
  set (q := Nat.ltb 0 (length prefix) && _).
  destruct (Nat.ltb_spec 0 (if q then length prefix - 1 else length prefix)) as [Hpl|Hpl].
  { unfold mbind, mret. assert (length prefix ≤ length (src s)) by (rewrite Hs, length_app; lia).
    rewrite create_slice_ok by (destruct q; lia).
    do 2 eexists. split; [done|]. apply plain_slice; destruct q; lia. }
  assert (src s = (if q then [quote_byte] else []) ++ pot) as Hsrc.
  { destruct q eqn:Eq.
    - subst q. apply quote_precedes_spec in Eq as (p & Hp2 & Hp).
      rewrite <-Hp in Hpl. destruct p; [|simpl in Hpl; lia]. by rewrite Hs, Hp2.
    - by destruct prefix; [|simpl in *; lia]. }
  clearbody q. clear Hs Hpl prefix.
  destruct (parse_ciphertexts_no_error pot) as [Hnerr Hnfail].
  destruct (parse_ciphertexts pot) as [input [c|]|[|n]| |] eqn:Ep; try done.
  - apply parse_ciphertexts_ok in Ep as [Hpot Hwf].
    assert (ct_has_leading_quote c = false) as Hlq.
    { destruct (ct_has_leading_quote c); [|done]. rewrite Hr in Hpot. by simplify_eq. }
    rewrite Hlq in Hpot. simpl in Hpot.
    assert (src s = quoted (set_leading_quote c q) ++ input) as Hq.
    { rewrite Hsrc, Hpot. unfold quoted. rewrite <-!app_assoc. by destruct c. }
    set (c' := set_leading_quote c q) in *. cbn zeta.
    pose proof (length_quoted c') as Hlen.
    assert (Ciphertext_len c' ≤ length (src s)) by (rewrite Hq, length_app; lia).
    unfold mbind, advance, mget, add_offset, mmodify, mret.
    rewrite (proj2 (Nat.leb_le _ _)) by done. cbn [offset src].
    do 2 eexists. split; [done|]. apply dec_cipher.
    + unfold covered. rewrite Hq. rewrite drop_app_le by done. by rewrite app_assoc, take_drop.
    + by destruct c.
  - assert (input = pot) as ->.
    { unfold parse_ciphertexts in Ep. by apply opt_ok in Ep. }
    assert (3 ≤ length pot) by (rewrite Hr, length_app; simpl; lia).
    rewrite (proj2 (Nat.ltb_ge _ _)) by done. unfold mbind at 1.
    pose proof (candidate_spec (drop 3 pot)) as Hc.
    destruct (find_next_ciphertext_candidate (drop 3 pot)) as [[[rest p]|]|]; [| |done].
    + destruct Hc as [Hd _]. cbn [mlift mret]. unfold mbind, mret.
      assert (length p + 3 ≤ length (src s)).
      { rewrite Hsrc, length_app, <-(take_drop 3 pot), Hd, !length_app, length_take. lia. }
      rewrite create_slice_ok by done. do 2 eexists. split; [done|]. apply plain_slice; lia.
    + cbn [mlift mret]. unfold mbind, mret. rewrite create_slice_ok by lia.
      do 2 eexists. split; [done|]. apply plain_slice; lia.
  - do 2 eexists. split; [done|]. subst pot.
    destruct q; simpl in Hsrc; eapply dec_incomplete; [exact Hsrc|discriminate|exact Hsrc|discriminate].
  - do 2 eexists. split; [done|]. subst pot.
    destruct q; simpl in Hsrc; eapply dec_incomplete; [exact Hsrc|discriminate|exact Hsrc|discriminate].
Qed.

(** One call of [decode]. *)
Lemma decode_spec s :
  (decode s = (Ret None, s)) ∨
  (∃ f s', decode s = (Ret (Some f), s') ∧ decoded s (Ret (Some f)) s').
Proof.
  unfold decode, mbind, mtry. destruct (decode_ciphertexts_spec s) as (r & s' & -> & H).
  inversion H; subst; naive_solver.
Qed.

(** One call of [decode_eof]: the end of the stream, a frame of the buffer,
    a frame of the buffer with the injected byte, or the buffer less it. *)
Lemma decode_eof_spec s :
  (src s = [] ∧ decode_eof s = (Ret None, s)) ∨
  (∃ f s' k, decode_eof s = (Ret (Some f), s') ∧
    (k = 0 ∨ k = 1 ∧ ∃ x rest, src s = x :: rest ∧ x ≠ zero_byte) ∧
    decoded (mkStream (offset s) (src s ++ repeat zero_byte k)) (Ret (Some f)) s') ∨
  (∃ x rest, src s = x :: rest ∧ x ≠ zero_byte ∧
    decode_eof s = (Ret (Some (Plaintext (src s))), mkStream (offset s) [zero_byte])).
Proof.
  unfold decode_eof, mbind, mget, mtry. destruct s as [o i]. cbn [src offset].
  destruct (Nat.eqb_spec (length i) 0) as [Hz|Hne].
  { left. by apply length_zero_iff_nil in Hz as ->. }
  right. destruct (decode_ciphertexts_spec (mkStream o i)) as (r & s' & -> & H).
  inversion H as [He|p rest He|c rest He|n x rest He Hx]; subst; cbn [src offset] in *.
  - by subst.
  - left. do 2 eexists. exists 0. rewrite app_nil_r. eauto.
  - left. do 2 eexists. exists 0. rewrite app_nil_r. eauto.
  - assert (Hrest : decoded (mkStream o i) (Ret (Some (Plaintext i))) (mkStream (o + length i) [])).
    { apply dec_plain; [by rewrite app_nil_r|]. by rewrite He. }
    assert (Hslice : create_slice (length i) (mkStream o i) = (Ret i, mkStream (o + length i) [])).
    { rewrite create_slice_ok by done. cbn [src offset]. by rewrite firstn_all, drop_all. }
    destruct n as [[|[|n]]|]; unfold mret; cbn [src offset];
      try (left; rewrite Hslice; do 2 eexists; exists 0; rewrite app_nil_r; eauto).
    unfold put_bytes, mmodify. cbn [src offset repeat].
    destruct (decode_ciphertexts_spec (mkStream o (i ++ [zero_byte]))) as (r & s' & -> & H').
    inversion H' as [He'|p rest' He' Hp|c rest' He' Hc|n x' rest' He' Hx']; subst r s'.
    + cbn [src] in He'. by destruct i.
    + left. do 2 eexists. exists 1. split; [done|]. split; [right; eauto|done].
    + left. do 2 eexists. exists 1. split; [done|]. split; [right; eauto|done].
    + right. exists x, rest. unfold copy_to_bytes. cbn [src offset].
      rewrite length_app. cbn [length].
      replace (length i + 1 - 1) with (length i) by lia.
      rewrite (proj2 (Nat.leb_le _ _)) by lia.
      by rewrite take_app_length, drop_app_length.
Qed.
End Lemmas.

(** ** Runs of the reader *)

(** Twice the non-zero bytes plus the zero bytes: every frame makes it
    smaller, and the injected byte costs less than the frame it allows. *)
Fixpoint weight (i : bytes) : nat :=
  match i with
  | [] => 0
  | x :: i' => (if Ascii.eqb x zero_byte then 1 else 2) + weight i'
  end.

Lemma weight_app i j : weight (i ++ j) = weight i + weight j.
Proof. induction i as [|x i IH]; simpl; [done|]. rewrite IH. lia. Qed.

Lemma weight_nonempty i : i ≠ [] → 0 < weight i.
Proof. destruct i as [|x i]; [done|]. intros _. simpl. destruct (Ascii.eqb x zero_byte); lia. Qed.

Lemma weight_nonzero x i : x ≠ zero_byte → 2 ≤ weight (x :: i).
Proof. intros H. simpl. apply Ascii.eqb_neq in H as ->. lia. Qed.

Lemma decoded_frame s f s' :
  decoded s (Ret (Some f)) s' → ∃ p, src s = p ++ src s' ∧ p ≠ [].
Proof.
  inversion 1 as [|p rest|c rest|]; subst; cbn [src]; [by exists p|].
  exists (covered c). split; [done|]. intros E%(f_equal length).
  rewrite length_covered in E. simpl in E. pose proof (Ciphertext_len_lb c). lia.
Qed.

Section Runs.
Context {N : Nom} {L : NomLaws N}.

(** A frame at the end of the source removes weight. *)
Lemma decode_eof_weight s f s' : decode_eof s = (Ret (Some f), s') → weight (src s') < weight (src s).
Proof.
  intros Hs'. destruct (decode_eof_spec s) as
    [[_ He]|[(f' & s1 & k & He & Hk & Hd)|(x & rest & Hs & Hx & He)]]; rewrite Hs' in He; simplify_eq.
  - apply decoded_frame in Hd as (p & Hp & Hne).
    pose proof (weight_nonempty p Hne). cbn [src] in Hp.
    destruct Hk as [->|(-> & x & rest & Hs & Hx)].
    + cbn [repeat] in Hp. rewrite app_nil_r in Hp. rewrite Hp, weight_app. lia.
    + assert (2 ≤ weight p).
      { rewrite Hs in Hp. destruct p as [|y p]; [done|]. simplify_eq/=.
        by apply (weight_nonzero _ p). }
      apply (f_equal weight) in Hp. rewrite !weight_app in Hp.
      change (weight (repeat zero_byte 1)) with 1 in Hp. lia.
  - rewrite Hs. cbn [src].
    pose proof (weight_nonzero x rest Hx). change (weight [zero_byte]) with 1. lia.
Qed.

Lemma framed_eof_total s : ∃ outs, framed_eof s outs ∧ Forall (fun o => is_ok o = true) outs.
Proof.
  remember (weight (src s)) as w eqn:Ew. revert s Ew.
  induction (lt_wf w) as [w _ IH]; intros s ->.
  assert (Hstep : ∀ f s', decode_eof s = (Ret (Some f), s') →
    ∃ outs, framed_eof s outs ∧ Forall (fun o => is_ok o = true) outs).
  { intros f s' Hs'. destruct (IH _ (decode_eof_weight _ _ _ Hs') s' eq_refl) as (outs & Ho & Hok).
    exists (Ok f :: outs). split; [by eapply fe_frame|by constructor]. }
  destruct (decode_eof_spec s) as
    [[_ He]|[(f & s' & k & He & Hk & Hd)|(x & rest & Hs & Hx & He)]].
  - exists []. split; [by eapply fe_done|done].
  - by apply (Hstep _ _ He).
  - by apply (Hstep _ _ He).
Qed.

Lemma framed_run_total s reads :
  ∃ outs, framed_run s reads outs ∧ Forall (fun o => is_ok o = true) outs.
Proof.
  revert s. induction reads as [|chunk reads IHr]; intros s;
    remember (length (src s)) as n eqn:En; revert s En;
    induction (lt_wf n) as [n _ IH]; intros s ->;
    (destruct (decode_spec s) as [Hd|(f & s' & Hd & Hf)];
      [|apply decoded_frame in Hf as (p & Hp & Hne);
        assert (length (src s') < length (src s)) as Hlt
          by (rewrite Hp, length_app; destruct p; [done|simpl; lia]);
        destruct (IH _ Hlt s' eq_refl) as (outs & Ho & Hok);
        exists (Ok f :: outs); split; [by eapply fr_frame|by constructor]]).
  - destruct (framed_eof_total s) as (outs & Ho & Hok). exists outs. split; [|done].
    by eapply fr_eof.
  - destruct (IHr (mkStream (offset s) (src s ++ chunk))) as (outs & Ho & Hok).
    exists outs. split; [|done]. by eapply fr_read.
Qed.

(** ** The reader as a function

    [framed_run] is deterministic, so it can be computed; a frame removes
    weight from what is left, which bounds the steps. *)

Fixpoint run_eof (fuel : nat) (s : Stream) : option (list (result IncomingStreamError IncomingFrame)) :=
  match fuel with
  | O => None
  | S n =>
      match decode_eof s with
      | (Ret (Some f), s') => cons (Ok f) <$> run_eof n s'
      | (Ret None, _) => Some []
      | (Throw e, _) => Some [Err e]
      | (Panic, _) => None
      end
  end.

Fixpoint run_reads (fuel : nat) (s : Stream) (reads : list bytes) :
    option (list (result IncomingStreamError IncomingFrame)) :=
  match fuel with
  | O => None
  | S n =>
      match decode s with
      | (Ret (Some f), s') => cons (Ok f) <$> run_reads n s' reads
      | (Ret None, s') =>
          match reads with
          | [] => run_eof n s'
          | chunk :: reads' => run_reads n (mkStream (offset s') (src s' ++ chunk)) reads'
          end
      | (Throw e, _) => Some [Err e]
      | (Panic, _) => None
      end
  end.

(** The frames of a body that arrives in one read. *)
Definition read_body (body : bytes) : list (result IncomingStreamError IncomingFrame) :=
  default [] (run_reads (2 * length body + 4) new_stream [body]).

Lemma run_eof_complete s outs fuel :
  framed_eof s outs → length outs < fuel → run_eof fuel s = Some outs.
Proof.
  intros H. revert fuel. induction H as [s f s' outs Hd _ IH|s s' Hd|s e s' Hd];
    intros [|fuel] Hf; cbn [run_eof length] in *; try lia; rewrite Hd; [|done..].
  by rewrite IH by lia.
Qed.

Lemma run_reads_complete s reads outs fuel :
  framed_run s reads outs → length outs + length reads + 1 < fuel → run_reads fuel s reads = Some outs.
Proof.
  intros H. revert fuel.
  induction H as [s f s' reads outs Hd _ IH|s s' chunk reads outs Hd _ IH|s s' outs Hd He|s e s' reads Hd];
    intros [|fuel] Hf; cbn [run_reads length] in *; try lia; rewrite Hd.
  - by rewrite IH by lia.
  - apply IH. lia.
  - apply run_eof_complete; [done|lia].
  - done.
Qed.

Lemma framed_eof_length s outs : framed_eof s outs → length outs ≤ weight (src s) + 1.
Proof.
  induction 1 as [s f s' outs Hd _ IH|s s' Hd|s e s' Hd]; cbn [length]; [|lia..].
  pose proof (decode_eof_weight _ _ _ Hd). lia.
Qed.

Lemma framed_run_length s reads outs :
  framed_run s reads outs → length outs ≤ weight (src s ++ concat reads) + 1.
Proof.
  induction 1 as [s f s' reads outs Hd _ IH|s s' chunk reads outs Hd _ IH|s s' outs Hd He|s e s' reads Hd];
    cbn [length].
  - destruct (decode_spec s) as [Hd'|(f' & s1 & Hd' & Hf)]; rewrite Hd in Hd'; simplify_eq.
    apply decoded_frame in Hf as (p & Hp & Hne). rewrite Hp, <-app_assoc, weight_app.
    pose proof (weight_nonempty p Hne). lia.
  - destruct (decode_spec s) as [Hd'|(f' & s1 & Hd' & Hf)]; rewrite Hd in Hd'; simplify_eq.
    cbn [src concat] in *. by rewrite <-app_assoc in IH.
  - destruct (decode_spec s) as [Hd'|(f' & s1 & Hd' & Hf)]; rewrite Hd in Hd'; simplify_eq.
    cbn [concat]. rewrite app_nil_r. by apply framed_eof_length.
  - lia.
Qed.

Lemma weight_le i : weight i ≤ 2 * length i.
Proof. induction i as [|x i IH]; simpl; [done|]. destruct (Ascii.eqb x zero_byte); lia. Qed.

Lemma read_body_run body : framed_run new_stream [body] (read_body body).
Proof.
  destruct (framed_run_total new_stream [body]) as (outs & Ho & Hok).
  unfold read_body. rewrite (run_reads_complete _ _ outs); [done..|].
  pose proof (framed_run_length _ _ _ Ho) as Hl. pose proof (weight_le body).
  cbn [src new_stream concat app] in Hl. rewrite app_nil_r in Hl. cbn [length]. lia.
Qed.

(** ** Where the ciphertext frames lie *)

Lemma placed_mono body p q outs : placed body q outs → p ≤ q → placed body p outs.
Proof.
  revert p q. induction outs as [|[[pt|[s e] c]|er] outs IH]; intros p q; cbn [placed]; try done.
  - intros. by eapply IH.
  - intros (? & H) ?. split; [lia|done].
  - intros. by eapply IH.
Qed.

Lemma placed_plain body p q f outs pt :
  f = Plaintext pt → placed body q outs → p ≤ q → placed body p (Ok f :: outs).
Proof. intros -> H Hle. by apply (placed_mono body p q). Qed.

Lemma base64_nonzero i : base64 i → Forall (λ x, x ≠ zero_byte) i.
Proof. intros H. eapply Forall_impl; [exact H|]. by intros x Hx ->. Qed.

Lemma field_nonzero t r :
  base64 t → Forall (λ x, x ≠ zero_byte) r → Forall (λ x, x ≠ zero_byte) (field t r).
Proof.
  intros Ht Hr. unfold field. apply Forall_app. split; [by apply base64_nonzero|].
  by constructor.
Qed.

Lemma covered_nonzero c : wf_ciphertext c → Forall (λ x, x ≠ zero_byte) (covered c).
Proof.
  intros (Hiv & _ & Hpk & _ & Hev). apply Forall_take. unfold quoted.
  rewrite !Forall_app. split; [by destruct (ct_has_leading_quote c); repeat constructor|].
  split; [|by destruct (ct_has_trailing_quote c); repeat constructor].
  unfold encode, encode_app.
  destruct (ct_debug c), (ct_version c), (ct_datatype c); unfold id;
    repeat (apply field_nonzero; [by eauto with encl || by repeat constructor|]);
    by repeat constructor.
Qed.

(** A chunk without zero bytes found in [body ++ zeros] is found in [body]. *)
Lemma covered_in_body body zs done_ cov rest :
  body ++ zs = done_ ++ cov ++ rest → Forall (λ x, x = zero_byte) zs →
  Forall (λ x, x ≠ zero_byte) cov → cov ≠ [] →
  length done_ + length cov ≤ length body ∧
  take (length cov) (drop (length done_) body) = cov.
Proof.
  intros E Hz Hc Hne.
  assert (length done_ + length cov ≤ length body) as Hle.
  { destruct (decide (length done_ + length cov ≤ length body)); [done|exfalso].
    destruct (lookup_lt_is_Some_2 cov (length cov - 1)) as [x Hx].
    { destruct cov; [done|simpl; lia]. }
    assert ((body ++ zs) !! (length done_ + (length cov - 1)) = Some x) as Hl.
    { rewrite E, lookup_app_r by lia. rewrite lookup_app_l by (apply lookup_lt_Some in Hx; lia).
      by replace (length done_ + (length cov - 1) - length done_) with (length cov - 1) by lia. }
    rewrite lookup_app_r in Hl by lia.
    eapply Forall_lookup_1 in Hl; [|exact Hz]. eapply Forall_lookup_1 in Hx; [|exact Hc]. done. }
  split; [done|].
  assert (take (length cov) (drop (length done_) (body ++ zs)) = cov) as Ht.
  { by rewrite E, drop_app_length, take_app_length. }
  rewrite drop_app_le in Ht by lia. rewrite take_app_le in Ht; [done|].
  rewrite length_drop. lia.
Qed.

(** The body, followed by injected bytes [zs], is what was decoded, the
    buffer and what is still to be read. *)
Definition at_ (body zs post : bytes) (s : Stream) : Prop :=
  Forall (λ x, x = zero_byte) zs ∧
  ∃ done_, body ++ zs = done_ ++ src s ++ post ∧ offset s = length done_.

Lemma decoded_placed body zs post s f s' outs :
  at_ body zs post s → decoded s (Ret (Some f)) s' →
  (at_ body zs post s' → placed body (offset s') outs) → placed body (offset s) (Ok f :: outs).
Proof.
  intros [Hz (done_ & Hb & Ho)] Hd Hk. inversion Hd as [|p rest Hs Hp|c rest Hs Hwf|]; subst.
  - eapply placed_plain; [done| |]; [apply Hk|cbn [offset]; lia].
    split; [done|]. exists (done_ ++ p). cbn [src offset].
    rewrite length_app, Ho. by rewrite Hb, Hs, !app_assoc.
  - pose proof (length_covered c) as Hlen. pose proof (Ciphertext_len_lb c).
    rewrite Hs, <-app_assoc in Hb. destruct (covered_in_body _ _ _ _ _ Hb Hz) as [Hle Ht];
      [by apply covered_nonzero|by intros E; rewrite E in Hlen; simpl in Hlen; lia|].
    cbn [placed]. rewrite <-Hlen, Ho. replace (length done_ + length (covered c) - length done_)
      with (length (covered c)) by lia.
    do 3 (split; [lia|]). do 2 (split; [done|]). rewrite Hlen, <-Ho. apply Hk.
    split; [done|]. exists (done_ ++ covered c). rewrite <-app_assoc. split; [done|].
    cbn [offset]. rewrite length_app. lia.
Qed.

(** At end of input the injected byte may be all that is left. *)
Lemma framed_eof_placed body s outs :
  framed_eof s outs → (src s = [] ∨ src s = [zero_byte]) ∨ (∃ zs, at_ body zs [] s) →
  placed body (offset s) outs.
Proof.
  induction 1 as [s f s' outs Hd Hr IH|s s' Hd|s e s' Hd]; intros Hs; [|done|done].
  destruct (decode_eof_spec s) as
    [[Hn He]|[(f' & s1 & k & He & Hk & Hf)|(x & rest & Hx & Hne & He)]];
    rewrite Hd in He; simplify_eq.
  - destruct Hs as [Hs|[zs [Hz (done_ & Hb & Ho)]]].
    + assert (k = 0) as ->.
      { destruct Hk as [|(_ & x & rest & Hx & Hne)]; [done|]. destruct Hs; congruence. }
      inversion Hf as [|p rest Hp Hne|c rest Hc|]; subst; cbn [src repeat] in *;
        rewrite app_nil_r in *.
      * eapply placed_plain; [done|apply IH|cbn [offset]; lia]. do 2 left. cbn [src].
        destruct Hs as [Hs|Hs]; rewrite Hs in Hp; [by destruct p|].
        by destruct p as [|y [|]]; simplify_eq/=.
      * apply (f_equal length) in Hc. rewrite length_app, length_covered in Hc.
        pose proof (Ciphertext_len_lb c). destruct Hs as [Hs|Hs]; rewrite Hs in Hc; simpl in Hc; lia.
    + change (offset s) with (offset (mkStream (offset s) (src s ++ repeat zero_byte k))).
      eapply (decoded_placed body (zs ++ repeat zero_byte k) []); [|exact Hf|].
      * split; [apply Forall_app; split; [done|by destruct Hk as [->|[-> _]]; repeat constructor]|].
        exists done_. cbn [src]. rewrite app_nil_r in *. by rewrite app_assoc, Hb, <-app_assoc.
      * intros Hat. apply IH. right. by eexists.
  - eapply placed_plain; [done|by apply IH; left; right|done].
Qed.

Lemma framed_run_placed body s reads outs :
  framed_run s reads outs → at_ body [] (concat reads) s → placed body (offset s) outs.
Proof.
  intros Hr.
  induction Hr as [s f s' reads outs Hd Hr IH|s s' chunk reads outs Hd Hr IH|s s' outs Hd Hr
    |s e s' reads Hd]; intros Hat; [| | |done];
    destruct (decode_spec s) as [He|(f1 & s1 & He & Hf)]; rewrite Hd in He; simplify_eq.
  - by eapply decoded_placed.
  - destruct Hat as [_ (done_ & Hb & Ho)]. apply IH. split; [done|]. exists done_.
    cbn [src offset]. by rewrite <-app_assoc.
  - apply framed_eof_placed; [done|]. right. by exists [].
Qed.

Lemma framed_eof_det s outs outs' : framed_eof s outs → framed_eof s outs' → outs = outs'.
Proof.
  intros H. revert outs'. induction H as [s f s' outs Hd Hr IH|s s' Hd|s e s' Hd];
    intros outs'; inversion 1 as [? ? ? ? Hd'|? ? Hd'|? ? ? Hd']; subst; rewrite Hd in Hd';
    simplify_eq; try done. f_equal. by apply IH.
Qed.

Lemma framed_run_det s reads outs outs' :
  framed_run s reads outs → framed_run s reads outs' → outs = outs'.
Proof.
  intros H. revert outs'.
  induction H as [s f s' reads outs Hd Hr IH|s s' chunk reads outs Hd Hr IH|s s' outs Hd Hr
    |s e s' reads Hd]; intros outs';
    inversion 1 as [? ? ? ? ? Hd'|? ? ? ? ? Hd'|? ? ? Hd'|? ? ? ? Hd']; subst; rewrite Hd in Hd';
    simplify_eq; try done.
  - f_equal. by apply IH.
  - by apply IH.
  - by eapply framed_eof_det.
Qed.
End Runs.

(** ** Complete bodies

    A body is a sequence of segments, each some plaintext followed by a
    ciphertext that is quoted on both sides or on none, and a tail. *)

Record segment : Type := mkSegment { seg_plain : bytes; seg_quoted : bool; seg_ct : Ciphertext }.

Definition seg_frame (g : segment) : Ciphertext :=
  set_trailing_quote (set_leading_quote (seg_ct g) (seg_quoted g)) (seg_quoted g).

Fixpoint body_of (segs : list segment) (tail : bytes) : bytes :=
  match segs with
  | [] => tail
  | g :: segs' => seg_plain g ++ quoted (seg_frame g) ++ body_of segs' tail
  end.

(** No stray marker in the plaintext, no stray quote next to an unquoted
    ciphertext, and an unquoted ciphertext is not the end of the body. *)
Fixpoint body_ok (segs : list segment) (tail : bytes) : Prop :=
  match segs with
  | [] => find_sub (b "ev:") tail = None
  | g :: segs' =>
      wf_ciphertext (seg_ct g) ∧ find_sub (b "ev:") (seg_plain g) = None ∧
      (seg_quoted g = false →
        last (seg_plain g) ≠ Some quote_byte ∧
        ∃ x r, body_of segs' tail = x :: r ∧ x ≠ quote_byte) ∧
      body_ok segs' tail
  end.

Definition plain_frame (p : bytes) : list IncomingFrame :=
  match p with [] => [] | _ => [Plaintext p] end.

Fixpoint frames_of (o : nat) (segs : list segment) (tail : bytes) : list IncomingFrame :=
  match segs with
  | [] => plain_frame tail
  | g :: segs' =>
      let s := o + length (seg_plain g) in
      let e := s + Ciphertext_len (seg_frame g) in
      plain_frame (seg_plain g) ++ CiphertextFrame (s, e) (seg_frame g) :: frames_of e segs' tail
  end.

Definition quote_if (q : bool) : bytes := if q then [quote_byte] else [].

Lemma find_sub_plain p r :
  find_sub (b "ev:") p = None → find_sub (b "ev:") (p ++ b "ev:" ++ r) = Some (length p).
Proof.
  induction p as [|x p IH]; intros H; [apply (find_sub_app (b "ev:") r)|].
  cbn [find_sub] in H. destruct (is_prefix (b "ev:") (x :: p)) eqn:E; [done|].
  destruct (find_sub (b "ev:") p) eqn:Ep; [done|]. cbn [app find_sub length].
  rewrite (IH eq_refl).
  assert (is_prefix (b "ev:") (x :: p ++ b "ev:" ++ r) = false) as ->; [|done].
  destruct p as [|y [|z p]]; cbn [b String.list_ascii_of_string app is_prefix] in *.
  - by destruct (Ascii.eqb "e" x).
  - by destruct (Ascii.eqb "e" x), (Ascii.eqb "v" y).
  - done.
Qed.

Lemma find_sub_quote p q :
  find_sub (b "ev:") p = None → find_sub (b "ev:") (p ++ quote_if q) = None.
Proof.
  destruct q; [|by rewrite app_nil_r]. unfold quote_if.
  induction p as [|x p IH]; intros H; [done|].
  cbn [find_sub] in H. destruct (is_prefix (b "ev:") (x :: p)) eqn:E; [done|].
  destruct (find_sub (b "ev:") p) eqn:Ep; [done|]. cbn [app find_sub]. rewrite (IH eq_refl).
  assert (is_prefix (b "ev:") (x :: p ++ [quote_byte]) = false) as ->; [|done].
  destruct p as [|y [|z p]]; cbn [b String.list_ascii_of_string app is_prefix] in *.
  - by destruct (Ascii.eqb "e" x).
  - by destruct (Ascii.eqb "e" x), (Ascii.eqb "v" y).
  - done.
Qed.

Lemma field_suffix t r s : (∃ p, r = p ++ s) → ∃ p, field t r = p ++ s.
Proof. intros [p ->]. exists (field t p). by rewrite field_app. Qed.

Lemma encode_suffix c : ∃ p, encode c = p ++ b "$".
Proof.
  unfold encode, encode_app.
  destruct (ct_debug c), (ct_version c), (ct_datatype c); unfold id;
    repeat apply field_suffix; by exists [].
Qed.

Lemma unquoted_len c : Ciphertext_len (unquoted c) = length (encode c).
Proof. change (encode c) with (encode (unquoted c)). rewrite length_encode.
  symmetry. apply Nat.sub_0_r. Qed.

Lemma encode_marker c : ∃ r, encode c = b "ev:" ++ r.
Proof. unfold encode, encode_app, field. simpl. by eexists. Qed.

Lemma ends_with_quote (p : bytes) q :
  (q = false → last p ≠ Some quote_byte) →
  Nat.ltb 0 (length (p ++ quote_if q)) &&
    bytes_eqb (drop (length (p ++ quote_if q) - 1) (p ++ quote_if q)) [quote_byte] = q.
Proof.
  intros H. destruct q; cbn [quote_if].
  - rewrite length_app. cbn [length]. replace (length p + 1 - 1) with (length p) by lia.
    rewrite drop_app_length. apply andb_true_iff. split; [apply Nat.ltb_lt; lia|done].
  - rewrite app_nil_r. apply andb_false_iff.
    destruct p as [|x p _] using rev_ind; [by left|right].
    rewrite length_app. cbn [length]. replace (length p + 1 - 1) with (length p) by lia.
    rewrite drop_app_length. apply not_true_iff_false. intros Hx%bytes_eqb_spec. simplify_eq.
    specialize (H eq_refl). by rewrite last_snoc in H.
Qed.

Section Functional.
Context {N : Nom} {L : NomLaws N}.

Lemma opt_quote_other x r : x ≠ quote_byte → opt quote (x :: r) = POk (x :: r) None.
Proof.
  intros H. rewrite opt_law. unfold quote. rewrite tag_law.
  cbn [is_prefix]. rewrite (proj2 (Ascii.eqb_neq _ _)) by congruence. cbn [andb].
  by rewrite (proj2 (Ascii.eqb_neq x quote_byte)).
Qed.

Lemma opt_quote_one r : opt quote (quote_byte :: r) = POk r (Some [quote_byte]).
Proof. rewrite opt_law. unfold quote. by rewrite (tag_app [quote_byte] r). Qed.

(** A ciphertext followed by another byte is parsed whole. *)
Lemma parse_encode c q rest : wf_ciphertext c →
  (q = false → ∃ x r, rest = x :: r ∧ x ≠ quote_byte) →
  parse_ciphertexts (encode c ++ quote_if q ++ rest) =
    POk rest (Some (set_trailing_quote (set_leading_quote c false) q)).
Proof.
  intros Hwf Hq. unfold parse_ciphertexts. rewrite opt_law. unfold context_aware_ciphertext.
  rewrite pmap_law, tuple3_law, pmap_law.
  destruct (encode_marker c) as [r Hr].
  assert (opt quote (encode c ++ quote_if q ++ rest) = POk (encode c ++ quote_if q ++ rest) None)
    as -> by (rewrite Hr; by apply opt_quote_other).
  cbn [presult_bind]. rewrite (ciphertext_encode c) by done. cbn [presult_bind].
  rewrite pmap_law. destruct q; cbn [quote_if app].
  - rewrite opt_quote_one. by destruct c.
  - destruct (Hq eq_refl) as (x & r' & -> & Hx). rewrite opt_quote_other by done. by destruct c.
Qed.

(** The candidate search stops at the first marker. *)
Lemma candidate_found p q c rest : find_sub (b "ev:") p = None →
  find_next_ciphertext_candidate (p ++ quote_if q ++ encode c ++ rest)
  = Ok (Some (encode c ++ rest, p ++ quote_if q)).
Proof.
  intros Hp. unfold find_next_ciphertext_candidate, find_ciphertext_prefix.
  rewrite take_until_law. destruct (encode_marker c) as [r Hr].
  rewrite app_assoc, Hr, <-(app_assoc _ r).
  rewrite find_sub_plain by by apply find_sub_quote.
  by rewrite drop_app_length, take_app_length.
Qed.

Lemma decode_of_ciphertexts s f s' :
  decode_ciphertexts s = (Ret f, s') → decode s = (Ret f, s').
Proof. intros H. unfold decode, mbind, mtry. by rewrite H. Qed.

Lemma decode_tail o p : find_sub (b "ev:") p = None → p ≠ [] →
  decode (mkStream o p) = (Ret (Some (Plaintext p)), mkStream (o + length p) []).
Proof.
  intros Hp Hne. apply decode_of_ciphertexts.
  unfold decode_ciphertexts, find_next_ciphertext_candidate, find_ciphertext_prefix.
  unfold mbind at 1, mget at 1. cbn [src]. rewrite take_until_law, Hp.
  rewrite (proj2 (Nat.eqb_neq _ _)) by by destruct p. unfold mlift, mret, mbind.
  rewrite create_slice_ok by done. cbn [src offset]. by rewrite firstn_all, drop_all.
Qed.

Lemma decode_plain o p q c rest :
  find_sub (b "ev:") p = None → p ≠ [] → (q = false → last p ≠ Some quote_byte) →
  decode (mkStream o (p ++ quote_if q ++ encode c ++ rest)) =
    (Ret (Some (Plaintext p)), mkStream (o + length p) (quote_if q ++ encode c ++ rest)).
Proof.
  intros Hp Hne Hq. apply decode_of_ciphertexts.
  unfold decode_ciphertexts. unfold mbind at 1, mget at 1. cbn [src].
  rewrite candidate_found by done.
  rewrite (proj2 (Nat.eqb_neq _ _)) by by destruct p. unfold mlift, mret at 1.
  unfold mbind at 1. cbn zeta. rewrite ends_with_quote by done.
  assert ((if q then length (p ++ quote_if q) - 1 else length (p ++ quote_if q)) = length p) as ->.
  { rewrite length_app. destruct q; simpl; lia. }
  rewrite (proj2 (Nat.ltb_lt 0 (length p))) by (destruct p; [done|simpl; lia]).
  unfold mbind, mret. rewrite create_slice_ok by (cbn [src]; rewrite length_app; lia).
  cbn [src offset]. by rewrite take_app_length, drop_app_length.
Qed.

Lemma decode_ciphertexts_cipher o lq tq c rest : wf_ciphertext c →
  (tq = false → ∃ x r, rest = x :: r ∧ x ≠ quote_byte) →
  let i := quote_if lq ++ encode c ++ quote_if tq ++ rest in
  let c' := set_trailing_quote (set_leading_quote c lq) tq in
  decode_ciphertexts (mkStream o i) =
    (Ret (Some (CiphertextFrame (o, o + Ciphertext_len c') c')),
     mkStream (o + Ciphertext_len c') (drop (Ciphertext_len c') i)).
Proof.
  intros Hwf Hq i c'. unfold decode_ciphertexts. unfold mbind at 1, mget at 1. cbn [src].
  pose proof (candidate_found [] lq c (quote_if tq ++ rest) eq_refl) as Hc.
  cbn [app] in Hc. fold i in Hc. rewrite Hc.
  assert (quoted c' ++ rest = i) as Hi.
  { subst i c'. unfold quoted. rewrite <-!app_assoc. by destruct c. }
  pose proof (length_quoted c') as Hl. pose proof (Ciphertext_len_lb c').
  assert (Ciphertext_len c' ≤ length i) by (rewrite <-Hi, length_app; lia).
  rewrite (proj2 (Nat.eqb_neq _ _)) by lia. unfold mlift, mret at 1.
  unfold mbind at 1. cbn zeta.
  pose proof (ends_with_quote [] lq) as He. cbn [app] in He. rewrite He by done.
  assert ((if lq then length (quote_if lq) - 1 else length (quote_if lq)) = 0) as ->
    by by destruct lq.
  cbn [Nat.ltb Nat.leb]. rewrite parse_encode by done.
  assert (set_leading_quote (set_trailing_quote (set_leading_quote c false) tq) lq = c') as ->
    by done.
  unfold mbind, advance, mget, add_offset, mmodify, mret. cbn [src offset].
  by rewrite (proj2 (Nat.leb_le _ _)).
Qed.

Lemma decode_cipher o lq tq c rest : wf_ciphertext c →
  (tq = false → ∃ x r, rest = x :: r ∧ x ≠ quote_byte) →
  let i := quote_if lq ++ encode c ++ quote_if tq ++ rest in
  let c' := set_trailing_quote (set_leading_quote c lq) tq in
  decode (mkStream o i) =
    (Ret (Some (CiphertextFrame (o, o + Ciphertext_len c') c')),
     mkStream (o + Ciphertext_len c') (drop (Ciphertext_len c') i)).
Proof. intros. by apply decode_of_ciphertexts, decode_ciphertexts_cipher. Qed.

(** A ciphertext at the end of the buffer: one more byte is needed. *)
Lemma decode_ciphertexts_end o c : wf_ciphertext c →
  decode_ciphertexts (mkStream o (encode c)) =
    (Throw (Incomplete (Some 1)), mkStream o (encode c)).
Proof.
  intros Hwf. unfold decode_ciphertexts. unfold mbind at 1, mget at 1. cbn [src].
  pose proof (candidate_found [] false c [] eq_refl) as Hc.
  cbn [app quote_if] in Hc. rewrite app_nil_r in Hc. rewrite Hc.
  destruct (encode_marker c) as [r Hr].
  rewrite (proj2 (Nat.eqb_neq _ _)) by by rewrite Hr. unfold mlift, mret at 1.
  unfold mbind at 1. cbn [length Nat.ltb Nat.leb andb].
  assert (parse_ciphertexts (encode c) = PIncomplete (Size 1)) as ->; [|done].
  unfold parse_ciphertexts. rewrite opt_law. unfold context_aware_ciphertext.
  rewrite pmap_law, tuple3_law, pmap_law.
  assert (opt quote (encode c) = POk (encode c) None) as -> by (rewrite Hr; by apply opt_quote_other).
  cbn [presult_bind]. rewrite <-(app_nil_r (encode c)), (ciphertext_encode c) by done.
  cbn [presult_bind]. rewrite pmap_law, opt_law. unfold quote. by rewrite tag_law.
Qed.

Lemma seg_quoted_len g : Ciphertext_len (seg_frame g) = length (quoted (seg_frame g)).
Proof.
  unfold quoted. rewrite !length_app, length_encode. unfold is_in_quotes.
  pose proof (Ciphertext_len_lb (seg_frame g)). cbn [seg_frame set_trailing_quote set_leading_quote
    ct_has_leading_quote ct_has_trailing_quote].
  destruct (seg_quoted g) eqn:E; cbn [andb length]; fold (seg_frame g); [|lia].
  assert (2 ≤ Ciphertext_len (seg_frame g)) by lia. lia.
Qed.

Lemma decode_seg o g rest : wf_ciphertext (seg_ct g) →
  (seg_quoted g = false → ∃ x r, rest = x :: r ∧ x ≠ quote_byte) →
  let e := o + Ciphertext_len (seg_frame g) in
  decode (mkStream o (quoted (seg_frame g) ++ rest)) =
    (Ret (Some (CiphertextFrame (o, e) (seg_frame g))), mkStream e rest).
Proof.
  intros Hwf Hq e. pose proof (λ lq, decode_cipher o lq _ (seg_ct g) rest Hwf Hq) as Hd.
  assert (quoted (seg_frame g) ++ rest =
    quote_if (seg_quoted g) ++ encode (seg_ct g) ++ quote_if (seg_quoted g) ++ rest) as Hi.
  { unfold quoted. by rewrite <-!app_assoc. }
  rewrite Hi. specialize (Hd (seg_quoted g)). cbn zeta in Hd. rewrite Hd. do 2 f_equal.
  rewrite <-Hi. change (set_trailing_quote _ _) with (seg_frame g).
  by rewrite seg_quoted_len, drop_app_length.
Qed.

(** The frames of a well-formed body follow the ones already cut. *)
Lemma framed_run_body o segs tail : body_ok segs tail →
  framed_run (mkStream o (body_of segs tail)) [] (Ok <$> frames_of o segs tail).
Proof.
  assert (Hnil : ∀ o', framed_run (mkStream o' []) [] []).
  { intros o'. eapply fr_eof; [done|]. by eapply fe_done. }
  revert o. induction segs as [|g segs IH]; intros o Hok.
  - cbn [body_of frames_of body_ok] in *. destruct tail as [|x t] eqn:Et; [apply Hnil|].
    rewrite <-Et in *. assert (tail ≠ []) by by rewrite Et.
    replace (plain_frame tail) with [Plaintext tail] by by rewrite Et.
    eapply fr_frame; [by apply decode_tail|apply Hnil].
  - cbn [body_of frames_of body_ok] in *. destruct Hok as (Hwf & Hp & Hq & Hok).
    assert (Hct : ∀ o', framed_run (mkStream o' (quoted (seg_frame g) ++ body_of segs tail)) []
      (Ok <$> CiphertextFrame (o', o' + Ciphertext_len (seg_frame g)) (seg_frame g)
         :: frames_of (o' + Ciphertext_len (seg_frame g)) segs tail)).
    { intros o'. eapply fr_frame; [|by apply IH].
      apply decode_seg; [done|naive_solver]. }
    destruct (seg_plain g) as [|x p] eqn:Ep.
    + cbn [plain_frame app length]. rewrite Nat.add_0_r. apply Hct.
    + rewrite <-Ep in *. assert (seg_plain g ≠ []) by by rewrite Ep.
      replace (plain_frame (seg_plain g)) with [Plaintext (seg_plain g)] by by rewrite Ep.
      eapply fr_frame; [|apply Hct]. destruct g as [p' q c]. cbn [seg_plain] in *.
      unfold quoted. rewrite <-!app_assoc.
      apply (decode_plain o p' q c); [done|done|]. naive_solver.
Qed.
End Functional.

(** ** Properties *)

Section Properties.
Context {N : Nom} {L : NomLaws N}.

(** C7. The decoder never panics, never fails and never stalls: however a
    body is split into reads, the reader produces exactly one finite
    sequence of items, and every one of them is a frame. *)
Theorem framed_run_frames reads :
  ∃ outs, framed_run new_stream reads outs ∧ Forall (fun o => is_ok o = true) outs ∧
    ∀ outs', framed_run new_stream reads outs' → outs' = outs.
Proof.
  destruct (framed_run_total new_stream reads) as (outs & Ho & Hok).
  exists outs. do 2 (split; [done|]). intros outs' Ho'. by eapply framed_run_det.
Qed.

(** C6. The ranges of the ciphertext frames are exact: whatever the reads,
    each range lies inside the body, the ranges are disjoint and in order,
    and the bytes of the body in a range are the ones the frame's
    ciphertext covers. The byte [decode_eof] injects is never in a range. *)
Theorem ciphertext_ranges_placed reads outs :
  framed_run new_stream reads outs → placed (concat reads) 0 outs.
Proof.
  intros H. change 0 with (offset new_stream). eapply framed_run_placed; [exact H|].
  split; [done|]. exists []. by rewrite app_nil_r.
Qed.

(** C8. Completeness on a body read at once: a body made of plaintext without
    markers and of ciphertexts, quoted on both sides or on none, is cut into
    exactly those pieces, each ciphertext with the range of its text and
    quotes. *)
Theorem well_formed_body_frames segs tail : body_ok segs tail →
  framed_run new_stream [body_of segs tail] (Ok <$> frames_of 0 segs tail).
Proof. intros H. eapply fr_read; [done|]. by apply (framed_run_body 0). Qed.

(** A ciphertext that ends the body is found: the injected byte makes the
    optional closing quote parse, and the byte itself comes out as a last
    plaintext frame. *)
Theorem ciphertext_at_eof c : wf_ciphertext c →
  framed_run new_stream [encode c]
    [Ok (CiphertextFrame (0, length (encode c)) (unquoted c)); Ok (Plaintext [zero_byte])].
Proof.
  intros Hwf. eapply fr_read; [done|]. cbn [offset src new_stream app].
  pose proof (decode_ciphertexts_end 0 c Hwf) as Hi.
  eapply fr_eof; [unfold decode, mbind, mtry; by rewrite Hi|].
  pose proof (decode_ciphertexts_cipher 0 false false c [zero_byte] Hwf) as Hd.
  specialize (Hd (fun _ => ltac:(by exists zero_byte, []))). cbn zeta in Hd.
  change (set_trailing_quote (set_leading_quote c false) false) with (unquoted c) in Hd.
  cbn [quote_if app] in Hd. rewrite unquoted_len, drop_app_length in Hd.
  assert (length (encode c) ≠ 0) by (pose proof (Ciphertext_len_lb (unquoted c)) as H;
    rewrite unquoted_len in H; lia).
  eapply (fe_frame _ _ (mkStream (length (encode c)) [zero_byte])).
  - unfold decode_eof, mbind, mtry, mget. cbn [src].
    rewrite (proj2 (Nat.eqb_neq _ _)), Hi by done.
    unfold put_bytes, mmodify. cbn [src offset repeat]. by rewrite Hd.
  - eapply (fe_frame _ _ (mkStream (length (encode c) + 1) [])); [|by eapply fe_done].
    unfold decode_eof, mbind, mtry, mget. cbn [src length Nat.eqb].
    unfold decode_ciphertexts, find_next_ciphertext_candidate, find_ciphertext_prefix.
    unfold mbind, mget. cbn [src length Nat.eqb]. by rewrite take_until_law.
Qed.

(** A ciphertext with a quote in front of it and none behind it is cut one
    byte short: its range starts at the quote but is as long as the text, so
    the closing [$] stays in the buffer and is read as plaintext. *)
Theorem leading_quote_cuts_suffix o c x r :
  wf_ciphertext c → x ≠ quote_byte →
  ∃ c', decode (mkStream o (quote_byte :: encode c ++ x :: r)) =
    (Ret (Some (CiphertextFrame (o, o + length (encode c)) c')),
     mkStream (o + length (encode c)) ("$"%char :: x :: r))
    ∧ covered c' = quote_byte :: take (length (encode c) - 1) (encode c).
Proof.
  intros Hwf Hx. exists (set_trailing_quote (set_leading_quote c true) false).
  pose proof (decode_cipher o true false c (x :: r) Hwf) as Hd.
  specialize (Hd (fun _ => ltac:(by exists x, r))). cbn zeta in Hd.
  set (c' := set_trailing_quote _ _) in *.
  assert (Ciphertext_len c' = length (encode c)) as Hlen.
  { change (encode c) with (encode c'). rewrite length_encode.
    symmetry. apply Nat.sub_0_r. }
  rewrite Hlen in Hd. destruct (encode_suffix c) as [p Hp].
  assert (length (encode c) = S (length p)) as Hl by (rewrite Hp, length_app; simpl; lia).
  cbn [quote_if app] in Hd. split.
  - rewrite Hd. do 2 f_equal. rewrite Hl. cbn [drop]. by rewrite Hp, <-app_assoc, drop_app_length.
  - unfold covered. rewrite Hlen. unfold quoted. change (encode c') with (encode c).
    cbn [ct_has_leading_quote ct_has_trailing_quote c' set_trailing_quote set_leading_quote].
    rewrite app_nil_r, Hl. cbn [app take]. by replace (S (length p) - 1) with (length p) by lia.
Qed.

(** A marker that straddles two reads is lost: when the first read ends
    after the [e] of a ciphertext, the decoder emits that byte as plaintext
    and the ciphertext is never recognised. *)
Theorem marker_split_is_missed c rest :
  find_sub (b "ev:") (drop 1 (encode c) ++ rest) = None →
  framed_run new_stream [take 1 (encode c); drop 1 (encode c) ++ rest]
    [Ok (Plaintext (b "e")); Ok (Plaintext (drop 1 (encode c) ++ rest))].
Proof.
  intros Hf. destruct (encode_marker c) as [r Hr].
  eapply fr_read; [done|]. cbn [offset src new_stream app].
  replace (take 1 (encode c)) with (b "e") by by rewrite Hr.
  eapply fr_frame; [by apply decode_tail|].
  eapply fr_read; [done|]. cbn [offset src app].
  eapply fr_frame; [apply decode_tail; [done|by rewrite Hr]|].
  eapply fr_eof; [done|]. by eapply fe_done.
Qed.
End Properties.

(** ** Witnesses *)

Definition sample_segs : list segment :=
  [mkSegment (b "id=") false (sample_of (Some DtNumber));
   mkSegment (b ", n=") true (sample_of None)].

Lemma sample_body_ok : body_ok sample_segs (b "; end").
Proof.
  split; [apply sample_wf|]. split; [done|]. split; [by split; [|by eexists _, _]|].
  split; [apply sample_wf|]. by split; [|split].
Qed.

Lemma framed_run_frames_witness : ∃ outs,
  framed_run new_stream [b "ab"; b "ev:"] outs ∧ Forall (fun o => is_ok o = true) outs.
Proof.
  destruct (framed_run_frames [b "ab"; b "ev:"]) as (outs & H1 & H2 & _). by exists outs.
Defined.

Lemma ciphertext_ranges_placed_witness :
  placed (concat [body_of sample_segs (b "; end")]) 0 (Ok <$> frames_of 0 sample_segs (b "; end")).
Proof.
  apply ciphertext_ranges_placed.
  eapply fr_read; [done|]. apply (framed_run_body 0), sample_body_ok.
Defined.

Lemma well_formed_body_frames_witness :
  framed_run new_stream [body_of sample_segs (b "; end")]
    (Ok <$> [Plaintext (b "id=");
             CiphertextFrame (3, 109) (sample_of (Some DtNumber));
             Plaintext (b ", n=");
             CiphertextFrame (113, 214) (set_trailing_quote (set_leading_quote (sample_of None) true) true);
             Plaintext (b "; end")]).
Proof. apply (well_formed_body_frames sample_segs (b "; end")). apply sample_body_ok. Defined.

Lemma ciphertext_at_eof_witness :
  framed_run new_stream [encode sample]
    [Ok (CiphertextFrame (0, 106) sample); Ok (Plaintext [zero_byte])].
Proof. apply (ciphertext_at_eof sample). apply (sample_wf (Some DtNumber)). Defined.

Lemma leading_quote_cuts_suffix_witness :
  ∃ c', decode (mkStream 0 (quote_byte :: encode sample ++ b "; ")) =
    (Ret (Some (CiphertextFrame (0, 106) c')), mkStream 106 (b "$; "))
    ∧ covered c' = quote_byte :: take 105 (encode sample).
Proof.
  apply (leading_quote_cuts_suffix 0 sample ";"%char (b " "));
    [apply (sample_wf (Some DtNumber))|discriminate].
Defined.

Lemma marker_split_is_missed_witness :
  framed_run new_stream [take 1 (encode sample); drop 1 (encode sample) ++ b ", end"]
    [Ok (Plaintext (b "e")); Ok (Plaintext (drop 1 (encode sample) ++ b ", end"))].
Proof. apply marker_split_is_missed. vm_compute. reflexivity. Defined.
