(* ===== verification/Libs.v ===== *)
(** * Interfaces of the libraries the services call

    [tokio_retry], the header map and header values of [hyper], [serde_json].
    Each is a class of operations with a class of laws stating its documented
    behaviour, and a reference instance that shows the laws can hold. The
    components are written and proved against the classes. *)
From Stdlib Require Import Ascii String Lia.
From stdpp Require Import base gmap strings list.
From S2P Require Import Prelude.
#[local] Open Scope list_scope.
#[local] Open Scope enclave_scope.

(** ** tokio_retry

    [Retry::spawn] runs an action, and once more for every delay its strategy
    yields while the action fails. *)

Class Retry : Type := {
  spawn {W E A : Type} : nat → M W E A → M W E A
}.

Class RetryLaws (R : Retry) : Prop := {
  spawn_none {W E A} (m : M W E A) w : spawn 0 m w = m w;
  spawn_more {W E A} n (m : M W E A) w : spawn (S n) m w =
    match m w with
    | (Throw _, w') => spawn n m w'
    | r => r
    end
}.

Fixpoint spawn_loop {W E A} (n : nat) (m : M W E A) : M W E A := fun w =>
  match n with
  | O => m w
  | S n' => match m w with
            | (Throw _, w') => spawn_loop n' m w'
            | r => r
            end
  end.

#[export] Instance retry_ref : Retry := { spawn W E A := spawn_loop }.
#[export] Instance retry_ref_laws : RetryLaws retry_ref.
Proof. by split. Qed.

(** An action that counts its runs and always fails is run once more than the
    strategy has delays. *)
Lemma spawn_runs {R : Retry} {RL : RetryLaws R} {W E A} (m : M W E A) (runs : W → nat) n w :
  (∀ w, ∃ e w', m w = (Throw e, w') ∧ runs w' = S (runs w)) →
  ∃ e w', spawn n m w = (Throw e, w') ∧ runs w' = runs w + S n.
Proof.
  intros Hm. revert w. induction n as [|n IH]; intros w.
  - destruct (Hm w) as (e & w' & Hw & Hr). exists e, w'. rewrite spawn_none. split; [done|lia].
  - destruct (Hm w) as (e & w' & Hw & Hr). destruct (IH w') as (e' & w'' & Hw' & Hr').
    exists e', w''. rewrite spawn_more, Hw. split; [done|lia].
Qed.

(** What a successful [spawn] returns is what one run of the action returned. *)
Lemma spawn_ret {R : Retry} {RL : RetryLaws R} {W E A} (m : M W E A) n w a w' :
  spawn n m w = (Ret a, w') → ∃ w0, m w0 = (Ret a, w').
Proof.
  revert w. induction n as [|n IH]; intros w.
  - rewrite spawn_none. intros H. by exists w.
  - rewrite spawn_more. destruct (m w) as [[|e|] w1] eqn:Em; intros H; simplify_eq.
    + by exists w.
    + by apply IH in H.
Qed.

(** A property of the world every run of the action keeps is kept. *)
Lemma spawn_keeps {R : Retry} {RL : RetryLaws R} {W E A} (m : M W E A) (P : W → Prop) n w r w' :
  (∀ w r w', P w → m w = (r, w') → P w') → P w → spawn n m w = (r, w') → P w'.
Proof.
  intros Hm. revert w. induction n as [|n IH]; intros w Hw.
  - rewrite spawn_none. by apply Hm.
  - rewrite spawn_more. destruct (m w) as [[|e|] w1] eqn:Em; intros H; simplify_eq;
      [by eapply Hm|by eapply IH, H; eapply Hm|by eapply Hm].
Qed.

(** ** Header maps and values of hyper *)

(** [char::to_ascii_lowercase] on a byte. *)
Definition lower_char (c : ascii) : ascii :=
  if in_range 65 90 c then ascii_of_nat (code c + 32) else c.

Fixpoint to_lower (s : string) : string :=
  match s with
  | EmptyString => EmptyString
  | String c s' => String (lower_char c) (to_lower s')
  end.

(** The bytes a header name may have (RFC 7230 token). *)
Definition is_token_char (c : ascii) : bool :=
  in_range 48 57 c || in_range 65 90 c || in_range 97 122 c ||
  bool_decide (c ∈ b "!#$%&'*+-.^_`|~").

(** [visible_ascii] of the http crate: what [HeaderValue::to_str] accepts. *)
Definition is_visible (c : ascii) : bool := in_range 32 126 c || Nat.eqb (code c) 9.

(** What [HeaderValue::from_bytes] accepts. *)
Definition is_header_byte (c : ascii) : bool :=
  (Nat.leb 32 (code c) && negb (Nat.eqb (code c) 127)) || Nat.eqb (code c) 9.

Definition HeaderValue : Type := bytes.

(** The keys of [into_iter]: [None] repeats the previous name. *)
Fixpoint first_keys (prev : option string) (l : list (string * HeaderValue)) :
    list (option string * HeaderValue) :=
  match l with
  | [] => []
  | (k, v) :: l' =>
      (if bool_decide (prev = Some k) then None else Some k, v) :: first_keys (Some k) l'
  end.

Class HttpLib : Type := {
  HeaderMap : Type;
  hm_empty : HeaderMap;
  hm_get_all : HeaderMap → string → list HeaderValue;
  hm_insert : HeaderMap → string → HeaderValue → HeaderMap;
  hm_append : HeaderMap → string → HeaderValue → HeaderMap;
  hm_remove : HeaderMap → string → HeaderMap;
  hm_iter : HeaderMap → list (string * HeaderValue);
  hm_into_iter : HeaderMap → list (option string * HeaderValue);
  hv_to_str : HeaderValue → option string;
  hv_from_str : string → option HeaderValue;
  hv_from_bytes : bytes → option HeaderValue;
  hn_from_str : string → option string
}.

(** [HeaderMap::get]: the first value. *)
Definition hm_get {H : HttpLib} (h : HeaderMap) (k : string) : option HeaderValue :=
  head (hm_get_all h k).

Definition values_of (k : string) (l : list (string * HeaderValue)) : list HeaderValue :=
  (filter (fun e => e.1 = k) l).*2.

Class HttpLaws (H : HttpLib) : Prop := {
  get_all_empty k : hm_get_all hm_empty k = [];
  get_all_insert h k v k' : hm_get_all (hm_insert h k v) k' =
    if bool_decide (k = k') then [v] else hm_get_all h k';
  get_all_append h k v k' : hm_get_all (hm_append h k v) k' =
    if bool_decide (k = k') then hm_get_all h k' ++ [v] else hm_get_all h k';
  get_all_remove h k k' : hm_get_all (hm_remove h k) k' =
    if bool_decide (k = k') then [] else hm_get_all h k';
  iter_get_all h k : values_of k (hm_iter h) = hm_get_all h k;
  into_iter_keys h : hm_into_iter h = first_keys None (hm_iter h);
  to_str_law v : hv_to_str v =
    if forallb is_visible v then Some (String.string_of_list_ascii v) else None;
  from_str_law s : hv_from_str s = if forallb is_visible (b s) then Some (b s) else None;
  from_bytes_law v : hv_from_bytes v = if forallb is_header_byte v then Some v else None;
  name_law s : hn_from_str s =
    if forallb is_token_char (b s) && negb (String.eqb s "") then Some (to_lower s) else None
}.

(** Reference: an association list, the values of a key next to each other. *)
Definition al_append (l : list (string * HeaderValue)) (k : string) (v : HeaderValue) :
    list (string * HeaderValue) :=
  filter (fun e => e.1 ≠ k) l ++ filter (fun e => e.1 = k) l ++ [(k, v)].

#[export] Instance http_ref : HttpLib := {
  HeaderMap := list (string * HeaderValue);
  hm_empty := [];
  hm_get_all h k := values_of k h;
  hm_insert h k v := filter (fun e => e.1 ≠ k) h ++ [(k, v)];
  hm_append := al_append;
  hm_remove h k := filter (fun e => e.1 ≠ k) h;
  hm_iter h := h;
  hm_into_iter h := first_keys None h;
  hv_to_str v := if forallb is_visible v then Some (String.string_of_list_ascii v) else None;
  hv_from_str s := if forallb is_visible (b s) then Some (b s) else None;
  hv_from_bytes v := if forallb is_header_byte v then Some v else None;
  hn_from_str s :=
    if forallb is_token_char (b s) && negb (String.eqb s "") then Some (to_lower s) else None
}.

Lemma values_of_ne k k' l :
  values_of k' (filter (fun e => e.1 ≠ k) l) = if bool_decide (k = k') then [] else values_of k' l.
Proof.
  unfold values_of. rewrite list_filter_filter. case_bool_decide as E.
  - subst. rewrite (list_filter_iff _ (fun _ => False)) by naive_solver.
    induction l; by rewrite ?filter_cons_False by tauto.
  - f_equal. apply list_filter_iff. naive_solver.
Qed.

Lemma values_of_app k l l' : values_of k (l ++ l') = values_of k l ++ values_of k l'.
Proof. unfold values_of. by rewrite filter_app, fmap_app. Qed.

Lemma values_of_one k k' v : values_of k' [(k, v)] = if bool_decide (k = k') then [v] else [].
Proof.
  unfold values_of. rewrite filter_cons. simpl. case_decide; case_bool_decide; by simplify_eq.
Qed.

Lemma values_of_eq k k' l :
  values_of k' (filter (fun e => e.1 = k) l) = if bool_decide (k = k') then values_of k l else [].
Proof.
  unfold values_of. rewrite list_filter_filter. case_bool_decide as E.
  - subst. f_equal. apply list_filter_iff. naive_solver.
  - rewrite (list_filter_iff _ (fun _ => False)) by naive_solver.
    induction l; by rewrite ?filter_cons_False by tauto.
Qed.

#[export] Instance http_ref_laws : HttpLaws http_ref.
Proof.
  split; try done; cbn [hm_get_all hm_insert hm_append hm_remove http_ref]; intros h k *.
  - rewrite values_of_app, values_of_ne, values_of_one. case_bool_decide; [done|].
    by rewrite app_nil_r.
  - assert (al_append h k v = filter (fun e => e.1 ≠ k) h ++ filter (fun e => e.1 = k) h ++ [(k, v)])
      as -> by by destruct h.
    rewrite !values_of_app, values_of_ne, values_of_one, values_of_eq.
    case_bool_decide; simplify_eq/=; [done|]. by rewrite app_nil_r.
  - apply values_of_ne.
Qed.

Section HeaderLemmas.
Context {H : HttpLib} {HL : HttpLaws H}.

Lemma get_insert h k v k' :
  hm_get (hm_insert h k v) k' = if bool_decide (k = k') then Some v else hm_get h k'.
Proof. unfold hm_get. rewrite get_all_insert. by case_bool_decide. Qed.

Lemma get_insert_eq h k v : hm_get (hm_insert h k v) k = Some v.
Proof. rewrite get_insert. by rewrite bool_decide_true. Qed.

Lemma get_insert_ne h k v k' : k ≠ k' → hm_get (hm_insert h k v) k' = hm_get h k'.
Proof. intros Hne. rewrite get_insert. by rewrite bool_decide_false. Qed.

Lemma get_remove h k k' :
  hm_get (hm_remove h k) k' = if bool_decide (k = k') then None else hm_get h k'.
Proof. unfold hm_get. rewrite get_all_remove. by case_bool_decide. Qed.

Lemma get_empty k : hm_get hm_empty k = None.
Proof. unfold hm_get. by rewrite get_all_empty. Qed.

Lemma from_str_to_str s v : hv_from_str s = Some v → v = b s ∧ hv_to_str v = Some s.
Proof.
  rewrite from_str_law, to_str_law. destruct (forallb is_visible (b s)) eqn:E; [|done].
  intros [= <-]. rewrite E. split; [done|]. f_equal. apply String.string_of_list_ascii_of_string.
Qed.
End HeaderLemmas.

#[export] Hint Rewrite @get_insert_eq @get_empty using typeclasses eauto : encl.

(** ** serde_json *)

Class Json : Type := {
  Value : Type;
  (** [Value::from(String)] *)
  Value_of_string : string → Value;
  (** [serde_json::to_vec] of a value *)
  Value_to_vec : Value → option bytes;
  (** [json!({ "message": m }).to_string()] *)
  json_message : string → string;
  (** [serde_json::to_string] of a map *)
  json_map_to_string : gmap string Value → option string
}.

#[export] Instance json_ref : Json := {
  Value := string;
  Value_of_string s := s;
  Value_to_vec s := Some (b s);
  json_message s := s;
  json_map_to_string _ := Some EmptyString
}.
