(* ===== verification/Net.v ===== *)
(** * Streams and addresses

    [Conn] is the state of a byte stream as the asynchronous handlers see it:
    what the peer will deliver, segment by segment ([None] is an I/O error),
    what was written to it and whether it was shut down. [IpAddr] is
    [std::net::IpAddr] with the parser and printer the allow lists use. *)
From Stdlib Require Import Ascii String NArith ZArith Lia.
From stdpp Require Import base strings list pretty.
From S2P Require Import Prelude.
#[local] Open Scope list_scope.
#[local] Open Scope enclave_scope.

(** ** Streams *)

Record Conn : Type := mkConn {
  c_in : list (option bytes);
  c_out : bytes;
  c_shut : bool;
  (** whether a write succeeds *)
  c_writable : bool
}.

Definition conn_of (segments : list bytes) : Conn := mkConn (Some <$> segments) [] false true.

(** [AsyncReadExt::read] into a buffer of [n] bytes; an empty result is the
    end of the stream. *)
Definition conn_read (n : nat) (c : Conn) : result unit bytes * Conn :=
  match c_in c with
  | [] => (Ok [], c)
  | None :: rest => (Err tt, mkConn rest (c_out c) (c_shut c) (c_writable c))
  | Some seg :: rest =>
      if Nat.leb (length seg) n then (Ok seg, mkConn rest (c_out c) (c_shut c) (c_writable c))
      else (Ok (take n seg),
            mkConn (Some (drop n seg) :: rest) (c_out c) (c_shut c) (c_writable c))
  end.

(** [AsyncWriteExt::write_all] *)
Definition conn_write (d : bytes) (c : Conn) : result unit unit * Conn :=
  if c_writable c then (Ok tt, mkConn (c_in c) (c_out c ++ d) (c_shut c) true)
  else (Err tt, c).

(** [AsyncWriteExt::shutdown], its error ignored by every caller. *)
Definition conn_shutdown (c : Conn) : Conn := mkConn (c_in c) (c_out c) true (c_writable c).

Lemma conn_read_le n c d c' : conn_read n c = (Ok d, c') → length d ≤ n ∨ c_in c = [].
Proof.
  unfold conn_read. destruct (c_in c) as [|[seg|] rest]; [by right| |done].
  destruct (Nat.leb_spec (length seg) n); intros; simplify_eq; left; [done|].
  rewrite length_take. lia.
Qed.

(** ** Addresses *)

(** Octets and segments are unsigned integers of 8 and 16 bits. *)
Inductive IpAddr : Type :=
| V4 (a b c d : N)
| V6 (s0 s1 s2 s3 s4 s5 s6 s7 : N).

#[export] Instance IpAddr_eq_dec : EqDecision IpAddr.
Proof. solve_decision. Defined.

Definition wf_ip (ip : IpAddr) : Prop :=
  match ip with
  | V4 a b c d => (a < 256 ∧ b < 256 ∧ c < 256 ∧ d < 256)%N
  | V6 s0 s1 s2 s3 s4 s5 s6 s7 =>
      Forall (fun s => (s < 65536)%N) [s0; s1; s2; s3; s4; s5; s6; s7]
  end.

Definition digit_of (c : ascii) : option N :=
  if in_range 48 57 c then Some (N.of_nat (code c - 48)) else None.

Fixpoint digits (acc : N) (s : string) : option N :=
  match s with
  | EmptyString => Some acc
  | String c s' => match digit_of c with
                   | Some d => digits (acc * 10 + d)%N s'
                   | None => None
                   end
  end.

(** One octet: one to three digits, no leading zero, at most 255. *)
Definition parse_octet (s : string) : option N :=
  match s with
  | EmptyString => None
  | String c s' =>
      if Nat.ltb 3 (String.length s) then None
      else if Ascii.eqb c "0" && negb (String.eqb s' "") then None
      else match digits 0 s with
           | Some n => if (n <=? 255)%N then Some n else None
           | None => None
           end
  end.

(** [str::parse::<Ipv4Addr>] *)
Definition parse_ipv4 (s : string) : option IpAddr :=
  match split "." s with
  | [a; b; c; d] =>
      match parse_octet a, parse_octet b, parse_octet c, parse_octet d with
      | Some a, Some b, Some c, Some d => Some (V4 a b c d)
      | _, _, _, _ => None
      end
  | _ => None
  end.

Definition hex_digit (n : N) : ascii :=
  ascii_of_N (if (n <? 10)%N then 48 + n else 87 + n)%N.

(** [{:x}] of a 16-bit segment. *)
Definition hex_segment (n : N) : string :=
  let d3 := (n / 4096)%N in let d2 := (n / 256 mod 16)%N in
  let d1 := (n / 16 mod 16)%N in let d0 := (n mod 16)%N in
  if (n <? 16)%N then String (hex_digit d0) ""
  else if (n <? 256)%N then String (hex_digit d1) (String (hex_digit d0) "")
  else if (n <? 4096)%N then
    String (hex_digit d2) (String (hex_digit d1) (String (hex_digit d0) ""))
  else String (hex_digit d3) (String (hex_digit d2) (String (hex_digit d1) (String (hex_digit d0) ""))).

(** The first longest run of zero segments, as (start, length). *)
Fixpoint zero_run (i : nat) (cur best : nat * nat) (segs : list N) : nat * nat :=
  match segs with
  | [] => best
  | s :: segs' =>
      if (s =? 0)%N then
        let cur' := if Nat.eqb cur.2 0 then (i, 1) else (cur.1, S cur.2) in
        zero_run (S i) cur' (if Nat.ltb best.2 cur'.2 then cur' else best) segs'
      else zero_run (S i) (0, 0) best segs'
  end.

Definition show_segments (l : list N) : string := join ":" (hex_segment <$> l).

(** [impl Display for IpAddr] *)
Definition ip_to_string (ip : IpAddr) : string :=
  let v4 a b c d := join "." [pretty a; pretty b; pretty c; pretty d] in
  match ip with
  | V4 a b c d => v4 a b c d
  | V6 s0 s1 s2 s3 s4 s5 s6 s7 =>
      let segs := [s0; s1; s2; s3; s4; s5; s6; s7] in
      if forallb (fun s => (s =? 0)%N) [s0; s1; s2; s3; s4] && (s5 =? 65535)%N then
        ("::ffff:" +:+ v4 (s6 / 256) (s6 mod 256) (s7 / 256) (s7 mod 256))%N
      else
        let '(st, n) := zero_run 0 (0, 0) (0, 0) segs in
        if Nat.ltb 1 n then
          show_segments (take st segs) +:+ "::" +:+ show_segments (drop (st + n) segs)
        else show_segments segs
  end.

(** An octet survives printing and parsing, and its text has no dot. *)
Lemma octet_roundtrip n : (n < 256)%N →
  parse_octet (pretty n) = Some n ∧ no_char "." (pretty n) = true.
Proof.
  intros Hn.
  assert (forallb (fun k => match parse_octet (pretty (N.of_nat k)) with
                            | Some m => (m =? N.of_nat k)%N | None => false end
                            && no_char "." (pretty (N.of_nat k))) (seq 0 256) = true) as H
    by (vm_compute; reflexivity).
  rewrite forallb_forall in H. specialize (H (N.to_nat n)). rewrite N2Nat.id in H.
  apply andb_true_iff in H as [H1 H2]; [|apply in_seq; lia]. split; [|done].
  destruct (parse_octet (pretty n)) as [m|]; [|done]. by apply N.eqb_eq in H1 as ->.
Qed.

(** An IPv4 address survives printing and parsing. *)
Lemma ipv4_roundtrip a b c d : wf_ip (V4 a b c d) →
  parse_ipv4 (ip_to_string (V4 a b c d)) = Some (V4 a b c d).
Proof.
  intros (Ha & Hb & Hc & Hd).
  destruct (octet_roundtrip a Ha) as [Ea Na], (octet_roundtrip b Hb) as [Eb Nb],
    (octet_roundtrip c Hc) as [Ec Nc], (octet_roundtrip d Hd) as [Ed Nd].
  unfold parse_ipv4, ip_to_string. rewrite split_join by (done || by repeat constructor).
  by rewrite Ea, Eb, Ec, Ed.
Qed.
