(* ===== verification/Egress.v ===== *)
(** * Egress allow list (shared/src/server/egress.rs)

    The list of destinations an enclave may talk to, the check of a domain
    and of an address against it, and the cache of addresses that allowed
    DNS answers contained. [dns_parser] and [ttl_cache] are interfaces. *)
From Stdlib Require Import Ascii String NArith ZArith Lia.
From stdpp Require Import base gmap strings list.
From S2P Require Import Prelude Net.
#[local] Open Scope string_scope.
#[local] Open Scope list_scope.
#[local] Open Scope enclave_scope.

Inductive EgressError : Type :=
| HostnameError (s : string)
| EgressDomainNotAllowed (s : string)
| EgressIpNotAllowed (s : string)
| ClientHelloMissing
| ExtensionMissing
| DNSParseError
| CouldntObtainLock.

Record EgressDestinations : Type := mkDestinations {
  wildcard : list string;
  exact : list string;
  allow_all : bool;
  ips : list string
}.

Record EgressConfig : Type := { allow_list : EgressDestinations }.

Definition get_egress_allow_list (domain_str : string) : EgressDestinations :=
  let '(ips, domains) := List.partition (fun d => is_some (parse_ipv4 d)) (split "," domain_str) in
  let '(wildcard, exact) := List.partition (fun d => starts_with d "*.") domains in
  let wildcard_stripped := omap (fun wc => strip_prefix_char wc "*") wildcard in
  mkDestinations wildcard_stripped exact
    (bool_decide (exact = [""]) || str_mem "*" exact) ips.

(** [deserialize_allowlist], on the string of the configuration file. *)
Definition deserialize_allowlist (allow_list : string) : EgressConfig :=
  {| allow_list := get_egress_allow_list allow_list |}.

Definition get_egress_allow_list_from_env (env : gmap string string) : EgressDestinations :=
  get_egress_allow_list (default "" (env !! "EV_EGRESS_ALLOW_LIST")).

Definition check_domain_allow_list (domain : string) (allowed : EgressDestinations) :
    result EgressError unit :=
  let valid_wildcard := existsb (fun w => ends_with domain w) (wildcard allowed) in
  if str_mem domain (exact allowed) || allow_all allowed || valid_wildcard then Ok tt
  else Err (EgressDomainNotAllowed domain).

(** ** DNS packets *)

Inductive RData : Type :=
| RA (ip : IpAddr)
| ROther.

Record ResourceRecord : Type := mkRecord { rr_name : string; rr_ttl : N; rr_data : RData }.

Record Packet : Type := mkPacket { questions : list string; answers : list ResourceRecord }.

Class DnsLib : Type := { packet_parse : bytes → option Packet }.

Fixpoint try_for_each {A E} (f : A → result E unit) (l : list A) : result E unit :=
  match l with
  | [] => Ok tt
  | x :: l' => match f x with Ok _ => try_for_each f l' | Err e => Err e end
  end.

Definition check_dns_allowed_for_domain `{DnsLib} (packet : bytes)
    (destinations : EgressDestinations) : result EgressError unit :=
  match packet_parse packet with
  | None => Err DNSParseError
  | Some packet => try_for_each (fun q => check_domain_allow_list q destinations) (questions packet)
  end.

(** ** The cache of resolved addresses *)

Class TtlLib : Type := {
  TtlCache : Type;
  ttl_empty : TtlCache;
  ttl_insert : TtlCache → string → string → N → N → TtlCache;
  ttl_get : TtlCache → string → N → option string
}.

(** [ttl_cache]: a lookup returns a value that was inserted under the key and
    has not expired (it may also have been evicted). *)
Class TtlLaws (T : TtlLib) : Prop := {
  ttl_get_empty k now : ttl_get ttl_empty k now = None;
  ttl_get_insert c k v ttl now k' now' x :
    ttl_get (ttl_insert c k v ttl now) k' now' = Some x →
    (k = k' ∧ x = v ∧ (now' < now + ttl)%N) ∨ ttl_get c k' now' = Some x
}.

#[export] Instance ttl_ref : TtlLib := {
  TtlCache := gmap string (string * N);
  ttl_empty := ∅;
  ttl_insert c k v ttl now := <[k := (v, (now + ttl)%N)]> c;
  ttl_get c k now :=
    match c !! k with
    | Some (v, e) => if (now <? e)%N then Some v else None
    | None => None
    end
}.
#[export] Instance ttl_ref_laws : TtlLaws ttl_ref.
Proof.
  split; [done|]. intros c k v ttl now k' now' x. cbn [ttl_get ttl_insert ttl_ref].
  destruct (decide (k = k')) as [->|Hne].
  - rewrite lookup_insert_eq. destruct (N.ltb_spec now' (now + ttl)); [|done].
    intros [= ->]. by left.
  - rewrite lookup_insert_ne by done. by right.
Qed.

(** [ALLOWED_IPS_FROM_DNS]: the mutex around the cache, and the clock. *)
Record IpCache `{TtlLib} : Type := mkIpCache {
  ic_poisoned : bool;
  ic_cache : TtlCache;
  ic_now : N
}.

Section Cache.
Context {T : TtlLib} {D : DnsLib}.

Definition cache_ip (ip : string) (answer : ResourceRecord) : M IpCache EgressError unit := fun w =>
  if ic_poisoned w then (Throw CouldntObtainLock, w)
  else (Ret tt, mkIpCache _ false
    (ttl_insert (ic_cache w) ip (rr_name answer) (rr_ttl answer) (ic_now w)) (ic_now w)).

Fixpoint cache_answers (answers : list ResourceRecord) : M IpCache EgressError unit :=
  match answers with
  | [] => mret tt
  | ans :: rest =>
      match rr_data ans with
      | RA ip => cache_ip (ip_to_string ip) ans
      | ROther => mret tt
      end ;!
      cache_answers rest
  end.

Definition cache_ip_for_allowlist (packet : bytes) : M IpCache EgressError unit :=
  match packet_parse packet with
  | None => mthrow DNSParseError
  | Some packet => cache_answers (answers packet)
  end.

Definition is_valid_ip_from_dns (ip : string) (w : IpCache) : result EgressError bool :=
  if ic_poisoned w then Err CouldntObtainLock
  else Ok (is_some (ttl_get (ic_cache w) ip (ic_now w))).

Definition check_ip_allow_list (ip : string) (allowed : EgressDestinations) (w : IpCache) :
    result EgressError unit :=
  if allow_all allowed || str_mem ip (ips allowed) then Ok tt
  else let? valid := is_valid_ip_from_dns ip w in
       if valid then Ok tt else Err (EgressIpNotAllowed ip).
End Cache.

(** ** What the configuration string means *)

(** The entries of the list that are neither an address nor a wildcard. *)
Definition plain_entries (s : string) : list string :=
  List.filter (fun d => negb (starts_with d "*."))
    (List.filter (fun d => negb (is_some (parse_ipv4 d))) (split "," s)).

(** A domain the list admits: listed, or under a listed wildcard, or the list
    is the empty one or has the entry [*]. *)
Definition admits (s domain : string) : Prop :=
  (domain ∈ split "," s ∧ parse_ipv4 domain = None ∧ starts_with domain "*." = false)
  ∨ (plain_entries s = [""] ∨ "*" ∈ split "," s)
  ∨ ∃ base t, "*." +:+ base ∈ split "," s ∧ domain = t +:+ ("." +:+ base).

Lemma partition_filter {A} (f : A → bool) (l : list A) :
  List.partition f l = (List.filter f l, List.filter (fun x => negb (f x)) l).
Proof.
  induction l as [|x l IH]; simpl; [done|]. rewrite IH. by destruct (f x).
Qed.

Lemma elem_of_filterb {A} (f : A → bool) (l : list A) x :
  x ∈ List.filter f l ↔ x ∈ l ∧ f x = true.
Proof. rewrite !list_elem_of_In. apply List.filter_In. Qed.

Lemma wildcard_not_ip d : starts_with d "*." = true → parse_ipv4 d = None.
Proof.
  intros [t ->]%starts_with_spec. unfold parse_ipv4.
  change ("*." +:+ t) with ("*" +:+ String "." t). rewrite split_app by done.
  by destruct (split "." t) as [|? [|? [|? [|]]]].
Qed.

Lemma get_egress_allow_list_unfold s : get_egress_allow_list s =
  mkDestinations
    (omap (fun wc => strip_prefix_char wc "*")
      (List.filter (fun d => starts_with d "*.")
        (List.filter (fun d => negb (is_some (parse_ipv4 d))) (split "," s))))
    (plain_entries s)
    (bool_decide (plain_entries s = [""]) || str_mem "*" (plain_entries s))
    (List.filter (fun d => is_some (parse_ipv4 d)) (split "," s)).
Proof. unfold get_egress_allow_list. by rewrite !partition_filter. Qed.

Lemma elem_of_plain s d :
  d ∈ plain_entries s ↔ d ∈ split "," s ∧ parse_ipv4 d = None ∧ starts_with d "*." = false.
Proof.
  unfold plain_entries. rewrite !elem_of_filterb, !negb_true_iff.
  destruct (parse_ipv4 d); simpl; naive_solver.
Qed.

Lemma elem_of_wildcards s w :
  w ∈ wildcard (get_egress_allow_list s) ↔ ∃ base, w = "." +:+ base ∧ "*." +:+ base ∈ split "," s.
Proof.
  rewrite get_egress_allow_list_unfold. cbn [wildcard]. rewrite list_elem_of_omap. split.
  - intros (d & Hd & Hs). rewrite !elem_of_filterb in Hd. destruct Hd as [[Hin _] Hw].
    apply starts_with_spec in Hw as [t ->]. cbn [strip_prefix_char] in Hs.
    simpl in Hs. simplify_eq. by exists t.
  - intros (base & -> & Hin). exists ("*." +:+ base). split; [|done].
    assert (starts_with ("*." +:+ base) "*." = true) as Hw
      by (apply starts_with_spec; by exists base).
    rewrite !elem_of_filterb, Hw, (wildcard_not_ip _ Hw). done.
Qed.

(** The domain check implements the configured list: a domain passes exactly
    when the comma-separated string lists it, has a wildcard [*.base] it is
    under, has the entry [*], or has no plain entry but the empty one. *)
Theorem domain_check_spec s domain :
  check_domain_allow_list domain (get_egress_allow_list s) = Ok tt ↔ admits s domain.
Proof.
  unfold check_domain_allow_list, admits.
  rewrite <-elem_of_plain.
  assert ("*" ∈ split "," s ↔ "*" ∈ plain_entries s) as ->.
  { rewrite elem_of_plain. naive_solver. }
  destruct (existsb _ _) eqn:Ex.
  - rewrite orb_true_r. split; [|done]. intros _. right. right.
    apply existsb_exists in Ex as (w & Hw & He). apply list_elem_of_In, elem_of_wildcards in Hw.
    destruct Hw as (base & -> & Hin). apply ends_with_spec in He as [t ->]. by exists base, t.
  - rewrite orb_false_r. rewrite get_egress_allow_list_unfold. cbn [exact allow_all].
    match goal with |- (if ?c then _ else _) = _ ↔ _ => destruct c eqn:Ec end.
    + split; [|done]. intros _. rewrite !orb_true_iff, !str_mem_spec, bool_decide_eq_true in Ec.
      naive_solver.
    + split; [done|]. rewrite !orb_false_iff, bool_decide_eq_false in Ec.
      rewrite <-!not_true_iff_false, !str_mem_spec in Ec.
      intros [H|[[H|H]|(base & t & Hb & Hd)]]; [naive_solver..|].
      apply not_true_iff_false in Ex. destruct Ex. apply existsb_exists.
      exists ("." +:+ base). rewrite <-list_elem_of_In, elem_of_wildcards, ends_with_spec.
      split; [by exists base|by exists t].
Qed.

(** A trailing comma opens the list: when every entry is an address or a
    wildcard, appending a comma adds an empty plain entry, which the code
    reads as the empty list, and every domain and address is allowed. *)
Theorem trailing_comma_allows_all entries :
  entries ≠ [] →
  Forall (fun e => no_char "," e = true ∧
    (is_some (parse_ipv4 e) = true ∨ starts_with e "*." = true)) entries →
  allow_all (get_egress_allow_list (join "," (entries ++ [""]))) = true.
Proof.
  intros Hne Hall. rewrite get_egress_allow_list_unfold. cbn [allow_all].
  apply orb_true_iff. left. apply bool_decide_eq_true. unfold plain_entries.
  rewrite split_join.
  - clear Hne. rewrite !List.filter_app. simpl.
    induction Hall as [|e es [_ He] _ IH]; [done|]. simpl.
    destruct (is_some (parse_ipv4 e)); simpl; [done|]. destruct He as [|He]; [done|].
    by rewrite He.
  - by destruct entries.
  - apply Forall_app. split; [|by repeat constructor]. eapply Forall_impl; [exact Hall|]. naive_solver.
Qed.

Lemma trailing_comma_allows_all_witness :
  allow_all (get_egress_allow_list "1.2.3.4,*.evervault.com,") = true.
Proof.
  apply (trailing_comma_allows_all ["1.2.3.4"; "*.evervault.com"]); [done|].
  constructor; [split; [done|by left]|]. constructor; [split; [done|by right]|constructor].
Defined.

(** ** Where cached addresses come from *)

(** [ip] is the address of an A record of the packet. *)
Definition answered (packet : Packet) (ip : string) : Prop :=
  ∃ ans addr, ans ∈ answers packet ∧ rr_data ans = RA addr ∧ ip = ip_to_string addr.

Section CacheLemmas.
Context {T : TtlLib} {TL : TtlLaws T} {D : DnsLib}.

Lemma cache_answers_spec l w r w' : cache_answers l w = (r, w') →
  ic_now w' = ic_now w ∧ ic_poisoned w' = ic_poisoned w ∧
  ∀ ip now x, ttl_get (ic_cache w') ip now = Some x →
    ttl_get (ic_cache w) ip now = Some x ∨
    ∃ ans addr, ans ∈ l ∧ rr_data ans = RA addr ∧ ip = ip_to_string addr.
Proof.
  revert w. induction l as [|ans l IH]; intros w; cbn [cache_answers].
  - intros [= <- <-]. eauto.
  - unfold mbind. destruct (rr_data ans) as [addr|] eqn:Ed.
    + unfold cache_ip. destruct (ic_poisoned w) eqn:Ep.
      * intros [= <- <-]. eauto.
      * intros H%IH. cbn [ic_now ic_poisoned ic_cache] in H. destruct H as (-> & -> & H).
        do 2 (split; [done|]). intros ip now x Hx.
        apply H in Hx as [Hx|(a & ad & Ha & ?)]; [|right; exists a, ad; set_solver].
        apply ttl_get_insert in Hx as [(<- & _)|Hx]; [right|by left].
        exists ans, addr. set_solver.
    + intros H%IH. destruct H as (-> & -> & H). do 2 (split; [done|]). intros ip now x Hx.
      apply H in Hx as [Hx|(a & ad & Ha & ?)]; [by left|right; exists a, ad; set_solver].
Qed.

(** An insertion fails only on a poisoned lock, before anything changed. *)
Lemma cache_answers_throw l w e w' :
  cache_answers l w = (Throw e, w') → ic_poisoned w = true ∧ w' = w.
Proof.
  revert w. induction l as [|ans l IH]; intros w; [done|]. cbn [cache_answers]. unfold mbind.
  destruct (rr_data ans); [|by intros H%IH]. unfold cache_ip.
  destruct (ic_poisoned w) eqn:Ep; [by intros [= <- <-]|]. by intros [? _]%IH.
Qed.

Lemma cache_ip_throw p w e w' : cache_ip_for_allowlist p w = (Throw e, w') → w' = w.
Proof.
  unfold cache_ip_for_allowlist. destruct (packet_parse p); [|by intros [= <- <-]].
  by intros [_ ?]%cache_answers_throw.
Qed.

Lemma cache_ip_for_allowlist_spec p w r w' : cache_ip_for_allowlist p w = (r, w') →
  ic_now w' = ic_now w ∧ ic_poisoned w' = ic_poisoned w ∧
  ∀ ip now x, ttl_get (ic_cache w') ip now = Some x →
    ttl_get (ic_cache w) ip now = Some x ∨
    ∃ packet, packet_parse p = Some packet ∧ answered packet ip.
Proof.
  unfold cache_ip_for_allowlist. destruct (packet_parse p) as [packet|] eqn:E.
  - intros (? & ? & H)%cache_answers_spec. do 2 (split; [done|]).
    intros ip now x [Hx|Hx]%H; [by left|right; by exists packet].
  - intros [= <- <-]. eauto.
Qed.

(** An accepted address is open to all, listed, or in the cache now. *)
Lemma check_ip_allow_list_ok ip allowed w : check_ip_allow_list ip allowed w = Ok tt →
  allow_all allowed = true ∨ ip ∈ ips allowed ∨
  ∃ x, ttl_get (ic_cache w) ip (ic_now w) = Some x.
Proof.
  unfold check_ip_allow_list, is_valid_ip_from_dns.
  destruct (allow_all allowed); [by left|]. destruct (str_mem ip (ips allowed)) eqn:E; cbn [orb].
  - right. left. by apply str_mem_spec.
  - destruct (ic_poisoned w); [done|]. cbn [rbind].
    destruct (ttl_get _ _ _) as [x|]; [|done]. intros _. right. right. by exists x.
Qed.
End CacheLemmas.
