(* ===== verification/Jws.v ===== *)
(** * JSON web signatures (shared/src/acme)

    The keys and signatures the control plane makes for the ACME client.
    OpenSSL, base64 and serde_json are parameters; the layout of the raw
    signature and of the key coordinates is what the code lays out. *)
From Stdlib Require Import Ascii String NArith Lia.
From stdpp Require Import base strings list.
From S2P Require Import Prelude Libs.
#[local] Open Scope string_scope.
#[local] Open Scope list_scope.
#[local] Open Scope enclave_scope.

(** [shared::acme::error::AcmeError]; the text of a foreign error is kept. *)
Inductive AcmeError : Type :=
| AcmeIo (e : string)
| AcmeHyper (e : string)
| AcmeSerde (e : string)
| AcmeFailedRequest (status : N)
| AcmeClient (e : string)
| AcmeHttp (e : string)
| NoNonce
| AcmePoison (e : string)
| HeaderConversionError
| OpenSSLError
| Base64DecodeError
| AcmeUtf8
| NoDirectory (e : string)
| CsrError (e : string)
| FieldNotFound (f : string)
| PrivateKeyNotSet
| AcmeGeneral (e : string).

(** ** Big numbers *)

Fixpoint le_bytes (fuel : nat) (n : N) : bytes :=
  match fuel with
  | O => []
  | S f => if (n =? 0)%N then [] else ascii_of_N (n mod 256) :: le_bytes f (n / 256)
  end.

(** [BigNumRef::to_vec]: big-endian, without leading zeros. *)
Definition BigNum_to_vec (n : N) : bytes := rev (le_bytes (N.size_nat n) n).

Fixpoint of_le (i : bytes) : N :=
  match i with [] => 0 | c :: i' => N_of_ascii c + 256 * of_le i' end%N.

(** [BigNum::from_slice] *)
Definition BigNum_from_slice (i : bytes) : N := of_le (rev i).

(** ** Keys and headers *)

Record Jwk : Type := mkJwk {
  jwk_alg : string; jwk_crv : string; jwk_kty : string; jwk_use : string; jwk_x : string; jwk_y : string
}.

Record JwkThumb : Type := mkThumb { th_crv : string; th_kty : string; th_x : string; th_y : string }.

(** [impl From<&Jwk> for JwkThumb], and from the response with the same fields. *)
Definition JwkThumb_from (jwk : Jwk) : JwkThumb :=
  mkThumb (jwk_crv jwk) (jwk_kty jwk) (jwk_x jwk) (jwk_y jwk).

(** [JwkResponse] has the fields of [Jwk]. *)
Definition to_response (jwk : Jwk) : Jwk :=
  mkJwk (jwk_alg jwk) (jwk_crv jwk) (jwk_kty jwk) (jwk_use jwk) (jwk_x jwk) (jwk_y jwk).

Record JwsHeader : Type := mkJwsHeader {
  h_alg : string; h_jwk : option Jwk; h_kid : option string; h_nonce : option string; h_url : string
}.

(** [JwsResult], [JwsResponse] and [JoseJson]. *)
Record JwsResult : Type := mkJws { protected : string; payload : string; signature : string }.

Definition JwsResponse_from (jws : JwsResult) : JwsResult :=
  mkJws (protected jws) (payload jws) (signature jws).

Record Identifier : Type := mkIdentifier { id_type : string; id_value : string }.
Record NewOrderPayload : Type := mkNewOrder { identifiers : list Identifier }.

(** What the code uses of OpenSSL. *)
Class OpenSsl : Type := {
  PKey : Type;
  is_hmac : PKey → bool;
  (** the affine coordinates of the public point *)
  ec_coordinates : PKey → option (N * N);
  (** [Signer] over SHA-256 *)
  sign : PKey → bytes → option bytes;
  (** [EcdsaSig::from_der] *)
  sig_from_der : bytes → option (N * N);
  (** [PKey::hmac] *)
  pkey_hmac : bytes → option PKey
}.

Section Jws.
Context {O : OpenSsl} (b64 : bytes → string) (b64_dec : string → option bytes).
Context (header_json : JwsHeader → option string).

(** [b64_decode], and [PKey::hmac] on its bytes. *)
Definition hmac_from_b64_string (key : string) : result AcmeError PKey :=
  let? key_bytes := ok_or (b64_dec key) Base64DecodeError in
  ok_or (pkey_hmac key_bytes) OpenSSLError.

Definition extract_ec_coordinates (key : PKey) : result AcmeError (string * string) :=
  let? c := ok_or (ec_coordinates key) OpenSSLError in
  Ok (b64 (BigNum_to_vec c.1), b64 (BigNum_to_vec c.2)).

Definition Jwk_new (pkey : PKey) : result AcmeError Jwk :=
  let? c := extract_ec_coordinates pkey in
  Ok (mkJwk "ES256" "P-256" "EC" "sig" c.1 c.2).

(** [arr[32 - v.len() ..].copy_from_slice(v)] on 32 zeros; [None] panics. *)
Definition pad32 (v : bytes) : option bytes :=
  if Nat.leb (length v) 32 then Some (repeat "000"%char (32 - length v) ++ v) else None.

Definition der_sig_to_jws_sig (der_encoded_sig : bytes) : exec AcmeError string :=
  match sig_from_der der_encoded_sig with
  | None => Throw OpenSSLError
  | Some (r, s) =>
      match pad32 (BigNum_to_vec r), pad32 (BigNum_to_vec s) with
      | Some r_arr, Some s_arr => Ret (b64 (r_arr ++ s_arr))
      | _, _ => Panic
      end
  end.

Definition jws_header (url : string) (nonce : option string) (pkey : option PKey)
    (account_id : option string) : result AcmeError JwsHeader :=
  let alg := match pkey with
             | Some key => if is_hmac key then "HS256" else "ES256"
             | None => "ES256"
             end in
  match account_id, pkey with
  | Some kid, _ => Ok (mkJwsHeader alg None (Some kid) nonce url)
  | None, Some key => let? jwk := Jwk_new key in Ok (mkJwsHeader alg (Some jwk) None nonce url)
  | None, None => Ok (mkJwsHeader alg None None nonce url)
  end.

Definition jws (url : string) (nonce : option string) (payload : string) (pkey : option PKey)
    (account_id : option string) : exec AcmeError JwsResult :=
  let payload_b64 := b64 (b payload) in
  match jws_header url nonce pkey account_id with
  | Err e => Throw e
  | Ok header =>
      match header_json header, pkey with
      | None, _ => Throw (AcmeSerde "")
      | Some _, None => Throw PrivateKeyNotSet
      | Some json, Some private_key =>
          let protected_b64 := b64 (b json) in
          match sign private_key (b (protected_b64 +:+ "." +:+ payload_b64)) with
          | None => Throw OpenSSLError
          | Some der_encoded_sig =>
              if String.eqb (h_alg header) "HS256"
              then Ret (mkJws protected_b64 payload_b64 (b64 der_encoded_sig))
              else match der_sig_to_jws_sig der_encoded_sig with
                   | Ret sig => Ret (mkJws protected_b64 payload_b64 sig)
                   | Throw e => Throw e
                   | Panic => Panic
                   end
          end
      end
  end.
End Jws.

(** ** Widths *)

Lemma le_bytes_bound f n k : (n < 256 ^ N.of_nat k)%N → (length (le_bytes f n) ≤ k)%nat.
Proof.
  revert n k. induction f as [|f IH]; intros n k Hn; cbn [le_bytes length]; [lia|].
  destruct (N.eqb_spec n 0) as [->|Hz]; cbn [length]; [lia|].
  destruct k as [|k]; [cbn in Hn; lia|].
  rewrite Nat2N.inj_succ, N.pow_succ_r' in Hn.
  assert (n / 256 < 256 ^ N.of_nat k)%N by (apply N.Div0.div_lt_upper_bound; lia).
  specialize (IH (n / 256)%N k). lia.
Qed.

Lemma of_le_bytes f n : (n < 256 ^ N.of_nat f)%N → of_le (le_bytes f n) = n.
Proof.
  revert n. induction f as [|f IH]; intros n Hn; cbn [le_bytes].
  - cbn in *. lia.
  - destruct (N.eqb_spec n 0) as [->|Hz]; [done|]. cbn [of_le].
    assert (n mod 256 < 256)%N by by apply N.mod_lt.
    rewrite N_ascii_embedding by done.
    rewrite Nat2N.inj_succ, N.pow_succ_r' in Hn.
    rewrite IH by (apply N.Div0.div_lt_upper_bound; lia).
    pose proof (N.div_mod n 256). lia.
Qed.

Lemma size_nat_size n : N.of_nat (N.size_nat n) = N.size n.
Proof.
  destruct n as [|p]; [done|]. cbn [N.size_nat N.size].
  induction p as [p IH|p IH|]; cbn [Pos.size_nat Pos.size]; [lia..|done].
Qed.

Lemma size_bound n : (n < 256 ^ N.of_nat (N.size_nat n))%N.
Proof.
  rewrite size_nat_size. eapply N.lt_le_trans; [apply N.size_gt|]. by apply N.pow_le_mono_l.
Qed.

Lemma to_vec_length n k : (n < 256 ^ N.of_nat k)%N → (length (BigNum_to_vec n) ≤ k)%nat.
Proof. intros Hn. unfold BigNum_to_vec. rewrite length_rev. by apply le_bytes_bound. Qed.

Lemma of_le_zeros i k : of_le (i ++ repeat "000"%char k) = of_le i.
Proof.
  induction i as [|c i IH]; cbn [of_le app]; [|by rewrite IH].
  induction k as [|k IH]; cbn [repeat of_le]; [done|]. by rewrite IH.
Qed.

Lemma rev_repeat {A} (x : A) k : rev (repeat x k) = repeat x k.
Proof.
  induction k as [|k IH]; cbn [repeat rev]; [done|]. rewrite IH. by rewrite <-repeat_cons.
Qed.

(** A padded number has 32 bytes and is the number. *)
Lemma pad32_spec n : (n < 2 ^ 256)%N →
  ∃ v, pad32 (BigNum_to_vec n) = Some v ∧ length v = 32%nat ∧ BigNum_from_slice v = n.
Proof.
  intros Hn. assert (length (BigNum_to_vec n) ≤ 32)%nat as Hl by (apply to_vec_length; exact Hn).
  unfold pad32. rewrite (proj2 (Nat.leb_le _ _) Hl). eexists. split; [done|]. split.
  - rewrite length_app, repeat_length. lia.
  - unfold BigNum_from_slice. rewrite rev_app_distr, rev_repeat, of_le_zeros.
    unfold BigNum_to_vec. rewrite rev_involutive. apply of_le_bytes, size_bound.
Qed.

Section JwsProperties.
Context {O : OpenSsl} (b64 : bytes → string) (header_json : JwsHeader → option string).

(** The signature of an elliptic-curve key is the fixed-width one of the
    standard: for a key that signs with r and s below 2^256, signing a payload
    gives a signature of exactly 64 bytes whose halves are r and s in
    big-endian, over the protected header and the payload the result carries. *)
Theorem jws_signature_is_fixed_width url nonce text key kid json der r s :
  is_hmac key = false →
  jws_header b64 url nonce (Some key) kid = Ok json →
  ∀ header, header_json json = Some header →
  sign key (b (b64 (b header) +:+ "." +:+ b64 (b text))) = Some der →
  sig_from_der der = Some (r, s) → (r < 2 ^ 256)%N → (s < 2 ^ 256)%N →
  ∃ raw, jws b64 header_json url nonce text (Some key) kid
      = Ret (mkJws (b64 (b header)) (b64 (b text)) (b64 raw)) ∧
    length raw = 64%nat ∧ BigNum_from_slice (take 32 raw) = r ∧ BigNum_from_slice (drop 32 raw) = s.
Proof.
  intros Hk Hh header Hj Hs Hd Hr Hs'. unfold jws. rewrite Hh, Hj, Hs.
  assert (h_alg json = "ES256") as ->.
  { unfold jws_header in Hh. rewrite Hk in Hh. destruct kid; [by simplify_eq/=|].
    destruct (Jwk_new b64 key); by simplify_eq/=. }
  unfold der_sig_to_jws_sig. rewrite Hd.
  destruct (pad32_spec r Hr) as (vr & -> & Lr & Er), (pad32_spec s Hs') as (vs & -> & Ls & Es).
  eexists. split; [reflexivity|]. rewrite length_app, take_app_length', drop_app_length' by done.
  split; [lia|done].
Qed.

(** The coordinates of a key are not padded: a coordinate with a leading zero
    byte is encoded in fewer than the 32 bytes the standard asks for. *)
Theorem jwk_coordinate_is_short key x y :
  ec_coordinates key = Some (x, y) → (x < 2 ^ 248)%N →
  ∃ xs, Jwk_new b64 key = Ok (mkJwk "ES256" "P-256" "EC" "sig" (b64 xs) (b64 (BigNum_to_vec y))) ∧
    (length xs < 32)%nat ∧ BigNum_from_slice xs = x.
Proof.
  intros He Hx. unfold Jwk_new, extract_ec_coordinates. rewrite He. cbn [ok_or rbind fst snd].
  eexists. split; [done|]. split.
  - assert (length (BigNum_to_vec x) ≤ 31)%nat by (apply to_vec_length; exact Hx). lia.
  - unfold BigNum_from_slice, BigNum_to_vec. rewrite rev_involutive. apply of_le_bytes, size_bound.
Qed.
End JwsProperties.

(** ** Witnesses *)

(** Keys are numbers; a signature is two fixed numbers. *)
Definition toy_ssl : OpenSsl := {|
  PKey := N;
  is_hmac _ := false;
  ec_coordinates k := Some (k, 77%N);
  sign k m := Some m;
  sig_from_der _ := Some (258%N, 3%N);
  pkey_hmac _ := None
|}.

Lemma jws_signature_is_fixed_width_witness : ∃ raw,
  jws (O := toy_ssl) String.string_of_list_ascii (fun h => Some (h_url h)) "url" None "text" (Some 5%N) (Some "kid")
    = Ret (mkJws "url" "text" (String.string_of_list_ascii raw)) ∧
  length raw = 64%nat ∧ BigNum_from_slice (take 32 raw) = 258%N ∧ BigNum_from_slice (drop 32 raw) = 3%N.
Proof.
  eapply (jws_signature_is_fixed_width (O := toy_ssl) String.string_of_list_ascii (fun h => Some (h_url h))
    "url" None "text" 5%N (Some "kid") (mkJwsHeader "ES256" None (Some "kid") None "url") _ 258%N 3%N
    eq_refl eq_refl "url" eq_refl eq_refl eq_refl); reflexivity.
Defined.

Lemma jwk_coordinate_is_short_witness : ∃ xs,
  Jwk_new (O := toy_ssl) String.string_of_list_ascii 5%N
    = Ok (mkJwk "ES256" "P-256" "EC" "sig" (String.string_of_list_ascii xs)
        (String.string_of_list_ascii (BigNum_to_vec 77))) ∧
  (length xs < 32)%nat ∧ BigNum_from_slice xs = 5%N.
Proof.
  apply (jwk_coordinate_is_short (O := toy_ssl) String.string_of_list_ascii 5%N 5%N 77%N); reflexivity.
Defined.
