(* ===== verification/CpError.v ===== *)
(** * Errors of the control plane (control-plane/src/error.rs)

    One type for all its components; a payload is kept where a handler looks
    at it or prints it. *)
From Stdlib Require Import String.
From stdpp Require Import base.
From S2P Require Import Net Egress Jws.

Inductive ServerError : Type :=
| SeIo
| SeRpc
| SeServer
| SeHyper
| SeHyperHttp
| SeDns
| SeIllegalInternalIp (ip : IpAddr)
| SeInvalidIp
| SeFailedRequest (status : string)
| SeJson
| SeCertProvisionerMtls (e : string)
| SeEnv
| SeEgress (e : EgressError)
| SeStorageClient (e : string)
| SeAcme (e : AcmeError)
| SeInvalidDnsConfig.
