(* ===== verification/EgressProxy.v ===== *)
(** * Egress proxies

    The path of an outgoing connection: the data plane's proxy
    (data-plane/src/dns/egressproxy.rs) checks the destination and hands the
    first bytes to the control plane's proxy (control-plane/src/egressproxy.rs),
    which checks it again and connects; names are resolved through
    data-plane/src/dns/enclavedns.rs and control-plane/src/dnsproxy.rs. The
    sockets are [Conn]s, the MessagePack codec is an interface. *)
From Stdlib Require Import Ascii String NArith ZArith Lia ZifyBool.
From stdpp Require Import base gmap strings list.
From S2P Require Import Prelude Net Egress CpError.
#[local] Open Scope string_scope.
#[local] Open Scope list_scope.
#[local] Open Scope enclave_scope.

(** ** Address classes (control-plane/src/egressproxy.rs) *)

Section Ipv4Std.
Local Open Scope N_scope.

(** The predicates of [std::net::Ipv4Addr]. *)
Definition is_private (a b c d : N) : bool :=
  (a =? 10) || ((a =? 172) && (16 <=? b) && (b <=? 31)) || ((a =? 192) && (b =? 168)).
Definition is_loopback (a b c d : N) : bool := a =? 127.
Definition is_link_local (a b c d : N) : bool := (a =? 169) && (b =? 254).
Definition is_broadcast (a b c d : N) : bool :=
  (a =? 255) && (b =? 255) && (c =? 255) && (d =? 255).
Definition is_documentation (a b c d : N) : bool :=
  ((a =? 192) && (b =? 0) && (c =? 2)) || ((a =? 198) && (b =? 51) && (c =? 100))
  || ((a =? 203) && (b =? 0) && (c =? 113)).

Definition is_not_globally_reachable_ipv4 (a b c d : N) : bool :=
  if is_private a b c d || is_loopback a b c d || is_link_local a b c d
     || is_broadcast a b c d || is_documentation a b c d then true
  else if (a =? 192) && (b =? 88) && (c =? 99) then true
  else if (a =? 192) && (b =? 0) && (c =? 0) then (d =? 170) || (d =? 171)
  else if a =? 198 then (b =? 18) || (b =? 19)
  else if a =? 100 then N.land b 192 =? 64
  else (240 <=? a) || (a =? 0).

(** [u128::from_be_bytes(octets)] *)
Definition ipv6_bits (s0 s1 s2 s3 s4 s5 s6 s7 : N) : N :=
  fold_left (fun acc s => acc * 65536 + s) [s0; s1; s2; s3; s4; s5; s6; s7] 0.

Definition is_not_globally_reachable_ipv6 (s0 s1 s2 s3 s4 s5 s6 s7 : N) : bool :=
  let bits := ipv6_bits s0 s1 s2 s3 s4 s5 s6 s7 in
  (bits =? 0)
  || (bits =? 1)
  || ((s0 =? 0) && (s1 =? 0) && (s2 =? 0) && (s3 =? 0) && (s4 =? 0) && (s5 =? 0xffff))
  || ((s0 =? 0x64) && (s1 =? 0xff9b) && (s2 =? 1))
  || ((s0 =? 0x100) && (s1 =? 0) && (s2 =? 0) && (s3 =? 0))
  || (((s0 =? 0x2001) && (s1 <? 0x200))
      && negb
        ((bits =? 0x20010001000000000000000000000001)
         || (bits =? 0x20010001000000000000000000000002)
         || ((s0 =? 0x2001) && (s1 =? 3))
         || ((s0 =? 0x2001) && (s1 =? 4) && (s2 =? 0x112))
         || ((s0 =? 0x2001) && (0x20 <=? s1) && (s1 <=? 0x2F))))
  || ((s0 =? 0x2001) && (s1 =? 0xdb8))
  || (N.land s0 0xfe00 =? 0xfc00)
  || (N.land s0 0xffc0 =? 0xfe80).
End Ipv4Std.

Definition is_not_globally_reachable_ip (ip_addr : IpAddr) : bool :=
  match ip_addr with
  | V4 a b c d => is_not_globally_reachable_ipv4 a b c d
  | V6 s0 s1 s2 s3 s4 s5 s6 s7 => is_not_globally_reachable_ipv6 s0 s1 s2 s3 s4 s5 s6 s7
  end.

Definition validate_requested_ip (ip_addr : IpAddr) (allow_egress_to_internal : bool) :
    result ServerError unit :=
  if is_not_globally_reachable_ip ip_addr && negb allow_egress_to_internal
  then Err (SeIllegalInternalIp ip_addr)
  else Ok tt.

(** ** The message between the two proxies (shared/src/rpc/request.rs) *)

Record ExternalRequest : Type := mkRequest { er_ip : IpAddr; er_data : bytes; er_port : N }.

Class RpcLib : Type := {
  to_bytes : ExternalRequest → option bytes;
  from_bytes : bytes → option ExternalRequest
}.

(** MessagePack: an encoding is decoded to what was encoded, and the bytes after
    it are not looked at; it holds the data and more, and no strict prefix of
    it decodes. *)
Class RpcLaws (R : RpcLib) : Prop := {
  rpc_trailing r e x : to_bytes r = Some e → from_bytes (e ++ x) = Some r;
  rpc_length r e : to_bytes r = Some e → length (er_data r) < length e;
  rpc_prefix r e n : to_bytes r = Some e → n < length e → from_bytes (take n e) = None
}.

(** ** Control plane: connecting out *)

Section ControlPlane.
Context {T : TtlLib} {R : RpcLib}.

Record EgressWorld : Type := mkEgress {
  ew_stream : Conn;
  ew_cache : IpCache;
  (** the connections opened, with the bytes written to them *)
  ew_dialled : list (IpAddr * N * bytes)
}.

Definition ew_shutdown (w : EgressWorld) : EgressWorld :=
  mkEgress (conn_shutdown (ew_stream w)) (ew_cache w) (ew_dialled w).

Section Handle.
(** The network: whether a TCP connection opens, whether it takes the
    first bytes, and how piping ends. *)
Context (connects : IpAddr → N → bool) (accepts : bytes → bool)
  (pipe_streams : IpAddr → N → bool).

Definition handle_connection (allow_internal : bool) (destinations : EgressDestinations) :
    M EgressWorld ServerError unit :=
  let! w := mget in
  let '(packet, stream) := conn_read 4096 (ew_stream w) in
  mmodify (fun w => mkEgress stream (ew_cache w) (ew_dialled w)) ;!
  let! req := mlift (map_err (fun _ => SeIo) packet) in
  let! external_request := mlift (ok_or (from_bytes req) SeRpc) in
  match validate_requested_ip (er_ip external_request) allow_internal with
  | Err e => mmodify ew_shutdown ;! mthrow e
  | Ok _ =>
      let! w := mget in
      match check_ip_allow_list (ip_to_string (er_ip external_request)) destinations (ew_cache w) with
      | Err _ => mmodify ew_shutdown ;! mret tt
      | Ok _ =>
          if connects (er_ip external_request) (er_port external_request) then
            mmodify (fun w => mkEgress (ew_stream w) (ew_cache w)
              ((er_ip external_request, er_port external_request,
                if accepts (er_data external_request) then er_data external_request else [])
               :: ew_dialled w)) ;!
            if accepts (er_data external_request) then
              if pipe_streams (er_ip external_request) (er_port external_request)
              then mret tt else mthrow SeIo
            else mthrow SeIo
          else mthrow SeIo
      end
  end.
End Handle.
End ControlPlane.

(** ** Data plane: handing a connection over *)

Inductive DNSError : Type :=
| DnsIo
| DnsRpc
| DnsEgress (e : EgressError)
| DNSTimeout.

(** [u32::from_be] and [u16::from_be] on a little-endian machine. *)
Definition swap16 (n : N) : N := ((n mod 256) * 256 + n / 256 mod 256)%N.
Definition swap32 (n : N) : N :=
  ((n mod 256) * 16777216 + (n / 256 mod 256) * 65536 + (n / 65536 mod 256) * 256
   + n / 16777216 mod 256)%N.

(** What [getsockopt] reports for the socket: the fields of [sockaddr_in], or
    of [sockaddr_in6] (the address as its 16 bytes). *)
Record SockOpts : Type := mkSockOpts {
  so_v4 : option (N * N);
  so_v6 : option (list N * N)
}.

Definition get_destination_ipv4 (so : SockOpts) : result DNSError (IpAddr * N) :=
  match so_v4 so with
  | None => Err DnsIo
  | Some (s_addr, sin_port) =>
      let ip := swap32 s_addr in
      Ok (V4 (ip / 16777216) (ip / 65536 mod 256) (ip / 256 mod 256) (ip mod 256), swap16 sin_port)%N
  end.

Definition get_destination_ipv6 (so : SockOpts) : result DNSError (IpAddr * N) :=
  match so_v6 so with
  | Some ([b0; b1; b2; b3; b4; b5; b6; b7; b8; b9; b10; b11; b12; b13; b14; b15], sin6_port) =>
      Ok (V6 (b0 * 256 + b1) (b2 * 256 + b3) (b4 * 256 + b5) (b6 * 256 + b7)
             (b8 * 256 + b9) (b10 * 256 + b11) (b12 * 256 + b13) (b14 * 256 + b15),
          swap16 sin6_port)%N
  | _ => Err DnsIo
  end.

Definition get_destination (so : SockOpts) : result DNSError (IpAddr * N) :=
  match get_destination_ipv4 so with
  | Ok ip => Ok ip
  | Err _ => get_destination_ipv6 so
  end.

Section DataPlane.
Context {T : TtlLib} {R : RpcLib} {D : DnsLib}.

Record HandOver : Type := mkHandOver {
  ho_stream : Conn;
  (** the vsock connection to the control plane, when one can be made *)
  ho_vsock : option Conn;
  ho_cache : IpCache
}.

Definition handle_egress_connection (so : SockOpts) (pipe_streams : bool)
    (allowed_domains : EgressDestinations) : M HandOver DNSError unit :=
  let! w := mget in
  let '(data, stream) := conn_read 4096 (ho_stream w) in
  mmodify (fun w => mkHandOver stream (ho_vsock w) (ho_cache w)) ;!
  let! customer_data := mlift (map_err (fun _ => DnsIo) data) in
  let! data_plane_stream := mlift (ok_or (ho_vsock w) DnsIo) in
  let! dest := mlift (get_destination so) in
  let '(ip, port) := dest in
  let! _ := mlift (map_err DnsEgress (check_ip_allow_list (ip_to_string ip) allowed_domains (ho_cache w))) in
  let! external_request := mlift (ok_or (to_bytes (mkRequest ip customer_data port)) DnsRpc) in
  let '(written, vsock) := conn_write external_request data_plane_stream in
  mmodify (fun w => mkHandOver (ho_stream w) (Some vsock) (ho_cache w)) ;!
  let! _ := mlift (map_err (fun _ => DnsIo) written) in
  if pipe_streams then mret tt else mthrow DnsIo.

(** *** DNS in the enclave (data-plane/src/dns/enclavedns.rs) *)

Record DnsWorld : Type := mkDns { dw_vsock : option Conn; dw_cache : IpCache }.

Definition forward_dns_lookup (packet : bytes) : M DnsWorld DNSError bytes :=
  let! w := mget in
  let! stream := mlift (ok_or (dw_vsock w) DnsIo) in
  let '(written, stream) := conn_write packet stream in
  mmodify (fun w => mkDns (Some stream) (dw_cache w)) ;!
  let! _ := mlift (map_err (fun _ => DnsIo) written) in
  let '(reply, stream) := conn_read 512 stream in
  mmodify (fun w => mkDns (Some stream) (dw_cache w)) ;!
  mlift (map_err (fun _ => DnsIo) reply).

Definition on_cache {A} (m : M IpCache EgressError A) : M DnsWorld DNSError A := fun w =>
  match m (dw_cache w) with
  | (Ret a, c) => (Ret a, mkDns (dw_vsock w) c)
  | (Throw e, c) => (Throw (DnsEgress e), mkDns (dw_vsock w) c)
  | (Panic, c) => (Panic, mkDns (dw_vsock w) c)
  end.

(** [in_time] is whether the lookup ends before [request_upper_bound]. *)
Definition perform_dns_lookup (dns_packet : bytes) (in_time : bool)
    (allowed_destinations : EgressDestinations) : M DnsWorld DNSError bytes :=
  let! _ := mlift (map_err DnsEgress
              (check_dns_allowed_for_domain dns_packet allowed_destinations)) in
  let! dns_response := if in_time then forward_dns_lookup dns_packet
                       else (forward_dns_lookup dns_packet ;! mthrow DNSTimeout) in
  on_cache (cache_ip_for_allowlist dns_response) ;!
  mret dns_response.
End DataPlane.

(** ** DNS in the control plane (control-plane/src/dnsproxy.rs) *)

Definition DNS_SERVERS : list IpAddr :=
  [V4 1 1 1 1; V4 8 8 8 8; V4 208 67 222 222; V4 1 0 0 1; V4 8 8 4 4; V4 208 67 220 220].

Section DnsProxy.
Context {T : TtlLib} {D : DnsLib}.
(** The UDP side: whether a socket to the server opens, and its reply. *)
Context (remote_dns_socket : IpAddr → bool) (exchange : IpAddr → bytes → option bytes).

Record ProxyWorld : Type := mkProxy { pw_stream : Conn; pw_cache : IpCache }.

Definition proxy_dns_connection (target_ip : IpAddr) (allowed_domains : EgressDestinations) :
    M ProxyWorld ServerError unit :=
  let! w := mget in
  let '(packet, stream) := conn_read 512 (pw_stream w) in
  mmodify (fun w => mkProxy stream (pw_cache w)) ;!
  let! request := mlift (map_err (fun _ => SeIo) packet) in
  if remote_dns_socket target_ip then
    let! _ := mlift (map_err SeEgress (check_dns_allowed_for_domain request allowed_domains)) in
    let! reply := mlift (ok_or (exchange target_ip request) SeIo) in
    let response_bytes := take 512 reply in
    let! w := mget in
    let '(cached, c) := cache_ip_for_allowlist response_bytes (pw_cache w) in
    mmodify (fun w => mkProxy (pw_stream w) c) ;!
    match cached with
    | Throw e => mthrow (SeEgress e)
    | Panic => mpanic
    | Ret _ =>
        let '(written, s) := conn_write response_bytes (pw_stream w) in
        mmodify (fun w => mkProxy s (pw_cache w)) ;!
        mlift (map_err (fun _ => SeIo) written)
    end
  else mthrow SeIo.

(** The task spawned per connection: the servers are tried in turn. *)
Fixpoint serve_dns_connection (dns_services : list IpAddr) (allowed_domains : EgressDestinations) :
    M ProxyWorld ServerError unit :=
  match dns_services with
  | [] => mret tt
  | dns_service :: rest =>
      let! dns_lookup := mtry (proxy_dns_connection dns_service allowed_domains) in
      match dns_lookup with
      | Ok _ => mret tt
      | Err (SeEgress _) => mret tt
      | Err _ => serve_dns_connection rest allowed_domains
      end
  end.
End DnsProxy.

(** ** Address blocks *)

Section Blocks.
Local Open Scope N_scope.

Definition quad (a b c d : N) : N := ((a * 256 + b) * 256 + c) * 256 + d.

(** [addr] lies in the block of [net] with a prefix of [p] bits. *)
Definition in_block (bits net p addr : N) : bool := addr / 2 ^ (bits - p) =? net / 2 ^ (bits - p).

(** The IPv4 blocks that are not reachable from the Internet. *)
Definition special_blocks_v4 : list (N * N) :=
  [ (quad 0 0 0 0, 8);        (* this host *)
    (quad 10 0 0 0, 8);       (* private *)
    (quad 100 64 0 0, 10);    (* shared *)
    (quad 127 0 0 0, 8);      (* loopback *)
    (quad 169 254 0 0, 16);   (* link local *)
    (quad 172 16 0 0, 12);    (* private *)
    (quad 192 0 0 170, 31);   (* NAT64/DNS64 discovery *)
    (quad 192 0 2 0, 24);     (* documentation *)
    (quad 192 88 99 0, 24);   (* 6to4 relay *)
    (quad 192 168 0 0, 16);   (* private *)
    (quad 198 18 0 0, 15);    (* benchmarking *)
    (quad 198 51 100 0, 24);  (* documentation *)
    (quad 203 0 113 0, 24);   (* documentation *)
    (quad 240 0 0 0, 4) ].    (* reserved and broadcast *)

Definition in_special_v4 (a b c d : N) : bool :=
  existsb (fun blk => in_block 32 blk.1 blk.2 (quad a b c d)) special_blocks_v4.

Lemma below_8 (P : N → bool) n :
  n < 256 → forallb (fun k => P (N.of_nat k)) (seq 0 256) = true → P n = true.
Proof.
  intros Hn H. rewrite forallb_forall in H. specialize (H (N.to_nat n)). rewrite N2Nat.id in H.
  apply H, in_seq. lia.
Qed.

Lemma land_192 b : b < 256 → (N.land b 192 =? 64) = (64 <=? b) && (b <? 128).
Proof.
  intros Hb. apply eqb_prop.
  apply (below_8 (fun b => Bool.eqb (N.land b 192 =? 64) ((64 <=? b) && (b <? 128))));
    [done|vm_compute; reflexivity].
Qed.

Lemma div_range addr k m : 0 < k → (addr / k =? m) = (m * k <=? addr) && (addr <? (m + 1) * k).
Proof.
  intros Hk. apply eq_true_iff_eq. rewrite andb_true_iff, N.eqb_eq, N.leb_le, N.ltb_lt.
  pose proof (N.Div0.div_mod addr k) as Hd. assert (addr mod k < k) as Hm by (apply N.mod_lt; lia).
  rewrite N.mul_add_distr_r, N.mul_1_l. split.
  - intros <-. rewrite (N.mul_comm k) in Hd. revert Hd Hm.
    generalize (addr / k) (addr mod k). intros q r. generalize (q * k). lia.
  - intros [H1 H2]. symmetry. apply (N.div_unique _ _ _ (addr - m * k)); [lia|].
    rewrite (N.mul_comm k). lia.
Qed.

(** Membership in a concrete block is an interval test, *)
Lemma in_special_v4_ranges a b c d :
  in_special_v4 a b c d =
  existsb (fun r => (r.1 <=? quad a b c d) && (quad a b c d <? r.2))
    [(0, 16777216); (167772160, 184549376); (1681915904, 1686110208);
     (2130706432, 2147483648); (2851995648, 2852061184); (2886729728, 2887778304);
     (3221225642, 3221225644); (3221225984, 3221226240); (3227017984, 3227018240);
     (3232235520, 3232301056); (3323068416, 3323199488); (3325256704, 3325256960);
     (3405803776, 3405804032); (4026531840, 4294967296)].
Proof.
  unfold in_special_v4, special_blocks_v4, in_block. cbn [existsb fst snd].
  generalize (quad a b c d) as q. intros q. rewrite !div_range by done. reflexivity.
Qed.

(** and so a test on the octets. *)
Lemma in_special_v4_octets a b c d : wf_ip (V4 a b c d) →
  in_special_v4 a b c d =
    (a =? 0) || ((a =? 10) || ((a =? 100) && (64 <=? b) && (b <? 128) || ((a =? 127)
    || ((a =? 169) && (b =? 254) || ((a =? 172) && (16 <=? b) && (b <=? 31)
    || ((a =? 192) && (b =? 0) && (c =? 0) && (170 <=? d) && (d <=? 171)
    || ((a =? 192) && (b =? 0) && (c =? 2) || ((a =? 192) && (b =? 88) && (c =? 99)
    || ((a =? 192) && (b =? 168) || ((a =? 198) && (18 <=? b) && (b <=? 19)
    || ((a =? 198) && (b =? 51) && (c =? 100) || ((a =? 203) && (b =? 0) && (c =? 113)
    || ((240 <=? a) || false))))))))))))).
Proof.
  intros (Ha & Hb & Hc & Hd). rewrite in_special_v4_ranges.
  cbn [existsb fst snd]. unfold quad. repeat (apply f_equal2; [lia|]). reflexivity.
Qed.

Lemma reachable_v4_blocks a b c d : wf_ip (V4 a b c d) →
  is_not_globally_reachable_ipv4 a b c d = in_special_v4 a b c d.
Proof.
  intros Hwf. rewrite in_special_v4_octets by done. destruct Hwf as (Ha & Hb & Hc & Hd).
  unfold is_not_globally_reachable_ipv4, is_private, is_loopback, is_link_local, is_broadcast,
    is_documentation. rewrite land_192 by done.
  repeat match goal with
  | |- context [a =? ?k] =>
      destruct (N.eqb_spec a k) as [->|]; [cbn -[N.leb N.ltb N.eqb]; try lia|]
  end; cbn [andb orb]; try lia;
  repeat match goal with |- context [if ?c then _ else _] => destruct c eqn:? end; lia.
Qed.

Definition block_v6 (s0 s1 s2 s3 s4 s5 s6 s7 p : N) (addr : N) : bool :=
  in_block 128 (ipv6_bits s0 s1 s2 s3 s4 s5 s6 s7) p addr.

(** The IPv6 blocks that are not reachable: the unspecified and loopback
    addresses, mapped and translated IPv4, discard-only, documentation,
    unique local and link local, and the protocol assignments less the five
    blocks the registry marks as global. *)
Definition in_special_v6 (addr : N) : bool :=
  block_v6 0 0 0 0 0 0 0 0 128 addr
  || block_v6 0 0 0 0 0 0 0 1 128 addr
  || block_v6 0 0 0 0 0 0xffff 0 0 96 addr
  || block_v6 0x64 0xff9b 1 0 0 0 0 0 48 addr
  || block_v6 0x100 0 0 0 0 0 0 0 64 addr
  || (block_v6 0x2001 0 0 0 0 0 0 0 23 addr
      && negb
        (block_v6 0x2001 1 0 0 0 0 0 1 128 addr
         || block_v6 0x2001 1 0 0 0 0 0 2 128 addr
         || block_v6 0x2001 3 0 0 0 0 0 0 32 addr
         || block_v6 0x2001 4 0x112 0 0 0 0 0 48 addr
         || block_v6 0x2001 0x20 0 0 0 0 0 0 28 addr))
  || block_v6 0x2001 0xdb8 0 0 0 0 0 0 32 addr
  || block_v6 0xfc00 0 0 0 0 0 0 0 7 addr
  || block_v6 0xfe80 0 0 0 0 0 0 0 10 addr.

Lemma below_16 (P : N → bool) s : s < 65536 →
  forallb (fun h => forallb (fun l => P (N.of_nat h * 256 + N.of_nat l)) (seq 0 256)) (seq 0 256)
    = true → P s = true.
Proof.
  intros Hs H. rewrite (N.Div0.div_mod s 256), (N.mul_comm 256).
  apply (below_8 (fun l => P (s / 256 * 256 + l))); [by apply N.mod_lt|].
  apply (below_8 (fun h => forallb (fun l => P (h * 256 + N.of_nat l)) (seq 0 256))); [|done].
  apply N.Div0.div_lt_upper_bound. lia.
Qed.

Lemma land_fe00 s : s < 65536 → (N.land s 0xfe00 =? 0xfc00) = (0xfc00 <=? s) && (s <? 0xfe00).
Proof.
  intros Hs. apply eqb_prop.
  apply (below_16 (fun s => Bool.eqb (N.land s 0xfe00 =? 0xfc00) ((0xfc00 <=? s) && (s <? 0xfe00))));
    [done|vm_compute; reflexivity].
Qed.

Lemma land_ffc0 s : s < 65536 → (N.land s 0xffc0 =? 0xfe80) = (0xfe80 <=? s) && (s <? 0xfec0).
Proof.
  intros Hs. apply eqb_prop.
  apply (below_16 (fun s => Bool.eqb (N.land s 0xffc0 =? 0xfe80) ((0xfe80 <=? s) && (s <? 0xfec0))));
    [done|vm_compute; reflexivity].
Qed.

Lemma block_range lo hi net p addr :
  lo = net / 2 ^ (128 - p) * 2 ^ (128 - p) → hi = (net / 2 ^ (128 - p) + 1) * 2 ^ (128 - p) →
  in_block 128 net p addr = (lo <=? addr) && (addr <? hi).
Proof. intros -> ->. unfold in_block. apply div_range. apply N.neq_0_lt_0, N.pow_nonzero. done. Qed.

Lemma reachable_v6_blocks s0 s1 s2 s3 s4 s5 s6 s7 : wf_ip (V6 s0 s1 s2 s3 s4 s5 s6 s7) →
  is_not_globally_reachable_ipv6 s0 s1 s2 s3 s4 s5 s6 s7 =
  in_special_v6 (ipv6_bits s0 s1 s2 s3 s4 s5 s6 s7).
Proof.
  intros Hwf. cbn [wf_ip] in Hwf. rewrite !Forall_cons in Hwf.
  destruct Hwf as (H0 & H1 & H2 & H3 & H4 & H5 & H6 & H7 & _).
  unfold is_not_globally_reachable_ipv6, in_special_v6. rewrite land_fe00, land_ffc0 by done.
  cbn zeta. unfold block_v6.
  repeat match goal with
  | |- _ || _ = _ || _ => apply f_equal2
  | |- _ && negb _ = _ && negb _ => apply f_equal2; [|apply f_equal]
  end;
  (erewrite block_range; [|vm_compute; reflexivity|vm_compute; reflexivity]);
  unfold ipv6_bits; cbn [fold_left]; lia.
Qed.
End Blocks.

Definition special_block (ip : IpAddr) : bool :=
  match ip with
  | V4 a b c d => in_special_v4 a b c d
  | V6 s0 s1 s2 s3 s4 s5 s6 s7 => in_special_v6 (ipv6_bits s0 s1 s2 s3 s4 s5 s6 s7)
  end.

Lemma reachable_special ip : wf_ip ip → is_not_globally_reachable_ip ip = special_block ip.
Proof. destruct ip; [apply reachable_v4_blocks|apply reachable_v6_blocks]. Qed.

(** C16. The reachability test is exactly membership in the special-purpose
    blocks: its octet patterns and bit masks accept an address if and only if
    the address lies in one of the listed CIDR blocks. *)
Theorem reachability_is_block_membership ip : wf_ip ip →
  is_not_globally_reachable_ip ip = special_block ip.
Proof. apply reachable_special. Qed.

Lemma reachability_is_block_membership_witness :
  special_block (V4 172 31 255 255) = true ∧
  is_not_globally_reachable_ip (V4 172 31 255 255) = special_block (V4 172 31 255 255).
Proof. split; [vm_compute; reflexivity|]. by apply reachability_is_block_membership. Defined.

(** ** Control plane *)

Section ControlPlaneProperties.
Context {T : TtlLib} {R : RpcLib}.
Context (connects : IpAddr → N → bool) (accepts : bytes → bool)
  (pipe_streams : IpAddr → N → bool).

(** The control plane opens no connection it should not: a run opens at
    most one, and then the address passed the allow list and, unless the
    override is set, lies in no special-purpose block. *)
Theorem egress_connects_only_allowed allow_internal destinations w r w' :
  handle_connection connects accepts pipe_streams allow_internal destinations w = (r, w') →
  ew_dialled w' = ew_dialled w ∨
  ∃ ip port data, ew_dialled w' = (ip, port, data) :: ew_dialled w ∧
    check_ip_allow_list (ip_to_string ip) destinations (ew_cache w) = Ok tt ∧
    (allow_internal = false → wf_ip ip → special_block ip = false).
Proof.
  unfold handle_connection, mbind, mget. destruct (conn_read 4096 (ew_stream w)) as [[req|e] s].
  2: { intros [= <- <-]. by left. }
  cbn [mmodify map_err mlift mret]. destruct (from_bytes req) as [er|]; [|intros [= <- <-]; by left].
  cbn [ok_or mlift mret ew_cache].
  destruct (validate_requested_ip (er_ip er) allow_internal) eqn:Ev;
    [|intros [= <- <-]; by left].
  destruct (check_ip_allow_list _ _ _) as [[]|] eqn:Ec; [|intros [= <- <-]; by left].
  destruct (connects (er_ip er) (er_port er)); [|intros [= <- <-]; by left].
  intros H. right. do 3 eexists.
  assert (ew_dialled w' = (er_ip er, er_port er, if accepts (er_data er) then er_data er else [])
    :: ew_dialled w) as ->.
  { unfold mret, mthrow in H.
    by destruct (accepts (er_data er)), (pipe_streams (er_ip er) (er_port er)); simplify_eq. }
  split; [done|]. split; [done|]. intros -> Hwf. unfold validate_requested_ip in Ev.
  rewrite <-reachable_special by done. by destruct (is_not_globally_reachable_ip (er_ip er)).
Qed.

(** A blocked connection is shut down and never dialled: an address
    outside the allow list leaves the client's stream closed and the
    handler reports success; an internal address is an error. *)
Theorem egress_blocked_is_shutdown allow_internal destinations w req er s :
  conn_read 4096 (ew_stream w) = (Ok req, s) → from_bytes req = Some er →
  validate_requested_ip (er_ip er) allow_internal = Err (SeIllegalInternalIp (er_ip er)) ∨
    (validate_requested_ip (er_ip er) allow_internal = Ok tt ∧
     is_ok (check_ip_allow_list (ip_to_string (er_ip er)) destinations (ew_cache w)) = false) →
  ∃ r w', handle_connection connects accepts pipe_streams allow_internal destinations w = (r, w') ∧
    c_shut (ew_stream w') = true ∧ ew_dialled w' = ew_dialled w ∧
    r = match validate_requested_ip (er_ip er) allow_internal with
        | Ok _ => Ret tt | Err e => Throw e end.
Proof.
  intros Hr Hf Hv. unfold handle_connection, mbind, mget. rewrite Hr.
  cbn [mmodify map_err mlift mret]. rewrite Hf. cbn [ok_or mlift mret ew_cache].
  destruct Hv as [->|[-> Hc]]; [by do 2 eexists|].
  destruct (check_ip_allow_list _ _ _); [done|]. by do 2 eexists.
Qed.
End ControlPlaneProperties.

(** ** Data plane: the addresses that are handed over *)

Section DataPlaneProperties.
Context {T : TtlLib} {TL : TtlLaws T} {R : RpcLib} {D : DnsLib}.

(** The cache of an enclave whose lookups so far, with their replies, are
    the list: a lookup runs in any surroundings, fails or succeeds, and
    time passes. *)
Inductive cache_run (dests : EgressDestinations) : list (bytes * bytes) → IpCache → Prop :=
| run_start now : cache_run dests [] (mkIpCache _ false ttl_empty now)
| run_time h c now : cache_run dests h c → (ic_now c <= now)%N →
    cache_run dests h (mkIpCache _ (ic_poisoned c) (ic_cache c) now)
| run_lookup h c vsock q in_time reply w' : cache_run dests h c →
    perform_dns_lookup q in_time dests (mkDns vsock c) = (Ret reply, w') →
    cache_run dests ((q, reply) :: h) (dw_cache w')
| run_failed h c vsock q in_time e w' : cache_run dests h c →
    perform_dns_lookup q in_time dests (mkDns vsock c) = (Throw e, w') →
    cache_run dests h (dw_cache w').

(** An address an allowed query was answered with. *)
Definition resolved (dests : EgressDestinations) (h : list (bytes * bytes)) (ip : string) : Prop :=
  ∃ q reply packet, (q, reply) ∈ h ∧ check_dns_allowed_for_domain q dests = Ok tt ∧
    packet_parse reply = Some packet ∧ answered packet ip.

Lemma forward_dns_cache p w r w' :
  forward_dns_lookup p w = (r, w') → dw_cache w' = dw_cache w.
Proof.
  unfold forward_dns_lookup, mbind, mget. destruct (dw_vsock w) as [c|]; [|by intros [= <- <-]].
  cbn [ok_or mlift mret]. destruct (conn_write p c) as [[u|e] s]; [|by intros [= <- <-]].
  cbn [mmodify map_err mlift mret]. destruct (conn_read 512 s) as [[d|e] s']; by intros [= <- <-].
Qed.

(** A lookup leaves the cache alone, or adds addresses of its reply. *)
Lemma perform_dns_lookup_cache q in_time dests w r w' :
  perform_dns_lookup q in_time dests w = (r, w') →
  dw_cache w' = dw_cache w ∨
  check_dns_allowed_for_domain q dests = Ok tt ∧
  ∃ reply r', cache_ip_for_allowlist reply (dw_cache w) = (r', dw_cache w') ∧
    r = match r' with Ret _ => Ret reply | Throw e => Throw (DnsEgress e) | Panic => Panic end.
Proof.
  unfold perform_dns_lookup, mbind.
  destruct (check_dns_allowed_for_domain q dests) as [[]|]; [|intros [= <- <-]; by left].
  cbn [map_err mlift mret].
  destruct in_time.
  - destruct (forward_dns_lookup q w) as [[reply|e|] w1] eqn:Ef; apply forward_dns_cache in Ef;
      [|intros [= <- <-]; by left..].
    unfold on_cache. rewrite Ef.
    destruct (cache_ip_for_allowlist reply (dw_cache w)) as [r' c] eqn:Ec.
    intros H. right. split; [done|]. exists reply, r'. rewrite Ec.
    destruct r'; unfold mret in H; by simplify_eq/=.
  - destruct (forward_dns_lookup q w) as [[reply|e|] w1] eqn:Ef; apply forward_dns_cache in Ef;
      intros [= <- <-]; by left.
Qed.

Lemma resolved_cons dests h q r ip : resolved dests h ip → resolved dests ((q, r) :: h) ip.
Proof. intros (q' & r' & p & ? & H). exists q', r', p. set_solver. Qed.

Lemma cache_run_resolved dests h c : cache_run dests h c →
  ∀ ip now x, ttl_get (ic_cache c) ip now = Some x → resolved dests h ip.
Proof.
  induction 1 as [now|h c now Hr IH Hn|h c vsock q it reply w' Hr IH Hp
    |h c vsock q it e w' Hr IH Hp]; intros ip t x.
  - cbn [ic_cache]. by rewrite ttl_get_empty.
  - apply IH.
  - apply perform_dns_lookup_cache in Hp as [->|(Hq & rep & r' & Hc & Hr')]; cbn [dw_cache] in *.
    + intros. eapply resolved_cons, IH. done.
    + apply cache_ip_for_allowlist_spec in Hc as (_ & _ & Hc).
      intros [Hx|(packet & Hp & Ha)]%Hc; [by eapply resolved_cons, IH|].
      destruct r'; simplify_eq. exists q, rep, packet. set_solver.
  - apply perform_dns_lookup_cache in Hp as [->|(Hq & rep & r' & Hc & Hr')]; cbn [dw_cache] in *.
    + apply IH.
    + destruct r' as [|e'|]; simplify_eq.
      apply cache_ip_throw in Hc as ->. apply IH.
Qed.

(** What a hand-over leaves on the vsock, however it ends: nothing, or one
    message for the original destination with the first bytes of the process,
    after the address was checked. *)
Lemma hand_over_cases so piped dests stream vsock c r w' :
  handle_egress_connection so piped dests (mkHandOver stream vsock c) = (r, w') →
  (ho_vsock w' = vsock ∧ r ≠ Ret tt) ∨
  ∃ ip port data e v v', vsock = Some v ∧ ho_vsock w' = Some v' ∧ c_out v' = c_out v ++ e ∧
    get_destination so = Ok (ip, port) ∧ fst (conn_read 4096 stream) = Ok data ∧
    to_bytes (mkRequest ip data port) = Some e ∧ check_ip_allow_list (ip_to_string ip) dests c = Ok tt.
Proof.
  unfold handle_egress_connection, mbind, mget. cbn [ho_stream ho_vsock ho_cache].
  destruct (conn_read 4096 stream) as [[d|] s]; [|intros [= <- <-]; by left]. cbn [mmodify map_err mlift mret].
  destruct vsock as [v|]; [|intros [= <- <-]; by left]. cbn [ok_or mlift mret].
  destruct (get_destination so) as [[ip port]|]; [|intros [= <- <-]; by left]. cbn [mlift mret].
  destruct (check_ip_allow_list _ _ _) as [[]|] eqn:Ei; [|intros [= <- <-]; by left]. cbn [map_err mlift mret].
  destruct (to_bytes _) as [e|] eqn:Ee; [|intros [= <- <-]; by left]. cbn [ok_or mlift mret].
  unfold conn_write. destruct (c_writable v); cbn [mmodify map_err mlift mret]; [|intros [= <- <-]; by left].
  destruct piped; intros [= <- <-]; right; do 6 eexists; split_and!; done.
Qed.

(** C14. End to end, an enclave hands over a connection only to an address it
    may reach, and nothing is written to the host before that is checked:
    whatever lookups ran before and however the run ends (piping may fail after
    the hand-over), either nothing was written to the vsock and the run did not
    succeed, or exactly one message was written, for the original destination
    of the connection and with the first bytes the process sent, and that
    destination is open to all, listed, or in an A record of a reply to a query
    whose every question the allow list admits. *)
Theorem handover_only_allowed dests h c so piped stream vsock r w' :
  cache_run dests h c →
  handle_egress_connection so piped dests (mkHandOver stream vsock c) = (r, w') →
  (ho_vsock w' = vsock ∧ r ≠ Ret tt) ∨
  ∃ ip port data e v v', vsock = Some v ∧ ho_vsock w' = Some v' ∧ c_out v' = c_out v ++ e ∧
    get_destination so = Ok (ip, port) ∧ fst (conn_read 4096 stream) = Ok data ∧
    to_bytes (mkRequest ip data port) = Some e ∧
    (allow_all dests = true ∨ ip_to_string ip ∈ ips dests ∨ resolved dests h (ip_to_string ip)).
Proof.
  intros Hc [Hn|(ip & port & data & e & v & v' & ? & ? & ? & ? & ? & ? & Hi)]%hand_over_cases; [by left|right].
  exists ip, port, data, e, v, v'. split_and!; [done..|].
  apply check_ip_allow_list_ok in Hi as [?|[?|[x Hx]]]; [by left|by right; left|].
  right. right. by eapply cache_run_resolved.
Qed.

(** A first read of a full buffer breaks the connection: the message for
    4096 bytes is longer than the 4096 bytes the control plane reads, which
    then fails to decode it and drops the connection. *)
Theorem full_first_read_is_dropped {RL : RpcLaws R} connects accepts pipe allow_internal
    dests so data rest stream_out e ip port c cache dialled :
  length data = 4096 → get_destination so = Ok (ip, port) →
  check_ip_allow_list (ip_to_string ip) dests c = Ok tt →
  to_bytes (mkRequest ip data port) = Some e →
  ∃ w', handle_egress_connection so true dests
      (mkHandOver (mkConn (Some data :: rest) stream_out false true) (Some (conn_of [])) c)
    = (Ret tt, w') ∧
  (c_out <$> ho_vsock w') = Some e ∧
  ∃ w1, handle_connection connects accepts pipe allow_internal dests
      (mkEgress (conn_of [e]) cache dialled) = (Throw SeRpc, w1) ∧ ew_dialled w1 = dialled.
Proof.
  intros Hl Hd Hc He. eexists. split; [|split].
  - unfold handle_egress_connection, mbind, mget. cbn [ho_stream ho_vsock ho_cache].
    unfold conn_read. cbn [c_in]. rewrite Hl. cbn [Nat.leb mmodify map_err mlift mret ok_or].
    rewrite Hd. cbn [mlift mret]. rewrite Hc. cbn [map_err mlift mret]. rewrite He.
    cbn [ok_or mlift mret conn_write conn_of c_writable map_err]. reflexivity.
  - reflexivity.
  - assert (length data < length e) as Hlt by apply (rpc_length _ _ He).
    unfold handle_connection, mbind, mget. cbn [ew_stream]. unfold conn_read, conn_of.
    cbn [c_in fmap list_fmap]. rewrite (proj2 (Nat.leb_gt _ _)) by lia.
    cbn [mmodify map_err mlift mret]. rewrite (rpc_prefix _ _ 4096 He) by lia.
    by eexists.
Qed.
End DataPlaneProperties.

(** ** DNS failover *)

Section DnsProxyProperties.
Context {T : TtlLib} {D : DnsLib}.
Context (remote_dns_socket : IpAddr → bool) (exchange : IpAddr → bytes → option bytes).
(** A DNS packet has a header. *)
Context (parse_nil : packet_parse [] = None).

Lemma serve_exhausted servers dests w r w' :
  c_in (pw_stream w) = [] →
  serve_dns_connection remote_dns_socket exchange servers dests w = (r, w') →
  c_out (pw_stream w') = c_out (pw_stream w).
Proof.
  revert w. induction servers as [|s servers IH]; intros w Hw; [by intros [= <- <-]|].
  cbn [serve_dns_connection]. unfold mbind at 1, mtry, proxy_dns_connection.
  unfold mbind, mget, conn_read. rewrite Hw. cbn [mmodify map_err mlift mret].
  destruct (remote_dns_socket s).
  - unfold check_dns_allowed_for_domain. rewrite parse_nil. by intros [= <- <-].
  - cbn [mthrow]. by intros H%IH.
Qed.

(** Failing over to a second DNS server never helps: the request is read
    from the stream again for each server, so when the first server does not
    answer, the request is gone and no server's reply reaches the enclave. *)
Theorem dns_failover_loses_request s1 servers dests q cache r w' :
  length q <= 512 →
  (remote_dns_socket s1 = false ∨
   check_dns_allowed_for_domain q dests = Ok tt ∧ exchange s1 q = None) →
  serve_dns_connection remote_dns_socket exchange (s1 :: servers) dests
    (mkProxy (conn_of [q]) cache) = (r, w') →
  c_out (pw_stream w') = [].
Proof.
  intros Hq Hs. cbn [serve_dns_connection]. unfold mbind at 1, mtry, proxy_dns_connection.
  unfold mbind, mget, conn_read. cbn [pw_stream conn_of c_in fmap list_fmap].
  rewrite (proj2 (Nat.leb_le _ _)) by lia. cbn [mmodify map_err mlift mret].
  destruct Hs as [-> | [Hc He]].
  - cbn [mthrow]. intros H. by apply serve_exhausted in H.
  - destruct (remote_dns_socket s1); [|intros H; by apply serve_exhausted in H].
    rewrite Hc, He. cbn [map_err mlift mret ok_or mthrow]. intros H. by apply serve_exhausted in H.
Qed.

(** A lookup that succeeds is the whole exchange: the request was allowed,
    and exactly the server's reply (cut to 512 bytes) is written back. *)
Theorem dns_reply_is_forwarded s dests q cache w' :
  length q <= 512 →
  proxy_dns_connection remote_dns_socket exchange s dests (mkProxy (conn_of [q]) cache)
    = (Ret tt, w') →
  check_dns_allowed_for_domain q dests = Ok tt ∧
  ∃ reply, exchange s q = Some reply ∧ c_out (pw_stream w') = take 512 reply.
Proof.
  intros Hq. unfold proxy_dns_connection, mbind, mget, conn_read.
  cbn [pw_stream conn_of c_in fmap list_fmap]. rewrite (proj2 (Nat.leb_le _ _)) by lia.
  cbn [mmodify map_err mlift mret]. destruct (remote_dns_socket s); [|done].
  destruct (check_dns_allowed_for_domain q dests) as [[]|]; [|done]. cbn [map_err mlift mret].
  destruct (exchange s q) as [reply|]; [|done]. cbn [ok_or mlift mret pw_cache].
  destruct (cache_ip_for_allowlist _ _) as [[]]; [|done..]. cbn. intros [= <-].
  split; [done|]. by exists reply.
Qed.
End DnsProxyProperties.

(** ** Witnesses *)

(** A codec with the laws: six header bytes, each data byte marked, a final
    mark. It encodes IPv4 requests. *)
Definition byte_of (n : N) : ascii := ascii_of_N n.

Fixpoint mark (d : bytes) : bytes :=
  match d with [] => ["0"%char] | x :: d' => "1"%char :: x :: mark d' end.

Fixpoint unmark (e : bytes) : option bytes :=
  match e with
  | m :: rest =>
      if Ascii.eqb m "0" then Some []
      else match rest with x :: e' => cons x <$> unmark e' | [] => None end
  | [] => None
  end.

Lemma unmark_mark d x : unmark (mark d ++ x) = Some d.
Proof. induction d as [|y d IH]; simpl; [done|]. by rewrite IH. Qed.

Lemma unmark_prefix d n : n < length (mark d) → unmark (take n (mark d)) = None.
Proof.
  revert n. induction d as [|x d IH]; intros n Hn; simpl in Hn.
  - assert (n = 0) as -> by lia. done.
  - destruct n as [|[|n]]; [done..|]. simpl. by rewrite IH by lia.
Qed.

Lemma length_mark d : length d < length (mark d).
Proof. induction d as [|x d IH]; simpl; lia. Qed.

#[export] Instance rpc_ref : RpcLib := {
  to_bytes r :=
    match er_ip r with
    | V4 a b c d =>
        if ((a <? 256) && (b <? 256) && (c <? 256) && (d <? 256) && (er_port r <? 65536))%N then
          Some ([byte_of a; byte_of b; byte_of c; byte_of d; byte_of (er_port r / 256);
                 byte_of (er_port r mod 256)] ++ mark (er_data r))
        else None
    | V6 _ _ _ _ _ _ _ _ => None
    end;
  from_bytes e :=
    match e with
    | a :: b :: c :: d :: p :: q :: rest =>
        (fun data => mkRequest (V4 (N_of_ascii a) (N_of_ascii b) (N_of_ascii c) (N_of_ascii d))
           data (N_of_ascii p * 256 + N_of_ascii q)) <$> unmark rest
    | _ => None
    end
}.

#[export] Instance rpc_ref_laws : RpcLaws rpc_ref.
Proof.
  split.
  - intros [ip data port] e x. cbn [to_bytes from_bytes rpc_ref er_ip er_data er_port].
    destruct ip as [a b c d|]; [|done].
    destruct (_ && _) eqn:E; [|done]. intros [= <-]. cbn [app]. rewrite unmark_mark. cbn [fmap option_fmap option_map].
    rewrite !andb_true_iff, !N.ltb_lt in E. destruct E as [[[[Ha Hb] Hc] Hd] Hp].
    unfold byte_of. assert (port / 256 < 256)%N by (apply N.Div0.div_lt_upper_bound; lia).
    assert (port mod 256 < 256)%N by (by apply N.mod_lt).
    rewrite !N_ascii_embedding by done. do 2 f_equal.
    rewrite (N.Div0.div_mod port 256) at 3. lia.
  - intros [ip data port] e. cbn [to_bytes rpc_ref er_ip er_data er_port].
    destruct ip as [a b c d|]; [|done]. destruct (_ && _); [|done]. intros [= <-].
    pose proof (length_mark data). simpl. lia.
  - intros [ip data port] e n. cbn [to_bytes from_bytes rpc_ref er_ip er_data er_port].
    destruct ip as [a b c d|]; [|done]. destruct (_ && _); [|done]. intros [= <-] Hn.
    do 6 (destruct n as [|n]; [done|]). cbn [take app]. rewrite unmark_prefix; [done|].
    simpl in Hn. lia.
Qed.

(** A DNS parser: a question after one header byte, answered by 9.9.9.9. *)
#[local] Instance dns_ref : DnsLib := {
  packet_parse p :=
    match p with
    | [] => None
    | _ :: q => Some (mkPacket [String.string_of_list_ascii q]
                        [mkRecord (String.string_of_list_ascii q) 60 (RA (V4 9 9 9 9))])
    end
}.

Definition sample_dests : EgressDestinations := get_egress_allow_list "evervault.com,1.2.3.4".

Definition sample_cache : IpCache := mkIpCache _ false ttl_empty 0.

Definition yes2 (_ : IpAddr) (_ : N) : bool := true.
Definition yes1 (_ : bytes) : bool := true.

Definition sample_msg : ExternalRequest := mkRequest (V4 1 2 3 4) (b "hi") 443.
Definition sample_bytes : bytes := default [] (to_bytes sample_msg).

Lemma egress_connects_only_allowed_witness :
  ∃ w', handle_connection yes2 yes1 yes2 false sample_dests
    (mkEgress (conn_of [sample_bytes]) sample_cache []) = (Ret tt, w') ∧
  ew_dialled w' = [(V4 1 2 3 4, 443%N, b "hi")] ∧
  (ew_dialled w' = [] ∨
   ∃ ip port data, ew_dialled w' = [(ip, port, data)] ∧
     check_ip_allow_list (ip_to_string ip) sample_dests sample_cache = Ok tt ∧
     (false = false → wf_ip ip → special_block ip = false)).
Proof.
  eexists. split; [vm_compute; reflexivity|]. split; [reflexivity|].
  apply (egress_connects_only_allowed yes2 yes1 yes2 false sample_dests
    (mkEgress (conn_of [sample_bytes]) sample_cache []) (Ret tt)).
  vm_compute. reflexivity.
Defined.

Definition blocked_bytes : bytes := default [] (to_bytes (mkRequest (V4 10 0 0 1) [] 80)).

Lemma egress_blocked_is_shutdown_witness :
  ∃ r w', handle_connection yes2 yes1 yes2 false sample_dests
    (mkEgress (conn_of [blocked_bytes]) sample_cache []) = (r, w') ∧
    c_shut (ew_stream w') = true ∧ ew_dialled w' = [] ∧ r = Throw (SeIllegalInternalIp (V4 10 0 0 1)).
Proof.
  apply (egress_blocked_is_shutdown yes2 yes1 yes2 false sample_dests
    (mkEgress (conn_of [blocked_bytes]) sample_cache []) blocked_bytes (mkRequest (V4 10 0 0 1) [] 80)
    (mkConn [] [] false true)); [vm_compute; reflexivity..|left; vm_compute; reflexivity].
Defined.

(** A hand-over whose piping then fails. *)
Definition failed_piping : exec DNSError unit * HandOver :=
  handle_egress_connection (mkSockOpts (Some (0x04030201, 0xbb01)%N) None) false sample_dests
    (mkHandOver (conn_of [b "hi"]) (Some (conn_of [])) sample_cache).

Lemma handover_only_allowed_witness :
  ho_vsock failed_piping.2 ≠ Some (conn_of []) ∧
  ((ho_vsock failed_piping.2 = Some (conn_of []) ∧ failed_piping.1 ≠ Ret tt) ∨
   ∃ ip port data e v v', Some (conn_of []) = Some v ∧ ho_vsock failed_piping.2 = Some v' ∧ c_out v' = c_out v ++ e ∧
    get_destination (mkSockOpts (Some (0x04030201, 0xbb01)%N) None) = Ok (ip, port) ∧
    fst (conn_read 4096 (conn_of [b "hi"])) = Ok data ∧ to_bytes (mkRequest ip data port) = Some e ∧
    (allow_all sample_dests = true ∨ ip_to_string ip ∈ ips sample_dests ∨ resolved sample_dests [] (ip_to_string ip))).
Proof.
  split; [vm_compute; discriminate|].
  apply (handover_only_allowed sample_dests [] sample_cache (mkSockOpts (Some (0x04030201, 0xbb01)%N) None) false
    (conn_of [b "hi"]) (Some (conn_of []))); [apply run_start|apply surjective_pairing].
Defined.

Definition zeros (n : nat) : bytes := repeat "0"%char n.

Lemma full_first_read_is_dropped_witness :
  ∃ w1, handle_connection yes2 yes1 yes2 false sample_dests
    (mkEgress (conn_of [default [] (to_bytes (mkRequest (V4 1 2 3 4) (zeros 4096) 443))]) sample_cache [])
    = (Throw SeRpc, w1) ∧ ew_dialled w1 = [].
Proof.
  destruct (full_first_read_is_dropped yes2 yes1 yes2 false sample_dests
    (mkSockOpts (Some (0x04030201, 0xbb01)%N) None) (zeros 4096) [] []
    (default [] (to_bytes (mkRequest (V4 1 2 3 4) (zeros 4096) 443)))
    (V4 1 2 3 4) 443 sample_cache sample_cache []) as (w' & _ & _ & H);
    [vm_compute; reflexivity..|exact H].
Defined.

Lemma dns_failover_loses_request_witness :
  ∃ w', serve_dns_connection (fun _ => true) (fun s q => if bool_decide (s = V4 1 1 1 1) then None else Some (b "xreply"))
    DNS_SERVERS sample_dests (mkProxy (conn_of [b "xevervault.com"]) sample_cache) = (Ret tt, w') ∧
  c_out (pw_stream w') = [].
Proof.
  eexists. split; [vm_compute; reflexivity|].
  eapply (dns_failover_loses_request (D := dns_ref) (fun _ => true)
    (fun s q => if bool_decide (s = V4 1 1 1 1) then None else Some (b "xreply")) eq_refl
    (V4 1 1 1 1) (tail DNS_SERVERS) sample_dests (b "xevervault.com") sample_cache (Ret tt));
    [simpl; lia|right; split; vm_compute; reflexivity|vm_compute; reflexivity].
Defined.

Lemma dns_reply_is_forwarded_witness :
  ∃ w', proxy_dns_connection (fun _ => true) (fun s q => Some (b "xreply")) (V4 8 8 8 8) sample_dests
      (mkProxy (conn_of [b "xevervault.com"]) sample_cache) = (Ret tt, w') ∧
    check_dns_allowed_for_domain (b "xevervault.com") sample_dests = Ok tt ∧
    ∃ reply, Some (b "xreply") = Some reply ∧ c_out (pw_stream w') = take 512 reply.
Proof.
  eexists. split; [vm_compute; reflexivity|].
  apply (dns_reply_is_forwarded (fun _ => true) (fun s q => Some (b "xreply"))
    (V4 8 8 8 8) sample_dests (b "xevervault.com") sample_cache); [simpl; lia|vm_compute; reflexivity].
Defined.
