(* ===== verification/TlsProxy.v ===== *)
(** * TLS proxy (control-plane/src/tls_proxy.rs, shared/src/server/sni.rs)

    The control plane forwards the enclave's TLS connections to a fixed set of
    hosts, chosen by the server name of the ClientHello. [tls_parser] is an
    interface; one turn of the accept loop is [serve], the loop over what the
    listener delivers is [listen]. *)
From Stdlib Require Import Ascii String NArith Lia.
From stdpp Require Import base strings list.
From S2P Require Import Prelude Net.
#[local] Open Scope string_scope.
#[local] Open Scope list_scope.
#[local] Open Scope enclave_scope.

(** ** Server names *)

Inductive SNIError : Type :=
| SniHostnameError
| SniEgressDomainNotAllowed (s : string)
| SniClientHelloMissing
| SniExtensionMissing.

Inductive TlsMessage : Type :=
| ClientHello (ext : option bytes)
| OtherMessage.

Inductive TlsExtension : Type :=
| SNI (names : list (N * bytes))
| OtherExtension.

Class TlsLib : Type := {
  parse_tls_plaintext : bytes → option (list TlsMessage);
  parse_tls_extensions : bytes → option (list TlsExtension)
}.

(** The loop over the extensions: the last readable name wins. *)
Definition last_name (destination : string) (item : N * bytes) : string :=
  match from_utf8 item.2 with Some hostname => hostname | None => destination end.

Definition sni_names (destination : string) (extension : TlsExtension) : string :=
  match extension with
  | SNI names => fold_left last_name names destination
  | OtherExtension => destination
  end.

(** [Panic] is the index [msg[0]] of an empty record. *)
Definition get_hostname `{TlsLib} (data : bytes) : exec SNIError string :=
  match parse_tls_plaintext data with
  | None => Throw SniHostnameError
  | Some [] => Panic
  | Some (ClientHello None :: _) => Throw SniExtensionMissing
  | Some (ClientHello (Some raw_extensions) :: _) =>
      match parse_tls_extensions raw_extensions with
      | None => Throw SniHostnameError
      | Some extensions => Ret (fold_left sni_names extensions "")
      end
  | Some (OtherMessage :: _) => Throw SniClientHelloMissing
  end.

(** ** The proxy *)

Record TlsTargetDetails : Type := mkTargets { hosts : list string; port : N }.

(** What becomes of a connection. *)
Inductive Outcome : Type :=
| Refused
| NoAddress
| Unreachable (ip : IpAddr) (host : string) (initial : bytes)
| NotTaken (ip : IpAddr) (host : string) (initial : bytes)
| Forwarded (ip : IpAddr) (host : string) (initial : bytes).

(** The address dialled for a connection, the name it was dialled for and the
    bytes to send first. *)
Definition dialled (o : Outcome) : option (IpAddr * string * bytes) :=
  match o with
  | Unreachable ip host initial | NotTaken ip host initial | Forwarded ip host initial => Some (ip, host, initial)
  | Refused | NoAddress => None
  end.

Inductive Accept : Type :=
| AcceptFailed
| Accepted (c : Conn).

Inductive Turn : Type :=
| Continue (o : option Outcome)
| ReturnErr
| Crash.

Section Proxy.
Context `{TlsLib}.
Context (targets : TlsTargetDetails).
(** The resolver, and the network: whether a connection opens and whether it
    takes the first bytes. *)
Context (get_ip_target_host : string → option IpAddr) (connects : IpAddr → bool) (takes : IpAddr → bytes → bool).

Definition valid_targets : list string := hosts targets.

(** One turn of the loop of [listen] and the task it spawns. *)
Definition serve (a : Accept) : Turn :=
  match a with
  | AcceptFailed => Continue None
  | Accepted conn =>
      match fst (conn_read 4096 conn) with
      | Err _ => ReturnErr
      | Ok initial_slice =>
          match get_hostname initial_slice with
          | Panic => Crash
          | Throw _ => Continue (Some Refused)
          | Ret host =>
              if str_mem host valid_targets then
                match get_ip_target_host host with
                | None => Continue (Some NoAddress)
                | Some ip =>
                    Continue (Some
                      (if connects ip then
                         if takes ip initial_slice then Forwarded ip host initial_slice
                         else NotTaken ip host initial_slice
                       else Unreachable ip host initial_slice))
                end
              else Continue (Some Refused)
          end
      end
  end.

(** The loop on a sequence of accepted connections: the outcomes, and
    whether the listener is still running. *)
Fixpoint listen (accepts : list Accept) : list Outcome * bool :=
  match accepts with
  | [] => ([], true)
  | a :: accepts' =>
      match serve a with
      | Continue o =>
          let '(os, running) := listen accepts' in (option_list o ++ os, running)
      | ReturnErr | Crash => ([], false)
      end
  end.

(** C18. The proxy dials only configured hosts: whatever is accepted, whether
    the connection then opens, fails or breaks, every address [listen] dials is
    that of one of the targets, which is the server name in the ClientHello the
    connection began with, and the bytes it is to be sent first are those that
    were read from that connection. *)
Theorem tls_forwards_only_targets accepts os running o ip host initial :
  listen accepts = (os, running) → o ∈ os → dialled o = Some (ip, host, initial) →
  host ∈ hosts targets ∧ get_ip_target_host host = Some ip ∧ get_hostname initial = Ret host ∧
  ∃ c, Accepted c ∈ accepts ∧ fst (conn_read 4096 c) = Ok initial.
Proof.
  revert os running. induction accepts as [|a accepts IH]; intros os running; cbn [listen].
  { intros [= <- <-] []%not_elem_of_nil. }
  destruct (listen accepts) as [os' run'] eqn:El.
  destruct (serve a) as [o0| |] eqn:Es; [|intros [= <- <-] []%not_elem_of_nil..].
  intros [= <- <-] [Ho|Ho]%elem_of_app Hd.
  - destruct o0 as [o1|]; [|by apply not_elem_of_nil in Ho]. apply list_elem_of_singleton in Ho as <-.
    unfold serve in Es. destruct a as [|c]; [done|].
    destruct (fst (conn_read 4096 c)) as [d|] eqn:Er; [|done].
    destruct (get_hostname d) as [h| |] eqn:Eh; [|by simplify_eq/=..].
    destruct (str_mem h valid_targets) eqn:Em; [|by simplify_eq/=].
    destruct (get_ip_target_host h) as [ip'|] eqn:Ei; [|by simplify_eq/=].
    apply str_mem_spec in Em. injection Es as <-.
    assert (Some (ip', h, d) = Some (ip, host, initial)) as [= -> -> ->] 
      by (rewrite <-Hd; by destruct (connects ip'); [destruct (takes ip' d)|]).
    do 3 (split; [done|]). exists c. split; [by left|done].
  - destruct (IH _ _ eq_refl Ho Hd) as (? & ? & ? & c & ? & ?). do 3 (split; [done|]).
    exists c. split; [by right|done].
Qed.

(** A read error on one connection stops the proxy for all: the error of
    the first read is returned from the accept loop, and no later connection
    is served. *)
Theorem tls_read_error_stops_listener c rest before os :
  listen before = (os, true) → c_in c = None :: rest →
  ∀ after, listen (before ++ Accepted c :: after) = (os, false).
Proof.
  intros Hb Hc after. revert os Hb. induction before as [|a before IH]; intros os.
  - cbn [listen app]. unfold serve, conn_read. rewrite Hc. by intros [= <-].
  - cbn [listen app]. destruct (serve a) as [o| |]; [|done..].
    destruct (listen before) as [os' run'] eqn:El. intros [= <- ->].
    by rewrite (IH os' eq_refl).
Qed.
End Proxy.

(** ** Witnesses *)

#[local] Instance tls_ref : TlsLib := {
  parse_tls_plaintext d := Some [ClientHello (Some d)];
  parse_tls_extensions d := Some [SNI [(0%N, d)]]
}.

Definition acme_targets : TlsTargetDetails := mkTargets ["acme.example"] 443.

Lemma tls_forwards_only_targets_witness :
  "acme.example" ∈ hosts acme_targets ∧ Some (V4 1 1 1 1) = Some (V4 1 1 1 1) ∧
  get_hostname (b "acme.example") = Ret "acme.example" ∧
  ∃ c, Accepted c ∈ [Accepted (conn_of [b "evil.example"]); Accepted (conn_of [b "acme.example"])] ∧
    fst (conn_read 4096 c) = Ok (b "acme.example").
Proof.
  apply (tls_forwards_only_targets acme_targets (fun _ => Some (V4 1 1 1 1)) (fun _ => true) (fun _ _ => true)
    [Accepted (conn_of [b "evil.example"]); Accepted (conn_of [b "acme.example"])]
    [Refused; Forwarded (V4 1 1 1 1) "acme.example" (b "acme.example")] true
    (Forwarded (V4 1 1 1 1) "acme.example" (b "acme.example")) (V4 1 1 1 1) "acme.example" (b "acme.example"));
    [vm_compute; reflexivity|right; left|reflexivity].
Defined.

Lemma tls_read_error_stops_listener_witness :
  listen acme_targets (fun _ => Some (V4 1 1 1 1)) (fun _ => true) (fun _ _ => true)
    ([AcceptFailed] ++ [Accepted (mkConn [None] [] false true); Accepted (conn_of [b "acme.example"])])
  = ([], false).
Proof.
  apply (tls_read_error_stops_listener acme_targets (fun _ => Some (V4 1 1 1 1)) (fun _ => true) (fun _ _ => true)
    (mkConn [None] [] false true) [] [AcceptFailed] []); reflexivity.
Defined.
