(* ===== verification/Context.v ===== *)
(** * Enclave and feature contexts (data-plane/src/lib.rs)

    The identity of the enclave, set once when the provisioner answers, the
    certificate names derived from it, and the features of the deployment. *)
From Stdlib Require Import Ascii String NArith Lia.
From stdpp Require Import base strings list.
From S2P Require Import Prelude Libs Net Egress.
#[local] Open Scope string_scope.
#[local] Open Scope list_scope.
#[local] Open Scope enclave_scope.

Record EnclaveContext : Type := mkContext {
  team_uuid : string;
  app_uuid : string;
  uuid : string;
  name : string
}.

Inductive ContextError : Type :=
| FailedToRead
| FailedToParse
| Uninitialized.

(** The context cell [ENCLAVE_CONTEXT] is an [option]. *)
Definition EnclaveContext_get (cell : option EnclaveContext) : result ContextError EnclaveContext :=
  ok_or cell Uninitialized.

(** [get_or_init]: the first context set stays. *)
Definition EnclaveContext_set (ctx : EnclaveContext) (cell : option EnclaveContext) :
    option EnclaveContext :=
  match cell with Some c => Some c | None => Some ctx end.

Definition EnclaveContext_new (team_uuid app_uuid uuid name : string) : EnclaveContext :=
  mkContext team_uuid app_uuid uuid name.

Definition hyphenated_app_uuid (c : EnclaveContext) : string := replace_char (app_uuid c) "_" "-".

Section Names.
(** [cfg(staging)] *)
Context (staging : bool).

Definition tld : string := if staging then "dev" else "com".

Definition get_cert_name (c : EnclaveContext) : string :=
  name c +:+ "." +:+ app_uuid c +:+ ".cages.evervault." +:+ tld.

Definition get_hyphenated_cert_name (c : EnclaveContext) : string :=
  name c +:+ "." +:+ hyphenated_app_uuid c +:+ ".cages.evervault." +:+ tld.

Definition get_trusted_cert_domains (c : EnclaveContext) : list string :=
  let base_domains := ["cage.evervault." +:+ tld; "enclave.evervault." +:+ tld] in
  (fun domain => name c +:+ "." +:+ hyphenated_app_uuid c +:+ "." +:+ domain) <$> base_domains.

Definition get_cert_names (c : EnclaveContext) : list string :=
  [get_cert_name c; get_hyphenated_cert_name c].
End Names.

(** The part of the provisioner's reply that identifies the enclave. *)
Record ProvisionerContext : Type := mkProvisioner {
  pc_team_uuid : string;
  pc_cage_uuid : string;
  pc_cage_name : string;
  pc_app_uuid : string
}.

(** [impl From<ProvisionerContext> for EnclaveContext] *)
Definition EnclaveContext_from (context : ProvisionerContext) : EnclaveContext :=
  EnclaveContext_new (pc_team_uuid context) (pc_app_uuid context) (pc_cage_uuid context)
    (pc_cage_name context).

Record FeatureContext : Type := mkFeatures {
  api_key_auth : bool;
  healthcheck : option string;
  healthcheck_port : option N;
  healthcheck_use_tls : option bool;
  trx_logging_enabled : bool;
  forward_proxy_protocol : bool;
  trusted_headers : list string;
  egress : EgressConfig
}.

(** [FeatureContext::read_dataplane_context]: the configuration file, read and
    deserialised, with its header names (ASCII) lowered. *)
Definition read_dataplane_context (file : option string)
    (deserialize : string → option FeatureContext) : result ContextError FeatureContext :=
  let? contents := ok_or file FailedToRead in
  let? f := ok_or (deserialize contents) FailedToParse in
  Ok (mkFeatures (api_key_auth f) (healthcheck f) (healthcheck_port f) (healthcheck_use_tls f)
        (trx_logging_enabled f) (forward_proxy_protocol f) (to_lower <$> trusted_headers f)
        (egress f)).

Definition FeatureContext_set (read : result ContextError FeatureContext)
    (cell : option FeatureContext) : result ContextError unit * option FeatureContext :=
  match read with
  | Ok context => (Ok tt, match cell with Some c => Some c | None => Some context end)
  | Err e => (Err e, cell)
  end.

Definition FeatureContext_get (cell : option FeatureContext) : result ContextError FeatureContext :=
  ok_or cell Uninitialized.
