(* ===== verification/Health.v ===== *)
(** * Health checks

    shared/src/server/health.rs: the states and their status codes.
    data-plane/src/health: the agent that probes the user process, keeps the
    latest results and answers the health server.
    control-plane/src/health.rs: the check ECS calls, which combines both
    planes. The HTTP client, the channel and the JSON codec are parameters. *)
From Stdlib Require Import Ascii String NArith ZArith Lia.
From stdpp Require Import base strings sets list pretty.
From S2P Require Import Prelude Libs Context.
#[local] Open Scope string_scope.
#[local] Open Scope list_scope.
#[local] Open Scope enclave_scope.

(** ** States (shared/src/server/health.rs) *)

Inductive HealthCheckStatus : Type := HIgnored | HOk | HUnknown | HErr | HUninitialized.

Definition HealthCheckStatus_status_code (s : HealthCheckStatus) : N :=
  match s with HOk | HIgnored => 200 | _ => 500 end.

Definition HealthCheckStatus_display (s : HealthCheckStatus) : string :=
  match s with
  | HIgnored => "Ignored" | HOk => "Ok" | HUnknown => "Unknown" | HErr => "Err"
  | HUninitialized => "Uninitialized"
  end.

Record HealthCheckLog : Type := mkLog { status : HealthCheckStatus; message : option string }.

Definition HealthCheckLog_status_code (l : HealthCheckLog) : N :=
  HealthCheckStatus_status_code (status l).

Inductive ControlPlaneState : Type := Draining | CpOk.

Definition ControlPlaneState_status_code (s : ControlPlaneState) : N :=
  match s with CpOk => 200 | Draining => 500 end.

Section States.
Context {J : Json}.

(** [status_code] is a [u16]. *)
Inductive UserProcessHealth : Type :=
| UpUnknown (reason : string)
| UpError (reason : string)
| UpResponse (status_code : N) (body : option Value).

Definition success_code (c : N) : bool := ((200 <=? c) && (c <? 300))%N.

Definition rank (h : UserProcessHealth) : N :=
  match h with
  | UpUnknown _ => 0
  | UpError _ => 2
  | UpResponse status_code _ =>
      if ((200 <=? status_code) && (status_code <? 300))%N then 1 else 3
  end.

(** [impl Ord for UserProcessHealth] *)
Definition UserProcessHealth_cmp (x y : UserProcessHealth) : comparison :=
  N.compare (rank x) (rank y).

Record DataPlaneDiagnostic : Type := mkDiagnostic { user_process : UserProcessHealth }.

Definition is_healthy (d : DataPlaneDiagnostic) : bool :=
  match user_process d with
  | UpUnknown _ => true
  | UpError _ => false
  | UpResponse status_code _ => ((200 <=? status_code) && (status_code <? 300))%N
  end.

Inductive DataPlaneState : Type :=
| DpError (e : string)
| DpUnknown (e : string)
| Provisioning
| Attesting
| SourcingTlsCerts
| Initialized (d : DataPlaneDiagnostic).

Definition DataPlaneState_status_code (s : DataPlaneState) : N :=
  match s with
  | Initialized diagnostic => if is_healthy diagnostic then 200 else 500
  | _ => 500
  end.

Inductive HealthCheckVersion : Type :=
| HcV0 (log : HealthCheckLog)
| HcV1 (state : DataPlaneState).

Definition HealthCheckVersion_status_code (h : HealthCheckVersion) : N :=
  match h with
  | HcV0 log => HealthCheckLog_status_code log
  | HcV1 dp_state => DataPlaneState_status_code dp_state
  end.

(** ** The agent (data-plane/src/health/agent.rs) *)

Inductive HealthcheckAgentState : Type := Initializing | Ready.

Definition DEFAULT_HEALTHCHECK_BUFFER_SIZE_LIMIT : nat := 10.

(** [buffer] is the [VecDeque], front first. *)
Record HealthcheckAgent : Type := mkAgent {
  customer_process_port : N;
  healthcheck_path : option string;
  buffer : list UserProcessHealth;
  state : HealthcheckAgentState;
  buffer_size_limit : nat;
  proto : string
}.

Definition HealthcheckAgent_new (port : N) (path : option string) (proto : string) :
    HealthcheckAgent :=
  mkAgent port path [] Initializing DEFAULT_HEALTHCHECK_BUFFER_SIZE_LIMIT proto.

Definition build_agent (port : N) (path : option string) : HealthcheckAgent :=
  HealthcheckAgent_new port path "http".

Definition build_tls_agent (port : N) (path : option string) : HealthcheckAgent :=
  HealthcheckAgent_new port path "https".

Definition set_buffer (a : HealthcheckAgent) (l : list UserProcessHealth) : HealthcheckAgent :=
  mkAgent (customer_process_port a) (healthcheck_path a) l (state a) (buffer_size_limit a) (proto a).

Definition set_state (a : HealthcheckAgent) (s : HealthcheckAgentState) : HealthcheckAgent :=
  mkAgent (customer_process_port a) (healthcheck_path a) (buffer a) s (buffer_size_limit a) (proto a).

Definition record_result (a : HealthcheckAgent) (healthcheck_status : UserProcessHealth) :
    HealthcheckAgent :=
  let pushed := buffer a ++ [healthcheck_status] in
  if Nat.leb (buffer_size_limit a) (length pushed) then set_buffer a (tail pushed)
  else set_buffer a pushed.

(** What reading [/etc/customer-env] gives. *)
Inductive EnvRead : Type :=
| EnvFile (contents : string)
| EnvNotFound
| EnvIoError.

Definition check_user_process_initialized (env : EnvRead) (ctx : option EnclaveContext)
    (a : HealthcheckAgent) : result ContextError HealthcheckAgentState * HealthcheckAgent :=
  match env with
  | EnvFile c =>
      if contains c "EV_INITIALIZED" then
        match EnclaveContext_get ctx with
        | Ok _ => (Ok Ready, set_state a Ready)
        | Err e => (Err e, a)
        end
      else (Ok Initializing, a)
  | EnvNotFound => (Ok Initializing, a)
  | EnvIoError => (Err FailedToRead, a)
  end.

Definition build_healthcheck_uri (a : HealthcheckAgent) (path : string) : string :=
  proto a +:+ "://127.0.0.1:" +:+ pretty (customer_process_port a) +:+ path.

(** The answer of the user process: a status and its body as JSON when it is
    JSON, or the error of the client. *)
Definition ProbeReply : Type := result string (N * option Value).

Definition probe_user_process (client : string → ProbeReply) (a : HealthcheckAgent) (path : string) :
    UserProcessHealth :=
  match client (build_healthcheck_uri a path) with
  | Ok (status_code, json) => UpResponse status_code json
  | Err e => UpError e
  end.

Section Probe.
(** [{e:?}] of a context error. *)
Context (debug_context_error : ContextError → string).

Definition perform_healthcheck (env : EnvRead) (ctx : option EnclaveContext)
    (client : string → ProbeReply) (a : HealthcheckAgent) : HealthcheckAgent :=
  let '(hc_state, a1) :=
    match state a with
    | Initializing => check_user_process_initialized env ctx a
    | Ready => (Ok Ready, a)
    end in
  let hc_result :=
    match hc_state, healthcheck_path a1 with
    | Ok Ready, Some path => probe_user_process client a1 path
    | Ok Ready, None => UpUnknown "No healthcheck path provided"
    | Ok Initializing, _ => UpUnknown "Enclave is not initialized yet"
    | Err e, _ => UpError ("Error reading init state from user process env - " +:+ debug_context_error e)
    end in
  record_result a1 hc_result.
End Probe.

(** [Iterator::max]: the last of the greatest elements. *)
Definition max_by_rank (x : UserProcessHealth) (l : list UserProcessHealth) : UserProcessHealth :=
  fold_left (fun best y =>
    match UserProcessHealth_cmp best y with Gt => best | _ => y end) l x.

(** The value sent to the requester. *)
Definition serve_healthcheck_request (a : HealthcheckAgent) : UserProcessHealth :=
  match buffer a with
  | [] => UpUnknown "Enclave is not initialized yet"
  | x :: l => max_by_rank x l
  end.

(** [check_user_process_health] of data-plane/src/health/mod.rs: the reply on
    the channel, or an error when either end of the channel is closed. *)
Definition check_user_process_health (send_ok recv_ok : bool) (a : HealthcheckAgent) :
    UserProcessHealth :=
  if send_ok then
    if recv_ok then serve_healthcheck_request a
    else UpError "Failed to receive healthcheck from on channel RecvError(())"
  else UpError "Failed to send healthcheck to user process on channel SendError { .. }".

(** What the data plane's health server answers. *)
Definition health_service (send_ok recv_ok : bool) (a : HealthcheckAgent) : DataPlaneState :=
  Initialized (mkDiagnostic (check_user_process_health send_ok recv_ok a)).

(** ** The ECS check (control-plane/src/health.rs) *)

Record CombinedHealthCheckLog : Type := mkCombined {
  control_plane : ControlPlaneState;
  data_plane : HealthCheckVersion
}.

(** The reply of the enclave's health port: content type and body. *)
Definition EnclaveReply : Type := result string (option string * bytes).

Section Ecs.
Context (parse_v1 : bytes → option DataPlaneState) (parse_v0 : bytes → option HealthCheckLog).

Definition health_check_data_plane (reply : EnclaveReply) : result string HealthCheckVersion :=
  let? parts := reply in
  let '(content_type, body) := parts in
  if bool_decide (content_type = Some "application/json;version=1") then
    match parse_v1 body with Some s => Ok (HcV1 s) | None => Err "json" end
  else match parse_v0 body with Some l => Ok (HcV0 l) | None => Err "json" end.

(** The status of the response and the log in its body. *)
Definition run_ecs_health_check_service (is_draining : bool) (reply : EnclaveReply) :
    N * CombinedHealthCheckLog :=
  if is_draining then
    (500%N, mkCombined Draining
      (HcV1 (DpUnknown "Enclave is draining, data-plane health will not be checked")))
  else
    let data_plane :=
      match health_check_data_plane reply with
      | Ok h => h
      | Err e => HcV1 (DpError ("Failed to contact data-plane for healthcheck: " +:+ e))
      end in
    (N.max (ControlPlaneState_status_code CpOk) (HealthCheckVersion_status_code data_plane),
     mkCombined CpOk data_plane).

(** The service function of [HealthCheckServer::start]. *)
Definition health_request (user_agent : option bytes) (draining : bool) (reply : EnclaveReply) : N :=
  if bool_decide (user_agent = Some (b "ECS-HealthCheck"))
  then fst (run_ecs_health_check_service draining reply)
  else 400.
End Ecs.

(** ** The agent over time *)

Lemma record_result_buffer a r :
  buffer (record_result a r) =
    if Nat.leb (buffer_size_limit a) (length (buffer a ++ [r])) then tail (buffer a ++ [r])
    else buffer a ++ [r].
Proof. unfold record_result. by destruct (Nat.leb _ _). Qed.

Lemma record_result_limit a r : buffer_size_limit (record_result a r) = buffer_size_limit a.
Proof. unfold record_result. by destruct (Nat.leb _ _). Qed.

(** A health check records one result and keeps the configuration. *)
Lemma perform_records dbg env ctx client a :
  ∃ r a1, perform_healthcheck dbg env ctx client a = record_result a1 r ∧
    buffer a1 = buffer a ∧ buffer_size_limit a1 = buffer_size_limit a.
Proof.
  unfold perform_healthcheck.
  destruct (match state a with Initializing => _ | Ready => _ end) as [hs a1] eqn:E.
  do 2 eexists. split; [reflexivity|].
  destruct (state a); [|by simplify_eq]. unfold check_user_process_initialized in E.
  destruct env; [|by simplify_eq..].
  destruct (contains contents "EV_INITIALIZED"); [|by simplify_eq].
  by destruct (EnclaveContext_get ctx); simplify_eq.
Qed.

(** An agent that recorded the results [h], oldest first. *)
Inductive agent_run : HealthcheckAgent → list UserProcessHealth → Prop :=
| run_new port path proto : agent_run (HealthcheckAgent_new port path proto) []
| run_tick a h r dbg env ctx client :
    agent_run a h → last (buffer (perform_healthcheck dbg env ctx client a)) = Some r →
    agent_run (perform_healthcheck dbg env ctx client a) (h ++ [r]).

Lemma tail_last {A} (l : list A) r : (2 ≤ length (l ++ [r]))%nat → last (tail (l ++ [r])) = Some r.
Proof. destruct l as [|x l]; simpl; [lia|]. intros _. apply last_snoc. Qed.

Lemma tail_of_drop {A} n (l : list A) : tail (drop n l) = drop (S n) l.
Proof. revert n. induction l as [|x l IH]; intros [|n]; try done. apply IH. Qed.

(** The buffer is the nine latest results. *)
Lemma agent_run_buffer a h : agent_run a h →
  buffer_size_limit a = 10 ∧ buffer a = drop (length h - 9) h.
Proof.
  induction 1 as [|a h r dbg env ctx client Hr [IHl IHb] Hlast]; [done|].
  destruct (perform_records dbg env ctx client a) as (r' & a1 & Hp & Hb & Hl).
  rewrite Hp in *. rewrite record_result_limit, Hl. split; [done|].
  rewrite record_result_buffer, Hl, IHl, Hb, IHb in *.
  rewrite !length_app, length_drop in *. cbn [length] in *.
  destruct (Nat.leb_spec 10 (length h - (length h - 9) + 1)) as [Hge|Hlt].
  - rewrite tail_last in Hlast by (rewrite length_app, length_drop; simpl; lia). simplify_eq.
    replace (length h + 1 - 9) with (S (length h - 9)) by lia.
    rewrite <-drop_app_le by lia. apply tail_of_drop.
  - rewrite last_snoc in Hlast. simplify_eq.
    replace (length h - 9) with 0 by lia. replace (length h + 1 - 9) with 0 by lia.
    by rewrite !drop_0.
Qed.

(** ** The worst result *)

Lemma max_by_rank_spec x l :
  max_by_rank x l ∈ x :: l ∧ ∀ y, y ∈ x :: l → (rank y <= rank (max_by_rank x l))%N.
Proof.
  unfold max_by_rank, UserProcessHealth_cmp. revert x. induction l as [|z l IH]; intros x; cbn [fold_left].
  - split; [by left|]. intros y ->%list_elem_of_singleton. done.
  - set (w := match N.compare (rank x) (rank z) with Gt => x | _ => z end).
    assert ((w = x ∨ w = z) ∧ (rank x <= rank w)%N ∧ (rank z <= rank w)%N) as (Hw & Hx & Hz).
    { subst w. destruct (N.compare_spec (rank x) (rank z)); naive_solver lia. }
    clearbody w. destruct (IH w) as [IH1 IH2]. split; [set_solver|].
    intros y Hy. rewrite !elem_of_cons in Hy. destruct Hy as [->|[->|Hy]].
    + etrans; [exact Hx|]. apply IH2. by left.
    + etrans; [exact Hz|]. apply IH2. by left.
    + apply IH2. by right.
Qed.

Definition healthy (h : UserProcessHealth) : bool := is_healthy (mkDiagnostic h).

Lemma healthy_rank h : healthy h = true ↔ (rank h <= 1)%N.
Proof.
  unfold healthy, is_healthy, rank. cbn [user_process]. destruct h; simpl; [split; [lia|done]| |].
  - split; [done|lia].
  - destruct (_ && _); split; (done || lia).
Qed.

(** The agent reports healthy exactly when every buffered result is. *)
Lemma served_healthy a :
  healthy (serve_healthcheck_request a) = true ↔ Forall (fun h => healthy h = true) (buffer a).
Proof.
  unfold serve_healthcheck_request. destruct (buffer a) as [|x l]; [done|].
  destruct (max_by_rank_spec x l) as [Hin Hmax]. rewrite Forall_forall. split.
  - intros Hh y Hy. apply healthy_rank. apply healthy_rank in Hh.
    etrans; [by apply Hmax|done].
  - intros H. by apply H.
Qed.

(** ** Properties *)

(** The health agent reports the worst of the latest nine results: whatever
    the checks returned, the served value is one of the nine latest results
    and none of them ranks above it. *)
Theorem agent_serves_worst_recent a h : agent_run a h → h ≠ [] →
  let recent := drop (length h - 9) h in
  serve_healthcheck_request a ∈ recent ∧
  ∀ x, x ∈ recent → (rank x <= rank (serve_healthcheck_request a))%N.
Proof.
  intros Hr Hne recent. destruct (agent_run_buffer a h Hr) as [_ Hb]. fold recent in Hb.
  unfold serve_healthcheck_request. rewrite <-Hb. destruct (buffer a) as [|x l] eqn:Ea.
  - exfalso. subst recent. apply (f_equal length) in Hb. rewrite length_drop in Hb.
    destruct h; [done|simpl in Hb; lia].
  - apply max_by_rank_spec.
Qed.

(** The check ECS sees is end to end the health of the user process: when
    the control plane reads back the state the data plane wrote, the status is
    200 exactly when the control plane is not draining and none of the nine
    latest results of the agent is an error or an unsuccessful response;
    otherwise it is 500. *)
Theorem ecs_status_is_user_process_health parse_v1 parse_v0 a h draining body :
  agent_run a h → parse_v1 body = Some (health_service true true a) →
  let reply := Ok (Some "application/json;version=1", body) in
  let status := fst (run_ecs_health_check_service parse_v1 parse_v0 draining reply) in
  (status = 200%N ∨ status = 500%N) ∧
  (status = 200%N ↔ draining = false ∧
    Forall (fun r => healthy r = true) (drop (length h - 9) h)).
Proof.
  intros Hr Hj reply status. subst status reply. unfold run_ecs_health_check_service.
  destruct draining; [split; [by right|naive_solver]|].
  unfold health_check_data_plane. cbn [rbind]. rewrite bool_decide_true by done. rewrite Hj.
  cbn [fst HealthCheckVersion_status_code DataPlaneState_status_code ControlPlaneState_status_code].
  unfold health_service. cbn [DataPlaneState_status_code].
  destruct (agent_run_buffer a h Hr) as [_ <-]. rewrite <-served_healthy. unfold healthy.
  change (check_user_process_health true true a) with (serve_healthcheck_request a).
  destruct (is_healthy _); split; naive_solver.
Qed.
End States.

(** ** Witnesses *)

Definition ok_client : string → ProbeReply := fun _ => Ok (200%N, None).
Definition bad_client : string → ProbeReply := fun _ => Ok (503%N, None).
Definition no_debug (_ : ContextError) : string := "".
Definition ready_env : EnvRead := EnvFile "export EV_INITIALIZED=true".
Definition some_ctx : option EnclaveContext := Some (mkContext "team" "app_1" "uuid" "cage").

Definition one_check (client : string → ProbeReply) (a : HealthcheckAgent) : HealthcheckAgent :=
  perform_healthcheck no_debug ready_env some_ctx client a.

Definition checked : HealthcheckAgent :=
  one_check bad_client (one_check ok_client (build_agent 8008 (Some "/health"))).

Lemma checked_run : agent_run checked [UpResponse 200 None; UpResponse 503 None].
Proof.
  apply (run_tick (one_check ok_client (build_agent 8008 (Some "/health"))) [UpResponse 200 None]);
    [|vm_compute; reflexivity].
  apply (run_tick (build_agent 8008 (Some "/health")) []); [apply run_new|vm_compute; reflexivity].
Qed.

Lemma agent_serves_worst_recent_witness :
  serve_healthcheck_request checked ∈ [UpResponse 200 None; UpResponse 503 None] ∧
  ∀ x, x ∈ [UpResponse 200 None; UpResponse 503 None] →
    (rank x <= rank (serve_healthcheck_request checked))%N.
Proof. apply (agent_serves_worst_recent checked _ checked_run). done. Defined.

Lemma ecs_status_is_user_process_health_witness :
  let status := fst (run_ecs_health_check_service (fun _ => Some (health_service true true checked))
    (fun _ => None) false (Ok (Some "application/json;version=1", []))) in
  (status = 200%N ∨ status = 500%N) ∧
  (status = 200%N ↔ false = false ∧
    Forall (fun r => healthy r = true) [UpResponse 200 None; UpResponse 503 None]).
Proof.
  apply (ecs_status_is_user_process_health _ (fun _ => None) checked
    [UpResponse 200 None; UpResponse 503 None] false []); [apply checked_run|reflexivity].
Defined.
