(* ===== verification/Logging.v ===== *)
(** * Transaction logging (shared/src/logging.rs)

    The builder that collects what is logged about a request, which headers
    may be logged in the clear, and the status groups. The random id, the
    clock and the JSON encoder are parameters. *)
From Stdlib Require Import Ascii String NArith ZArith Lia.
From stdpp Require Import base gmap strings list pretty.
From S2P Require Import Prelude Libs.
#[local] Open Scope string_scope.
#[local] Open Scope list_scope.
#[local] Open Scope enclave_scope.

(** ** Records *)

Record TrxContext : Type := mkTrx {
  t_txid : string;
  t_ts : string;
  t_msg : string;
  t_uri : option string;
  t_type : string;
  t_request_method : option string;
  t_remote_ip : option string;
  t_request_headers : option string;
  t_user_agent : option string;
  t_response_headers : option string;
  t_response_code : option string;
  t_status_group : option string;
  t_resource_name : string;
  t_resource_uuid : string;
  t_app_uuid : string;
  t_team_uuid : string;
  t_n_decrypted_fields : option N;
  t_content_type : option string;
  t_response_content_type : option string;
  t_elapsed : option N;
  t_request_type : string
}.

(** [derive(Builder)]: one optional value per field. *)
Record TrxContextBuilder : Type := mkBuilder {
  txid : option string;
  ts : option string;
  msg : option string;
  uri : option (option string);
  type_ : option string;
  request_method : option (option string);
  remote_ip : option (option string);
  request_headers : option (option string);
  user_agent : option (option string);
  response_headers : option (option string);
  response_code : option (option string);
  status_group : option (option string);
  resource_name : option string;
  resource_uuid : option string;
  app_uuid : option string;
  team_uuid : option string;
  n_decrypted_fields : option (option N);
  content_type : option (option string);
  response_content_type : option (option string);
  elapsed : option (option N);
  request_type : option string
}.

(** [UninitializedField] of the field. *)
Definition TrxContextBuilderError : Type := string.

(** The derived [build]: a field without [#[builder(default)]] must be set. *)
Definition build (c : TrxContextBuilder) : result TrxContextBuilderError TrxContext :=
  let? v_txid := ok_or (txid c) "txid" in
  let? v_ts := ok_or (ts c) "ts" in
  let? v_msg := ok_or (msg c) "msg" in
  let? v_uri := ok_or (uri c) "uri" in
  let? v_type := ok_or (type_ c) "type" in
  let? v_method := ok_or (request_method c) "request_method" in
  let? v_name := ok_or (resource_name c) "resource_name" in
  let? v_uuid := ok_or (resource_uuid c) "resource_uuid" in
  let? v_app := ok_or (app_uuid c) "app_uuid" in
  let? v_team := ok_or (team_uuid c) "team_uuid" in
  let? v_rtype := ok_or (request_type c) "request_type" in
  Ok (mkTrx v_txid v_ts v_msg v_uri v_type v_method (default None (remote_ip c))
        (default None (request_headers c)) (default None (user_agent c))
        (default None (response_headers c)) (default None (response_code c))
        (default None (status_group c)) v_name v_uuid v_app v_team
        (default None (n_decrypted_fields c)) (default None (content_type c))
        (default None (response_content_type c)) (default None (elapsed c)) v_rtype).

(** [TrxContext::record_trx]: the line it prints. *)
Definition record_trx (to_json : TrxContext → option string) (t : TrxContext) : option string :=
  let t := match t_response_code t with
           | Some _ => t
           | None =>
               mkTrx (t_txid t) (t_ts t) (t_msg t) (t_uri t) (t_type t) (t_request_method t)
                 (t_remote_ip t) (t_request_headers t) (t_user_agent t) (t_response_headers t)
                 (Some "ERR") (t_status_group t) (t_resource_name t) (t_resource_uuid t)
                 (t_app_uuid t) (t_team_uuid t) (t_n_decrypted_fields t) (t_content_type t)
                 (t_response_content_type t) (t_elapsed t) (t_request_type t)
           end in
  to_json t.

(** ** Identifiers *)

Definition upper_hex_digit (n : N) : ascii :=
  ascii_of_N (if (n <? 10)%N then 48 + n else 55 + n)%N.

(** [{:X}] of an unsigned integer; 32 digits are enough for a [u128]. *)
Fixpoint upper_hex (fuel : nat) (n : N) (acc : string) : string :=
  match fuel with
  | O => acc
  | S fuel' =>
      let acc' := String (upper_hex_digit (n mod 16)) acc in
      if (n <? 16)%N then acc' else upper_hex fuel' (n / 16) acc'
  end.

Definition TrxContextId_display (txid : N) : string := upper_hex 32 txid "".

Inductive RequestType : Type := HTTP | Websocket | TCP.

(** [impl From<RequestType> for String] *)
Definition RequestType_to_string (r : RequestType) : string :=
  match r with HTTP => "HTTP" | TCP => "TCP" | Websocket => "Websocket" end.

(** ** Status groups *)

Inductive StatusGroup : Type := Information | Success | Redirection | RequestErr | ServerErr.

Definition StatusGroup_from_u16 (val : N) : option StatusGroup :=
  if (val <? 200)%N then Some Information
  else if (val <? 300)%N then Some Success
  else if (val <? 400)%N then Some Redirection
  else if (val <? 500)%N then Some RequestErr
  else if (val <? 600)%N then Some ServerErr
  else None.

Definition StatusGroup_display (g : StatusGroup) : string :=
  match g with
  | Information => "1XX" | Success => "2XX" | Redirection => "3XX" | RequestErr => "4XX"
  | ServerErr => "5XX"
  end.

(** ** Headers *)

Definition NON_SENSITIVE_HEADERS : list string :=
  ["accept"; "accept-charset"; "accept-encoding"; "accept-language"; "accept-ranges";
   "access-control-allow-credentials"; "access-control-allow-headers";
   "access-control-allow-methods"; "access-control-allow-origin";
   "access-control-expose-headers"; "access-control-max-age"; "access-control-request-headers";
   "access-control-request-method"; "age"; "allow"; "alt-svc"; "cache-control"; "connection";
   "content-disposition"; "content-encoding"; "content-language"; "content-length";
   "content-location"; "content-range"; "content-security-policy";
   "content-security-policy-report-only"; "content-type"; "dnt"; "date"; "etag"; "expect";
   "expires"; "forwarded"; "from"; "host"; "if-match"; "if-modified-since"; "if-none-match";
   "if-range"; "if-unmodified-since"; "last-modified"; "link"; "location"; "max-forwards";
   "origin"; "pragma"; "public-key-pins"; "public-key-pins-report-only"; "range"; "referer";
   "referrer-policy"; "refresh"; "retry-after"; "sec-websocket-accept";
   "sec-websocket-extensions"; "sec-websocket-key"; "sec-websocket-protocol";
   "sec-websocket-version"; "server"; "strict-transport-security"; "te"; "trailer";
   "transfer-encoding"; "upgrade"; "upgrade-insecure-requests"; "user-agent"; "vary"; "via";
   "warning"; "x-content-type-options"; "x-dns-prefetch-control"; "x-frame-options";
   "x-xss-protection"; "x-forwarded-for"; "x-request-id"; "x-amzn-trace-id";
   "x-download-options"; "x-evervault-region"; "x-global-transaction-id"].

Definition SENSITIVE_HEADERS : list string := ["authorization"; "proxy-authorization"; "api-key"].

(** The string without its last byte, [&s[..s.len() - 1]]. *)
Definition drop_last (s : string) : string := substring 0 (String.length s - 1) s.

Definition is_trusted_header (trusted_headers : list string) (header_key : string) : bool :=
  if str_mem header_key SENSITIVE_HEADERS then false
  else if str_mem header_key NON_SENSITIVE_HEADERS then true
  else existsb (fun trusted_header =>
         if ends_with trusted_header "*" then starts_with header_key (drop_last trusted_header)
         else String.eqb header_key trusted_header) trusted_headers.

(** [hyper::Uri], the parts the code reads. *)
Record Uri : Type := mkUri { path : string; query : option string }.

Definition build_log_uri (u : Uri) : string :=
  match query u with
  | Some q => path u +:+ "?" +:+ q
  | None => path u
  end.

(** The head of a request. *)
Record Parts {H : HttpLib} : Type := mkParts {
  p_method : string;
  p_uri : Uri;
  p_headers : HeaderMap
}.

(** An [httparse::Request], the fields the log takes. *)
Record ParsedRequest : Type := mkParsed {
  pr_path : option string;
  pr_method : option string;
  pr_headers : list (string * bytes)
}.

Section Builder.
Context {H : HttpLib} {J : Json}.

(** [Value] of an optional string ([From<Option<&str>>]). *)
Context (Value_null : Value).

Definition convert_headers_to_map (headers : HeaderMap) (trusted_headers : list string) :
    gmap string Value :=
  fold_left (fun tracked '(header_key, header_value) =>
    match hv_to_str header_value with
    | Some s =>
        if is_trusted_header trusted_headers header_key
        then <[header_key := Value_of_string s]> tracked
        else <[header_key := Value_of_string "***"]> tracked
    | None => <[header_key := Value_of_string "***"]> tracked
    end) (hm_iter headers) ∅.

(** [TrxContextBuilder::new], given the clock's text and the random id. *)
Definition TrxContextBuilder_new (timestamp : string) (id : N) (r : RequestType) : TrxContextBuilder :=
  mkBuilder (Some (TrxContextId_display id)) (Some timestamp) (Some "Transaction Complete") None
    (Some "enclave_trx") None None None None None None None None None None None None None None None
    (Some (RequestType_to_string r)).

Definition init_trx_context_with_enclave_details (timestamp : string) (id : N)
    (v_uuid v_name v_app_uuid v_team_uuid : string) (r : RequestType) : TrxContextBuilder :=
  let c := TrxContextBuilder_new timestamp id r in
  mkBuilder (txid c) (ts c) (msg c) (uri c) (type_ c) (request_method c) (remote_ip c)
    (request_headers c) (user_agent c) (response_headers c) (response_code c) (status_group c)
    (Some v_name) (Some v_uuid) (Some v_app_uuid) (Some v_team_uuid)
    (n_decrypted_fields c) (content_type c) (response_content_type c) (elapsed c) (request_type c).

(** Setters, as the derived ones: each replaces one field. *)
Definition set_uri v c := mkBuilder (txid c) (ts c) (msg c) (Some v) (type_ c) (request_method c)
  (remote_ip c) (request_headers c) (user_agent c) (response_headers c) (response_code c)
  (status_group c) (resource_name c) (resource_uuid c) (app_uuid c) (team_uuid c)
  (n_decrypted_fields c) (content_type c) (response_content_type c) (elapsed c) (request_type c).
Definition set_method v c := mkBuilder (txid c) (ts c) (msg c) (uri c) (type_ c) (Some v)
  (remote_ip c) (request_headers c) (user_agent c) (response_headers c) (response_code c)
  (status_group c) (resource_name c) (resource_uuid c) (app_uuid c) (team_uuid c)
  (n_decrypted_fields c) (content_type c) (response_content_type c) (elapsed c) (request_type c).
Definition set_remote_ip v c := mkBuilder (txid c) (ts c) (msg c) (uri c) (type_ c)
  (request_method c) (Some v) (request_headers c) (user_agent c) (response_headers c)
  (response_code c) (status_group c) (resource_name c) (resource_uuid c) (app_uuid c) (team_uuid c)
  (n_decrypted_fields c) (content_type c) (response_content_type c) (elapsed c) (request_type c).
Definition set_request_headers v c := mkBuilder (txid c) (ts c) (msg c) (uri c) (type_ c)
  (request_method c) (remote_ip c) (Some v) (user_agent c) (response_headers c)
  (response_code c) (status_group c) (resource_name c) (resource_uuid c) (app_uuid c) (team_uuid c)
  (n_decrypted_fields c) (content_type c) (response_content_type c) (elapsed c) (request_type c).
Definition set_user_agent v c := mkBuilder (txid c) (ts c) (msg c) (uri c) (type_ c)
  (request_method c) (remote_ip c) (request_headers c) (Some v) (response_headers c)
  (response_code c) (status_group c) (resource_name c) (resource_uuid c) (app_uuid c) (team_uuid c)
  (n_decrypted_fields c) (content_type c) (response_content_type c) (elapsed c) (request_type c).
Definition set_response_headers v c := mkBuilder (txid c) (ts c) (msg c) (uri c) (type_ c)
  (request_method c) (remote_ip c) (request_headers c) (user_agent c) (Some v)
  (response_code c) (status_group c) (resource_name c) (resource_uuid c) (app_uuid c) (team_uuid c)
  (n_decrypted_fields c) (content_type c) (response_content_type c) (elapsed c) (request_type c).
Definition set_status code group c := mkBuilder (txid c) (ts c) (msg c) (uri c) (type_ c)
  (request_method c) (remote_ip c) (request_headers c) (user_agent c) (response_headers c)
  (Some code) (Some group) (resource_name c) (resource_uuid c) (app_uuid c) (team_uuid c)
  (n_decrypted_fields c) (content_type c) (response_content_type c) (elapsed c) (request_type c).
Definition set_n_decrypted_fields v c := mkBuilder (txid c) (ts c) (msg c) (uri c) (type_ c)
  (request_method c) (remote_ip c) (request_headers c) (user_agent c) (response_headers c)
  (response_code c) (status_group c) (resource_name c) (resource_uuid c) (app_uuid c) (team_uuid c)
  (Some v) (content_type c) (response_content_type c) (elapsed c) (request_type c).
Definition set_content_type v c := mkBuilder (txid c) (ts c) (msg c) (uri c) (type_ c)
  (request_method c) (remote_ip c) (request_headers c) (user_agent c) (response_headers c)
  (response_code c) (status_group c) (resource_name c) (resource_uuid c) (app_uuid c) (team_uuid c)
  (n_decrypted_fields c) (Some v) (response_content_type c) (elapsed c) (request_type c).
Definition set_response_content_type v c := mkBuilder (txid c) (ts c) (msg c) (uri c) (type_ c)
  (request_method c) (remote_ip c) (request_headers c) (user_agent c) (response_headers c)
  (response_code c) (status_group c) (resource_name c) (resource_uuid c) (app_uuid c) (team_uuid c)
  (n_decrypted_fields c) (content_type c) (Some v) (elapsed c) (request_type c).
Definition set_elapsed v c := mkBuilder (txid c) (ts c) (msg c) (uri c) (type_ c)
  (request_method c) (remote_ip c) (request_headers c) (user_agent c) (response_headers c)
  (response_code c) (status_group c) (resource_name c) (resource_uuid c) (app_uuid c) (team_uuid c)
  (n_decrypted_fields c) (content_type c) (response_content_type c) (Some v) (request_type c).

(** [get_trx_id], with the id drawn when none is set. *)
Definition get_trx_id (drawn : N) (c : TrxContextBuilder) : string :=
  default (TrxContextId_display drawn) (txid c).

Definition add_status_and_group (status_code : N) (c : TrxContextBuilder) : TrxContextBuilder :=
  set_status (Some (pretty status_code)) (StatusGroup_display <$> StatusGroup_from_u16 status_code) c.

Definition add_headers_to_request (headers : HeaderMap) (trusted : list string)
    (c : TrxContextBuilder) : TrxContextBuilder :=
  match json_map_to_string (convert_headers_to_map headers trusted) with
  | Some s => set_request_headers (Some s) c
  | None => c
  end.

Definition add_headers_to_response (headers : HeaderMap) (trusted : list string)
    (c : TrxContextBuilder) : TrxContextBuilder :=
  match json_map_to_string (convert_headers_to_map headers trusted) with
  | Some s => set_response_headers (Some s) c
  | None => c
  end.

(** [None] is the panic of an [expect]: a value that is not visible ASCII. *)
Definition header_text (headers : HeaderMap) (k : string)
    (set : option string → TrxContextBuilder → TrxContextBuilder) (c : TrxContextBuilder) :
    option TrxContextBuilder :=
  match hm_get headers k with
  | Some v => match hv_to_str v with
              | Some s => Some (set (Some s) c)
              | None => None
              end
  | None => Some c
  end.

Definition add_req_to_trx_context (req : Parts) (trusted : list string) (c : TrxContextBuilder) :
    option TrxContextBuilder :=
  let c := set_uri (Some (build_log_uri (p_uri req))) c in
  let c := set_method (Some (p_method req)) c in
  let c := add_headers_to_request (p_headers req) trusted c in
  c ← header_text (p_headers req) "content-type" set_content_type c;
  header_text (p_headers req) "user-agent" set_user_agent c.

Definition add_res_to_trx_context (status : N) (headers : HeaderMap) (trusted : list string)
    (c : TrxContextBuilder) : option TrxContextBuilder :=
  let c := add_status_and_group status c in
  let c := add_headers_to_response headers trusted c in
  header_text headers "content-type" set_response_content_type c.

Definition format_headers (headers : list (string * bytes)) : option string :=
  json_map_to_string
    (fold_left (fun m '(k, v) =>
       <[k := match from_utf8 v with Some s => Value_of_string s | None => Value_null end]> m)
       headers ∅).

Definition add_httparse_to_trx (authorized : bool) (request : option ParsedRequest)
    (v_remote_ip : option string) (c : TrxContextBuilder) : TrxContextBuilder :=
  let c := match request with
           | Some req =>
               set_request_headers (format_headers (pr_headers req))
                 (set_method (pr_method req) (set_uri (pr_path req) c))
           | None => c
           end in
  let c := if authorized then c else add_status_and_group 401 c in
  set_remote_ip v_remote_ip c.

Definition can_build (c : TrxContextBuilder) : bool :=
  is_some (uri c) && is_some (resource_name c) && is_some (resource_uuid c)
  && is_some (request_method c) && is_some (request_headers c).

(** [stop_timer_and_build], given what [started.elapsed()] returns: an error,
    when the clock was set back, is unwrapped. *)
Definition stop_timer_and_build (elapsed_millis : option N) (c : TrxContextBuilder) :
    option (result TrxContextBuilderError TrxContext) :=
  match elapsed_millis with
  | None => None
  | Some ms => Some (build (set_elapsed (Some ms) c))
  end.
End Builder.

(** ** Lemmas *)

Definition logged_value {H : HttpLib} {J : Json} (trusted : list string) (k : string)
    (v : HeaderValue) : Value :=
  match hv_to_str v with
  | Some s => if is_trusted_header trusted k then Value_of_string s else Value_of_string "***"
  | None => Value_of_string "***"
  end.

Section LoggingLemmas.
Context {H : HttpLib} {HL : HttpLaws H} {J : Json}.

Lemma convert_fold trusted l (m : gmap string Value) k v :
  fold_left (fun tracked '(header_key, header_value) =>
    match hv_to_str header_value with
    | Some s =>
        if is_trusted_header trusted header_key
        then <[header_key := Value_of_string s]> tracked
        else <[header_key := Value_of_string "***"]> tracked
    | None => <[header_key := Value_of_string "***"]> tracked
    end) l m !! k = Some v →
  m !! k = Some v ∨ ∃ hv, (k, hv) ∈ l ∧ v = logged_value trusted k hv.
Proof.
  revert m. induction l as [|[k' v'] l IH]; intros m; cbn [fold_left]; [by left|].
  intros Hl. apply IH in Hl as [Hl|(hv & Hin & ->)].
  - assert (<[k' := logged_value trusted k' v']> m !! k = Some v) as Hm.
    { unfold logged_value. revert Hl. by destruct (hv_to_str v'), (is_trusted_header trusted k'). }
    apply lookup_insert_Some in Hm as [[<- <-]|[_ Hm]]; [|by left].
    right. exists v'. split; [by left|done].
  - right. exists hv. split; [by right|done].
Qed.

Lemma elem_of_iter h k v : (k, v) ∈ hm_iter h ↔ v ∈ hm_get_all h k.
Proof.
  rewrite <-iter_get_all. unfold values_of. rewrite list_elem_of_fmap. split.
  - intros Hin. exists (k, v). split; [done|]. by apply list_elem_of_filter.
  - intros ([k' v'] & -> & Hin). apply list_elem_of_filter in Hin as [E Hin].
    simpl in *. by subst.
Qed.

Lemma is_trusted_sensitive trusted k :
  k ∈ SENSITIVE_HEADERS → is_trusted_header trusted k = false.
Proof. intros Hk%str_mem_spec. unfold is_trusted_header. by rewrite Hk. Qed.

(** The ids are valid header text. *)
Lemma upper_hex_visible fuel n acc :
  forallb is_visible (b acc) = true → forallb is_visible (b (upper_hex fuel n acc)) = true.
Proof.
  revert n acc. induction fuel as [|fuel IH]; intros n acc Ha; [done|]. cbn [upper_hex].
  assert (forallb is_visible (b (String (upper_hex_digit (n mod 16)) acc)) = true) as Hd.
  { change (b (String ?c acc)) with (c :: b acc). cbn [forallb]. rewrite Ha, andb_true_r.
    assert (n mod 16 < 16)%N by by apply N.mod_lt.
    assert (∃ k, (k < 16)%nat ∧ (n mod 16)%N = N.of_nat k) as (k & Hk & ->).
    { exists (N.to_nat (n mod 16)). lia. }
    do 16 (destruct k as [|k]; [done|]). lia. }
  destruct (n <? 16)%N; [done|by apply IH].
Qed.

Lemma txid_visible id : forallb is_visible (b (TrxContextId_display id)) = true.
Proof. by apply upper_hex_visible. Qed.

(** The fields [build] requires. *)
Definition required (c : TrxContextBuilder) : bool :=
  is_some (txid c) && is_some (ts c) && is_some (msg c) && is_some (uri c) && is_some (type_ c)
  && is_some (request_method c) && is_some (resource_name c) && is_some (resource_uuid c)
  && is_some (app_uuid c) && is_some (team_uuid c) && is_some (request_type c).

Lemma build_ok c : is_ok (build c) = required c.
Proof.
  unfold build, required.
  repeat match goal with |- context [ok_or ?f _] => destruct f; cbn; [|done] end.
  reflexivity.
Qed.

Lemma header_text_required h k set c c' :
  (∀ v c, required (set v c) = required c) →
  header_text h k set c = Some c' → required c' = required c.
Proof.
  intros Hs. unfold header_text. destruct (hm_get h k) as [v|]; [|by intros [= ->]].
  destruct (hv_to_str v); [|done]. intros [= <-]. apply Hs.
Qed.

Lemma add_headers_required h tr c : required (add_headers_to_request h tr c) = required c.
Proof. unfold add_headers_to_request. by destruct (json_map_to_string _). Qed.

Lemma add_resp_headers_required h tr c : required (add_headers_to_response h tr c) = required c.
Proof. unfold add_headers_to_response. by destruct (json_map_to_string _). Qed.

(** The context of a request has every field the log needs. *)
Lemma add_req_required req tr ts id u n a t r c' :
  add_req_to_trx_context req tr (init_trx_context_with_enclave_details ts id u n a t r) = Some c' →
  required c' = true.
Proof.
  unfold add_req_to_trx_context. intros (c1 & H1 & H2)%bind_Some.
  apply header_text_required in H1; [|done]. apply header_text_required in H2; [|done].
  by rewrite H2, H1, add_headers_required.
Qed.

Lemma add_res_required st h tr c c' :
  add_res_to_trx_context st h tr c = Some c' → required c' = required c.
Proof.
  unfold add_res_to_trx_context. intros H1%header_text_required; [|done].
  by rewrite H1, add_resp_headers_required.
Qed.

(** ** Properties *)

(** No header value leaks into the log: a logged value is the mask, or the
    text of a value of that very header, which is then not a sensitive header
    and is one of the built-in or configured trusted ones. *)
Theorem logged_headers_are_trusted headers trusted k v :
  convert_headers_to_map headers trusted !! k = Some v →
  v = Value_of_string "***" ∨
  ∃ hv s, hv ∈ hm_get_all headers k ∧ hv_to_str hv = Some s ∧ v = Value_of_string s ∧
    k ∉ SENSITIVE_HEADERS ∧ is_trusted_header trusted k = true.
Proof.
  unfold convert_headers_to_map. intros [Hm|(hv & Hin & ->)]%convert_fold; [done|].
  apply elem_of_iter in Hin. unfold logged_value.
  destruct (hv_to_str hv) as [s|] eqn:Es; [|by left].
  destruct (is_trusted_header trusted k) eqn:Et; [|by left].
  right. exists hv, s. do 3 (split; [done|]). split; [|done].
  intros Hk. by rewrite is_trusted_sensitive in Et.
Qed.

(** A request whose User-Agent is a legal header value outside visible
    ASCII cannot be logged: the [expect] documented as infallible panics. *)
Theorem non_ascii_user_agent_panics req tr c v :
  hm_get_all (p_headers req) "user-agent" = [v] →
  forallb is_header_byte v = true → forallb is_visible v = false →
  hv_from_bytes v = Some v ∧ add_req_to_trx_context req tr c = None.
Proof.
  intros Hu Hb Hv. split; [by rewrite from_bytes_law, Hb|].
  unfold add_req_to_trx_context.
  destruct (header_text (p_headers req) "content-type" _ _) as [c1|]; [|done]. cbn [mbind option_bind].
  unfold header_text, hm_get. rewrite Hu. cbn [head]. by rewrite to_str_law, Hv.
Qed.
End LoggingLemmas.

(** ** Witnesses *)

Lemma logged_headers_are_trusted_witness :
  let h := hm_insert (hm_insert hm_empty "api-key" (b "secret")) "accept" (b "text/html") in
  convert_headers_to_map h ["api-*"] !! "api-key" = Some (Value_of_string "***") ∧
  convert_headers_to_map h ["api-*"] !! "accept" = Some (Value_of_string "text/html") ∧
  (Value_of_string "text/html" = Value_of_string "***" ∨
   ∃ hv s, hv ∈ hm_get_all h "accept" ∧ hv_to_str hv = Some s ∧ Value_of_string "text/html" = Value_of_string s ∧
     "accept" ∉ SENSITIVE_HEADERS ∧ is_trusted_header ["api-*"] "accept" = true).
Proof.
  split; [vm_compute; reflexivity|]. split; [vm_compute; reflexivity|].
  apply (logged_headers_are_trusted
    (hm_insert (hm_insert hm_empty "api-key" (b "secret")) "accept" (b "text/html"))
    ["api-*"] "accept" (Value_of_string "text/html")). vm_compute. reflexivity.
Defined.

Definition latin1_agent : bytes := [ascii_of_nat 233].

Lemma non_ascii_user_agent_panics_witness :
  hv_from_bytes latin1_agent = Some latin1_agent ∧
  add_req_to_trx_context (mkParts _ "GET" (mkUri "/" None) (hm_insert hm_empty "user-agent" latin1_agent))
    [] (TrxContextBuilder_new "now" 7 HTTP) = None.
Proof.
  apply (non_ascii_user_agent_panics
    (mkParts _ "GET" (mkUri "/" None) (hm_insert hm_empty "user-agent" latin1_agent)));
    vm_compute; reflexivity.
Defined.
