(* ===== verification/TrxHandler.v ===== *)
(** * Log shipping (data-plane/src/utils/trx_handler.rs)

    The task that buffers transaction logs and posts them to the control
    plane when fifteen are waiting or a tick comes. *)
From Stdlib Require Import String NArith Lia.
From stdpp Require Import base strings list.
From S2P Require Import Prelude Libs Logging.
#[local] Open Scope list_scope.
#[local] Open Scope enclave_scope.

Inductive LogHandlerMessageType : Type := TickMsg | TrxMsg.

Record LogHandlerMessage : Type := mkMessage {
  trx_log : option TrxContext;
  msg_type : LogHandlerMessageType
}.

Definition new_log_message (log : TrxContext) : LogHandlerMessage := mkMessage (Some log) TrxMsg.
Definition new_tick_message : LogHandlerMessage := mkMessage None TickMsg.

(** The buffer, and the batches handed to [post_trx_logs], oldest first, with
    whether they were posted. *)
Record LogHandlerBuffer : Type := mkLogBuffer {
  logs : list TrxContext;
  posts : list (list TrxContext * bool)
}.

Definition LogHandlerBuffer_new : LogHandlerBuffer := mkLogBuffer [] [].

Definition get_size (s : LogHandlerBuffer) : nat := length (logs s).

Definition add_log (log : TrxContext) (s : LogHandlerBuffer) : LogHandlerBuffer :=
  mkLogBuffer (logs s ++ [log]) (posts s).

Section Handler.
(** [ConfigClient::post_trx_logs]: how the n-th post ends. *)
Context {E : Type} (post_trx_logs : nat → list TrxContext → exec E unit).

Definition posted_ok (r : exec E unit) : bool := match r with Ret _ => true | _ => false end.

(** The buffer is drained before the post; an error of the post is only
    logged, a panic ends the task. *)
Definition send_logs : M LogHandlerBuffer E unit := fun s =>
  let trx_logs := logs s in
  let r := post_trx_logs (length (posts s)) trx_logs in
  (match r with Panic => Panic | _ => Ret tt end, mkLogBuffer [] (posts s ++ [(trx_logs, posted_ok r)])).

(** The body of the loop of [start_log_handler]. *)
Definition handle_message (message : LogHandlerMessage) : M LogHandlerBuffer E unit :=
  match msg_type message with
  | TickMsg =>
      let! s := mget in
      if Nat.ltb 0 (get_size s) then send_logs else mret tt
  | TrxMsg =>
      match trx_log message with Some log => mmodify (add_log log) | None => mret tt end ;!
      let! s := mget in
      if Nat.leb 15 (get_size s) then send_logs else mret tt
  end.

(** The messages received until the channel closes. *)
Fixpoint handle_messages (messages : list LogHandlerMessage) : M LogHandlerBuffer E unit :=
  match messages with
  | [] => mret tt
  | message :: rest => handle_message message ;! handle_messages rest
  end.

Definition start_log_handler (messages : list LogHandlerMessage) : exec E unit * LogHandlerBuffer :=
  handle_messages messages LogHandlerBuffer_new.

(** ** Properties *)

(** The logs a sequence of messages carries. *)
Definition logs_of (messages : list LogHandlerMessage) : list TrxContext :=
  omap (fun m => match msg_type m with TrxMsg => trx_log m | TickMsg => None end) messages.

(** The logs of the batches that were posted. *)
Definition shipped (s : LogHandlerBuffer) : list TrxContext := concat ((filter (fun p => p.2 = true) (posts s)).*1).

Record handler_inv (received : list TrxContext) (s : LogHandlerBuffer) : Prop := {
  hi_logs : concat ((posts s).*1) ++ logs s = received;
  hi_size : length (logs s) < 15;
  hi_batches : Forall (fun p => 0 < length p.1 ≤ 15) (posts s);
  hi_posts : ∀ i batch ok, posts s !! i = Some (batch, ok) → ok = posted_ok (post_trx_logs i batch)
}.

Lemma send_logs_inv received s r s' :
  concat ((posts s).*1) ++ logs s = received → 0 < length (logs s) ≤ 15 →
  Forall (fun p => 0 < length p.1 ≤ 15) (posts s) →
  (∀ i batch ok, posts s !! i = Some (batch, ok) → ok = posted_ok (post_trx_logs i batch)) →
  send_logs s = (r, s') → handler_inv received s' ∧ (r = Ret tt ∨ r = Panic ∧ ∃ i batch, post_trx_logs i batch = Panic).
Proof.
  intros He Hl Hf Hp [= <- <-]. split; [split|]; cbn [posts logs].
  - rewrite fmap_app, concat_app, app_nil_r. cbn. by rewrite app_nil_r.
  - cbn. lia.
  - apply Forall_app. split; [done|]. by constructor.
  - intros i batch ok [Hi|[Hi Hb]]%lookup_app_Some; [by apply Hp|].
    destruct (i - length (posts s)) eqn:Ei; [|done]. injection Hb as <- <-.
    replace i with (length (posts s)) by lia. done.
  - destruct (post_trx_logs _ _) eqn:Er; [by left..|right; split; [done|by eexists _, _]].
Qed.

Lemma handle_message_inv received s m r s' : handler_inv received s → handle_message m s = (r, s') →
  handler_inv (received ++ logs_of [m]) s' ∧ (r = Ret tt ∨ r = Panic ∧ ∃ i batch, post_trx_logs i batch = Panic).
Proof.
  intros [He Hl Hf Hp]. unfold handle_message, logs_of, get_size. cbn [omap list_omap].
  destruct m as [log [|]]; cbn [msg_type trx_log].
  - rewrite app_nil_r. unfold Prelude.mbind, mget. destruct (Nat.ltb_spec 0 (length (logs s))).
    + apply send_logs_inv; [done|lia|done..].
    + intros [= <- <-]. split; [by split|by left].
  - destruct log as [log|]; unfold Prelude.mbind, mget, mmodify, mret.
    + cbn [add_log logs posts]. rewrite length_app. cbn [length].
      destruct (Nat.leb_spec 15 (length (logs s) + 1)).
      * apply send_logs_inv; cbn [logs posts add_log]; [by rewrite app_assoc, He|rewrite length_app; simpl; lia|done..].
      * intros [= <- <-]. split; [|by left]. split; cbn [logs posts add_log];
          [by rewrite app_assoc, He|rewrite length_app; simpl; lia|done..].
    + rewrite app_nil_r. destruct (Nat.leb_spec 15 (length (logs s))); [lia|]. intros [= <- <-]. split; [by split|by left].
Qed.

Lemma handle_messages_inv received messages s r s' : handler_inv received s → handle_messages messages s = (r, s') →
  ∃ handled rest, messages = handled ++ rest ∧ handler_inv (received ++ logs_of handled) s' ∧
    (r = Ret tt ∧ rest = [] ∨ r = Panic ∧ ∃ i batch, post_trx_logs i batch = Panic).
Proof.
  revert received s. induction messages as [|m messages IH]; intros received s Hi; cbn [handle_messages].
  - intros [= <- <-]. exists [], []. cbn. rewrite app_nil_r. split; [done|]. split; [done|by left].
  - intros (r1 & s1 & Hm & Hr)%mbind_cases. apply (handle_message_inv received) in Hm as [Hi1 Hc]; [|done].
    destruct Hc as [->|[-> Hc]].
    + apply (IH _ _ Hi1) in Hr as (handled & rest & -> & Hi' & Hr). exists (m :: handled), rest. split; [done|].
      split; [|done]. change (m :: handled) with ([m] ++ handled). unfold logs_of in *. by rewrite omap_app, app_assoc.
    + destruct Hr as [-> ->]. exists [m], messages. split; [done|]. split; [done|by right].
Qed.

Lemma all_shipped s received : handler_inv received s → (∀ i batch, post_trx_logs i batch = Ret tt) →
  shipped s ++ logs s = received.
Proof.
  intros [He _ _ Hp] Hall. rewrite <-He. unfold shipped.
  assert (Forall (fun p => p.2 = true) (posts s)) as Hok.
  { apply Forall_lookup. intros i [batch ok] Hi. apply Hp in Hi as ->. cbn. by rewrite Hall. }
  assert (filter (fun p : list TrxContext * bool => p.2 = true) (posts s) = posts s) as ->; [|done].
  clear -Hok. induction Hok as [|p ps Hq _ IH]; [done|]. rewrite filter_cons_True by exact Hq. by rewrite IH.
Qed.

(** C27. The handler ships the logs it receives in order, and loses exactly the
    batches whose post fails. Whatever the posts do, the batches handed to
    the client, followed by the buffer, are the logs of the messages handled,
    in order and without duplicates; each batch, of one to fifteen logs, is
    posted once and never again, so that one that fails is lost; fewer than
    fifteen logs wait. All messages are handled unless a post panics; and when
    every post succeeds, everything received has been shipped or waits. *)
Theorem handler_ships_in_order messages :
  let '(r, s) := start_log_handler messages in
  ∃ handled rest, messages = handled ++ rest ∧
    concat ((posts s).*1) ++ logs s = logs_of handled ∧
    length (logs s) < 15 ∧ Forall (fun p => 0 < length p.1 ≤ 15) (posts s) ∧
    (∀ i batch ok, posts s !! i = Some (batch, ok) → ok = posted_ok (post_trx_logs i batch)) ∧
    (r = Ret tt ∧ rest = [] ∨ r = Panic ∧ ∃ i batch, post_trx_logs i batch = Panic) ∧
    ((∀ i batch, post_trx_logs i batch = Ret tt) → shipped s ++ logs s = logs_of messages).
Proof.
  destruct (start_log_handler messages) as [r s] eqn:Er. apply (handle_messages_inv []) in Er.
  2: { split; cbn; [done|lia|done|]. intros i batch ok. by rewrite lookup_nil. }
  destruct Er as (handled & rest & -> & Hi & Hr). cbn [app] in Hi. exists handled, rest.
  destruct Hi as [He Hl Hf Hp] eqn:Ei. split_and!; [done..|]. intros Hall. rewrite (all_shipped _ _ Hi Hall).
  destruct Hr as [[_ ->]|(_ & i & batch & Hq)]; [by rewrite app_nil_r|by rewrite Hall in Hq].
Qed.
End Handler.

(** A batch whose post fails is neither kept nor posted again. *)
Example failed_batch_is_lost t :
  let s := (start_log_handler (fun i _ => if Nat.eqb i 0 then Throw "unreachable" else Ret tt)
    [new_log_message t; new_tick_message; new_tick_message]).2 in
  logs_of [new_log_message t; new_tick_message; new_tick_message] = [t] ∧
  posts s = [([t], false)] ∧ shipped s = [] ∧ logs s = [].
Proof. by split_and!. Qed.
