(* ===== verification/E3.v ===== *)
(** * E3 client (data-plane/src/e3client, base_tls_client, crypto/token.rs)

    The client of the encryption service: the requests it sends, the token it
    attaches, and the trait [E3Api] the server layers are written against.
    The TLS transport, the token endpoint, the attestation driver and the
    [cached] crate are parameters. *)
From Stdlib Require Import Ascii String NArith Lia.
From stdpp Require Import base gmap strings list pretty.
From S2P Require Import Prelude Libs Context.
#[local] Open Scope string_scope.
#[local] Open Scope list_scope.
#[local] Open Scope enclave_scope.

(** ** Data *)

(** [base_tls_client::ClientError]; the text of a foreign error is kept. *)
Inductive ClientError : Type :=
| IoError (e : string)
| HyperError (e : string)
| SerdeError (e : string)
| FailedRequest (status : N)
| General (e : string).

Record AttestationAuth : Type := mkAuth { token : HeaderValue; doc : HeaderValue }.

Inductive AuthType : Type :=
| ApiKey (header_value : HeaderValue)
| AttestationDoc (auth : AttestationAuth).

Record AuthRequest : Type := mkAuthRequest {
  ar_team_uuid : string;
  ar_app_uuid : string;
  ar_cage_uuid : option string
}.

(** [impl From<C> for AuthRequest] *)
Definition AuthRequest_from (context : EnclaveContext) : AuthRequest :=
  mkAuthRequest (team_uuid context) (app_uuid context) (Some (uuid context)).

Section Payloads.
Context {J : Json}.

Record EncryptedDataEntry : Type := mkEntry { range : nat * nat; value : Value }.

Record EncryptedHeader : Type := mkEncHeader { eh_key : string; eh_value : string }.

Record AutoDecryptRequest : Type := mkAutoDecrypt {
  body_data : list EncryptedDataEntry;
  header_data : list EncryptedHeader
}.

Record CryptoRequest : Type := mkCryptoRequest { cr_data : Value }.
Record CryptoResponse : Type := mkCryptoResponse { cs_data : Value }.
End Payloads.

(** ** The interface [E3Api]

    What the layers rely on; [W] is the world of the service. *)
Class E3Api {J : Json} (W : Type) : Type := {
  e3_decrypt : AutoDecryptRequest → M W ClientError AutoDecryptRequest;
  e3_crypto_decrypt : CryptoRequest → M W ClientError CryptoResponse;
  e3_encrypt : CryptoRequest → option string → M W ClientError CryptoResponse;
  e3_authenticate : HeaderValue → AuthRequest → M W ClientError unit
}.

Section Retries.
Context {J : Json} {R : Retry} {W : Type} {A : E3Api W}.

(** The provided methods of the trait. *)
Definition decrypt_with_retries (retries : nat) (payload : AutoDecryptRequest) :
    M W ClientError AutoDecryptRequest :=
  spawn retries (e3_decrypt payload).

Definition encrypt_with_retries (retries : nat) (payload : CryptoRequest)
    (data_role : option string) : M W ClientError CryptoResponse :=
  spawn retries (e3_encrypt payload data_role).
End Retries.

(** ** Sending (data-plane/src/base_tls_client/mod.rs) *)

Section Client.
Context {H : HttpLib} {J : Json} {X : Type}.

Record Outgoing : Type := mkOutgoing {
  o_method : string;
  o_uri : string;
  o_headers : HeaderMap;
  o_body : bytes
}.

(** Connecting, handshake and exchange: a status and a body. *)
Context (get_conn : M X ClientError unit) (send_request : Outgoing → M X ClientError (N * bytes)).
Context (CLIENT_VERSION CLIENT_MAJOR_VERSION : string).

(** The header map of the request: the given headers, the fixed ones appended
    ([http::request::Builder::header] appends), the credentials inserted. *)
Definition request_headers (auth_type : option AuthType) (headers : option HeaderMap) : HeaderMap :=
  let h := default hm_empty headers in
  let h := hm_append h "content-type" (b "application/json") in
  let h := hm_append h "user-agent" (b ("Cage-Data-Plane/" +:+ CLIENT_VERSION)) in
  let h := hm_append h "accept" (b ("application/json;version=" +:+ CLIENT_MAJOR_VERSION)) in
  match auth_type with
  | None => h
  | Some (ApiKey header_value) => hm_insert h "api-key" header_value
  | Some (AttestationDoc auth) =>
      hm_insert (hm_insert h "attestation-token" (doc auth)) "auth-token" (token auth)
  end.

Definition is_success (status : N) : bool := ((200 <=? status) && (status <? 300))%N.

Definition send (auth_type : option AuthType) (method uri : string) (payload : bytes)
    (headers : option HeaderMap) : M X ClientError bytes :=
  let request := mkOutgoing method uri (request_headers auth_type headers) payload in
  get_conn ;!
  let! response := send_request request in
  let '(status, body) := response in
  if is_success status then mret body else mthrow (FailedRequest status).

(** ** Tokens (data-plane/src/crypto/token.rs) *)

(** [TimedSizedCache] with one slot: whether a lookup hits. *)
Class TokenCache : Type := {
  Cache : Type;
  cache_get : Cache → N → option AttestationAuth;
  cache_set : Cache → AttestationAuth → N → Cache
}.

Context {TC : TokenCache}.

Inductive TokenError : Type :=
| TkIo
| TkError (e : string)
| TkAttestation
| TkInvalidHeaderValue.

(** The client's world: the shared cache, the clock, the counters of
    [StatsClient] and the rest. *)
Record E3World : Type := mkE3 {
  e3_cache : Cache;
  e3_now : N;
  e3_decrypts : N;
  e3_encrypts : N;
  e3_inner : X
}.

Definition inner {E A} (m : M X E A) : M E3World E A := fun w =>
  let '(r, x) := m (e3_inner w) in
  (r, mkE3 (e3_cache w) (e3_now w) (e3_decrypts w) (e3_encrypts w) x).

Context (get_e3_token : M X TokenError (string * string))
  (get_attestation_doc_token : bytes → result TokenError string).

Definition get_token : M E3World TokenError AttestationAuth :=
  let! w := mget in
  match cache_get (e3_cache w) (e3_now w) with
  | Some t => mret t
  | None =>
      let! response := inner get_e3_token in
      let '(tok, token_id) := response in
      let! d := mlift (get_attestation_doc_token (b token_id)) in
      let! token_header := mlift (ok_or (hv_from_str tok) TkInvalidHeaderValue) in
      let! attestation_header := mlift (ok_or (hv_from_str d) TkInvalidHeaderValue) in
      let t := mkAuth token_header attestation_header in
      mmodify (fun w => mkE3 (cache_set (e3_cache w) t (e3_now w)) (e3_now w)
        (e3_decrypts w) (e3_encrypts w) (e3_inner w)) ;!
      mret t
  end.

(** ** The client (data-plane/src/e3client/mod.rs) *)

Context (e3_host : string).

Definition ENCLAVE_CRYPTO_PORT : N := 7778.

Definition E3Client_uri (path : string) : string :=
  "https://" +:+ e3_host +:+ ":" +:+ pretty ENCLAVE_CRYPTO_PORT +:+ path.

Definition with_token : M E3World ClientError AttestationAuth :=
  mmap_err (fun _ => General "Couldn't get E3 token") get_token.

Definition E3Client_decrypt {T P : Type} (ser : P → option bytes) (de : bytes → option T)
    (payload : P) : M E3World ClientError T :=
  let! t := with_token in
  let! body := mlift (ok_or (ser payload) (SerdeError "")) in
  let! response := inner (send (Some (AttestationDoc t)) "POST" (E3Client_uri "/decrypt") body None) in
  mmodify (fun w => mkE3 (e3_cache w) (e3_now w) (e3_decrypts w + 1) (e3_encrypts w) (e3_inner w)) ;!
  mlift (ok_or (de response) (SerdeError "")).

Definition E3Client_encrypt {T P : Type} (ser : P → option bytes) (de : bytes → option T)
    (payload : P) (data_role : option string) : M E3World ClientError T :=
  let request_headers :=
    match data_role with
    | Some role => (fun v => hm_insert hm_empty "x-evervault-data-role" v) <$> hv_from_str role
    | None => None
    end in
  let! t := with_token in
  let! body := mlift (ok_or (ser payload) (SerdeError "")) in
  let! response := inner (send (Some (AttestationDoc t)) "POST" (E3Client_uri "/encrypt") body
                            request_headers) in
  mmodify (fun w => mkE3 (e3_cache w) (e3_now w) (e3_decrypts w) (e3_encrypts w + 1) (e3_inner w)) ;!
  mlift (ok_or (de response) (SerdeError "")).

Definition E3Client_authenticate (ser : AuthRequest → option bytes) (api_key : HeaderValue)
    (payload : AuthRequest) : M E3World ClientError unit :=
  let! body := mlift (ok_or (ser payload) (SerdeError "")) in
  let! _ := inner (send (Some (ApiKey api_key)) "POST" (E3Client_uri "/authenticate") body None) in
  mret tt.

(** [impl E3Api for E3Client] *)
Definition e3_client (ser_ad : AutoDecryptRequest → option bytes) (de_ad : bytes → option AutoDecryptRequest)
    (ser_cr : CryptoRequest → option bytes) (de_cr : bytes → option CryptoResponse)
    (ser_ar : AuthRequest → option bytes) : E3Api E3World := {|
  e3_decrypt := E3Client_decrypt ser_ad de_ad;
  e3_crypto_decrypt := E3Client_decrypt ser_cr de_cr;
  e3_encrypt := E3Client_encrypt ser_cr de_cr;
  e3_authenticate := E3Client_authenticate ser_ar
|}.

(** ** What acceptance means *)

Context {HL : HttpLaws H}.

Lemma request_headers_key v : hm_get_all (request_headers (Some (ApiKey v)) None) "api-key" = [v].
Proof. unfold request_headers. rewrite get_all_insert. by rewrite bool_decide_true. Qed.

Lemma send_ok auth method uri payload headers x r x' :
  send auth method uri payload headers x = (Ret r, x') →
  ∃ x1 status, get_conn x = (Ret tt, x1) ∧
    send_request (mkOutgoing method uri (request_headers auth headers) payload) x1
      = (Ret (status, r), x') ∧ is_success status = true.
Proof.
  unfold send. intros ([] & x1 & Hc & ([status r'] & x2 & Hs & Hr)%mbind_inv)%mbind_inv.
  exists x1, status. destruct (is_success status) eqn:Es; [|done].
  unfold mret in Hr. simplify_eq. by rewrite Hs.
Qed.

(** E3 accepted the key: when [authenticate] succeeds, the service answered
    with a 2xx status to a POST on its authentication endpoint that carried
    exactly the given key and the serialised identity of the enclave, and no
    token was fetched or cached for it. *)
Theorem authenticate_means_accepted ser key payload w w' :
  E3Client_authenticate ser key payload w = (Ret tt, w') →
  ∃ body request x1 status resp, ser payload = Some body ∧
    get_conn (e3_inner w) = (Ret tt, x1) ∧
    send_request request x1 = (Ret (status, resp), e3_inner w') ∧
    (200 ≤ status < 300)%N ∧
    o_method request = "POST" ∧ o_uri request = E3Client_uri "/authenticate" ∧
    hm_get_all (o_headers request) "api-key" = [key] ∧ o_body request = body ∧
    e3_cache w' = e3_cache w.
Proof.
  unfold E3Client_authenticate. destruct (ser payload) as [body|]; [|done].
  cbn [ok_or mlift]. rewrite mbind_ret_l. intros (resp & w1 & Hi & Hr)%mbind_inv. unfold mret in Hr. simplify_eq.
  unfold inner in Hi. destruct (send _ _ _ _ _ (e3_inner w)) as [r x] eqn:Es.
  simplify_eq. apply send_ok in Es as (x1 & status & Hc & Hs & Hok).
  unfold is_success in Hok.
  apply andb_true_iff in Hok as [?%N.leb_le ?%N.ltb_lt].
  eexists body, _, x1, status, resp. do 3 (split; [done|]). split; [done|].
  do 2 (split; [done|]). split; [apply request_headers_key|done].
Qed.
End Client.

(** ** Witness *)

Definition no_cache : TokenCache :=
  {| Cache := unit; cache_get _ _ := None; cache_set c _ _ := c |}.

(** A service that records the paths and accepts. *)
Definition accepting (o : Outgoing) : M (list string) ClientError (N * bytes) :=
  mmodify (cons (o_uri o)) ;! mret (200%N, b "{}").

Lemma authenticate_means_accepted_witness :
  let w' := mkE3 (X := list string) (TC := no_cache) tt 0 0 0 ["https://e3:7778/authenticate"] in
  ∃ body request x1 status resp, Some (b "payload") = Some body ∧
    (mret tt : M (list string) ClientError unit) [] = (Ret tt, x1) ∧
    accepting request x1 = (Ret (status, resp), e3_inner w') ∧
    (200 ≤ status < 300)%N ∧
    o_method request = "POST" ∧ o_uri request = E3Client_uri "e3" "/authenticate" ∧
    hm_get_all (o_headers request) "api-key" = [b "key"] ∧ o_body request = body ∧
    e3_cache w' = tt.
Proof.
  cbn zeta. apply (authenticate_means_accepted (TC := no_cache) (mret tt) accepting "1.0" "1" "e3"
    (fun _ => Some (b "payload")) (b "key") (mkAuthRequest "t" "a" None)
    (mkE3 (X := list string) (TC := no_cache) tt 0 0 0 [])). vm_compute. reflexivity.
Defined.
