(* ===== verification/Layers.v ===== *)
(** * Server layers (data-plane/src/server/layers)

    The services a request passes through on its way to the user process:
    attestation, context logging, authentication, decryption, forwarding. A
    service is an effectful function from a request to a response; the world
    holds the state of E3, the requests the user process received and the
    logs sent. The layers are written against the interface [E3Api]. *)
From Stdlib Require Import Ascii String NArith Lia.
From stdpp Require Import base gmap strings list pretty.
From S2P Require Import Prelude Nom CiphertextParser CiphertextStream Libs Context Logging TrxHandler E3.
#[local] Open Scope string_scope.
#[local] Open Scope list_scope.
#[local] Open Scope enclave_scope.

(** ** Messages *)

(** A body is its bytes; [None] is a stream that fails while it is read. *)
Definition Body : Type := option bytes.

Record Request {H : HttpLib} : Type := mkReq {
  rq_parts : Parts;
  rq_body : Body;
  rq_trx : option TrxContextBuilder;
  rq_remote_ip : option string
}.

Record Response {H : HttpLib} : Type := mkRes {
  (** the protocol version, as it prints *)
  rs_version : string;
  rs_status : N;
  rs_headers : HeaderMap;
  rs_body : Body;
  rs_trx : option TrxContextBuilder
}.

#[global] Arguments mkReq {H} _ _ _ _.
#[global] Arguments mkRes {H} _ _ _ _ _.

Section Layers.
Context {H : HttpLib} {J : Json} {R : Retry} {N0 : Nom} {EW : Type} {A : E3Api EW}.

Record LayerWorld : Type := mkLW {
  lw_e3 : EW;
  (** the requests the user process was sent *)
  lw_forwarded : list Request;
  (** the messages on the log channel *)
  lw_logs : list LogHandlerMessage
}.

(** [hyper::Error] of the inner service. *)
Definition Service : Type := Request → M LayerWorld string Response.

Definition on_e3 {E B} (m : M EW E B) : M LayerWorld E B := fun w =>
  let '(r, x) := m (lw_e3 w) in (r, mkLW x (lw_forwarded w) (lw_logs w)).

Definition with_trx (res : Response) (c : option TrxContextBuilder) : Response :=
  mkRes (rs_version res) (rs_status res) (rs_headers res) (rs_body res) c.

Definition set_headers (req : Request) (h : HeaderMap) : Request :=
  mkReq (mkParts _ (p_method (rq_parts req)) (p_uri (rq_parts req)) h) (rq_body req) (rq_trx req)
    (rq_remote_ip req).

(** A length as a header value. *)
Definition len_value (n : nat) : HeaderValue := b (pretty (N.of_nat n)).

(** A JSON error response; [typed] adds the content type. *)
Definition error_response (status : N) (typed : bool) (message : string) : Response :=
  let body := b (json_message message) in
  let h := if typed then hm_append hm_empty "content-type" (b "application/json") else hm_empty in
  mkRes "HTTP/1.1" status (hm_append h "content-length" (len_value (length body))) (Some body) None.

(** ** Forwarding (forward.rs) *)

Section Forward.
(** The user process: a response, or the error of the HTTP client. *)
Context (http_client : Request → result string Response).

Definition ForwardService_call : Service := fun req =>
  match rq_trx req with
  | None => mpanic
  | Some context_builder =>
      let req := mkReq (rq_parts req) (rq_body req) None (rq_remote_ip req) in
      mmodify (fun w => mkLW (lw_e3 w) (lw_forwarded w ++ [req]) (lw_logs w)) ;!
      match http_client req with
      | Ok response =>
          let response := with_trx response (Some context_builder) in
          match hm_get (rs_headers response) "transfer-encoding" with
          | Some _ =>
              let headers := hm_remove (rs_headers response) "transfer-encoding" in
              match rs_body response with
              | None => mpanic
              | Some body_bytes =>
                  mret (mkRes (rs_version response) (rs_status response)
                    (hm_append headers "content-length" (len_value (length body_bytes)))
                    (Some body_bytes) (rs_trx response))
              end
          | None => mret response
          end
      | Err e =>
          mret (with_trx (error_response 500 true ("Failed to request user process - " +:+ e))
                  (Some context_builder))
      end
  end.
End Forward.

(** ** Decryption (decrypt.rs) *)

Inductive DecryptError : Type :=
| FailedToSerializeRequest
| CiphertextStreamError (e : IncomingStreamError)
| E3Error (e : ClientError).

Definition DecryptError_to_status (e : DecryptError) : N :=
  match e with
  | E3Error (FailedRequest code) => code
  | _ => 500
  end.

(** [Vec::splice]: panics unless [start <= end <= len]. *)
Definition splice (v : bytes) (r : nat * nat) (new : bytes) : option bytes :=
  if Nat.leb r.1 r.2 && Nat.leb r.2 (length v) then Some (take r.1 v ++ new ++ drop r.2 v)
  else None.

(** [inject_decrypted_values_into_request_vec]: the entries from the last to
    the first; an unserialisable value is skipped. *)
Fixpoint inject_rev (entries : list EncryptedDataEntry) (request_bytes : bytes) : option bytes :=
  match entries with
  | [] => Some request_bytes
  | entry :: rest =>
      match Value_to_vec (value entry) with
      | Some v => match splice request_bytes (range entry) v with
                  | Some bytes => inject_rev rest bytes
                  | None => None
                  end
      | None => inject_rev rest request_bytes
      end
  end.

Definition inject_decrypted_values_into_request_vec (decrypted : AutoDecryptRequest)
    (request_bytes : bytes) : option bytes :=
  inject_rev (rev (body_data decrypted)) request_bytes.

(** The entries of the frames the decoder yields for the payload. *)
Fixpoint entries_of (outs : list (result IncomingStreamError IncomingFrame)) :
    exec DecryptError (list EncryptedDataEntry) :=
  match outs with
  | [] => Ret []
  | Err e :: _ => Throw (CiphertextStreamError e)
  | Ok (Plaintext _) :: outs' => entries_of outs'
  | Ok (CiphertextFrame r c) :: outs' =>
      match Ciphertext_display c with
      | None => Panic
      | Some text =>
          match entries_of outs' with
          | Ret es => Ret (mkEntry r (Value_of_string text) :: es)
          | Throw e => Throw e
          | Panic => Panic
          end
      end
  end.

(** [get_ciphertext_regex]: [^ev\:(RFVC|...|S0lS|[a-zA-Z0-9]{16})\:.*] *)
Definition is_ciphertext_header (s : string) : bool :=
  match split ":" s with
  | "ev" :: tag :: _ :: _ =>
      str_mem tag ["RFVC"; "T1JL"; "Tk9D"; "TENZ"; "QlJV"; "QkTC"; "S0lS"]
      || (Nat.eqb (String.length tag) 16 && forallb is_ascii_alphanumeric (b tag))
  | _ => false
  end.

Definition encrypted_headers (headers : HeaderMap) : list EncryptedHeader :=
  omap (fun e =>
    match hv_to_str e.2 with
    | Some header_val =>
        if is_ciphertext_header header_val
        then (fun header_name => mkEncHeader header_name header_val) <$> e.1
        else None
    | None => None
    end) (hm_into_iter headers).

Definition insert_decrypted_header (headers : HeaderMap) (header : EncryptedHeader) : HeaderMap :=
  match hn_from_str (eh_key header), hv_from_str (eh_value header) with
  | Some key, Some value => hm_insert headers key value
  | _, _ => headers
  end.

(** [u32::try_from(usize).ok()] *)
Definition try_u32 (n : nat) : option N :=
  if (N.of_nat n <? 4294967296)%N then Some (N.of_nat n) else None.

Section Decrypt.
(** The frames [FramedRead] yields for a payload. *)
Context (read_frames : bytes → list (result IncomingStreamError IncomingFrame)).
(** [Display] of the foreign parts of an error. *)
Context (display_decrypt : DecryptError → string).
Context (inner : Service).

Definition extract_ciphertexts_from_payload (incoming_payload : bytes) :
    exec DecryptError (list EncryptedDataEntry) :=
  entries_of (read_frames incoming_payload).

Definition decrypt_error (e : DecryptError) (c : TrxContextBuilder) : Response :=
  with_trx (error_response (DecryptError_to_status e) false (display_decrypt e)) (Some c).

Definition forward_decrypted (req : Request) (context : TrxContextBuilder) (n_decrypts : option N)
    (headers : HeaderMap) (bytes_vec : bytes) : M LayerWorld string Response :=
  inner (mkReq (mkParts _ (p_method (rq_parts req)) (p_uri (rq_parts req)) headers)
    (Some bytes_vec) (Some (set_n_decrypted_fields n_decrypts context)) (rq_remote_ip req)).

Definition DecryptService_call : Service := fun req =>
  match rq_trx req with
  | None => mpanic
  | Some context =>
      let encrypted := encrypted_headers (p_headers (rq_parts req)) in
      match rq_body req with
      | None => mret (decrypt_error FailedToSerializeRequest context)
      | Some request_bytes =>
          let headers := hm_remove (p_headers (rq_parts req)) "transfer-encoding" in
          match extract_ciphertexts_from_payload request_bytes with
          | Panic => mpanic
          | Throw e => mret (decrypt_error e context)
          | Ret decryption_payload =>
              let n_decrypts := try_u32 (length decryption_payload) in
              match decryption_payload, encrypted with
              | [], [] => forward_decrypted req context n_decrypts headers request_bytes
              | _, _ =>
                  let! r := mtry (on_e3 (decrypt_with_retries 2
                              (mkAutoDecrypt decryption_payload encrypted))) in
                  match r with
                  | Err e => mret (decrypt_error (E3Error e) context)
                  | Ok decrypted =>
                      match inject_decrypted_values_into_request_vec decrypted request_bytes with
                      | None => mpanic
                      | Some bytes_vec =>
                          let headers :=
                            hm_insert headers "content-length" (len_value (length bytes_vec)) in
                          let headers :=
                            fold_left insert_decrypted_header (header_data decrypted) headers in
                          forward_decrypted req context n_decrypts headers bytes_vec
                      end
                  end
              end
          end
      end
  end.
End Decrypt.

(** ** Authentication (auth.rs) *)

Inductive AuthError : Type :=
| NoApiKeyGiven
| FailedToAuthenticateApiKey
| DecodingError
| InternalError (e : ClientError).

Definition AuthError_to_status (e : AuthError) : N :=
  match e with InternalError _ => 500 | _ => 401 end.

Section Auth.
(** Base64 of the SHA-512 digest. *)
Context (compute_base64_sha512 : bytes → bytes).
Context (display_auth : AuthError → string).
Context (context : EnclaveContext).

Definition auth_request (api_key : HeaderValue) : M EW AuthError unit :=
  let! hashed_api_key := mlift (ok_or (hv_from_bytes (compute_base64_sha512 api_key)) DecodingError) in
  let! r := mtry (e3_authenticate hashed_api_key (AuthRequest_from context)) in
  match r with
  | Ok _ => mret tt
  | Err (FailedRequest status) =>
      if (status =? 401)%N then mthrow FailedToAuthenticateApiKey
      else mthrow (InternalError (FailedRequest status))
  | Err e => mthrow (InternalError e)
  end.

Definition auth_error (e : AuthError) : Response :=
  error_response (AuthError_to_status e) true (display_auth e).

Definition AuthService_call (inner : Service) : Service := fun req =>
  match hm_get (p_headers (rq_parts req)) "api-key" with
  | None => mret (with_trx (auth_error NoApiKeyGiven) (rq_trx req))
  | Some api_key =>
      let! r := mtry (on_e3 (auth_request api_key)) in
      match r with
      | Err err => mret (with_trx (auth_error err) (rq_trx req))
      | Ok _ => inner req
      end
  end.
End Auth.

(** ** Context logging (context_log.rs) *)

(** [None] is the panic of the [expect] on the id. *)
Definition add_ev_ctx_to_headers (headers : HeaderMap) (trx_id : string) : option HeaderMap :=
  match hm_get headers "x-evervault-ctx" ≫= hv_to_str with
  | Some header =>
      match hv_from_str (header +:+ ";" +:+ trx_id) with
      | Some id => Some (hm_insert headers "x-evervault-ctx" id)
      | None => Some headers
      end
  | None => (fun v => hm_insert headers "x-evervault-ctx" v) <$> hv_from_str trx_id
  end.

Section ContextLog.
Context (enclave_context : EnclaveContext) (feature_context : FeatureContext).
(** The clock's text, the drawn ids, what the timer reads at the end. *)
Context (timestamp : string) (id : N) (elapsed : option N).
(** Whether the log channel is open. *)
Context (channel_open : bool).

Definition init_request_context (req : Request) : option TrxContextBuilder :=
  add_req_to_trx_context (rq_parts req) (trusted_headers feature_context)
    (init_trx_context_with_enclave_details timestamp id (uuid enclave_context)
       (name enclave_context) (Context.app_uuid enclave_context)
       (Context.team_uuid enclave_context) HTTP).

Definition send_log (t : TrxContext) : M LayerWorld string unit :=
  if channel_open
  then mmodify (fun w => mkLW (lw_e3 w) (lw_forwarded w) (lw_logs w ++ [new_log_message t]))
  else mret tt.

Definition ContextLogService_call (inner : Service) : Service := fun req =>
  match init_request_context req with
  | None => mpanic
  | Some base_context =>
      let request_id := get_trx_id id base_context in
      match add_ev_ctx_to_headers (p_headers (rq_parts req)) request_id with
      | None => mpanic
      | Some headers =>
          let base_context :=
            match rq_remote_ip req with
            | Some remote => set_remote_ip (Some remote) base_context
            | None => base_context
            end in
          let req := mkReq (mkParts _ (p_method (rq_parts req)) (p_uri (rq_parts req)) headers)
                       (rq_body req) (Some base_context) None in
          let! response := inner req in
          match rs_trx response with
          | None => mpanic
          | Some context =>
              match add_res_to_trx_context (rs_status response) (rs_headers response)
                      (trusted_headers feature_context) context with
              | None => mpanic
              | Some context =>
                  match add_ev_ctx_to_headers (rs_headers response) request_id with
                  | None => mpanic
                  | Some rheaders =>
                      let response := mkRes (rs_version response) (rs_status response) rheaders (rs_body response) None in
                      match stop_timer_and_build elapsed context with
                      | None => mpanic
                      | Some (Err _) => mret response
                      | Some (Ok built_context) =>
                          (if trx_logging_enabled feature_context
                           then send_log built_context else mret tt) ;!
                          mret response
                      end
                  end
              end
          end
      end
  end.
End ContextLog.

(** ** Attestation (attest.rs) *)

Definition is_attestation_request (req : Request) : bool :=
  String.eqb (path (p_uri (rq_parts req))) "/.well-known/attestation".

Section Attest.
(** The driver: the document, or the text of the error. *)
Context (get_attestation_doc : option bytes → result string bytes).
Context (TRUSTED_PUB_CERT : option bytes).
(** Base64 and the JSON of the reply. *)
Context (base64_encode : bytes → string) (attestation_json : string → string).

Definition AttestService_call (inner : Service) : Service := fun req =>
  if is_attestation_request req then
    match get_attestation_doc TRUSTED_PUB_CERT with
    | Err e => mret (error_response 500 true e)
    | Ok attestation_doc =>
        let response_payload := b (attestation_json (base64_encode attestation_doc)) in
        mret (mkRes "HTTP/1.1" 200
          (hm_append (hm_append hm_empty "content-type" (b "application/json"))
             "content-length" (len_value (length response_payload)))
          (Some response_payload) None)
    end
  else inner req.
End Attest.
End Layers.

(** ** Splicing *)

Section Splicing.
Context {J : Json}.

(** The ranges follow one another in [pos .. len]. *)
Fixpoint ordered (pos len : nat) (rs : list (nat * nat)) : Prop :=
  match rs with
  | [] => pos ≤ len
  | (s, e) :: rs' => pos ≤ s ∧ s ≤ e ∧ ordered e len rs'
  end%nat.

(** The body with every range replaced at once, read from [pos]. *)
Fixpoint weave (pos : nat) (body : bytes) (entries : list EncryptedDataEntry) : bytes :=
  match entries with
  | [] => drop pos body
  | entry :: rest =>
      let '(s, e) := range entry in
      take (s - pos) (drop pos body)
      ++ default (take (e - s) (drop s body)) (Value_to_vec (value entry))
      ++ weave e body rest
  end.

Lemma ordered_le pos len rs : ordered pos len rs → (pos ≤ len)%nat.
Proof.
  revert pos. induction rs as [|[s e] rs IH]; intros pos; simpl; [done|].
  intros (? & ? & ?%IH). lia.
Qed.

Lemma inject_rev_app l l' v : inject_rev (l ++ l') v = inject_rev l v ≫= inject_rev l'.
Proof.
  revert v. induction l as [|x l IH]; intros v; [done|]. cbn [inject_rev app].
  destruct (Value_to_vec (value x)); [|apply IH]. destruct (splice v (range x) _); [apply IH|done].
Qed.

Lemma take_app_drop (body : bytes) p q : (p ≤ q)%nat → take p body ++ take (q - p) (drop p body) = take q body.
Proof. intros. rewrite take_take_drop. f_equal. lia. Qed.

(** Replacing from the last entry to the first replaces all at once. *)
Lemma inject_weave entries body pos :
  ordered pos (length body) (range <$> entries) →
  inject_rev (rev entries) body = Some (take pos body ++ weave pos body entries).
Proof.
  revert pos. induction entries as [|x entries IH]; intros pos; cbn [fmap list_fmap ordered].
  - intros _. cbn. by rewrite take_drop.
  - destruct (range x) as [s e] eqn:Er. intros (Hps & Hse & Ho). cbn [rev].
    pose proof (ordered_le _ _ _ Ho). rewrite inject_rev_app, (IH _ Ho). cbn [base.mbind option_bind inject_rev].
    rewrite Er. cbn [weave]. rewrite Er.
    rewrite (app_assoc (take pos body)), take_app_drop by done.
    destruct (Value_to_vec (value x)) as [v|]; cbn [default from_option]; unfold id.
    + unfold splice. cbn [fst snd]. rewrite length_app, length_take.
      rewrite (proj2 (Nat.leb_le s e)), (proj2 (Nat.leb_le e _)) by lia. cbn [andb].
      f_equal. rewrite take_app_le by (rewrite length_take; lia).
      rewrite take_take, Nat.min_l by lia. do 2 f_equal.
      rewrite drop_app_length' by (rewrite length_take; lia). done.
    + by rewrite app_assoc, take_app_drop by done.
Qed.
End Splicing.

(** The frames of a payload give entries, whose ranges are ordered. *)
Lemma placed_entries {J : Json} body pos outs :
  Forall (fun o => is_ok o = true) outs → placed body pos outs → (pos ≤ length body)%nat →
  ∃ es, entries_of outs = Ret es ∧ ordered pos (length body) (range <$> es).
Proof.
  intros Hok. revert pos. induction Hok as [|o outs Ho Hok IH]; intros pos; cbn [placed entries_of].
  - intros _ Hp. by exists [].
  - destruct o as [[p|[s e] c]|er]; [apply IH| |done].
    intros (Hps & Hse & He & _ & Hwf & Hp) _.
    destruct (Ciphertext_display_printed c Hwf) as (t & -> & _).
    destruct (IH e Hp He) as (es & -> & Hes). eexists. split; [done|].
    cbn [fmap list_fmap ordered range]. split; [lia|]. split; [lia|done].
Qed.

Section LayerLemmas.
Context {H : HttpLib} {HL : HttpLaws H} {J : Json} {R : Retry} {RL : RetryLaws R} {N0 : Nom}
  {NL : NomLaws N0} {EW : Type} {A : E3Api EW}.

(** Decryption keeps the positions it was asked about. *)
Definition keeps_ranges : Prop := ∀ p x d x',
  e3_decrypt p x = (Ret d, x') → range <$> body_data d = range <$> body_data p.

(** [read_frames] is what the reader yields for some split of the payload. *)
Definition reads_payload (read_frames : bytes → list (result IncomingStreamError IncomingFrame)) : Prop :=
  ∀ payload, ∃ reads, concat reads = payload ∧ framed_run new_stream reads (read_frames payload).

Lemma extract_ok read_frames payload : reads_payload read_frames →
  ∃ es, extract_ciphertexts_from_payload read_frames payload = Ret es ∧
    ordered 0 (length payload) (range <$> es).
Proof.
  intros Hr. destruct (Hr payload) as (reads & <- & Hf).
  destruct (framed_run_total new_stream reads) as (outs & Ho & Hok).
  unfold extract_ciphertexts_from_payload. rewrite (framed_run_det _ _ _ _ Hf Ho). apply placed_entries; [done| |lia].
  change 0 with (offset new_stream). eapply framed_run_placed; [exact Ho|].
  split; [done|]. exists []. by rewrite app_nil_r.
Qed.

(** The decryption layer as one equation. *)
Lemma DecryptService_spec read_frames display inner req w c body :
  reads_payload read_frames → keeps_ranges →
  rq_trx req = Some c → rq_body req = Some body →
  ∃ es, extract_ciphertexts_from_payload read_frames body = Ret es ∧
  let headers := hm_remove (p_headers (rq_parts req)) "transfer-encoding" in
  let enc := encrypted_headers (p_headers (rq_parts req)) in
  DecryptService_call read_frames display inner req w =
    match es, enc with
    | [], [] => forward_decrypted inner req c (Some 0%N) headers body w
    | _, _ =>
        match decrypt_with_retries 2 (mkAutoDecrypt es enc) (lw_e3 w) with
        | (Ret d, x) =>
            let body' := weave 0 body (body_data d) in
            forward_decrypted inner req c (try_u32 (length es))
              (fold_left insert_decrypted_header (header_data d)
                (hm_insert headers "content-length" (len_value (length body')))) body'
              (mkLW x (lw_forwarded w) (lw_logs w))
        | (Throw e, x) =>
            (Ret (decrypt_error display (E3Error e) c), mkLW x (lw_forwarded w) (lw_logs w))
        | (Panic, x) => (Panic, mkLW x (lw_forwarded w) (lw_logs w))
        end
    end.
Proof.
  intros Hr Hk Ht Hb. destruct (extract_ok read_frames body Hr) as (es & He & Ho).
  exists es. split; [done|]. cbn zeta. unfold DecryptService_call. rewrite Ht, Hb, He.
  set (enc := encrypted_headers _).
  assert (Hmain : ∀ w,
    mbind (mtry (on_e3 (decrypt_with_retries 2 (mkAutoDecrypt es enc)))) (fun r =>
      match r with
      | Err e => mret (decrypt_error display (E3Error e) c)
      | Ok decrypted =>
          match inject_decrypted_values_into_request_vec decrypted body with
          | None => mpanic
          | Some bytes_vec =>
              forward_decrypted inner req c (try_u32 (length es))
                (fold_left insert_decrypted_header (header_data decrypted)
                  (hm_insert (hm_remove (p_headers (rq_parts req)) "transfer-encoding")
                    "content-length" (len_value (length bytes_vec)))) bytes_vec
          end
      end) w =
    match decrypt_with_retries 2 (mkAutoDecrypt es enc) (lw_e3 w) with
    | (Ret d, x) =>
        forward_decrypted inner req c (try_u32 (length es))
          (fold_left insert_decrypted_header (header_data d)
            (hm_insert (hm_remove (p_headers (rq_parts req)) "transfer-encoding")
              "content-length" (len_value (length (weave 0 body (body_data d))))))
          (weave 0 body (body_data d)) (mkLW x (lw_forwarded w) (lw_logs w))
    | (Throw e, x) =>
        (Ret (decrypt_error display (E3Error e) c), mkLW x (lw_forwarded w) (lw_logs w))
    | (Panic, x) => (Panic, mkLW x (lw_forwarded w) (lw_logs w))
    end).
  { intros w0. unfold Prelude.mbind, mtry, on_e3.
    destruct (decrypt_with_retries 2 _ (lw_e3 w0)) as [[d|e|] x] eqn:Ed; [|done..].
    unfold inject_decrypted_values_into_request_vec. rewrite (inject_weave _ _ 0); [done|].
    unfold decrypt_with_retries in Ed. apply spawn_ret in Ed as [w1 Ed]. apply Hk in Ed.
    cbn [body_data] in Ed. by rewrite Ed. }
  destruct es as [|e0 es']; [destruct enc as [|h0 enc'] eqn:Eenc|]; [done|apply Hmain..].
Qed.

(** ** What a layer promises to the one around it *)

Definition visible_content_type (h : HeaderMap) : Prop :=
  ∀ v, hm_get h "content-type" = Some v → is_Some (hv_to_str v).

(** A response that carries a complete context and can be logged. *)
Definition answers (res : Response) : Prop :=
  (∃ c, rs_trx res = Some c ∧ required c = true) ∧ visible_content_type (rs_headers res).

(** A service that answers every request that carries a complete context,
    without panicking and without touching the log channel. *)
Definition serves (s : Service) : Prop := ∀ req (w : LayerWorld (EW := EW)) c,
  rq_trx req = Some c → required c = true →
  ∃ res w', s req w = (Ret res, w') ∧ answers res ∧ lw_logs w' = lw_logs w.

Lemma error_response_visible st ty m : visible_content_type (rs_headers (error_response st ty m)).
Proof.
  intros v. unfold error_response, hm_get. cbn [rs_headers]. rewrite get_all_append, bool_decide_false by done.
  destruct ty.
  - rewrite get_all_append, bool_decide_true, get_all_empty by done. intros [= <-].
    rewrite to_str_law. by eexists.
  - by rewrite get_all_empty.
Qed.

Lemma error_answers st ty m c : required c = true → answers (with_trx (error_response st ty m) (Some c)).
Proof. intros Hc. split; [by exists c|]. apply error_response_visible. Qed.

(** The user process answers with a content type that is text, and a body that
    can be read when it is sent in chunks. *)
Definition well_behaved (http_client : Request → result string Response) : Prop := ∀ req res,
  http_client req = Ok res →
  visible_content_type (rs_headers res) ∧
  (is_Some (hm_get (rs_headers res) "transfer-encoding") → is_Some (rs_body res)).

Lemma Forward_serves http_client : well_behaved http_client → serves (ForwardService_call http_client).
Proof.
  intros Hu req w c Ht Hc. unfold ForwardService_call. rewrite Ht.
  unfold Prelude.mbind, mmodify. set (req' := mkReq _ _ _ _).
  destruct (http_client req') as [res|e] eqn:Eh.
  - destruct (Hu _ _ Eh) as [Hv Hb]. cbn [with_trx rs_headers rs_body rs_trx rs_status].
    destruct (hm_get (rs_headers res) "transfer-encoding") as [te|].
    + destruct Hb as [body ->]; [by eexists|]. do 2 eexists. split; [done|]. split; [|done].
      split; [by exists c|]. intros v Hg. apply Hv. revert Hg. unfold hm_get.
      cbn [rs_headers]. by rewrite get_all_append, bool_decide_false, get_all_remove, bool_decide_false by done.
    + do 2 eexists. split; [done|]. split; [|done]. split; [by exists c|done].
  - do 2 eexists. split; [done|]. split; [|done]. by apply error_answers.
Qed.

Definition e3_no_panic : Prop :=
  (∀ p x, fst (e3_decrypt p x) ≠ Panic) ∧ (∀ k p x, fst (e3_authenticate k p x) ≠ Panic).

Lemma decrypt_retries_no_panic n p x : e3_no_panic → fst (decrypt_with_retries n p x) ≠ Panic.
Proof.
  intros [Hp _]. unfold decrypt_with_retries. revert x. induction n as [|n IH]; intros x.
  - rewrite spawn_none. apply Hp.
  - rewrite spawn_more. specialize (Hp p x). by destruct (e3_decrypt p x) as [[]].
Qed.

Lemma Decrypt_serves read_frames display inner :
  reads_payload read_frames → keeps_ranges → e3_no_panic → serves inner →
  serves (DecryptService_call read_frames display inner).
Proof.
  intros Hr Hk Hp Hi req w c Ht Hc.
  destruct (rq_body req) as [body|] eqn:Eb.
  - destruct (DecryptService_spec read_frames display inner req w c body Hr Hk Ht Eb) as (es & _ & ->).
    assert (Hf : ∀ n h bd w0, lw_logs w0 = lw_logs w → ∃ res w',
      forward_decrypted inner req c n h bd w0 = (Ret res, w') ∧ answers res ∧ lw_logs w' = lw_logs w).
    { intros n h bd w0 Hl. unfold forward_decrypted. rewrite <-Hl. eapply Hi; [reflexivity|done]. }
    assert (Hm : ∃ res w',
      match decrypt_with_retries 2 (mkAutoDecrypt es (encrypted_headers (p_headers (rq_parts req)))) (lw_e3 w) with
      | (Ret d, x) =>
          forward_decrypted inner req c (try_u32 (length es))
            (fold_left insert_decrypted_header (header_data d)
              (hm_insert (hm_remove (p_headers (rq_parts req)) "transfer-encoding")
                "content-length" (len_value (length (weave 0 body (body_data d))))))
            (weave 0 body (body_data d)) (mkLW x (lw_forwarded w) (lw_logs w))
      | (Throw e, x) =>
          (Ret (decrypt_error display (E3Error e) c), mkLW x (lw_forwarded w) (lw_logs w))
      | (Panic, x) => (Panic, mkLW x (lw_forwarded w) (lw_logs w))
      end = (Ret res, w') ∧ answers res ∧ lw_logs w' = lw_logs w).
    { pose proof (decrypt_retries_no_panic 2
        (mkAutoDecrypt es (encrypted_headers (p_headers (rq_parts req)))) (lw_e3 w) Hp) as Hnp.
      destruct (decrypt_with_retries 2 _ (lw_e3 w)) as [[d|e|] x]; [by apply Hf| |done].
      do 2 eexists. split; [done|]. split; [by apply error_answers|done]. }
    destruct es, (encrypted_headers (p_headers (rq_parts req))); [by apply Hf|done..].
  - unfold DecryptService_call. rewrite Ht, Eb. do 2 eexists. split; [done|].
    split; [by apply error_answers|done].
Qed.

Lemma auth_request_no_panic sha ctx key x : e3_no_panic → fst (auth_request sha ctx key x) ≠ Panic.
Proof.
  intros [_ Hp]. unfold auth_request, Prelude.mbind, mtry.
  destruct (hv_from_bytes (sha key)) as [hk|]; [|done]. cbn [ok_or mlift mret].
  specialize (Hp hk (AuthRequest_from ctx) x).
  destruct (e3_authenticate hk _ x) as [[|e|] x']; [done| |done].
  destruct e; try done. unfold mthrow. by destruct (_ =? _)%N.
Qed.

Lemma Auth_serves sha display ctx inner :
  e3_no_panic → serves inner → serves (AuthService_call sha display ctx inner).
Proof.
  intros Hp Hi req w c Ht Hc. unfold AuthService_call. rewrite Ht.
  destruct (hm_get _ "api-key") as [key|].
  - unfold Prelude.mbind, mtry, on_e3. pose proof (auth_request_no_panic sha ctx key (lw_e3 w) Hp) as Hnp.
    destruct (auth_request sha ctx key (lw_e3 w)) as [[|e|] x]; [| |done].
    + by eapply (Hi req (mkLW x (lw_forwarded w) (lw_logs w))).
    + do 2 eexists. split; [done|]. split; [by apply error_answers|done].
  - do 2 eexists. split; [done|]. split; [by apply error_answers|done].
Qed.

(** ** The request's own context *)

Lemma header_text_txid h k set c c' :
  (∀ v c, txid (set v c) = txid c) → header_text h k set c = Some c' → txid c' = txid c.
Proof.
  intros Hs. unfold header_text. destruct (hm_get h k) as [v|]; [|by intros [= ->]].
  destruct (hv_to_str v); [|done]. intros [= <-]. apply Hs.
Qed.

Lemma add_req_txid req tr c c' : add_req_to_trx_context req tr c = Some c' → txid c' = txid c.
Proof.
  unfold add_req_to_trx_context. intros (c1 & H1 & H2)%bind_Some.
  apply header_text_txid in H1; [|done]. apply header_text_txid in H2; [|done].
  rewrite H2, H1. unfold add_headers_to_request. by destruct (json_map_to_string _).
Qed.

Lemma add_ev_ctx_some h id : is_Some (add_ev_ctx_to_headers h (TrxContextId_display id)).
Proof.
  unfold add_ev_ctx_to_headers. destruct (hm_get h "x-evervault-ctx" ≫= hv_to_str) as [hd|].
  - by destruct (hv_from_str _); eexists.
  - rewrite from_str_law, txid_visible. by eexists.
Qed.

(** The headers of a request are text where the log reads them. *)
Definition loggable (req : Request) : Prop :=
  visible_content_type (p_headers (rq_parts req)) ∧
  ∀ v, hm_get (p_headers (rq_parts req)) "user-agent" = Some v → is_Some (hv_to_str v).

Lemma init_context_some ectx fctx ts id req : loggable req →
  ∃ c, init_request_context ectx fctx ts id req = Some c ∧ required c = true ∧
    txid c = Some (TrxContextId_display id).
Proof.
  intros [Hct Hua].
  assert (∃ c, init_request_context ectx fctx ts id req = Some c) as [c Hc].
  { unfold init_request_context, add_req_to_trx_context.
    assert (∀ k set c, (∀ v, hm_get (p_headers (rq_parts req)) k = Some v → is_Some (hv_to_str v)) →
      is_Some (header_text (p_headers (rq_parts req)) k set c)) as Hu.
    { intros k set c Hv. unfold header_text. destruct (hm_get _ k) as [v|] eqn:E; [|by eexists].
      destruct (Hv v eq_refl) as [s ->]. by eexists. }
    match goal with |- context [header_text ?h "content-type" ?f ?c0] =>
      destruct (Hu "content-type" f c0 Hct) as [c1 Hc1]; rewrite Hc1 end.
    cbn [base.mbind option_bind]. by apply Hu. }
  exists c. split; [done|]. unfold init_request_context in Hc. split.
  - by eapply add_req_required.
  - by rewrite (add_req_txid _ _ _ _ Hc).
Qed.
End LayerLemmas.
