(* ===== verification/Stack.v ===== *)
(** * The service stack (data-plane/src/server/server.rs, the layers of [run])

    The layers composed in the order [run] registers them, over one record of
    their surroundings, and what the composition guarantees: a request reaches
    the user process only when it is authenticated, the stack answers every
    loggable request, and it logs it exactly once. *)
From Stdlib Require Import Ascii String NArith Lia.
From stdpp Require Import base gmap strings list pretty.
From S2P Require Import Prelude Nom CiphertextParser CiphertextStream Libs Net Egress Context Logging.
From S2P Require Import TrxHandler E3 Layers.
#[local] Open Scope string_scope.
#[local] Open Scope list_scope.
#[local] Open Scope enclave_scope.

(** The surroundings of a request. *)
Record Surroundings {H : HttpLib} : Type := mkSurroundings {
  s_http_client : Request → result string Response;
  s_read_frames : bytes → list (result IncomingStreamError IncomingFrame);
  s_display_decrypt : DecryptError → string;
  s_sha512 : bytes → bytes;
  s_display_auth : AuthError → string;
  s_context : EnclaveContext;
  s_features : FeatureContext;
  s_timestamp : string;
  s_id : N;
  s_elapsed : option N;
  s_channel_open : bool;
  s_enclave : bool;
  s_attestation_doc : option bytes → result string bytes;
  s_trusted_cert : option bytes;
  s_base64 : bytes → string;
  s_attestation_json : string → string
}.

Section Stack.
Context {H : HttpLib} {J : Json} {R : Retry} {N0 : Nom} {EW : Type} {A : E3Api EW}.

(** The innermost layers. *)
Definition decrypt_and_forward (s : Surroundings) : Service (EW := EW) :=
  DecryptService_call (s_read_frames s) (s_display_decrypt s) (ForwardService_call (s_http_client s)).

(** [option_layer(api_key_auth.then(..))] *)
Definition auth_layer (s : Surroundings) : Service (EW := EW) :=
  if api_key_auth (s_features s)
  then AuthService_call (s_sha512 s) (s_display_auth s) (s_context s) (decrypt_and_forward s)
  else decrypt_and_forward s.

Definition context_layer (s : Surroundings) : Service (EW := EW) :=
  ContextLogService_call (s_context s) (s_features s) (s_timestamp s) (s_id s) (s_elapsed s)
    (s_channel_open s) (auth_layer s).

(** The service of [run]; the attestation layer only in enclave mode. *)
Definition data_plane_service (s : Surroundings) : Service (EW := EW) :=
  if s_enclave s
  then AttestService_call (s_attestation_doc s) (s_trusted_cert s) (s_base64 s) (s_attestation_json s)
         (context_layer s)
  else context_layer s.

Context {HL : HttpLaws H} {RL : RetryLaws R} {NL : NomLaws N0}.

(** ** Liveness of the stack *)

(** What the stack relies on: a user process that behaves, a decryption
    service that keeps positions and does not crash, a clock that runs on. *)
Record sound (s : Surroundings) : Prop := {
  so_client : well_behaved (s_http_client s);
  so_frames : reads_payload (s_read_frames s);
  so_ranges : keeps_ranges (EW := EW);
  so_e3 : e3_no_panic (EW := EW);
  so_clock : is_Some (s_elapsed s)
}.

Lemma auth_layer_serves s : sound s → serves (auth_layer s).
Proof.
  intros [Hc Hf Hr He _]. unfold auth_layer.
  assert (serves (decrypt_and_forward s)) as Hd
    by by apply Decrypt_serves, Forward_serves.
  destruct (api_key_auth (s_features s)); [by apply Auth_serves|done].
Qed.

Lemma add_res_some st h tr c : visible_content_type h →
  is_Some (add_res_to_trx_context st h tr c).
Proof.
  intros Hv. unfold add_res_to_trx_context, header_text.
  destruct (hm_get h "content-type") as [v|] eqn:E; [|by eexists].
  destruct (Hv v E) as [t ->]. by eexists.
Qed.

Lemma get_trx_id_of id drawn c : txid c = Some (TrxContextId_display id) →
  get_trx_id drawn c = TrxContextId_display id.
Proof. intros E. unfold get_trx_id. by rewrite E. Qed.

(** The context layer answers and appends one log. *)
Lemma context_layer_answers s req w : sound s → loggable req →
  ∃ res w', context_layer s req w = (Ret res, w') ∧ rs_trx res = None ∧
    ∃ t, lw_logs w' = lw_logs w ++
      (if trx_logging_enabled (s_features s) && s_channel_open s then [new_log_message t] else []).
Proof.
  intros Hs Hl. unfold context_layer, ContextLogService_call.
  destruct (init_context_some (s_context s) (s_features s) (s_timestamp s) (s_id s) req Hl)
    as (c & -> & Hc & Hid).
  rewrite (get_trx_id_of (s_id s)) by done.
  destruct (add_ev_ctx_some (p_headers (rq_parts req)) (s_id s)) as [h ->].
  set (c' := match rq_remote_ip req with Some _ => _ | None => _ end).
  assert (required c' = true) as Hc' by by subst c'; destruct (rq_remote_ip req).
  unfold Prelude.mbind at 1. set (req' := mkReq _ _ _ _).
  destruct (auth_layer_serves s Hs req' w c' eq_refl Hc') as (res & w' & -> & [(c2 & Ht & Hr) Hv] & Hlog).
  rewrite Ht. destruct (add_res_some (rs_status res) (rs_headers res) (trusted_headers (s_features s)) c2 Hv)
    as [c3 Hc3]. rewrite Hc3.
  destruct (add_ev_ctx_some (rs_headers res) (s_id s)) as [rh ->].
  destruct (so_clock s Hs) as [ms Hms]. rewrite Hms. cbn [stop_timer_and_build].
  assert (is_ok (build (set_elapsed (Some ms) c3)) = true) as Hb.
  { rewrite build_ok. change (required (set_elapsed (Some ms) c3)) with (required c3).
    by rewrite (add_res_required _ _ _ _ _ Hc3). }
  destruct (build (set_elapsed (Some ms) c3)) as [t|]; [|done].
  unfold Prelude.mbind, send_log, mmodify, mret. rewrite <-Hlog.
  destruct (trx_logging_enabled (s_features s)), (s_channel_open s); cbn [andb];
    do 2 eexists; (split; [reflexivity|]); (split; [done|]); exists t; cbn [lw_logs];
    by rewrite ?app_nil_r.
Qed.

(** ** The log channel, whatever happens *)

(** A service that sends nothing to the log channel, however it ends. *)
Definition quiet (f : Service (EW := EW)) : Prop := ∀ req w, lw_logs (f req w).2 = lw_logs w.

Lemma Forward_quiet http_client : quiet (ForwardService_call http_client).
Proof.
  intros req w. unfold ForwardService_call, Prelude.mbind, mmodify, mret, mpanic.
  repeat case_match; by simplify_eq/=.
Qed.

(** What is tried at E3 first keeps the log channel if the rest does. *)
Lemma try_e3_quiet {E B} (m : M EW E B) (k : result E B → M LayerWorld string Response) w :
  (∀ r w1, lw_logs (k r w1).2 = lw_logs w1) → lw_logs ((let! r := mtry (on_e3 m) in k r) w).2 = lw_logs w.
Proof.
  intros Hk. unfold Prelude.mbind, mtry, on_e3.
  destruct (m (lw_e3 w)) as [[] x]; cbn; by rewrite ?Hk.
Qed.

Lemma Decrypt_quiet read_frames display inner : quiet inner → quiet (DecryptService_call read_frames display inner).
Proof.
  intros Hi req w. unfold DecryptService_call, forward_decrypted.
  destruct (rq_trx req) as [c|]; [|done]. destruct (rq_body req) as [body|]; [|done].
  destruct (extract_ciphertexts_from_payload read_frames body) as [es|e|]; [|done..].
  assert (∀ m n h, lw_logs ((let! r := mtry (on_e3 m) in
    match r with
    | Err e => mret (decrypt_error display (E3Error e) c)
    | Ok d =>
        match inject_decrypted_values_into_request_vec d body with
        | None => mpanic
        | Some bd => inner (mkReq (mkParts _ (p_method (rq_parts req)) (p_uri (rq_parts req))
            (fold_left insert_decrypted_header (header_data d) (hm_insert h "content-length" (len_value (length bd)))))
            (Some bd) (Some (set_n_decrypted_fields n c)) (rq_remote_ip req))
        end
    end) w).2 = lw_logs w) as Hd.
  { intros m n h. apply try_e3_quiet. intros [d|e] w1; [|done].
    destruct (inject_decrypted_values_into_request_vec d body); [apply Hi|done]. }
  destruct es, (encrypted_headers (p_headers (rq_parts req))); [apply Hi|apply Hd..].
Qed.

Lemma Auth_quiet sha display ctx inner : quiet inner → quiet (AuthService_call sha display ctx inner).
Proof.
  intros Hi req w. unfold AuthService_call. destruct (hm_get _ "api-key"); [|done].
  apply try_e3_quiet. intros [[]|e] w1; [apply Hi|done].
Qed.

Lemma auth_layer_quiet s : quiet (auth_layer s).
Proof.
  assert (quiet (decrypt_and_forward s)) as Hd by apply Decrypt_quiet, Forward_quiet.
  unfold auth_layer. destruct (api_key_auth (s_features s)); [by apply Auth_quiet|done].
Qed.

(** The context layer sends at most one message, and only with a response. *)
Lemma context_layer_logs s req w :
  lw_logs (context_layer s req w).2 = lw_logs w ∨
  trx_logging_enabled (s_features s) && s_channel_open s = true ∧
  ∃ res t, (context_layer s req w).1 = Ret res ∧ lw_logs (context_layer s req w).2 = lw_logs w ++ [new_log_message t].
Proof.
  unfold context_layer, ContextLogService_call.
  destruct (init_request_context _ _ _ _ req) as [c|]; [|by left].
  destruct (add_ev_ctx_to_headers (p_headers (rq_parts req)) _) as [h|]; [|by left].
  unfold Prelude.mbind at 1 3 5. set (req' := mkReq _ _ _ _).
  pose proof (auth_layer_quiet s req' w) as Hq. destruct (auth_layer s req' w) as [[res|e|] w1]; cbn in Hq; [|by left..].
  destruct (rs_trx res) as [c1|]; [|by left].
  destruct (add_res_to_trx_context _ _ _ c1) as [c2|]; [|by left].
  destruct (add_ev_ctx_to_headers (rs_headers res) _) as [rh|]; [|by left].
  destruct (stop_timer_and_build _ c2) as [[t|e]|]; [|by left..].
  unfold Prelude.mbind, send_log, mmodify, mret. rewrite <-Hq.
  destruct (trx_logging_enabled (s_features s)), (s_channel_open s); [|by left..].
  right. split; [done|]. by do 2 eexists.
Qed.

(** When a request is one to log: logging is enabled, the channel is open and
    the request is not for the attestation layer. *)
Definition logs (s : Surroundings) (req : Request) : bool :=
  negb (s_enclave s && is_attestation_request req) && (trx_logging_enabled (s_features s) && s_channel_open s).

(** C4. The stack logs a request at most once, and does so exactly once when
    its surroundings behave. Whatever the request, the user process, E3 and the
    clock do, at most one message is sent to the log channel, and only with a
    response, with logging enabled, the channel open and the request not one
    for the attestation layer of an enclave. If besides the surroundings are
    sound (the user process answers with a readable content type and body, E3's
    client does not panic and keeps the ranges it is asked for, the timer can
    be read) and the request's own user-agent and content-type are text, then a
    response is returned, without a panic, and such a request is logged. *)
Theorem stack_answers_and_logs_once s req w :
  let '(r, w') := data_plane_service s req w in
  (lw_logs w' = lw_logs w ∨
   logs s req = true ∧ ∃ res t, r = Ret res ∧ lw_logs w' = lw_logs w ++ [new_log_message t]) ∧
  (sound s → loggable req →
   ∃ res t, r = Ret res ∧ lw_logs w' = lw_logs w ++ (if logs s req then [new_log_message t] else [])).
Proof.
  pose proof (context_layer_logs s req w) as Hl. pose proof (context_layer_answers s req w) as Ha.
  assert (inhabited TrxContext) as [t].
  { split. exact (mkTrx "" "" "" None "" None None None None None None None "" "" "" "" None None None None ""). }
  unfold data_plane_service, AttestService_call, logs.
  destruct (s_enclave s); [destruct (is_attestation_request req)|]; cbn [andb negb];
    [destruct (s_attestation_doc s (s_trusted_cert s)); (split; [by left|]); intros _ _; eexists _, t;
     (split; [reflexivity|]); by rewrite app_nil_r| |];
    (destruct (context_layer s req w) as [r w1]; cbn in Hl; split; [done|]; intros Hs Hr;
     destruct (Ha Hs Hr) as (res & w' & [= -> ->] & _ & t' & Ht); by exists res, t').
Qed.

(** ** Authentication *)

Lemma add_ev_ctx_get h id h' k : k ≠ "x-evervault-ctx" →
  add_ev_ctx_to_headers h id = Some h' → hm_get h' k = hm_get h k.
Proof.
  intros Hk. unfold add_ev_ctx_to_headers.
  destruct (hm_get h "x-evervault-ctx" ≫= hv_to_str) as [hd|].
  - destruct (hv_from_str _); intros [= <-]; [|done]. by rewrite get_insert_ne.
  - destruct (hv_from_str id); [|done]. intros [= <-]. by rewrite get_insert_ne.
Qed.

Lemma auth_request_ok sha ctx key (x x' : EW) : auth_request sha ctx key x = (Ret tt, x') →
  ∃ hk, hv_from_bytes (sha key) = Some hk ∧ e3_authenticate hk (AuthRequest_from ctx) x = (Ret tt, x').
Proof.
  unfold auth_request, Prelude.mbind, mtry. destruct (hv_from_bytes (sha key)) as [hk|]; [|done].
  cbn [ok_or mlift mret]. intros Hr. exists hk. split; [done|].
  destruct (e3_authenticate hk _ x) as [[[]|e|] x1]; unfold mret in Hr; [by simplify_eq| |done].
  destruct e; try done. unfold mthrow in Hr. by destruct (_ =? _)%N.
Qed.

(** The inner service is run only after E3 accepted the hashed key. *)
Lemma Auth_gate sha display ctx (inner : Service (EW := EW)) req w r w' :
  AuthService_call sha display ctx inner req w = (r, w') →
  lw_forwarded w' = lw_forwarded w ∨
  ∃ key hk x, hm_get (p_headers (rq_parts req)) "api-key" = Some key ∧
    hv_from_bytes (sha key) = Some hk ∧
    e3_authenticate hk (AuthRequest_from ctx) (lw_e3 w) = (Ret tt, x).
Proof.
  unfold AuthService_call. destruct (hm_get _ "api-key") as [key|]; [|intros [= <- <-]; by left].
  unfold Prelude.mbind, mtry, on_e3.
  destruct (auth_request sha ctx key (lw_e3 w)) as [[[]|e|] x] eqn:Ea;
    [|intros [= <- <-]; by left..].
  intros _. right. apply auth_request_ok in Ea as (hk & Hk & Ha). by exists key, hk, x.
Qed.

(** Only the inner service of the context layer forwards. *)
Lemma context_layer_forward ectx fctx ts id el ch (inner : Service (EW := EW)) req w r w' :
  ContextLogService_call ectx fctx ts id el ch inner req w = (r, w') →
  lw_forwarded w' = lw_forwarded w ∨
  ∃ req' r1 w1, inner req' w = (r1, w1) ∧ lw_forwarded w' = lw_forwarded w1 ∧
    hm_get (p_headers (rq_parts req')) "api-key" = hm_get (p_headers (rq_parts req)) "api-key".
Proof.
  unfold ContextLogService_call.
  destruct (init_request_context ectx fctx ts id req) as [c|]; [|intros [= <- <-]; by left].
  destruct (add_ev_ctx_to_headers (p_headers (rq_parts req)) _) as [h|] eqn:Eh;
    [|intros [= <- <-]; by left].
  unfold Prelude.mbind at 1. set (req' := mkReq _ _ _ _).
  destruct (inner req' w) as [r1 w1] eqn:Ei. intros Hr. right. exists req', r1, w1.
  split; [done|]. split; [|by apply (add_ev_ctx_get _ _ _ "api-key") in Eh].
  destruct r1 as [res|e|]; [|by injection Hr as <- <-..].
  destruct (rs_trx res) as [c1|]; [|by injection Hr as <- <-].
  destruct (add_res_to_trx_context _ _ _ c1) as [c2|]; [|by injection Hr as <- <-].
  destruct (add_ev_ctx_to_headers (rs_headers res) _) as [rh|]; [|by injection Hr as <- <-].
  destruct (stop_timer_and_build el c2) as [[t|e]|]; [|by injection Hr as <- <-..].
  unfold Prelude.mbind, send_log, mmodify in Hr.
  destruct (trx_logging_enabled fctx), ch; by injection Hr as <- <-.
Qed.

(** The gate of the whole stack. *)
Lemma stack_gate s req w r w' :
  api_key_auth (s_features s) = true →
  data_plane_service s req w = (r, w') →
  lw_forwarded w' = lw_forwarded w ∨
  ∃ key hk x, hm_get (p_headers (rq_parts req)) "api-key" = Some key ∧
    hv_from_bytes (s_sha512 s key) = Some hk ∧
    e3_authenticate hk (AuthRequest_from (s_context s)) (lw_e3 w) = (Ret tt, x).
Proof.
  intros Ha. unfold data_plane_service, AttestService_call.
  assert (Hctx : context_layer s req w = (r, w') →
    lw_forwarded w' = lw_forwarded w ∨
    ∃ key hk x, hm_get (p_headers (rq_parts req)) "api-key" = Some key ∧
      hv_from_bytes (s_sha512 s key) = Some hk ∧
      e3_authenticate hk (AuthRequest_from (s_context s)) (lw_e3 w) = (Ret tt, x)).
  { intros Hr. apply context_layer_forward in Hr as [?|(req' & r1 & w1 & Hi & Hf & Hk)]; [by left|].
    unfold auth_layer in Hi. rewrite Ha in Hi. apply Auth_gate in Hi.
    rewrite Hf, <-Hk. exact Hi. }
  destruct (s_enclave s); [|done]. destruct (is_attestation_request req); [|done].
  destruct (s_attestation_doc s (s_trusted_cert s)); intros [= <- <-]; by left.
Qed.

(** C2. The authentication gate holds for the whole stack: with API-key
    authentication on, a request makes the user process receive something only
    if it carries an api-key header and E3, asked with the hash of exactly that
    key and this enclave's identity, accepted it. *)
Theorem forwarded_only_if_authenticated s req w r w' :
  api_key_auth (s_features s) = true →
  data_plane_service s req w = (r, w') →
  lw_forwarded w' = lw_forwarded w ∨
  ∃ key hk x, hm_get (p_headers (rq_parts req)) "api-key" = Some key ∧
    hv_from_bytes (s_sha512 s key) = Some hk ∧
    e3_authenticate hk (AuthRequest_from (s_context s)) (lw_e3 w) = (Ret tt, x).
Proof. apply stack_gate. Qed.

(** ** Decryption *)

(** The value the decrypted headers give to [k]: the last one that can be inserted. *)
Definition decrypted_header (k : string) (headers : list EncryptedHeader) : option HeaderValue :=
  last (omap (fun h =>
    match hn_from_str (eh_key h), hv_from_str (eh_value h) with
    | Some k', Some v => if bool_decide (k' = k) then Some v else None
    | _, _ => None
    end) headers).

Lemma fold_decrypted_headers headers h k :
  hm_get_all (fold_left insert_decrypted_header headers h) k
    = match decrypted_header k headers with Some v => [v] | None => hm_get_all h k end.
Proof.
  induction headers as [|x headers IH] using rev_ind; [done|].
  rewrite fold_left_app. cbn [fold_left]. unfold decrypted_header in *. rewrite omap_app. cbn [omap list_omap].
  unfold insert_decrypted_header at 1. destruct (hn_from_str (eh_key x)) as [k'|]; [|by rewrite app_nil_r, IH].
  destruct (hv_from_str (eh_value x)) as [v|]; [|by rewrite app_nil_r, IH].
  rewrite get_all_insert, IH. case_bool_decide; [by rewrite last_snoc|by rewrite app_nil_r].
Qed.

(** [fwd] is [req] sent on with [body] in place of its own, and for each name
    the values [hs] gives, or those of the request. *)
Definition forwarded_with (req : Request) (body : bytes) (hs : string → option (list HeaderValue)) (fwd : Request) : Prop :=
  p_method (rq_parts fwd) = p_method (rq_parts req) ∧ p_uri (rq_parts fwd) = p_uri (rq_parts req) ∧
  rq_body fwd = Some body ∧
  ∀ k, hm_get_all (p_headers (rq_parts fwd)) k = default (hm_get_all (p_headers (rq_parts req)) k) (hs k).

(** What decryption says of the headers of a request with the new body. *)
Definition decrypted_headers (d : AutoDecryptRequest) (body : bytes) (k : string) : option (list HeaderValue) :=
  match decrypted_header k (header_data d) with
  | Some v => Some [v]
  | None => if bool_decide (k = "content-length") then Some [len_value (length body)]
            else if bool_decide (k = "transfer-encoding") then Some [] else None
  end.

Lemma forward_sends s req c n headers body (w : LayerWorld (EW := EW)) :
  ∃ fwd, lw_forwarded (forward_decrypted (ForwardService_call (s_http_client s)) req c n headers body w).2
      = lw_forwarded w ++ [fwd] ∧
    rq_parts fwd = mkParts _ (p_method (rq_parts req)) (p_uri (rq_parts req)) headers ∧ rq_body fwd = Some body.
Proof.
  unfold forward_decrypted, ForwardService_call. cbn [rq_trx]. unfold Prelude.mbind, mmodify.
  set (fwd := mkReq _ _ None _). exists fwd. split; [|done].
  unfold mpanic, mret. repeat (case_match; simplify_eq/=; try done).
Qed.

(** C3. What the user process receives is the request with what the reader
    found decrypted in place. Let [es] be the ciphertexts the reader finds in
    the body (a marker split between two reads is not found, see the finding on
    stream.rs). A request with none of them and no encrypted header is
    forwarded once, with its body, and loses only transfer-encoding. For any
    other request E3 is asked for exactly these ciphertexts and the encrypted
    headers: with an answer, the request is forwarded once, its body being the
    original with the range of every ciphertext replaced, all at once, by the
    JSON of its decrypted value, and its headers those of the request, except
    that content-length is the length of that body and transfer-encoding is
    gone unless E3's answer has a header of that name, and that the decrypted
    headers replace the encrypted ones (the last of a name wins). Without an
    answer nothing is forwarded and the response is the decryption error. E3 is
    relied on to keep the ranges it was asked for. *)
Theorem decrypted_body_is_woven s req w c body :
  reads_payload (s_read_frames s) → keeps_ranges (EW := EW) →
  rq_trx req = Some c → rq_body req = Some body →
  ∃ es, extract_ciphertexts_from_payload (s_read_frames s) body = Ret es ∧
  let enc := encrypted_headers (p_headers (rq_parts req)) in
  let '(r, w') := decrypt_and_forward s req w in
  if bool_decide (es = [] ∧ enc = []) then
    ∃ fwd, lw_forwarded w' = lw_forwarded w ++ [fwd] ∧
      forwarded_with req body (fun k => if bool_decide (k = "transfer-encoding") then Some [] else None) fwd
  else
    match (decrypt_with_retries 2 (mkAutoDecrypt es enc) (lw_e3 w)).1 with
    | Ret d => ∃ fwd, lw_forwarded w' = lw_forwarded w ++ [fwd] ∧
        forwarded_with req (weave 0 body (body_data d)) (decrypted_headers d (weave 0 body (body_data d))) fwd
    | Throw e => r = Ret (decrypt_error (s_display_decrypt s) (E3Error e) c) ∧ lw_forwarded w' = lw_forwarded w
    | Panic => r = Panic ∧ lw_forwarded w' = lw_forwarded w
    end.
Proof.
  intros Hf Hk Ht Hb. unfold decrypt_and_forward.
  destruct (DecryptService_spec (s_read_frames s) (s_display_decrypt s)
    (ForwardService_call (s_http_client s)) req w c body Hf Hk Ht Hb) as (es & He & ->).
  exists es. split; [done|]. cbn zeta. set (enc := encrypted_headers _).
  case_bool_decide as Hne.
  - destruct Hne as [-> ->]. set (run := forward_decrypted _ _ _ _ _ _ _).
    destruct (forward_sends s req c (Some 0%N) (hm_remove (p_headers (rq_parts req)) "transfer-encoding") body w)
      as (fwd & Hw & Hp & Hbd). fold run in Hw. destruct run as [r w']. exists fwd. split; [done|].
    unfold forwarded_with. rewrite Hp, Hbd. split_and!; try done. intros k. cbn [p_headers]. rewrite get_all_remove.
    repeat case_bool_decide; naive_solver.
  - assert (∀ X (a z : X), match es, enc with [], [] => a | _, _ => z end = z) as -> by (intros; destruct es, enc; naive_solver).
    destruct (decrypt_with_retries 2 _ (lw_e3 w)) as [[d|e|] x]; [|done..]. cbn [fst].
    set (w1 := mkLW x _ _). set (bd := weave 0 body (body_data d)). set (hs := fold_left _ _ _).
    destruct (forward_sends s req c (try_u32 (length es)) hs bd w1) as (fwd & Hw & Hp & Hbd).
    destruct (forward_decrypted _ _ _ _ hs bd w1) as [r w']. exists fwd. split; [done|].
    unfold forwarded_with. rewrite Hp, Hbd. split_and!; try done. intros k. cbn [p_headers]. subst hs.
    rewrite fold_decrypted_headers, get_all_insert, get_all_remove. unfold decrypted_headers.
    destruct (decrypted_header k (header_data d)); [done|]. repeat case_bool_decide; naive_solver.
Qed.
End Stack.

(** ** Witnesses *)

(** A service that decrypts every value to [secret] and knows one key. *)
Definition sample_e3 : E3Api unit := {|
  e3_decrypt p := mret (mkAutoDecrypt ((fun e => mkEntry (range e) "secret") <$> body_data p) []);
  e3_crypto_decrypt p := mret (mkCryptoResponse (cr_data p));
  e3_encrypt p _ := mret (mkCryptoResponse (cr_data p));
  e3_authenticate k _ := if bytes_eqb k (b "h(key)") then mret tt else mthrow (FailedRequest 401)
|}.

Definition sample_features (auth : bool) : FeatureContext :=
  mkFeatures auth None None None true false [] {| allow_list := get_egress_allow_list "" |}.

Definition sample_surroundings (auth : bool) : Surroundings :=
  mkSurroundings _ (fun _ => Ok (mkRes "HTTP/1.1" 200 hm_empty (Some (b "fine")) None)) read_body
    (fun _ => "error") (fun k => b "h(" ++ k ++ b ")") (fun _ => "unauthorised")
    (mkContext "team" "app" "uuid" "name") (sample_features auth) "now" 4096 (Some 3%N) true true
    (fun _ => Ok []) None (fun _ => "") (fun s => s).

Definition sample_request : Request :=
  mkReq (mkParts _ "POST" (mkUri "/pay" None) (hm_insert hm_empty "api-key" (b "key")))
    (Some (body_of sample_segs (b "; end"))) None (Some "10.0.0.1").

Definition sample_world : LayerWorld (EW := unit) := mkLW tt [] [].

Lemma sample_reads : reads_payload read_body.
Proof.
  intros payload. exists [payload]. split; [apply app_nil_r|]. apply read_body_run.
Qed.

Lemma sample_keeps : keeps_ranges (A := sample_e3).
Proof. intros p [] d []. cbn. intros [= <-]. cbn. by rewrite <-list_fmap_compose. Qed.

Lemma sample_sound auth : sound (A := sample_e3) (sample_surroundings auth).
Proof.
  split.
  - intros req res [= <-]. split; [by intros v|]. by intros [? ?].
  - apply sample_reads.
  - apply sample_keeps.
  - split; [done|]. intros k p []. cbn. by destruct (bytes_eqb k _).
  - by eexists.
Qed.

Lemma sample_loggable : loggable sample_request.
Proof. split; by intros v. Qed.

Lemma stack_answers_and_logs_once_witness :
  let run := data_plane_service (A := sample_e3) (sample_surroundings true) sample_request sample_world in
  ∃ res t, run.1 = Ret res ∧ lw_logs run.2 = [new_log_message t].
Proof.
  cbn zeta. pose proof (stack_answers_and_logs_once (A := sample_e3) (sample_surroundings true) sample_request
    sample_world) as Ht.
  destruct (data_plane_service (A := sample_e3) (sample_surroundings true) sample_request sample_world) as [r w'].
  destruct Ht as [_ Ht]. exact (Ht (sample_sound true) sample_loggable).
Defined.

Lemma forwarded_only_if_authenticated_witness :
  let run := data_plane_service (A := sample_e3) (sample_surroundings true) sample_request sample_world in
  length (lw_forwarded run.2) = 1%nat ∧
  (lw_forwarded run.2 = lw_forwarded sample_world ∨
   ∃ key hk x, hm_get (p_headers (rq_parts sample_request)) "api-key" = Some key ∧
    hv_from_bytes (s_sha512 (sample_surroundings true) key) = Some hk ∧
    e3_authenticate (E3Api := sample_e3) hk (AuthRequest_from (s_context (sample_surroundings true))) tt
      = (Ret tt, x)).
Proof.
  cbn zeta. split; [vm_compute; reflexivity|].
  eapply (forwarded_only_if_authenticated (A := sample_e3) (sample_surroundings true) sample_request
    sample_world); [reflexivity|apply surjective_pairing].
Defined.

(** A service that also decrypts headers, one of them to a content length. *)
Definition header_e3 : E3Api unit := {|
  e3_decrypt p := mret (mkAutoDecrypt ((fun e => mkEntry (range e) "secret") <$> body_data p)
    ((fun h => mkEncHeader (eh_key h) "7") <$> header_data p));
  e3_crypto_decrypt p := mret (mkCryptoResponse (cr_data p));
  e3_encrypt p _ := mret (mkCryptoResponse (cr_data p));
  e3_authenticate _ _ := mret tt
|}.

Lemma header_keeps : keeps_ranges (A := header_e3).
Proof. intros p [] d []. cbn. intros [= <-]. cbn. by rewrite <-list_fmap_compose. Qed.

Definition contexted : Request :=
  mkReq (mkParts _ "POST" (mkUri "/pay" None)
      (hm_insert (hm_insert hm_empty "x-card" (b "ev:RFVC:text")) "transfer-encoding" (b "chunked")))
    (rq_body sample_request) (Some (TrxContextBuilder_new "now" 7 HTTP)) None.

Definition decrypt_run := decrypt_and_forward (A := header_e3) (sample_surroundings true) contexted sample_world.

Lemma decrypted_body_is_woven_witness :
  (∃ es, extract_ciphertexts_from_payload read_body (body_of sample_segs (b "; end")) = Ret es ∧ length es = 2) ∧
  ((fun f => (rq_body f, hm_get_all (p_headers (rq_parts f)) "x-card", hm_get_all (p_headers (rq_parts f)) "transfer-encoding"))
    <$> lw_forwarded decrypt_run.2) = [(Some (b "id=secret, n=secret; end"), [b "7"], [])].
Proof.
  destruct (decrypted_body_is_woven (A := header_e3) (sample_surroundings true) contexted sample_world
    (TrxContextBuilder_new "now" 7 HTTP) (body_of sample_segs (b "; end"))) as (es & He & _);
    [apply sample_reads|apply header_keeps|reflexivity|reflexivity|].
  split; [exists es; split; [exact He|]|vm_compute; reflexivity].
  change (s_read_frames _) with read_body in He. revert He. vm_compute. by intros [= <-].
Defined.
