(* ===== verification/Server.v ===== *)
(** * Connections of the data plane (data-plane/src/server/http, server.rs)

    Reading a request from a TLS stream, writing the response, and the task
    [run] spawns for each connection: HTTP requests go through the layers,
    WebSocket upgrades and other traffic are piped to the user process. The
    stream is a list of events; [httparse] and the URI parser are parameters. *)
From Stdlib Require Import Ascii String NArith Lia.
From stdpp Require Import base gmap strings list pretty.
From S2P Require Import Prelude Nom CiphertextParser CiphertextStream Libs Net Egress Context Logging.
From S2P Require Import TrxHandler E3 Layers Stack.
#[local] Open Scope string_scope.
#[local] Open Scope list_scope.
#[local] Open Scope enclave_scope.

(** ** Streams *)

(** What a read meets: bytes (none is a closed peer), an I/O error, a silence
    longer than the read timeout. *)
Inductive Event : Type :=
| Data (d : bytes)
| IoFail
| Stall.

#[export] Instance Event_eq_dec : EqDecision Event.
Proof. solve_decision. Defined.

Inductive ParseError : Type :=
| PeIo
| UnexpectedEof
| PeTimeout
| PeHyper.

(** [stream.read] into a buffer of [n] bytes, under [tokio::time::timeout]
    when [timed]. *)
Fixpoint stream_read (n : nat) (timed : bool) (s : list Event) : exec ParseError bytes * list Event :=
  match s with
  | [] => (Ret [], [])
  | Stall :: s' => if timed then (Throw PeTimeout, s') else stream_read n timed s'
  | IoFail :: s' => (Throw PeIo, s')
  | Data d :: s' =>
      if Nat.leb (length d) n then (Ret d, s') else (Ret (take n d), Data (drop n d) :: s')
  end.

Definition event_bytes (e : Event) : bytes := match e with Data d => d | _ => [] end.

(** The bytes still to come, and what bounds the reads. *)
Definition stream_bytes (s : list Event) : bytes := concat (event_bytes <$> s).
Definition stream_size (s : list Event) : nat := length s + length (stream_bytes s).

(** ** Messages as bytes (http/mod.rs) *)

Section Http.
Context {H : HttpLib} {J : Json}.

Inductive ContentEncoding : Type := Gzip | Br.

(** [impl TryFrom<&HeaderValue> for ContentEncoding] *)
Definition ContentEncoding_try_from (val : HeaderValue) : option ContentEncoding :=
  if bytes_eqb val (b "br") then Some Br
  else if bytes_eqb val (b "gzip") then Some Gzip
  else None.

Definition crlf : string := String "013" (String "010" "").

Definition header_line (e : string * HeaderValue) : bytes :=
  b (e.1 +:+ ": " +:+ default "" (hv_to_str e.2) +:+ crlf).

(** A request is always built with the default version. *)
Definition request_to_bytes (request : Request) : bytes :=
  let info := rq_parts request in
  b (p_method info +:+ " " +:+ build_log_uri (p_uri info) +:+ " HTTP/1.1" +:+ crlf)
  ++ concat (header_line <$> hm_iter (p_headers info)) ++ b crlf ++ default [] (rq_body request).

(** [canonical_reason] is the table of [http::StatusCode]. *)
Definition response_to_bytes (canonical_reason : N → option string) (response : Response) : bytes :=
  b (rs_version response +:+ " " +:+ pretty (rs_status response) +:+ " "
     +:+ default "" (canonical_reason (rs_status response)) +:+ crlf)
  ++ concat (header_line <$> hm_iter (rs_headers response)) ++ b crlf ++ default [] (rs_body response).

(** [None] is an invalid name, [Some None] the panic of the [expect]. *)
Definition append_or_insert_header (header : string) (header_map : HeaderMap) (value : string) :
    option (option HeaderMap) :=
  match hn_from_str header with
  | None => None
  | Some header_name =>
      let text := match hm_get header_map header_name ≫= hv_to_str with
                  | Some header_val => header_val +:+ ", " +:+ value
                  | None => value
                  end in
      Some ((fun v => hm_insert header_map header_name v) <$> hv_from_str text)
  end.

(** [let _ =] ignores the invalid name; [None] is the panic. *)
Definition append_ignoring (header : string) (value : string) (header_map : HeaderMap) :
    option HeaderMap :=
  default (Some header_map) (append_or_insert_header header header_map value).

Definition add_remote_ip_to_forwarded_for_header (header_map : HeaderMap) (remote_ip : string) :
    option HeaderMap :=
  h ← append_ignoring "X-Forwarded-For" remote_ip header_map;
  h ← append_ignoring "X-Forwarded-Proto" "https" h;
  append_ignoring "Forwarded" ("for=" +:+ remote_ip +:+ ";proto=https") h.

Definition build_internal_error_response (msg : option string) : Response :=
  error_response 500 true (default "An internal error occurred. Please contact support." msg).

(** ** Parsing (http/parse.rs) *)

Definition is_websocket_request (req : Request) : bool :=
  match hm_get (p_headers (rq_parts req)) "upgrade" with
  | Some upgrade_proto => bytes_eqb upgrade_proto (b "websocket")
  | None => false
  end.

Inductive Incoming : Type :=
| HttpRequest (r : Request)
| NonHttpRequest (d : bytes).

Definition PM : Type → Type := M (list Event) ParseError.

Definition mexec {A} (e : exec ParseError A) : PM A := fun s => (e, s).

Definition read_from_stream (n : nat) : PM bytes :=
  let! chunk := stream_read n false in
  match chunk with
  | [] => mthrow UnexpectedEof
  | _ => mret chunk
  end.

Fixpoint insert_headers (headers : list (string * bytes)) (header_map : HeaderMap) :
    exec ParseError HeaderMap :=
  match headers with
  | [] => Ret header_map
  | (name, value) :: rest =>
      match hn_from_str name, hv_from_bytes value with
      | Some k, Some v => insert_headers rest (hm_insert header_map k v)
      | _, _ => Throw PeHyper
      end
  end.

Definition build_header_map_for_request (headers : list (string * bytes)) (remote_ip : option string) :
    exec ParseError HeaderMap :=
  match insert_headers headers hm_empty, remote_ip with
  | Ret header_map, Some ip =>
      match add_remote_ip_to_forwarded_for_header header_map ip with
      | Some h => Ret h
      | None => Panic
      end
  | r, _ => r
  end.

Definition usize_max : N := 18446744073709551615.
Definition isize_max : N := 9223372036854775807.

(** [str::parse::<usize>]: an optional plus sign, then digits. *)
Definition parse_usize (s : string) : option N :=
  let ds := match s with String "+" s' => s' | _ => s end in
  if String.eqb ds "" then None
  else match digits 0 ds with
       | Some n => if (n <=? usize_max)%N then Some n else None
       | None => None
       end.

Definition get_content_length_from_headers (header_map : HeaderMap) : option N :=
  (hm_get header_map "content-length" ≫= hv_to_str) ≫= parse_usize.

(** [Vec::reserve] panics when the capacity would exceed [isize::MAX]. *)
Definition reserve_fits (len additional : N) : bool :=
  (additional =? 0)%N || (len + additional <=? isize_max)%N.

(** The loop of [read_incoming_body_from_stream]; every turn that goes on
    makes the stream smaller. *)
Fixpoint read_body_loop (fuel : nat) (content_length : N) (buffer : bytes) : PM bytes :=
  match fuel with
  | O => mthrow UnexpectedEof
  | S n =>
      if (N.of_nat (length buffer) <? content_length)%N then
        let! chunk := stream_read 1024 true in
        match chunk with
        | [] => mthrow UnexpectedEof
        | _ => read_body_loop n content_length (buffer ++ chunk)
        end
      else mret buffer
  end.

Definition read_incoming_body_from_stream (content_length : N) (buffer : bytes) : PM bytes := fun s =>
  read_body_loop (S (stream_size s)) content_length buffer s.

(** [httparse::Request::parse] with 64 headers. *)
Inductive HeadStatus : Type :=
| Complete (body_offset : nat) (head : ParsedRequest)
| Partial
| Invalid.

Context (parse_head : bytes → HeadStatus).
(** What the request builder makes of a URI and of a method. *)
Context (parse_uri : string → option Uri) (parse_method : string → option string).

Section Parse.
Context (remote_ip : option string) (target_port : N).

Definition complete_request (body_offset : nat) (head : ParsedRequest) (buffer : bytes) : PM Incoming :=
  let! headers := mexec (build_header_map_for_request (pr_headers head) remote_ip) in
  let req_uri := "http://127.0.0.1:" +:+ pretty target_port +:+ default "/" (pr_path head) in
  let! body :=
    match get_content_length_from_headers headers with
    | Some content_length =>
        let body_buffer := drop body_offset buffer in
        let buffer := take body_offset buffer in
        if reserve_fits (N.of_nat (length body_buffer))
             (content_length - N.of_nat (length buffer - body_offset))
        then read_incoming_body_from_stream content_length body_buffer
        else mpanic
    | None => mret []
    end in
  match parse_uri req_uri, parse_method (default "GET" (pr_method head)) with
  | Some u, Some m => mret (HttpRequest (mkReq (mkParts _ m u headers) (Some body) None remote_ip))
  | _, _ => mthrow PeHyper
  end.

Fixpoint parse_loop (fuel : nat) (buffer : bytes) : PM Incoming :=
  match fuel with
  | O => mthrow UnexpectedEof
  | S n =>
      let! chunk := read_from_stream 1024 in
      let buffer := buffer ++ chunk in
      match parse_head buffer with
      | Complete body_offset head => complete_request body_offset head buffer
      | Partial => parse_loop n buffer
      | Invalid => mret (NonHttpRequest buffer)
      end
  end.

Definition try_parse_http_request_from_stream : PM Incoming := fun s =>
  parse_loop (S (stream_size s)) [] s.
End Parse.
End Http.

(** ** Connections (server.rs) *)

Section Connections.
Context {H : HttpLib} {J : Json} {R : Retry} {N0 : Nom} {EW : Type} {A : E3Api EW}.

Record ServerWorld : Type := mkSW {
  sw_in : list Event;
  (** what was handed to [write_all] *)
  sw_out : bytes;
  sw_shut : bool;
  sw_layers : LayerWorld (EW := EW);
  (** what was sent ahead on each raw connection to the user process *)
  sw_piped : list bytes;
  (** the requests read so far *)
  sw_requests : nat
}.

Definition ServerM : Type → Type := M ServerWorld string.

Definition on_layers {E B} (m : M LayerWorld E B) : M ServerWorld E B := fun w =>
  let '(r, l) := m (sw_layers w) in
  (r, mkSW (sw_in w) (sw_out w) (sw_shut w) l (sw_piped w) (sw_requests w)).

Definition on_stream {B} (m : PM B) : M ServerWorld ParseError B := fun w =>
  let '(r, i) := m (sw_in w) in
  (r, mkSW i (sw_out w) (sw_shut w) (sw_layers w) (sw_piped w) (sw_requests w)).

Definition write_all (d : bytes) : ServerM unit :=
  mmodify (fun w => mkSW (sw_in w) (sw_out w ++ d) (sw_shut w) (sw_layers w) (sw_piped w) (sw_requests w)).

Definition shutdown_conn : ServerM unit :=
  mmodify (fun w => mkSW (sw_in w) (sw_out w) true (sw_layers w) (sw_piped w) (sw_requests w)).

Definition count_request : ServerM unit :=
  mmodify (fun w => mkSW (sw_in w) (sw_out w) (sw_shut w) (sw_layers w) (sw_piped w) (S (sw_requests w))).

Context (parse_head : bytes → HeadStatus).
Context (parse_uri : string → option Uri) (parse_method : string → option string).
Context (canonical_reason : N → option string).
Context (s : Surroundings).
(** What the clock and the id generator yield for the n-th request. *)
Context (draw : nat → string * N * option N).
Context (remote_ip : option string) (port : N).
(** JSON's [null], what a missing header text becomes. *)
Context (Value_null : Value).
(** Whether the user process accepts a connection. *)
Context (customer_up : bool).

Definition at_request (n : nat) : Surroundings :=
  let '(ts, id, el) := draw n in
  mkSurroundings _ (s_http_client s) (s_read_frames s) (s_display_decrypt s) (s_sha512 s)
    (s_display_auth s) (s_context s) (s_features s) ts id el (s_channel_open s) (s_enclave s)
    (s_attestation_doc s) (s_trusted_cert s) (s_base64 s) (s_attestation_json s).

(** The bytes sent ahead; copying the two streams is not modelled. *)
Definition pipe_to_customer_process (buffer : bytes) : ServerM unit :=
  if customer_up
  then mmodify (fun w =>
         mkSW (sw_in w) (sw_out w) (sw_shut w) (sw_layers w) (sw_piped w ++ [buffer]) (sw_requests w))
  else mret tt.

Definition log_non_http_trx (cell : option EnclaveContext) (authorized : bool) (ts : string) (id : N)
    (context_builder : option TrxContextBuilder) : ServerM unit :=
  match EnclaveContext_get cell with
  | Err _ => mpanic
  | Ok enclave_context =>
      let c := match context_builder with
               | Some c => c
               | None =>
                   init_trx_context_with_enclave_details ts id (uuid enclave_context)
                     (name enclave_context) (Context.app_uuid enclave_context)
                     (Context.team_uuid enclave_context) TCP
               end in
      match build (add_httparse_to_trx Value_null authorized None remote_ip c) with
      | Err _ => mpanic
      | Ok t =>
          if s_channel_open s
          then on_layers (mmodify (fun l =>
                 mkLW (lw_e3 l) (lw_forwarded l) (lw_logs l ++ [new_log_message t])))
          else mpanic
      end
  end.

Definition handle_websocket_request (request : Request) (n : nat) : ServerM unit :=
  let e := at_request n in
  match init_request_context (s_context e) (s_features e) (s_timestamp e) (s_id e) request with
  | None => mpanic
  | Some context_builder =>
      let reject err :=
        log_non_http_trx (Some (s_context e)) false (s_timestamp e) (s_id e) (Some context_builder) ;!
        write_all (response_to_bytes canonical_reason (auth_error (s_display_auth e) err)) in
      match hm_get (p_headers (rq_parts request)) "api-key" with
      | None => reject NoApiKeyGiven
      | Some api_key =>
          let! r := mtry (on_layers (on_e3 (auth_request (s_sha512 e) (s_context e) api_key))) in
          match r with
          | Err auth_err => reject auth_err
          | Ok _ =>
              log_non_http_trx (Some (s_context e)) true (s_timestamp e) (s_id e) (Some context_builder) ;!
              pipe_to_customer_process (request_to_bytes request)
          end
      end
  end.

(** The match on what was read: whether the loop goes on. *)
Definition handle_incoming (n : nat) (r : result ParseError Incoming) : ServerM bool :=
  let e := at_request n in
  match r with
  | Ok (HttpRequest request) =>
      count_request ;!
      if is_websocket_request request
      then handle_websocket_request request n ;! mret false
      else
        let! called := mtry (on_layers (data_plane_service e request)) in
        let response := match called with
                        | Ok response => response
                        | Err _ => build_internal_error_response None
                        end in
        write_all (response_to_bytes canonical_reason response) ;!
        mret true
  | Ok (NonHttpRequest bytes) =>
      if api_key_auth (s_features s)
      then
        log_non_http_trx (Some (s_context e)) false (s_timestamp e) (s_id e) None ;!
        shutdown_conn ;! mret false
      else
        log_non_http_trx (Some (s_context e)) true (s_timestamp e) (s_id e) None ;!
        pipe_to_customer_process bytes ;! mret false
  | Err _ => shutdown_conn ;! mret false
  end.

(** One turn of the loop of a connection. *)
Definition connection_turn : ServerM bool :=
  let! w := mget in
  let! r := mtry (on_stream (try_parse_http_request_from_stream parse_head parse_uri parse_method
                               remote_ip port)) in
  handle_incoming (sw_requests w) r.

Fixpoint connection_loop (fuel : nat) : ServerM unit :=
  match fuel with
  | O => mret tt
  | S n => let! go_on := connection_turn in if go_on then connection_loop n else mret tt
  end.

(** The task of a connection. *)
Definition serve_connection : ServerM unit := fun w =>
  connection_loop (S (stream_size (sw_in w))) w.
End Connections.

(** ** Reading terminates *)

#[local] Open Scope nat_scope.

Lemma stream_read_spec n timed s r s' : 0 < n → stream_read n timed s = (r, s') →
  stream_size s' ≤ stream_size s ∧
  ∀ d, r = Ret d → stream_bytes s = d ++ stream_bytes s' ∧ (d ≠ [] → stream_size s' < stream_size s).
Proof.
  intros Hn. unfold stream_size, stream_bytes.
  induction s as [|[d| |] s IH]; cbn [stream_read fmap list_fmap concat event_bytes length app].
  - intros; simplify_eq/=. split; [done|]. intros; by simplify_eq/=.
  - rewrite length_app. destruct (Nat.leb_spec (length d) n); intros; simplify_eq/=.
    + split; [lia|]. intros; simplify_eq. split; [done|lia].
    + rewrite length_app, length_drop. split; [lia|]. intros; simplify_eq.
      split; [by rewrite app_assoc, take_drop|lia].
  - intros; simplify_eq. split; [lia|done].
  - destruct timed; [intros; simplify_eq; split; [lia|done]|].
    intros [Hs Hd]%IH. split; [lia|]. intros d Hr. destruct (Hd d Hr) as [Hb Hlt]. split; [done|].
    intros Hne. specialize (Hlt Hne). lia.
Qed.

(** A read that goes on: some bytes, fewer left. *)
Lemma stream_read_chunk n timed s c chunk s' : 0 < n → stream_read n timed s = (Ret (c :: chunk), s') →
  stream_size s' < stream_size s ∧ stream_bytes s = (c :: chunk) ++ stream_bytes s'.
Proof.
  intros Hn Hr. destruct (stream_read_spec _ _ _ _ _ Hn Hr) as [_ Hd].
  destruct (Hd _ eq_refl) as [-> Hlt]. by split; [apply Hlt|].
Qed.

Lemma stream_read_le n timed s d s' : stream_read n timed s = (Ret d, s') → length d ≤ n.
Proof.
  induction s as [|[d0| |] s IH]; cbn [stream_read].
  - intros [= <- <-]. simpl. lia.
  - destruct (Nat.leb_spec (length d0) n); intros [= <- <-]; [done|]. rewrite length_take. lia.
  - done.
  - by destruct timed.
Qed.

Section ParseLemmas.
Context {H : HttpLib} {J : Json}.

Lemma read_from_stream_ret n s chunk s' : 0 < n → read_from_stream n s = (Ret chunk, s') →
  chunk ≠ [] ∧ stream_size s' < stream_size s ∧ stream_bytes s = chunk ++ stream_bytes s'.
Proof.
  intros Hn. unfold read_from_stream, Prelude.mbind.
  destruct (stream_read n false s) as [[[|c d]| |] s1] eqn:Er; try done.
  intros [= <- <-]. split; [done|]. by eapply stream_read_chunk.
Qed.

Lemma read_from_stream_size n s r s' : 0 < n → read_from_stream n s = (r, s') →
  stream_size s' ≤ stream_size s.
Proof.
  intros Hn. unfold read_from_stream, Prelude.mbind.
  destruct (stream_read n false s) as [[[|c d]| |] s1] eqn:Er;
    apply stream_read_spec in Er as [? _]; try done; by intros [= <- <-].
Qed.

(** Enough fuel is enough: the loops do not depend on it. *)
Lemma read_body_loop_fuel f f' n buffer s : stream_size s < f → stream_size s < f' →
  read_body_loop f n buffer s = read_body_loop f' n buffer s.
Proof.
  revert f' buffer s. induction f as [|f IH]; intros [|f'] buffer s; [lia..|]. intros Hf Hf'.
  cbn [read_body_loop]. destruct (_ <? n)%N; [|done]. unfold Prelude.mbind.
  destruct (stream_read 1024 true s) as [[[|c d]| |] s1] eqn:Er; try done.
  apply stream_read_chunk in Er as [? _]; [|lia]. apply IH; lia.
Qed.

Lemma read_body_loop_spec f n buffer s r s' : read_body_loop f n buffer s = (r, s') →
  stream_size s' ≤ stream_size s ∧
  ∀ body, r = Ret body → ∃ more, body = buffer ++ more ∧ stream_bytes s = more ++ stream_bytes s' ∧
    (n ≤ N.of_nat (length body))%N ∧
    (more ≠ [] → (N.of_nat (length body) < n + 1024)%N).
Proof.
  revert buffer s. induction f as [|f IH]; intros buffer s; cbn [read_body_loop].
  - intros [= <- <-]. by split; [|intros].
  - destruct (N.ltb_spec (N.of_nat (length buffer)) n) as [Hlt|Hge].
    + unfold Prelude.mbind. destruct (stream_read 1024 true s) as [[[|c d]| |] s1] eqn:Er.
      1,3,4: apply stream_read_spec in Er as [? _]; [|lia]; intros [= <- <-]; split; [lia|done].
      pose proof (stream_read_le _ _ _ _ _ Er) as Hle.
      apply stream_read_chunk in Er as [Hs Hb]; [|lia]. intros [Hs' Hbody]%IH.
      split; [lia|]. intros body Hr. destruct (Hbody body Hr) as (more & -> & Hm & Hn & Hb').
      exists ((c :: d) ++ more). split; [by rewrite app_assoc|]. split; [by rewrite Hb, Hm, app_assoc|].
      split; [done|]. intros _. destruct more as [|m0 more].
      * rewrite app_nil_r, length_app in *. lia.
      * by apply Hb'.
    + intros [= <- <-]. split; [done|]. intros body [= <-]. exists []. by rewrite app_nil_r.
Qed.

Context (parse_head : bytes → HeadStatus).
Context (parse_uri : string → option Uri) (parse_method : string → option string).
Context (remote_ip : option string) (port : N).

(** What a request owes to the bytes [consumed] when its head was complete
    and the bytes [rest] read after them. *)
Definition request_of (consumed rest : bytes) (req : Request) : Prop :=
  ∃ offset head, parse_head consumed = Complete offset head ∧
    build_header_map_for_request (pr_headers head) remote_ip = Ret (p_headers (rq_parts req)) ∧
    rq_remote_ip req = remote_ip ∧ rq_trx req = None ∧
    match get_content_length_from_headers (p_headers (rq_parts req)) with
    | Some n =>
        rq_body req = Some (drop offset consumed ++ rest) ∧
        (n ≤ N.of_nat (length (drop offset consumed ++ rest)))%N ∧
        (rest ≠ [] → (N.of_nat (length (drop offset consumed ++ rest)) < n + 1024)%N)
    | None => rq_body req = Some [] ∧ rest = []
    end.

Lemma complete_request_spec offset head buffer s r s' :
  parse_head buffer = Complete offset head →
  complete_request parse_uri parse_method remote_ip port offset head buffer s = (r, s') →
  stream_size s' ≤ stream_size s ∧
  ∀ i, r = Ret i → ∃ req rest, i = HttpRequest req ∧ stream_bytes s = rest ++ stream_bytes s' ∧
    request_of buffer rest req.
Proof.
  intros Hp. unfold complete_request, Prelude.mbind at 1, mexec.
  destruct (build_header_map_for_request _ _) as [h| |] eqn:Eh; [|intros [= <- <-]; by split..].
  unfold Prelude.mbind. set (body := match get_content_length_from_headers h with Some _ => _ | None => _ end).
  assert (Hbody : ∀ r s1, body s = (r, s1) → stream_size s1 ≤ stream_size s ∧
    ∀ bd, r = Ret bd → ∃ rest, stream_bytes s = rest ++ stream_bytes s1 ∧
    match get_content_length_from_headers h with
    | Some n => bd = drop offset buffer ++ rest ∧ (n ≤ N.of_nat (length bd))%N ∧
        (rest ≠ [] → (N.of_nat (length bd) < n + 1024)%N)
    | None => bd = [] ∧ rest = []
    end).
  { intros r1 s1. subst body. destruct (get_content_length_from_headers h) as [n|].
    - destruct (reserve_fits _ _); [|intros [= <- <-]; by split].
      intros [Hs Hb]%read_body_loop_spec. split; [done|]. intros bd Hr.
      destruct (Hb bd Hr) as (more & -> & ? & ? & ?). by exists more.
    - intros [= <- <-]. split; [done|]. intros bd [= <-]. by exists []. }
  destruct (body s) as [[bd| |] s1] eqn:Eb;
    destruct (Hbody _ _ eq_refl) as [Hs Hb]; [|intros [= <- <-]; by split..].
  destruct (Hb bd eq_refl) as (rest & Hr & Hm).
  destruct (parse_uri _) as [u|]; [|intros [= <- <-]; by split].
  destruct (parse_method _) as [m|]; [|intros [= <- <-]; by split].
  intros [= <- <-]. split; [done|]. intros i [= <-]. eexists _, rest. do 2 (split; [done|]).
  exists offset, head. do 2 (split; [done|]). cbn [rq_parts p_headers rq_body rq_remote_ip rq_trx].
  do 2 (split; [done|]). destruct (get_content_length_from_headers h); naive_solver.
Qed.

Lemma parse_loop_fuel f f' buffer s : stream_size s < f → stream_size s < f' →
  parse_loop parse_head parse_uri parse_method remote_ip port f buffer s
    = parse_loop parse_head parse_uri parse_method remote_ip port f' buffer s.
Proof.
  revert f' buffer s. induction f as [|f IH]; intros [|f'] buffer s; [lia..|]. intros Hf Hf'.
  cbn [parse_loop]. unfold Prelude.mbind.
  destruct (read_from_stream 1024 s) as [[d| |] s1] eqn:Er; [|done..].
  apply read_from_stream_ret in Er as (_ & ? & _); [|lia].
  destruct (parse_head (buffer ++ d)); [done| |done]. apply IH; lia.
Qed.

Lemma parse_loop_spec f buffer s r s' :
  parse_loop parse_head parse_uri parse_method remote_ip port f buffer s = (r, s') →
  stream_size s' ≤ stream_size s ∧
  ∀ i, r = Ret i → stream_size s' < stream_size s ∧
    ∃ chunks rest, stream_bytes s = chunks ++ rest ++ stream_bytes s' ∧
    match i with
    | HttpRequest req => request_of (buffer ++ chunks) rest req
    | NonHttpRequest d => d = buffer ++ chunks ∧ parse_head d = Invalid ∧ rest = []
    end.
Proof.
  revert buffer s. induction f as [|f IH]; intros buffer s; cbn [parse_loop].
  { intros [= <- <-]. by split. }
  unfold Prelude.mbind. destruct (read_from_stream 1024 s) as [[d| |] s1] eqn:Er;
    [|apply read_from_stream_size in Er; [|lia]; intros [= <- <-]; by split..].
  apply read_from_stream_ret in Er as (_ & Hs & Hb); [|lia].
  destruct (parse_head (buffer ++ d)) as [offset head| |] eqn:Ep.
  - intros [Hs1 Hi]%complete_request_spec; [|done]. split; [lia|]. intros i Hr.
    split; [lia|]. destruct (Hi i Hr) as (req & rest & -> & Hrest & Hreq).
    exists d, rest. by rewrite Hb, Hrest.
  - intros [Hs1 Hi]%IH. split; [lia|]. intros i Hr. destruct (Hi i Hr) as [Hlt (chunks & rest & Hc & Hreq)].
    split; [lia|]. exists (d ++ chunks), rest. rewrite Hb, Hc, !app_assoc.
    split; [done|]. by destruct i.
  - intros [= <- <-]. split; [lia|]. intros i [= <-]. split; [done|]. by exists d, [].
Qed.

Lemma parse_loop_S f buffer s :
  parse_loop parse_head parse_uri parse_method remote_ip port (S f) buffer s =
  match read_from_stream 1024 s with
  | (Ret chunk, s1) =>
      match parse_head (buffer ++ chunk) with
      | Complete offset head =>
          complete_request parse_uri parse_method remote_ip port offset head (buffer ++ chunk) s1
      | Partial => parse_loop parse_head parse_uri parse_method remote_ip port f (buffer ++ chunk) s1
      | Invalid => (Ret (NonHttpRequest (buffer ++ chunk)), s1)
      end
  | (Throw e, s1) => (Throw e, s1)
  | (Panic, s1) => (Panic, s1)
  end.
Proof.
  cbn [parse_loop]. unfold Prelude.mbind. destruct (read_from_stream 1024 s) as [[d| |] s1]; [|done..].
  by destruct (parse_head (buffer ++ d)).
Qed.

(** The reader without its fuel. *)
Lemma try_parse_unfold buffer s :
  parse_loop parse_head parse_uri parse_method remote_ip port (S (stream_size s)) buffer s =
  match read_from_stream 1024 s with
  | (Ret chunk, s1) =>
      match parse_head (buffer ++ chunk) with
      | Complete offset head =>
          complete_request parse_uri parse_method remote_ip port offset head (buffer ++ chunk) s1
      | Partial =>
          parse_loop parse_head parse_uri parse_method remote_ip port (S (stream_size s1)) (buffer ++ chunk) s1
      | Invalid => (Ret (NonHttpRequest (buffer ++ chunk)), s1)
      end
  | (Throw e, s1) => (Throw e, s1)
  | (Panic, s1) => (Panic, s1)
  end.
Proof.
  rewrite parse_loop_S. destruct (read_from_stream 1024 s) as [[d| |] s1] eqn:Er; [|done..].
  apply read_from_stream_ret in Er as (_ & ? & _); [|lia].
  destruct (parse_head (buffer ++ d)); [done| |done]. apply parse_loop_fuel; lia.
Qed.

(** C5. Every byte of a connection is accounted for when a request is read:
    the bytes taken from the stream are those that completed the head and
    those read for the body; the headers are those of the head; the body is
    exactly what follows the head, at least content-length bytes (and fewer
    than 1024 more once the body is read on); without a usable content-length
    the body is empty and what follows the head is discarded. *)
Theorem request_bytes_accounted s req s' :
  try_parse_http_request_from_stream parse_head parse_uri parse_method remote_ip port s
    = (Ret (HttpRequest req), s') →
  ∃ consumed rest, stream_bytes s = consumed ++ rest ++ stream_bytes s' ∧ request_of consumed rest req.
Proof.
  intros [_ Hi]%parse_loop_spec. destruct (Hi _ eq_refl) as [_ (chunks & rest & Hs & Hr)].
  by exists chunks, rest.
Qed.

(** A content-length beyond the largest allocation panics the task of the
    connection, before anything is authenticated. *)
Theorem huge_content_length_panics s chunk s1 offset head h n :
  read_from_stream 1024 s = (Ret chunk, s1) → parse_head chunk = Complete offset head →
  offset ≤ length chunk →
  build_header_map_for_request (pr_headers head) remote_ip = Ret h →
  get_content_length_from_headers h = Some n → (isize_max < n)%N →
  try_parse_http_request_from_stream parse_head parse_uri parse_method remote_ip port s = (Panic, s1).
Proof.
  intros Hr Hp Ho Hh Hn Hbig. unfold try_parse_http_request_from_stream.
  rewrite try_parse_unfold, Hr. cbn [app]. rewrite Hp.
  unfold complete_request, Prelude.mbind at 1, mexec. rewrite Hh, Hn.
  rewrite length_take, Nat.min_l, Nat.sub_diag, N.sub_0_r by done.
  assert (reserve_fits (N.of_nat (length (drop offset chunk))) n = false) as ->; [|done].
  unfold reserve_fits, isize_max in *. apply orb_false_iff. split; [apply N.eqb_neq|apply N.leb_gt]; lia.
Qed.
End ParseLemmas.

(** ** Connections *)

Section ConnectionLemmas.
Context {H : HttpLib} {J : Json} {R : Retry} {N0 : Nom} {EW : Type} {A : E3Api EW}.
Context (parse_head : bytes → HeadStatus).
Context (parse_uri : string → option Uri) (parse_method : string → option string).
Context (canonical_reason : N → option string) (s : Surroundings).
Context (draw : nat → string * N * option N) (remote_ip : option string) (port : N).
Context (Value_null : Value) (customer_up : bool).

#[local] Notation turn := (connection_turn (EW := EW) parse_head parse_uri parse_method canonical_reason
  s draw remote_ip port Value_null customer_up).
#[local] Notation loop := (connection_loop (EW := EW) parse_head parse_uri parse_method canonical_reason
  s draw remote_ip port Value_null customer_up).
#[local] Notation serve := (serve_connection (EW := EW) parse_head parse_uri parse_method canonical_reason
  s draw remote_ip port Value_null customer_up).

(** The stream is read only by the parser. *)
Definition same_stream (w w' : ServerWorld (EW := EW)) : Prop := sw_in w' = sw_in w.

#[local] Instance same_stream_po : PreOrder same_stream.
Proof. split; [by intros w|]. intros w w1 w2 H1 H2. red. by rewrite H2, H1. Qed.

Lemma same_stream_layers {E B} (m : M LayerWorld E B) : keeps same_stream (on_layers m).
Proof. intros w r w'. unfold on_layers. destruct (m (sw_layers w)). by intros [= <- <-]. Qed.

Lemma same_stream_log cell au ts id c :
  keeps same_stream (log_non_http_trx (EW := EW) s remote_ip Value_null cell au ts id c).
Proof. unfold log_non_http_trx. keep_steps. apply same_stream_layers. Qed.

Lemma same_stream_websocket req n :
  keeps same_stream (handle_websocket_request (EW := EW) canonical_reason s draw remote_ip Value_null
    customer_up req n).
Proof.
  unfold handle_websocket_request, pipe_to_customer_process, write_all.
  keep_steps; (apply same_stream_log || apply same_stream_layers || by apply keeps_modify).
Qed.

Lemma same_stream_handle n r :
  keeps same_stream (handle_incoming (EW := EW) canonical_reason s draw remote_ip Value_null customer_up n r).
Proof.
  unfold handle_incoming, pipe_to_customer_process, write_all, shutdown_conn, count_request.
  keep_steps; (apply same_stream_websocket || apply same_stream_log || apply same_stream_layers
    || by apply keeps_modify).
Qed.

Lemma turn_unfold w : turn w =
  match try_parse_http_request_from_stream parse_head parse_uri parse_method remote_ip port (sw_in w) with
  | (Ret i, s') =>
      handle_incoming canonical_reason s draw remote_ip Value_null customer_up (sw_requests w) (Ok i)
        (mkSW s' (sw_out w) (sw_shut w) (sw_layers w) (sw_piped w) (sw_requests w))
  | (Throw e, s') =>
      handle_incoming canonical_reason s draw remote_ip Value_null customer_up (sw_requests w) (Err e)
        (mkSW s' (sw_out w) (sw_shut w) (sw_layers w) (sw_piped w) (sw_requests w))
  | (Panic, s') => (Panic, mkSW s' (sw_out w) (sw_shut w) (sw_layers w) (sw_piped w) (sw_requests w))
  end.
Proof.
  unfold connection_turn, Prelude.mbind, mget, mtry, on_stream.
  by destruct (try_parse_http_request_from_stream _ _ _ _ _ (sw_in w)) as [[]].
Qed.

(** A turn that goes on has read something. *)
Lemma turn_progress w w' : turn w = (Ret true, w') → stream_size (sw_in w') < stream_size (sw_in w).
Proof.
  rewrite turn_unfold.
  destruct (try_parse_http_request_from_stream _ _ _ _ _ (sw_in w)) as [[i|e|] s'] eqn:Ep; [| |done].
  - apply parse_loop_spec in Ep as [_ Hi]. destruct (Hi _ eq_refl) as [Hlt _].
    intros Hr%same_stream_handle. by rewrite Hr.
  - unfold handle_incoming, Prelude.mbind, shutdown_conn, mmodify, mret. by intros [=].
Qed.

Lemma loop_S f w : loop (S f) w =
  match turn w with
  | (Ret true, w1) => loop f w1
  | (Ret false, w1) => (Ret tt, w1)
  | (Throw e, w1) => (Throw e, w1)
  | (Panic, w1) => (Panic, w1)
  end.
Proof. cbn [connection_loop]. unfold Prelude.mbind. by destruct (turn w) as [[[]| |] w1]. Qed.

Lemma loop_fuel f f' w : stream_size (sw_in w) < f → stream_size (sw_in w) < f' → loop f w = loop f' w.
Proof.
  revert f' w. induction f as [|f IH]; intros [|f'] w; [lia..|]. intros Hf Hf'. rewrite !loop_S.
  destruct (turn w) as [[[]| |] w1] eqn:Et; [|done..]. apply turn_progress in Et. apply IH; lia.
Qed.

(** C29. The task of a connection ends: on every finite stream the loop is its
    own unfolding without any bound on the turns, since every turn that goes
    on has consumed a byte of the stream. *)
Theorem connection_terminates w :
  serve w =
    match turn w with
    | (Ret true, w1) => serve w1
    | (Ret false, w1) => (Ret tt, w1)
    | (Throw e, w1) => (Throw e, w1)
    | (Panic, w1) => (Panic, w1)
    end ∧
  ∀ w1, turn w = (Ret true, w1) → stream_size (sw_in w1) < stream_size (sw_in w).
Proof.
  split; [|apply turn_progress]. unfold serve_connection. rewrite loop_S.
  destruct (turn w) as [[[]| |] w1] eqn:Et; [|done..]. apply turn_progress in Et. apply loop_fuel; lia.
Qed.

(** ** The gate of a connection *)

(** Nothing more reached the user process. *)
Definition sealed (w w' : ServerWorld (EW := EW)) : Prop :=
  lw_forwarded (sw_layers w') = lw_forwarded (sw_layers w) ∧ sw_piped w' = sw_piped w.

#[local] Instance sealed_po : PreOrder sealed.
Proof. split; [by intros w|]. intros w w1 w2 [H1 H2] [H3 H4]. split; congruence. Qed.

Lemma sealed_log cell au ts id c :
  keeps sealed (log_non_http_trx (EW := EW) s remote_ip Value_null cell au ts id c).
Proof. unfold log_non_http_trx. keep_steps. intros w r w' [= <- <-]. by split. Qed.

Lemma sealed_e3 {E B} (m : M EW E B) : keeps sealed (on_layers (on_e3 m)).
Proof. intros w r w'. unfold on_layers, on_e3. destruct (m (lw_e3 (sw_layers w))). by intros [= <- <-]. Qed.

Lemma sealed_write d : keeps sealed (write_all (EW := EW) d).
Proof. by apply keeps_modify. Qed.

(** E3 accepts no key. *)
Definition rejecting : Prop := ∀ hk p (x : EW), fst (e3_authenticate hk p x) ≠ Ret tt.

Context {HL : HttpLaws H}.

Lemma sealed_service n req : rejecting → api_key_auth (s_features s) = true →
  keeps sealed (on_layers (data_plane_service (at_request s draw n) req)).
Proof.
  intros Hrej Ha w r w'. unfold on_layers.
  destruct (data_plane_service _ req (sw_layers w)) as [r1 l] eqn:Ed. intros [= <- <-].
  split; [|done]. cbn [sw_layers].
  apply stack_gate in Ed as [?|(key & hk & x & _ & _ & He)]; [done| |].
  - by destruct (Hrej _ _ _ (f_equal fst He)).
  - unfold at_request. by destruct (draw n) as [[ts id] el].
Qed.

Lemma sealed_websocket req n : rejecting →
  keeps sealed (handle_websocket_request (EW := EW) canonical_reason s draw remote_ip Value_null
    customer_up req n).
Proof.
  intros Hrej. unfold handle_websocket_request.
  destruct (init_request_context _ _ _ _ req) as [c|]; [|eauto with encl typeclass_instances].
  destruct (hm_get _ "api-key") as [key|];
    [|apply keeps_bind; [typeclasses eauto|apply sealed_log|intros _; apply sealed_write]].
  intros w r w'. unfold Prelude.mbind at 1, mtry.
  destruct (on_layers _ w) as [[[]|e|] w1] eqn:Ea.
  - exfalso. unfold on_layers, on_e3 in Ea.
    destruct (auth_request _ _ key _) as [r1 x] eqn:Er. injection Ea as -> _.
    apply auth_request_ok in Er as (hk & _ & He). by destruct (Hrej _ _ _ (f_equal fst He)).
  - apply sealed_e3 in Ea. intros Hr. transitivity w1; [done|]. revert Hr.
    apply keeps_bind; [typeclasses eauto|apply sealed_log|intros _; apply sealed_write].
  - apply sealed_e3 in Ea. by intros [= <- <-].
Qed.

Lemma sealed_handle n r : rejecting → api_key_auth (s_features s) = true →
  keeps sealed (handle_incoming (EW := EW) canonical_reason s draw remote_ip Value_null customer_up n r).
Proof.
  intros Hrej Ha. unfold handle_incoming. rewrite Ha. unfold shutdown_conn, count_request.
  keep_steps; (apply sealed_write || (by apply sealed_service) || (by apply sealed_websocket)
    || apply sealed_log || by apply keeps_modify).
Qed.

Lemma sealed_stream {B} (m : PM B) : keeps sealed (on_stream m).
Proof. intros w r w'. unfold on_stream. destruct (m (sw_in w)). by intros [= <- <-]. Qed.

Lemma sealed_loop f : rejecting → api_key_auth (s_features s) = true → keeps sealed (loop f).
Proof.
  intros Hrej Ha. induction f as [|f IH]; cbn [connection_loop]; [eauto with encl typeclass_instances|].
  apply keeps_bind; [typeclasses eauto| |intros []; eauto with encl typeclass_instances].
  apply keeps_bind; [typeclasses eauto|eauto with encl typeclass_instances|intros w].
  apply keeps_bind; [typeclasses eauto| |intros r; by apply sealed_handle].
  apply keeps_try, sealed_stream.
Qed.

(** C1. The gate of a connection: with API-key authentication on, as long as
    E3 accepts no key, nothing a client sends on a connection reaches the user
    process, neither as a request through the layers (whatever sequence of
    requests, however split into reads), nor through a WebSocket upgrade, nor
    as raw bytes. *)
Theorem unauthenticated_connection_is_sealed w r w' :
  rejecting → api_key_auth (s_features s) = true → serve w = (r, w') →
  lw_forwarded (sw_layers w') = lw_forwarded (sw_layers w) ∧ sw_piped w' = sw_piped w.
Proof. intros Hrej Ha. by apply sealed_loop. Qed.

(** A connection that does not speak HTTP is never piped to the user
    process, even without authentication: building its log entry without a URI
    fails, and the task panics before it pipes a byte. *)
Theorem non_http_connection_panics w d s' :
  try_parse_http_request_from_stream parse_head parse_uri parse_method remote_ip port (sw_in w)
    = (Ret (NonHttpRequest d), s') →
  ∃ w', serve w = (Panic, w') ∧ sw_piped w' = sw_piped w ∧ sw_out w' = sw_out w ∧ sw_shut w' = sw_shut w.
Proof.
  intros Hp. unfold serve_connection. rewrite loop_S, turn_unfold, Hp. unfold handle_incoming.
  destruct (api_key_auth (s_features s)); eexists; (split; [reflexivity|done]).
Qed.
End ConnectionLemmas.

(** ** Witnesses *)

(** A parser that knows two heads. *)
Definition sample_head (headers : list (string * bytes)) : ParsedRequest :=
  mkParsed (Some "/pay") (Some "POST") headers.

Definition toy_parse (headers : list (string * bytes)) (buffer : bytes) : HeadStatus :=
  if is_prefix (b "POST ") buffer then Complete 5 (sample_head headers)
  else if is_prefix buffer (b "POST ") then Partial
  else Invalid.

Definition toy_uri (u : string) : option Uri := Some (mkUri "/pay" None).

Definition sample_server_world (events : list Event) : ServerWorld (EW := unit) :=
  mkSW events [] false sample_world [] 0.

Definition denying_e3 : E3Api unit := {|
  e3_decrypt p := mthrow (FailedRequest 500);
  e3_crypto_decrypt p := mthrow (FailedRequest 500);
  e3_encrypt p _ := mthrow (FailedRequest 500);
  e3_authenticate k _ := mthrow (FailedRequest 401)
|}.

Definition sample_events : list Event :=
  [Data (b "PO"); Stall; Data (b "ST ab"); Data (b "cd"); Data (b "next")].

Definition sample_parse : exec ParseError Incoming * list Event :=
  try_parse_http_request_from_stream (toy_parse [("Content-Length", b "4")]) toy_uri Some None 8008
    sample_events.

Lemma sample_parse_http : ∃ req, sample_parse.1 = Ret (HttpRequest req) ∧ rq_body req = Some (b "abcd").
Proof.
  assert (match sample_parse.1 with
          | Ret (HttpRequest req) => bool_decide (rq_body req = Some (b "abcd"))
          | _ => false
          end = true) as Hc by (vm_compute; reflexivity).
  destruct sample_parse.1 as [[req|d]| |]; [|done..]. exists req. split; [done|].
  by apply bool_decide_eq_true in Hc.
Qed.

Lemma request_bytes_accounted_witness : ∃ req consumed rest,
  sample_parse = (Ret (HttpRequest req), [Data (b "next")]) ∧ rq_body req = Some (b "abcd") ∧
  b "POST abcdnext" = consumed ++ rest ++ b "next" ∧
  request_of (toy_parse [("Content-Length", b "4")]) None consumed rest req.
Proof.
  destruct sample_parse_http as (req & Hp & Hb).
  assert (sample_parse.2 = [Data (b "next")]) as Hs by (vm_compute; reflexivity).
  assert (sample_parse = (Ret (HttpRequest req), [Data (b "next")])) as E
    by (by rewrite (surjective_pairing sample_parse), Hp, Hs).
  destruct (request_bytes_accounted (toy_parse [("Content-Length", b "4")]) toy_uri Some None 8008
    sample_events req [Data (b "next")] E) as (consumed & rest & Hc & Hr).
  exists req, consumed, rest. by repeat split.
Defined.

Lemma huge_content_length_panics_witness :
  try_parse_http_request_from_stream (toy_parse [("content-length", b "9223372036854775808")]) toy_uri Some
    None 8008 [Data (b "POST ")] = (Panic, []).
Proof.
  apply (huge_content_length_panics (toy_parse [("content-length", b "9223372036854775808")]) toy_uri Some
    None 8008 [Data (b "POST ")] (b "POST ") [] 5 (sample_head [("content-length", b "9223372036854775808")])
    (hm_insert hm_empty "content-length" (b "9223372036854775808")) 9223372036854775808);
    [vm_compute; reflexivity|vm_compute; reflexivity|simpl; lia|vm_compute; reflexivity..].
Defined.

Lemma unauthenticated_connection_is_sealed_witness :
  let run := serve_connection (A := denying_e3) (toy_parse [("api-key", b "guess")]) toy_uri Some (fun _ => None)
    (sample_surroundings true) (fun _ => ("now", 7%N, Some 1%N)) None 8008 "" true
    (sample_server_world [Data (b "POST "); Data (b "POST ")]) in
  length (lw_logs (sw_layers run.2)) = 2 ∧
  lw_forwarded (sw_layers run.2) = [] ∧ sw_piped run.2 = [].
Proof.
  cbn zeta. split; [vm_compute; reflexivity|].
  eapply (unauthenticated_connection_is_sealed (A := denying_e3) (toy_parse [("api-key", b "guess")]) toy_uri
    Some (fun _ => None) (sample_surroundings true) (fun _ => ("now", 7%N, Some 1%N)) None 8008 "" true
    (sample_server_world [Data (b "POST "); Data (b "POST ")]));
    [done|reflexivity|apply surjective_pairing].
Defined.

Definition non_http_events : list Event := [Data (b "SSH-2.0")].

Lemma non_http_connection_panics_witness :
  ∃ w', serve_connection (A := sample_e3) (toy_parse []) toy_uri Some (fun _ => None)
    (sample_surroundings false) (fun _ => ("now", 7%N, Some 1%N)) None 8008 "" true
    (sample_server_world non_http_events) = (Panic, w') ∧
  sw_piped w' = [] ∧ sw_out w' = [] ∧ sw_shut w' = false.
Proof.
  assert (match try_parse_http_request_from_stream (toy_parse []) toy_uri Some None 8008 non_http_events with
          | (Ret (NonHttpRequest d), s') => bool_decide (s' = [] ∧ d = b "SSH-2.0")
          | _ => false
          end = true) as Hc by (vm_compute; reflexivity).
  destruct (try_parse_http_request_from_stream (toy_parse []) toy_uri Some None 8008 non_http_events)
    as [[[req|d]| |] s'] eqn:E; try discriminate Hc.
  exact (non_http_connection_panics (A := sample_e3) (toy_parse []) toy_uri Some (fun _ => None)
    (sample_surroundings false) (fun _ => ("now", 7%N, Some 1%N)) None 8008 "" true
    (sample_server_world non_http_events) d s' E).
Defined.
