(* ===== verification/Config.v ===== *)
(** * Configuration server and client

    The control plane's configuration server (control-plane/src/config_server.rs,
    configuration.rs, acme_account_details.rs), the client the data plane
    reaches it with (data-plane/src/config_client.rs), and the routes and
    payloads they share (shared/src/server/config_server.rs). The JSON of the
    payloads, the object storage, the provisioner and OpenSSL are parameters. *)
From Stdlib Require Import Ascii String NArith ZArith Lia.
From stdpp Require Import base gmap strings list pretty.
From S2P Require Import Prelude Libs Net Egress Context Logging Jws CpError.
#[local] Open Scope string_scope.
#[local] Open Scope list_scope.
#[local] Open Scope enclave_scope.

(** ** Routes *)

Inductive ConfigServerPath : Type :=
| GetCertToken | PostTrxLogs | GetE3Token | Storage | AcmeSign | AcmeJWK | Time.

(** [impl FromStr for ConfigServerPath] *)
Definition ConfigServerPath_from_str (input : string) : option ConfigServerPath :=
  if String.eqb input "/cert/token" then Some GetCertToken
  else if String.eqb input "/e3/token" then Some GetE3Token
  else if String.eqb input "/trx/logs" then Some PostTrxLogs
  else if String.eqb input "/storage" then Some Storage
  else if String.eqb input "/acme/sign" then Some AcmeSign
  else if String.eqb input "/acme/jwk" then Some AcmeJWK
  else if String.eqb input "/time" then Some Time
  else None.

(** [impl Display for ConfigServerPath] *)
Definition ConfigServerPath_display (p : ConfigServerPath) : string :=
  match p with
  | GetCertToken => "/cert/token"
  | GetE3Token => "/e3/token"
  | PostTrxLogs => "/trx/logs"
  | Storage => "/storage"
  | AcmeSign => "/acme/sign"
  | AcmeJWK => "/acme/jwk"
  | Time => "/time"
  end.

Lemma path_roundtrip p : ConfigServerPath_from_str (ConfigServerPath_display p) = Some p.
Proof. by destruct p. Qed.

(** ** Payloads *)

Record GetCertTokenResponse : Type := mkCertToken { ct_token : string }.
Record GetE3TokenResponse : Type := mkE3Token { et_token : string; et_token_id : string }.
Record Secret : Type := mkSecret { secret_name : string; secret_value : string }.
Record GetClockSyncResponse : Type := mkClock { seconds : Z; milliseconds : Z }.
Record PostTrxLogsRequest : Type := mkPostLogs { trx_logs : list TrxContext }.
Record GetObjectRequest : Type := mkGetObject { go_key : string }.
Record GetObjectResponse : Type := mkObject { go_body : string }.
Record PutObjectRequest : Type := mkPutObject { po_key : string; po_object : string }.
Record DeleteObjectRequest : Type := mkDeleteObject { do_key : string }.
Inductive SignatureType : Type := HMAC | ECDSA.
Record JwsRequest : Type := mkJwsRequest {
  jr_signature_type : SignatureType;
  jr_url : string;
  jr_nonce : option string;
  jr_payload : string;
  jr_account_id : option string
}.

(** [serde_json] on a payload: what is written reads back. *)
Class Codec (T : Type) : Type := {
  enc : T → bytes;
  dec : bytes → option T;
  dec_enc x : dec (enc x) = Some x
}.

(** A message: method, path, status, body ([None] fails while it is read). *)
Record CReq : Type := mkCReq { cq_method : string; cq_path : string; cq_body : option bytes }.
Record CRes : Type := mkCRes { cs_status : N; cs_content_type : string; cs_body : option bytes }.

(** ** Configuration of the control plane *)

Record CpContext : Type := mkCp {
  cp_uuid : string;
  cp_version : string;
  cp_name : string;
  cp_app_uuid : string;
  cp_team_uuid : string
}.

(** [EnclaveContext::from_env_vars]; a missing variable panics. *)
Definition from_env_vars (env : string → option string) : option CpContext :=
  v_uuid ← env "CAGE_UUID";
  v_version ← env "EV_CAGE_VERSION_ID";
  v_name ← env "EV_CAGE_NAME";
  v_app ← env "EV_APP_UUID";
  v_team ← env "EV_TEAM_UUID";
  Some (mkCp v_uuid v_version v_name v_app v_team).

Definition cp_hyphenated_app_uuid (c : CpContext) : string := replace_char (cp_app_uuid c) "_" "-".

Definition get_namespace_string (c : CpContext) : string :=
  cp_hyphenated_app_uuid c +:+ "/" +:+ cp_name c.

Definition get_trusted_cert_base_domains (staging : bool) : list string :=
  ["cage.evervault." +:+ tld staging; "enclave.evervault." +:+ tld staging].

Inductive Environment : Type := Development | Staging | Production.

Definition get_rust_env (env : string → option string) : Environment :=
  match env "RUST_ENV" with
  | Some e => if String.eqb e "staging" then Staging
              else if String.eqb e "production" then Production else Development
  | None => Development
  end.

Definition get_cert_provisoner_host (env : string → option string) : string :=
  match get_rust_env env with
  | Staging | Production => "provisioner.cages.internal"
  | Development => "localhost"
  end.

(** ** The server *)

(** [StorageClientInterface], a crate outside the repository. *)
Class StorageClient (W : Type) : Type := {
  st_get : string → M W string (option string);
  st_put : string → string → M W string unit;
  st_delete : string → M W string unit
}.

Section Server.
Context {SW PW : Type} {ST : StorageClient SW} {O : OpenSsl}.
Context `{Codec GetCertTokenResponse, Codec GetE3TokenResponse, Codec GetClockSyncResponse,
  Codec PostTrxLogsRequest, Codec GetObjectRequest, Codec GetObjectResponse, Codec PutObjectRequest,
  Codec DeleteObjectRequest, Codec JwsRequest, Codec JwsResult, Codec Jwk}.

Record CpWorld : Type := mkCpWorld {
  w_store : SW;
  w_provisioner : PW;
  (** the lines printed by [record_trx] *)
  w_printed : list string
}.

Definition CM : Type → Type := M CpWorld ServerError.

Definition on_store {A} (m : M SW string A) : M CpWorld string A := fun w =>
  let '(r, x) := m (w_store w) in (r, mkCpWorld x (w_provisioner w) (w_printed w)).

Definition build_success_response (body : option bytes) : CRes :=
  mkCRes 200 "application/json" (Some (default [] body)).
Definition build_bad_request_response : CRes := mkCRes 404 "application/json" (Some []).
Definition build_error_response (body_msg : string) : CRes :=
  mkCRes 500 "application/json" (Some (b body_msg)).

Definition namespace_key (key : string) (c : CpContext) : string :=
  get_namespace_string c +:+ "/" +:+ key.

Definition parse_request {T} {C : Codec T} (req : CReq) : result ServerError T :=
  let? body := ok_or (cq_body req) SeHyper in ok_or (dec body) SeJson.

Context (ctx : CpContext).

Definition handle_acme_storage_get_request (req : CReq) : CM CRes :=
  match parse_request (T := GetObjectRequest) req with
  | Ok request_body =>
      let! r := mtry (on_store (st_get (namespace_key (go_key request_body) ctx))) in
      match r with
      | Ok (Some object) => mret (mkCRes 200 "application/json" (Some (enc (mkObject object))))
      | Ok None => mret build_bad_request_response
      | Err _ => mret (build_error_response "Failed to get object in storage client")
      end
  | Err _ => mret (build_error_response "Failed to parse get object request from data plane")
  end.

Definition handle_acme_storage_put_request (req : CReq) : CM CRes :=
  match parse_request (T := PutObjectRequest) req with
  | Ok request_body =>
      let! r := mtry (on_store (st_put (namespace_key (po_key request_body) ctx) (po_object request_body))) in
      match r with
      | Ok _ => mret (build_success_response None)
      | Err _ => mret (build_error_response "Failed to put object in storage client")
      end
  | Err _ => mret (build_error_response "Failed to parse put object request from data plane")
  end.

Definition handle_acme_storage_delete_request (req : CReq) : CM CRes :=
  match parse_request (T := DeleteObjectRequest) req with
  | Ok request_body =>
      let! r := mtry (on_store (st_delete (namespace_key (do_key request_body) ctx))) in
      match r with
      | Ok _ => mret (build_success_response None)
      | Err _ => mret (build_error_response "Failed to delete object in storage client")
      end
  | Err _ => mret (build_error_response "Failed to parse delete object request from data plane")
  end.

Definition validate_trx_log (trx_log : TrxContext) : bool :=
  String.eqb (t_resource_uuid trx_log) (cp_uuid ctx)
  && String.eqb (t_resource_name trx_log) (cp_name ctx)
  && String.eqb (t_team_uuid trx_log) (cp_team_uuid ctx)
  && String.eqb (t_app_uuid trx_log) (cp_app_uuid ctx).

Context (trx_json : TrxContext → option string).

(** The lines of the valid logs. *)
Definition printed_lines (logs : list TrxContext) : list string :=
  omap (fun trx => if validate_trx_log trx then record_trx trx_json trx else None) logs.

Definition handle_post_trx_logs_request (req : CReq) : CM CRes :=
  match parse_request (T := PostTrxLogsRequest) req with
  | Ok log_body =>
      mmodify (fun w => mkCpWorld (w_store w) (w_provisioner w)
        (w_printed w ++ printed_lines (trx_logs log_body))) ;!
      mret (build_success_response None)
  | Err _ => mret (build_error_response "Failed to parse log body from data plane")
  end.

(** *** Tokens and time *)

Inductive TokenType : Type := Cert (p : ConfigServerPath) | E3Tok (p : ConfigServerPath).

(** The provisioner's replies. *)
Context (prov_cert_token : M PW string GetCertTokenResponse) (prov_e3_token : M PW string GetE3TokenResponse).
Context (token_error : TokenType → string → string).

Definition on_prov {A} (m : M PW string A) : M CpWorld string A := fun w =>
  let '(r, x) := m (w_provisioner w) in (r, mkCpWorld (w_store w) x (w_printed w)).

Definition get_token (token_type : TokenType) : M CpWorld string CRes :=
  let! body :=
    match token_type with
    | Cert _ => let! t := on_prov prov_cert_token in mret (enc (mkCertToken (ct_token t)))
    | E3Tok _ => let! t := on_prov prov_e3_token in mret (enc (mkE3Token (et_token t) (et_token_id t)))
    end in
  mret (mkCRes 200 "application/json" (Some body)).

Definition handle_token_request (token_type : TokenType) : CM CRes :=
  let! r := mtry (get_token token_type) in
  match r with
  | Ok res => mret res
  | Err e => mret (build_error_response (token_error token_type e))
  end.

(** [u64 as i64] *)
Definition as_i64 (n : N) : Z :=
  let z := Z.of_N n in if (z <? 2 ^ 63)%Z then z else (z - 2 ^ 64)%Z.

(** The clock since the epoch in seconds and milliseconds, or the error. *)
Context (now : result string (N * N)).

Definition handle_time_sync_request : CM CRes :=
  match now with
  | Ok (secs, millis) =>
      mret (build_success_response (Some (enc (mkClock (as_i64 secs) (Z.of_N millis)))))
  | Err e => mret (build_error_response ("Failed to get time, err: " +:+ e))
  end.

(** *** Signing *)

Record ExternalAccountBinding : Type := mkEab { key_id : string; private_key : PKey }.
Record AcmeAccountDetails : Type := mkAccount {
  account_ec_key : PKey;
  eab_config : option ExternalAccountBinding
}.

Context (account : AcmeAccountDetails) (staging : bool).
Context (b64 : bytes → string) (header_json : JwsHeader → option string).
Context (parse_order : string → option NewOrderPayload).
Context (display_acme : AcmeError → string).

Definition valid_order_identifiers (payload : NewOrderPayload) : bool :=
  let valid_domains := (fun base_domain =>
    cp_name ctx +:+ "." +:+ cp_hyphenated_app_uuid ctx +:+ "." +:+ base_domain)
    <$> get_trusted_cert_base_domains staging in
  forallb (fun i => str_mem (id_value i) valid_domains) (identifiers payload).

Definition is_order_url (url : string) : bool := contains url "/newOrder" || contains url "/new-order".

Definition sign_acme_payload (req : CReq) : CM CRes :=
  match parse_request (T := JwsRequest) req with
  | Ok jws_request =>
      let '(key, kid) :=
        match jr_signature_type jws_request with
        | HMAC => (private_key <$> eab_config account, key_id <$> eab_config account)
        | ECDSA => (Some (account_ec_key account), jr_account_id jws_request)
        end in
      let signed : CM CRes :=
        match jws b64 header_json (jr_url jws_request) (jr_nonce jws_request) (jr_payload jws_request) key kid with
        | Ret j => mret (mkCRes 200 "application/json" (Some (enc (JwsResponse_from j))))
        | Throw _ => mret (build_error_response "Failed to sign JWS request")
        | Panic => mpanic
        end in
      if is_order_url (jr_url jws_request) then
        let! order_payload := mlift (ok_or (parse_order (jr_payload jws_request)) SeJson) in
        if valid_order_identifiers order_payload then signed else mret build_bad_request_response
      else signed
  | Err _ => mret (build_error_response "Failed to parse signing request from data plane")
  end.

Context (display_server : ServerError → string).

Definition handle_acme_signing_request (req : CReq) : CM CRes :=
  let! r := mtry (sign_acme_payload req) in
  match r with
  | Ok response => mret response
  | Err err => mret (build_error_response ("Failed to sign JWS request. Err: " +:+ display_server err))
  end.

Definition get_acme_jwk : result AcmeError CRes :=
  let? jwk := Jwk_new b64 (account_ec_key account) in
  Ok (mkCRes 200 "application/json" (Some (enc (to_response jwk)))).

Definition handle_acme_jwk_request : CM CRes :=
  match get_acme_jwk with
  | Ok response => mret response
  | Err err => mret (build_error_response ("Failed to get JWK. Err: " +:+ display_acme err))
  end.

Definition handle_incoming_request (req : CReq) : CM CRes :=
  match ConfigServerPath_from_str (cq_path req) with
  | Some GetCertToken => handle_token_request (Cert GetCertToken)
  | Some GetE3Token => handle_token_request (E3Tok GetE3Token)
  | Some PostTrxLogs => handle_post_trx_logs_request req
  | Some AcmeSign => handle_acme_signing_request req
  | Some AcmeJWK => handle_acme_jwk_request
  | Some Storage =>
      if String.eqb (cq_method req) "GET" then handle_acme_storage_get_request req
      else if String.eqb (cq_method req) "PUT" then handle_acme_storage_put_request req
      else if String.eqb (cq_method req) "DELETE" then handle_acme_storage_delete_request req
      else mret build_bad_request_response
  | Some Time => handle_time_sync_request
  | None => mret build_bad_request_response
  end.
End Server.

(** ** The client (data-plane/src/config_client.rs) *)

Inductive ConfigError : Type :=
| CfgHyper
| CfgUtf8
| CfgServer (msg : string).

Definition ENCLAVE_CONFIG_PORT : N := 7776.

Definition get_uri (path : ConfigServerPath) : string :=
  "http://127.0.0.1:" +:+ pretty ENCLAVE_CONFIG_PORT +:+ ConfigServerPath_display path.

Section Client.
Context {W : Type} {R : Retry}.
Context `{Codec GetCertTokenResponse, Codec GetE3TokenResponse, Codec GetClockSyncResponse,
  Codec PostTrxLogsRequest, Codec GetObjectRequest, Codec GetObjectResponse, Codec PutObjectRequest,
  Codec DeleteObjectRequest, Codec JwsRequest, Codec JwsResult, Codec Jwk}.
(** Connecting and one exchange. *)
Context (exchange : CReq → M W ConfigError CRes).

(** The request line carries the path of [get_uri]. *)
Definition cfg_send (path : ConfigServerPath) (method : string) (payload : bytes) : M W ConfigError CRes :=
  exchange (mkCReq method (ConfigServerPath_display path) (Some payload)).

Definition parse_response {T} {C : Codec T} (res : CRes) : M W ConfigError T :=
  let! body := mlift (ok_or (cs_body res) CfgHyper) in
  mlift (ok_or (dec body) (CfgServer "Error parsing response from config server")).

Definition parse_response_body_to_string (res : CRes) : M W ConfigError string :=
  let! body := mlift (ok_or (cs_body res) CfgHyper) in
  mlift (ok_or (from_utf8 body) CfgUtf8).

Definition status_success (status : N) : bool := ((200 <=? status) && (status <? 300))%N.

Definition get_e3_token : M W ConfigError GetE3TokenResponse :=
  let! response := cfg_send GetE3Token "GET" [] in
  if status_success (cs_status response) then parse_response response
  else mthrow (CfgServer ("Unsuccessful response from config server: " +:+ pretty (cs_status response))).

Definition get_cert_token : M W ConfigError GetCertTokenResponse :=
  let! response := cfg_send GetCertToken "GET" [] in
  if status_success (cs_status response) then parse_response response
  else mthrow (CfgServer ("Unsuccessful response from config server: " +:+ pretty (cs_status response))).

Definition post_trx_logs (logs : list TrxContext) : M W ConfigError unit :=
  let! response := cfg_send PostTrxLogs "POST" (enc (mkPostLogs logs)) in
  if (cs_status response =? 200)%N then mret tt
  else mthrow (CfgServer "Invalid Response code returned when sending trx logs to control plane ").

Definition client_jws (signature_type : SignatureType) (url : string) (nonce : option string)
    (payload : string) (account_id : option string) : M W ConfigError JwsResult :=
  let! response := cfg_send AcmeSign "GET" (enc (mkJwsRequest signature_type url nonce payload account_id)) in
  if (cs_status response =? 200)%N then parse_response response
  else
    let! body := parse_response_body_to_string response in
    mthrow (CfgServer ("Error sending jws request to control plane. Response Code: "
      +:+ pretty (cs_status response) +:+ ". Msg: " +:+ body)).

Definition client_jwk : M W ConfigError Jwk :=
  let! response := cfg_send AcmeJWK "POST" [] in
  if (cs_status response =? 200)%N then parse_response response
  else
    let! body := parse_response_body_to_string response in
    mthrow (CfgServer ("Error sending jwk request to control plane. Response Code: "
      +:+ pretty (cs_status response) +:+ ". Msg: " +:+ body)).

Definition base_get_object (key : string) : M W ConfigError (option GetObjectResponse) :=
  let! response := cfg_send Storage "GET" (enc (mkGetObject key)) in
  if (cs_status response =? 200)%N then let! result := parse_response response in mret (Some result)
  else if (cs_status response =? 404)%N then mret None
  else mthrow (CfgServer "Invalid Response code returned when sending getObject request to control plane").

Definition base_put_object (key object : string) : M W ConfigError unit :=
  let! response := cfg_send Storage "PUT" (enc (mkPutObject key object)) in
  if (cs_status response =? 200)%N then mret tt
  else mthrow (CfgServer "Invalid Response code returned when sending putObject request to control plane ").

Definition base_delete_object (key : string) : M W ConfigError unit :=
  let! response := cfg_send Storage "DELETE" (enc (mkDeleteObject key)) in
  if (cs_status response =? 200)%N then mret tt
  else mthrow (CfgServer "Invalid Response code returned when sending deleteObject request to control plane").

Definition base_get_time_from_host : M W ConfigError GetClockSyncResponse :=
  let! response := cfg_send Time "GET" [] in
  if (cs_status response =? 200)%N then parse_response response
  else mthrow (CfgServer "Invalid Response code returned when sending time request to control plane").

Definition get_object (key : string) : M W ConfigError (option GetObjectResponse) :=
  spawn 2 (base_get_object key).
Definition put_object (key object : string) : M W ConfigError unit := spawn 2 (base_put_object key object).
Definition delete_object (key : string) : M W ConfigError unit := spawn 2 (base_delete_object key).
Definition get_time_from_host : M W ConfigError GetClockSyncResponse := spawn 2 base_get_time_from_host.
End Client.

(** What the rest of the data plane relies on
    ([trait StorageConfigClientInterface]). *)
Class StorageConfigClient (W E : Type) : Type := {
  sc_get_object : string → M W E (option GetObjectResponse);
  sc_put_object : string → string → M W E unit;
  sc_delete_object : string → M W E unit;
  sc_get_time : M W E GetClockSyncResponse
}.

(** ** Storage *)

(** A store of objects that may fail: a failed write may or may not have
    happened, a read never changes anything. *)
Class StorageLaws {W : Type} (ST : StorageClient W) : Type := {
  st_view : W → gmap string string;
  st_get_law k w r w' : st_get k w = (r, w') →
    st_view w' = st_view w ∧ r ≠ Panic ∧ ∀ o, r = Ret o → o = st_view w !! k;
  st_put_law k v w r w' : st_put k v w = (r, w') → r ≠ Panic ∧
    (st_view w' = <[k := v]> (st_view w) ∨ r ≠ Ret tt ∧ st_view w' = st_view w);
  st_delete_law k w r w' : st_delete k w = (r, w') → r ≠ Panic ∧
    (st_view w' = delete k (st_view w) ∨ r ≠ Ret tt ∧ st_view w' = st_view w)
}.

(** The store answers. *)
Definition reliable {W : Type} (ST : StorageClient W) : Prop :=
  (∀ k w e, fst (st_get k w) ≠ Throw e) ∧ (∀ k v w e, fst (st_put k v w) ≠ Throw e).

Section EndToEnd.
Context {SW PW : Type} {ST : StorageClient SW} {SL : StorageLaws ST} {O : OpenSsl} {R : Retry} {RL : RetryLaws R}.
Context `{Codec GetCertTokenResponse, Codec GetE3TokenResponse, Codec GetClockSyncResponse,
  Codec PostTrxLogsRequest, Codec GetObjectRequest, Codec GetObjectResponse, Codec PutObjectRequest,
  Codec DeleteObjectRequest, Codec JwsRequest, Codec JwsResult, Codec Jwk}.
Context (trx_json : TrxContext → option string).
Context (prov_cert_token : M PW string GetCertTokenResponse) (prov_e3_token : M PW string GetE3TokenResponse).
Context (token_error : TokenType → string → string) (now : result string (N * N)).
Context (account : AcmeAccountDetails) (staging : bool) (b64 : bytes → string).
Context (header_json : JwsHeader → option string) (parse_order : string → option NewOrderPayload).
Context (display_acme : AcmeError → string) (display_server : ServerError → string).

#[local] Notation World := (CpWorld (SW := SW) (PW := PW)).

#[local] Notation handler ctx := (handle_incoming_request (SW := SW) (PW := PW) ctx trx_json prov_cert_token
  prov_e3_token token_error now account staging b64 header_json parse_order display_acme display_server).

(** The client's exchange with the server: a handler that fails closes the
    connection. *)
Definition to_server (ctx : CpContext) (req : CReq) : M World ConfigError CRes := fun w =>
  match handler ctx req w with
  | (Ret res, w') => (Ret res, w')
  | (_, w') => (Throw CfgHyper, w')
  end.

Definition objects (w : World) : gmap string string := st_view (w_store w).

(** *** Namespaces *)

Lemma namespace_key_split c k :
  no_char "/" (cp_app_uuid c) = true → no_char "/" (cp_name c) = true →
  split "/" (namespace_key k c) = cp_hyphenated_app_uuid c :: cp_name c :: split "/" k.
Proof.
  intros Ha Hn.
  assert (namespace_key k c = cp_hyphenated_app_uuid c +:+ String "/" (cp_name c +:+ String "/" k)) as ->.
  { unfold namespace_key, get_namespace_string. by rewrite <-str_app_assoc. }
  rewrite split_app; [by rewrite split_app|].
  unfold cp_hyphenated_app_uuid. clear Hn. induction (cp_app_uuid c) as [|a t IH]; [done|].
  cbn [no_char replace_char] in *. apply andb_true_iff in Ha as [Ha Ht].
  rewrite IH, andb_true_r by done. by destruct (Ascii.eqb a "_").
Qed.

Definition well_named (c : CpContext) : Prop :=
  no_char "/" (cp_app_uuid c) = true ∧ no_char "/" (cp_name c) = true.

Lemma namespace_key_ne c c' k k' : well_named c → well_named c' →
  get_namespace_string c ≠ get_namespace_string c' → namespace_key k c ≠ namespace_key k' c'.
Proof.
  intros [Ha Hn] [Ha' Hn'] Hne E. apply Hne.
  apply (f_equal (split "/")) in E. rewrite !namespace_key_split in E by done.
  injection E as E1 E2 _. unfold get_namespace_string. by rewrite E1, E2.
Qed.

(** What an operation on the store does to the objects. *)
Lemma on_store_inv {A} (m : M SW string A) (w : World) r w' : on_store m w = (r, w') →
  m (w_store w) = (r, w_store w') ∧ w_printed w' = w_printed w.
Proof. unfold on_store. destruct (m (w_store w)). by intros [= <- <-]. Qed.

(** The objects of a namespace stay as they are. *)
Definition namespace_kept (c : CpContext) (w w' : World) : Prop :=
  ∀ k, objects w' !! namespace_key k c = objects w !! namespace_key k c.

#[local] Instance namespace_kept_po c : PreOrder (namespace_kept c).
Proof. split; [by intros w k|]. intros w w1 w2 Hl Hr k. by rewrite Hr, Hl. Qed.

Section Isolation.
Context (c c' : CpContext) (Hc : well_named c) (Hc' : well_named c')
  (Hne : get_namespace_string c ≠ get_namespace_string c').

Lemma kept_get k : keeps (namespace_kept c') (on_store (st_get (namespace_key k c))).
Proof.
  intros w r w' [Hr _]%on_store_inv. apply st_get_law in Hr as (Hv & _ & _).
  intros k'. unfold objects. by rewrite Hv.
Qed.

Lemma kept_put k v : keeps (namespace_kept c') (on_store (st_put (namespace_key k c) v)).
Proof.
  intros w r w' [Hr _]%on_store_inv. apply st_put_law in Hr as [_ [Hv|[_ Hv]]]; intros k';
    unfold objects; rewrite Hv; [|done]. apply lookup_insert_ne. by apply namespace_key_ne.
Qed.

Lemma kept_delete k : keeps (namespace_kept c') (on_store (st_delete (namespace_key k c))).
Proof.
  intros w r w' [Hr _]%on_store_inv. apply st_delete_law in Hr as [_ [Hv|[_ Hv]]]; intros k';
    unfold objects; rewrite Hv; [|done]. apply lookup_delete_ne. by apply namespace_key_ne.
Qed.

Lemma kept_prov {A} (m : M PW string A) : keeps (namespace_kept c') (on_prov m).
Proof. intros w r w'. unfold on_prov. destruct (m (w_provisioner w)). by intros [= <- <-] k. Qed.

Lemma kept_sign req : keeps (namespace_kept c')
  (sign_acme_payload (SW := SW) (PW := PW) c account staging b64 header_json parse_order req).
Proof. unfold sign_acme_payload. keep_steps. Qed.

Lemma kept_handler req : keeps (namespace_kept c') (handler c req).
Proof.
  unfold handle_incoming_request, handle_token_request, get_token, handle_post_trx_logs_request,
    handle_acme_signing_request, handle_acme_jwk_request, handle_acme_storage_get_request,
    handle_acme_storage_put_request, handle_acme_storage_delete_request, handle_time_sync_request.
  keep_steps; (apply kept_prov || apply kept_sign || apply kept_get || apply kept_put || apply kept_delete
    || by apply keeps_modify).
Qed.
End Isolation.

(** C21. Enclaves are isolated in the store: whatever request the server of one
    enclave handles, the objects in the namespace of another are untouched. *)
Theorem storage_namespaces_isolated c c' req w r w' :
  well_named c → well_named c' → get_namespace_string c ≠ get_namespace_string c' →
  handler c req w = (r, w') →
  ∀ k, objects w' !! namespace_key k c' = objects w !! namespace_key k c'.
Proof. intros Hc Hc' Hne Hr. change (namespace_kept c' w w'). by apply (kept_handler c c' Hc Hc' Hne req w r). Qed.

(** *** What the client stores it gets back *)

Context (ctx : CpContext).

Lemma base_put_run k v w r w' : base_put_object (to_server ctx) k v w = (r, w') →
  r = Ret tt → objects w' !! namespace_key k ctx = Some v.
Proof.
  intros Hr ->. revert Hr. unfold base_put_object, cfg_send, to_server, Prelude.mbind at 1.
  unfold handle_incoming_request. cbn [cq_path cq_method ConfigServerPath_display ConfigServerPath_from_str].
  change (ConfigServerPath_from_str "/storage") with (Some Storage).
  change (String.eqb "PUT" "GET") with false. change (String.eqb "PUT" "PUT") with true.
  unfold handle_acme_storage_put_request, parse_request. cbn [cq_body ok_or rbind]. rewrite dec_enc.
  cbn [ok_or po_key po_object]. unfold Prelude.mbind, mtry.
  destruct (on_store _ w) as [[[]|e|] w1] eqn:Eo; [| |done].
  - apply on_store_inv in Eo as [Eo _]. apply st_put_law in Eo as [_ [Hv|[[] _]]]; [|done].
    intros [= <-]. unfold objects. rewrite Hv. by rewrite lookup_insert_eq.
  - by intros [=].
Qed.

Lemma base_get_run k w r w' : base_get_object (to_server ctx) k w = (r, w') →
  objects w' = objects w ∧ ∀ o, r = Ret o → o = mkObject <$> objects w !! namespace_key k ctx.
Proof.
  unfold base_get_object, cfg_send, to_server, Prelude.mbind at 1.
  unfold handle_incoming_request. cbn [cq_path cq_method ConfigServerPath_display].
  change (ConfigServerPath_from_str "/storage") with (Some Storage).
  change (String.eqb "GET" "GET") with true.
  unfold handle_acme_storage_get_request, parse_request. cbn [cq_body ok_or rbind]. rewrite dec_enc.
  cbn [ok_or go_key]. unfold Prelude.mbind at 1, mtry.
  destruct (on_store _ w) as [[o|e|] w1] eqn:Eo; apply on_store_inv in Eo as [Eo _];
    apply st_get_law in Eo as (Hv & Hp & Ho); [| |done].
  - specialize (Ho o eq_refl). destruct o as [o|]; cbn [mret cs_status].
    + change ((200 =? 200)%N) with true. unfold parse_response, Prelude.mbind. cbn [cs_body ok_or mlift mret].
      rewrite dec_enc. cbn [ok_or mlift mret]. intros [= <- <-]. unfold objects. split; [done|].
      intros o' [= <-]. by rewrite <-Ho.
    + intros [= <- <-]. unfold objects. split; [done|]. intros o' [= <-]. by rewrite <-Ho.
  - intros [= <- <-]. by unfold objects.
Qed.

Lemma get_object_run k w r w' : get_object (to_server ctx) k w = (r, w') →
  objects w' = objects w ∧ ∀ o, r = Ret o → o = mkObject <$> objects w !! namespace_key k ctx.
Proof.
  unfold get_object. intros Hr.
  assert (objects w' = objects w) as Hv.
  { refine (spawn_keeps _ (fun w0 => objects w0 = objects w) 2 w r w' _ eq_refl Hr).
    intros w0 r0 w1 <- [Hv _]%base_get_run. done. }
  split; [done|]. intros o ->. apply spawn_ret in Hr as [w0 Hr].
  apply base_get_run in Hr as [Hv0 Ho]. by rewrite (Ho o eq_refl), <-Hv0, Hv.
Qed.

Lemma put_object_run k v w w' : put_object (to_server ctx) k v w = (Ret tt, w') →
  objects w' !! namespace_key k ctx = Some v.
Proof. unfold put_object. intros [w0 Hr]%spawn_ret. by apply base_put_run in Hr. Qed.

Lemma put_object_reliable k v w : reliable ST → ∃ w', put_object (to_server ctx) k v w = (Ret tt, w').
Proof.
  intros [_ Hp]. unfold put_object. rewrite spawn_more.
  unfold base_put_object, cfg_send, to_server, Prelude.mbind at 1.
  unfold handle_incoming_request. cbn [cq_path cq_method ConfigServerPath_display].
  change (ConfigServerPath_from_str "/storage") with (Some Storage).
  change (String.eqb "PUT" "GET") with false. change (String.eqb "PUT" "PUT") with true.
  unfold handle_acme_storage_put_request, parse_request. cbn [cq_body ok_or rbind]. rewrite dec_enc.
  cbn [ok_or po_key po_object]. unfold Prelude.mbind, mtry, on_store.
  specialize (Hp (namespace_key k ctx) v (w_store w)).
  destruct (st_put (namespace_key k ctx) v (w_store w)) as [[[]|e|] w1] eqn:Ep.
  - by eexists.
  - by destruct (Hp e).
  - by apply st_put_law in Ep as [? _].
Qed.

Lemma get_object_reliable k w : reliable ST → ∃ o w', get_object (to_server ctx) k w = (Ret o, w').
Proof.
  intros [Hg _]. unfold get_object. rewrite spawn_more.
  unfold base_get_object, cfg_send, to_server, Prelude.mbind at 1.
  unfold handle_incoming_request. cbn [cq_path cq_method ConfigServerPath_display].
  change (ConfigServerPath_from_str "/storage") with (Some Storage).
  change (String.eqb "GET" "GET") with true.
  unfold handle_acme_storage_get_request, parse_request. cbn [cq_body ok_or rbind]. rewrite dec_enc.
  cbn [ok_or go_key]. unfold Prelude.mbind at 1, mtry, on_store.
  specialize (Hg (namespace_key k ctx) (w_store w)).
  destruct (st_get (namespace_key k ctx) (w_store w)) as [[o|e|] w1] eqn:Ep.
  - destruct o as [o|]; [|by do 2 eexists]. cbn [mret cs_status].
    change ((200 =? 200)%N) with true. unfold parse_response, Prelude.mbind. cbn [cs_body ok_or mlift mret].
    rewrite dec_enc. by do 2 eexists.
  - by destruct (Hg e).
  - by apply st_get_law in Ep as (_ & ? & _).
Qed.

(** C20. What the data plane stores it gets back, through the client, the
    server, the namespacing and the retries: a successful [put_object]
    followed by a [get_object] that answers yields the object just put (also
    when attempts failed in between); and with a store that answers, both
    return. *)
Theorem storage_roundtrip k v w :
  (∀ w1 o w2, put_object (to_server ctx) k v w = (Ret tt, w1) →
    get_object (to_server ctx) k w1 = (Ret o, w2) → o = Some (mkObject v)) ∧
  (reliable ST → ∃ w1 w2, put_object (to_server ctx) k v w = (Ret tt, w1) ∧
    get_object (to_server ctx) k w1 = (Ret (Some (mkObject v)), w2)).
Proof.
  assert (Hrt : ∀ w1 o w2, put_object (to_server ctx) k v w = (Ret tt, w1) →
    get_object (to_server ctx) k w1 = (Ret o, w2) → o = Some (mkObject v)).
  { intros w1 o w2 Hp%put_object_run [_ Hg]%get_object_run. by rewrite (Hg o eq_refl), Hp. }
  split; [done|]. intros Hrel. destruct (put_object_reliable k v w Hrel) as [w1 Hp].
  destruct (get_object_reliable k w1 Hrel) as (o & w2 & Hg). exists w1, w2. split; [done|].
  by rewrite Hg, (Hrt _ _ _ Hp Hg).
Qed.

(** *** Signing *)

(** The data plane's name for the same enclave. *)
Definition as_data_plane (c : CpContext) : EnclaveContext :=
  mkContext (cp_team_uuid c) (cp_app_uuid c) (cp_uuid c) (cp_name c).

Lemma valid_order_spec o : valid_order_identifiers ctx staging o = true ↔
  Forall (fun i => id_value i ∈ get_trusted_cert_domains staging (as_data_plane ctx)) (identifiers o).
Proof.
  unfold valid_order_identifiers. rewrite Forall_forall. unfold is_true.
  rewrite forallb_forall. setoid_rewrite <-list_elem_of_In.
  split; intros Hi i Hin; apply str_mem_spec; apply Hi, Hin.
Qed.

(** C19. The account key signs certificate orders only for this enclave: when
    the server answers 200 to a signing request whose URL is that of a new
    order, the payload is an order all of whose identifiers are among the
    domains the data plane derives from the enclave's own name and app. *)
Theorem orders_signed_only_for_own_domains req jr w res w' :
  parse_request (T := JwsRequest) req = Ok jr → is_order_url (jr_url jr) = true →
  cq_path req = ConfigServerPath_display AcmeSign →
  handler ctx req w = (Ret res, w') → cs_status res = 200%N →
  ∃ o, parse_order (jr_payload jr) = Some o ∧
    Forall (fun i => id_value i ∈ get_trusted_cert_domains staging (as_data_plane ctx)) (identifiers o).
Proof.
  intros Hp Hu Hpath. unfold handle_incoming_request. rewrite Hpath, path_roundtrip.
  unfold handle_acme_signing_request, sign_acme_payload. rewrite Hp, Hu.
  destruct (match jr_signature_type jr with HMAC => _ | ECDSA => _ end) as [key kid].
  unfold Prelude.mbind, mtry. destruct (parse_order (jr_payload jr)) as [o|]; cbn [ok_or mlift mret mthrow].
  - destruct (valid_order_identifiers ctx staging o) eqn:Ev.
    + intros _ _. exists o. split; [done|]. by apply valid_order_spec.
    + intros [= <- <-]. done.
  - intros [= <- <-]. done.
Qed.
End EndToEnd.
