(* ===== verification/ConfigRef.v ===== *)
(** * Reference instances of the configuration interfaces

    Codecs for the payloads (an encoding through [Countable], in place of
    JSON), a store that is a map, a toy signer; and the witnesses of the
    theorems of [Config] at them. *)
From Stdlib Require Import Ascii String NArith ZArith Lia.
From stdpp Require Import base countable gmap strings list pretty.
From S2P Require Import Prelude Libs Net Egress Context Logging Jws CpError Config.
#[local] Open Scope string_scope.
#[local] Open Scope list_scope.

(** ** Codecs *)

Fixpoint bits (p : positive) : bytes :=
  match p with
  | xH => []
  | xO p' => "0"%char :: bits p'
  | xI p' => "1"%char :: bits p'
  end.

Fixpoint of_bits (i : bytes) : positive :=
  match i with
  | [] => xH
  | c :: i' => if Ascii.eqb c "1" then xI (of_bits i') else xO (of_bits i')
  end.

Lemma of_bits_bits p : of_bits (bits p) = p.
Proof. induction p as [p IH|p IH|]; cbn [bits of_bits]; [by rewrite IH..|done]. Qed.

Definition codec {T} `{Countable T} : Codec T.
Proof.
  refine {| enc x := bits (encode x); dec i := decode (of_bits i) |}.
  intros x. by rewrite of_bits_bits, decode_encode.
Defined.

#[export] Instance cert_token_eq : EqDecision GetCertTokenResponse. Proof. solve_decision. Defined.
#[export] Instance e3_token_eq : EqDecision GetE3TokenResponse. Proof. solve_decision. Defined.
#[export] Instance clock_eq : EqDecision GetClockSyncResponse. Proof. solve_decision. Defined.
#[export] Instance trx_eq : EqDecision TrxContext. Proof. solve_decision. Defined.
#[export] Instance logs_eq : EqDecision PostTrxLogsRequest. Proof. solve_decision. Defined.
#[export] Instance get_eq : EqDecision GetObjectRequest. Proof. solve_decision. Defined.
#[export] Instance object_eq : EqDecision GetObjectResponse. Proof. solve_decision. Defined.
#[export] Instance put_eq : EqDecision PutObjectRequest. Proof. solve_decision. Defined.
#[export] Instance delete_eq : EqDecision DeleteObjectRequest. Proof. solve_decision. Defined.
#[export] Instance sigtype_eq : EqDecision SignatureType. Proof. solve_decision. Defined.
#[export] Instance jws_request_eq : EqDecision JwsRequest. Proof. solve_decision. Defined.
#[export] Instance jws_result_eq : EqDecision JwsResult. Proof. solve_decision. Defined.
#[export] Instance jwk_eq : EqDecision Jwk. Proof. solve_decision. Defined.

#[export] Instance cert_token_c : Countable GetCertTokenResponse.
Proof. by refine (inj_countable' ct_token mkCertToken _); intros []. Defined.
#[export] Instance e3_token_c : Countable GetE3TokenResponse.
Proof. by refine (inj_countable' (fun t => (et_token t, et_token_id t)) (fun '(x, y) => mkE3Token x y) _); intros []. Defined.
#[export] Instance clock_c : Countable GetClockSyncResponse.
Proof. by refine (inj_countable' (fun t => (seconds t, milliseconds t)) (fun '(x, y) => mkClock x y) _); intros []. Defined.
#[export] Instance trx_c : Countable TrxContext.
Proof.
  by refine (inj_countable'
    (fun t => ((t_txid t, t_ts t, t_msg t, t_uri t, t_type t, t_request_method t, t_remote_ip t),
      (t_request_headers t, t_user_agent t, t_response_headers t, t_response_code t, t_status_group t,
       t_resource_name t, t_resource_uuid t), (t_app_uuid t, t_team_uuid t, t_n_decrypted_fields t,
       t_content_type t, t_response_content_type t, t_elapsed t, t_request_type t)))
    (fun '((a1, a2, a3, a4, a5, a6, a7), (b1, b2, b3, b4, b5, b6, b7), (c1, c2, c3, c4, c5, c6, c7)) =>
      mkTrx a1 a2 a3 a4 a5 a6 a7 b1 b2 b3 b4 b5 b6 b7 c1 c2 c3 c4 c5 c6 c7) _); intros [].
Defined.
#[export] Instance logs_c : Countable PostTrxLogsRequest.
Proof. by refine (inj_countable' trx_logs mkPostLogs _); intros []. Defined.
#[export] Instance get_c : Countable GetObjectRequest.
Proof. by refine (inj_countable' go_key mkGetObject _); intros []. Defined.
#[export] Instance object_c : Countable GetObjectResponse.
Proof. by refine (inj_countable' go_body mkObject _); intros []. Defined.
#[export] Instance put_c : Countable PutObjectRequest.
Proof. by refine (inj_countable' (fun t => (po_key t, po_object t)) (fun '(x, y) => mkPutObject x y) _); intros []. Defined.
#[export] Instance delete_c : Countable DeleteObjectRequest.
Proof. by refine (inj_countable' do_key mkDeleteObject _); intros []. Defined.
#[export] Instance sigtype_c : Countable SignatureType.
Proof.
  by refine (inj_countable' (fun t => match t with HMAC => true | ECDSA => false end)
    (fun x => if x : bool then HMAC else ECDSA) _); intros [].
Defined.
#[export] Instance jws_request_c : Countable JwsRequest.
Proof.
  by refine (inj_countable'
    (fun t => (jr_signature_type t, jr_url t, jr_nonce t, jr_payload t, jr_account_id t))
    (fun '(x, y, z, u, v) => mkJwsRequest x y z u v) _); intros [].
Defined.
#[export] Instance jws_result_c : Countable JwsResult.
Proof.
  by refine (inj_countable' (fun t => (protected t, payload t, signature t))
    (fun '(x, y, z) => mkJws x y z) _); intros [].
Defined.
#[export] Instance jwk_c : Countable Jwk.
Proof.
  by refine (inj_countable' (fun t => (jwk_alg t, jwk_crv t, jwk_kty t, jwk_use t, jwk_x t, jwk_y t))
    (fun '(x, y, z, u, v, w) => mkJwk x y z u v w) _); intros [].
Defined.

#[export] Instance codec_ref {T} `{Countable T} : Codec T := codec.

(** ** A store and a server *)

#[export] Instance map_store : StorageClient (gmap string string) := {
  st_get k := fun w => (Ret (w !! k), w);
  st_put k v := fun w => (Ret tt, <[k := v]> w);
  st_delete k := fun w => (Ret tt, delete k w)
}.

#[export] Instance map_store_laws : StorageLaws map_store.
Proof.
  refine {| st_view w := w |}.
  - intros k w r w' [= <- <-]. split; [done|]. split; [done|]. by intros o [= <-].
  - intros k v w r w' [= <- <-]. split; [done|]. by left.
  - intros k w r w' [= <- <-]. split; [done|]. by left.
Defined.

Lemma map_store_reliable : reliable map_store.
Proof. by split. Qed.

Definition toy_account : AcmeAccountDetails (O := toy_ssl) := mkAccount (O := toy_ssl) 5%N None.

Definition enclave_of (name : string) : CpContext := mkCp "uuid" "v1" name "app_1" "team".

(** The store, the provisioner's and the printed lines at the start. *)
Definition empty_world : CpWorld (SW := gmap string string) (PW := unit) := mkCpWorld ∅ tt [].

Definition toy_order (payload : string) : option NewOrderPayload :=
  Some (mkNewOrder [mkIdentifier "dns" payload]).

Definition server (ctx : CpContext) (req : CReq) : M (CpWorld (SW := gmap string string) (PW := unit)) ServerError CRes :=
  handle_incoming_request (O := toy_ssl) ctx (fun _ => None) (mthrow "down") (mthrow "down") (fun _ e => e)
    (Ok (12, 34)%N) toy_account false String.string_of_list_ascii (fun h => Some (h_url h)) toy_order
    (fun _ => "acme") (fun _ => "server") req.

(** ** Witnesses *)

Lemma storage_namespaces_isolated_witness :
  let req := mkCReq "PUT" "/storage" (Some (enc (mkPutObject "k" "mine"))) in
  let run := server (enclave_of "one") req empty_world in
  objects run.2 !! "app-1/one/k" = Some "mine" ∧
  ∀ k, objects run.2 !! namespace_key k (enclave_of "two") = objects empty_world !! namespace_key k (enclave_of "two").
Proof.
  cbn zeta. split; [vm_compute; reflexivity|].
  eapply (storage_namespaces_isolated (O := toy_ssl) (fun _ => None) (mthrow "down") (mthrow "down") (fun _ e => e)
    (Ok (12, 34)%N) toy_account false String.string_of_list_ascii (fun h => Some (h_url h)) toy_order
    (fun _ => "acme") (fun _ => "server") (enclave_of "one") (enclave_of "two"));
    [split; reflexivity|split; reflexivity|discriminate|apply surjective_pairing].
Defined.

Lemma storage_roundtrip_witness : ∃ w1 w2,
  put_object (to_server (O := toy_ssl) (fun _ => None) (mthrow "down") (mthrow "down") (fun _ e => e)
    (Ok (12, 34)%N) toy_account false String.string_of_list_ascii (fun h => Some (h_url h)) toy_order
    (fun _ => "acme") (fun _ => "server") (enclave_of "one")) "key" "value" empty_world = (Ret tt, w1) ∧
  get_object (to_server (O := toy_ssl) (fun _ => None) (mthrow "down") (mthrow "down") (fun _ e => e)
    (Ok (12, 34)%N) toy_account false String.string_of_list_ascii (fun h => Some (h_url h)) toy_order
    (fun _ => "acme") (fun _ => "server") (enclave_of "one")) "key" w1 = (Ret (Some (mkObject "value")), w2).
Proof.
  apply (storage_roundtrip (O := toy_ssl) (fun _ => None) (mthrow "down") (mthrow "down") (fun _ e => e)
    (Ok (12, 34)%N) toy_account false String.string_of_list_ascii (fun h => Some (h_url h)) toy_order
    (fun _ => "acme") (fun _ => "server") (enclave_of "one") "key" "value" empty_world), map_store_reliable.
Defined.

Definition order_request (domain : string) : JwsRequest :=
  mkJwsRequest ECDSA "https://ca/acme/new-order" None domain (Some "account").

Lemma orders_signed_only_for_own_domains_witness :
  let req := mkCReq "GET" "/acme/sign" (Some (enc (order_request "one.app-1.enclave.evervault.com"))) in
  ∃ o, toy_order "one.app-1.enclave.evervault.com" = Some o ∧
    Forall (fun i => id_value i ∈ get_trusted_cert_domains false (as_data_plane (enclave_of "one"))) (identifiers o).
Proof.
  cbn zeta.
  eapply (orders_signed_only_for_own_domains (O := toy_ssl) (fun _ => None) (mthrow "down") (mthrow "down")
    (fun _ e => e) (Ok (12, 34)%N) toy_account false String.string_of_list_ascii (fun h => Some (h_url h)) toy_order
    (fun _ => "acme") (fun _ => "server") (enclave_of "one")
    (mkCReq "GET" "/acme/sign" (Some (enc (order_request "one.app-1.enclave.evervault.com"))))
    (order_request "one.app-1.enclave.evervault.com") empty_world);
    [unfold parse_request; cbn [cq_body ok_or rbind]; by rewrite dec_enc|reflexivity|reflexivity
    |vm_compute; reflexivity|reflexivity].
Defined.
