(* ===== verification/Acme.v ===== *)
(** * Shared certificates: locks and keys (data-plane/src/acme)

    The instances of an enclave share one key pair, created by whichever
    instance takes the lock in the object storage first. Storage is used
    through the interface [StorageConfigClient], E3 through [E3Api], the clock,
    the random draws and the sleeps through [Runtime]; OpenSSL and JSON are
    parameters. [W] is everything outside the process. *)
From Stdlib Require Import Ascii String NArith ZArith Lia.
From stdpp Require Import base gmap strings list pretty.
From S2P Require Import Prelude Libs Context Logging E3 Jws Config.
#[local] Open Scope string_scope.
#[local] Open Scope list_scope.
#[local] Open Scope enclave_scope.

(** ** Providers (provider.rs) *)

Inductive Provider : Type := LetsEncrypt | ZeroSSL.

Definition directory_path (p : Provider) : string :=
  match p with LetsEncrypt => "/directory" | ZeroSSL => "/v2/DV90" end.

Definition hostname (p : Provider) : string :=
  match p with LetsEncrypt => "acme-v02.api.letsencrypt.org" | ZeroSSL => "acme.zerossl.com" end.

Definition eab_required (p : Provider) : bool :=
  match p with LetsEncrypt => false | ZeroSSL => true end.

Definition get_stats_key (p : Provider) : string :=
  match p with LetsEncrypt => "acme.letsencrypt" | ZeroSSL => "acme.zerossl" end.

(** ** The runtime

    The clock (milliseconds since the epoch), fresh identifiers, the jitter of
    renewals ([rng.gen_range(1..86400)]) and the sleeps of the tasks, in which
    the other tasks and instances run. None of them fails. *)
Class Runtime (W : Type) : Type := {
  rt_now : W → Z * W;
  rt_uuid : W → string * W;
  rt_jitter : W → Z * W;
  rt_sleep : Z → W → W
}.

(** What the runtime promises: reading the clock and drawing numbers do not
    touch the part of the world [view] shows, and a jitter is within a day. *)
Class RuntimeLaws {W V : Type} (RT : Runtime W) (view : W → V) : Prop := {
  rt_now_quiet w : view (rt_now w).2 = view w;
  rt_uuid_quiet w : view (rt_uuid w).2 = view w;
  rt_jitter_quiet w : view (rt_jitter w).2 = view w;
  rt_jitter_range w : (1 ≤ (rt_jitter w).1 < 86400)%Z
}.

Section RuntimeCalls.
Context {W E : Type} {RT : Runtime W}.
Definition now : M W E Z := fun w => let '(t, w') := rt_now w in (Ret t, w').
Definition new_uuid : M W E string := fun w => let '(u, w') := rt_uuid w in (Ret u, w').
Definition draw_jitter : M W E Z := fun w => let '(j, w') := rt_jitter w in (Ret j, w').
(** A sleep of so many seconds. *)
Definition sleep (secs : Z) : M W E unit := mmodify (rt_sleep secs).
End RuntimeCalls.

(** ** Errors (error.rs) *)

Section Acme.
Context {CE : Type}.

(** [CE] is the error of the configuration client; the foreign errors the
    code only passes on carry nothing. *)
Inductive DpAcmeError : Type :=
| AeIo
| AeHyper
| AeSerde
| AeFailedRequest (status : N)
| AeClient (body : string)
| AeHttp
| AeNoNonce
| AePoison (e : string)
| AeHeaderConversion
| AeOpenSsl
| AeBase64
| AeUtf8
| AeFromUtf8
| AeNoDirectory (e : string)
| AeCsr (e : string)
| AeFieldNotFound (e : string)
| AeConfigClient (e : CE)
| AeE3 (e : ClientError)
| AeParse
| AePem
| AeRustlsSign
| AeContext (e : ContextError)
| AeSystemTime
| AeShared (e : AcmeError)
| AeGeneral (e : string).

(** ** Locks (lock.rs) *)

(** Times are milliseconds since the epoch. *)
Record StorageLock : Type := mkLock {
  lk_name : string;
  lk_uuid : string;
  lk_expiry_time : Z;
  lk_attempts : option N
}.

Context {W : Type} {SC : StorageConfigClient W CE} {RT : Runtime W}.
(** [serde_json] on a lock; the expiry is stored in whole seconds. *)
Context (lock_to_json : StorageLock → string) (lock_from_json : string → option StorageLock).

Definition StorageLock_new (name : string) (attempts : N) : M W DpAcmeError StorageLock :=
  let! uuid := new_uuid in
  let! t := now in
  mret (mkLock name uuid (t + 30000) (Some attempts)).

Definition lock_key_name (l : StorageLock) : string := lk_name l +:+ ".lock".

Definition is_expired (l : StorageLock) : M W DpAcmeError bool :=
  let! t := now in mret (lk_expiry_time l <? t)%Z.

Definition number_of_attempts (l : StorageLock) : option N := lk_attempts l.

Definition has_uuid (l : StorageLock) (uuid : string) : bool := String.eqb (lk_uuid l) uuid.

Definition cfg {A} (m : M W CE A) : M W DpAcmeError A := mmap_err AeConfigClient m.

Definition read_from_storage (name : string) : M W DpAcmeError (option StorageLock) :=
  let! r := cfg (sc_get_object (name +:+ ".lock")) in
  match r with
  | Some response =>
      let! l := mlift (ok_or (lock_from_json (go_body response)) AeSerde) in mret (Some l)
  | None => mret None
  end.

Definition write_lock (l : StorageLock) : M W DpAcmeError unit :=
  cfg (sc_put_object (lock_key_name l) (lock_to_json l)).

Definition is_persisted (l : StorageLock) : M W DpAcmeError bool :=
  let! r := cfg (sc_get_object (lock_key_name l)) in
  match r with
  | Some response =>
      let! lock := mlift (ok_or (lock_from_json (go_body response)) AeSerde) in
      mret (has_uuid lock (lk_uuid l))
  | None => mret false
  end.

Definition write_and_check_persisted (l : StorageLock) : M W DpAcmeError bool :=
  write_lock l ;! sleep 2 ;! is_persisted l.

Definition delete_lock (l : StorageLock) : M W DpAcmeError unit :=
  cfg (sc_delete_object (lock_key_name l)).

(** ** Keys (key.rs) *)

Record RawAcmeKeyPair : Type := mkPair { public_key : string; pair_private_key : string }.

Definition KEY_PAIR_LOCK_NAME : string := "keypair".
Definition PUBLIC_KEY_OBJECT_KEY : string := "public_key.pem".
Definition PRIVATE_KEY_OBJECT_KEY : string := "private_key.pem".

(** Generated keys and their PEM texts (OpenSSL). *)
Context {Key : Type} (public_pem private_pem : Key → option bytes) (key_from_pem : string → option Key).
Context (gen_ec_private_key : M W DpAcmeError Key).

Definition key_pair (p : RawAcmeKeyPair) : result DpAcmeError Key :=
  ok_or (key_from_pem (pair_private_key p)) AeOpenSsl.

Definition from_key_pair (k : Key) : result DpAcmeError RawAcmeKeyPair :=
  let? public_key_bytes := ok_or (public_pem k) AeOpenSsl in
  let? private_key_bytes := ok_or (private_pem k) AeOpenSsl in
  let? public_key_string := ok_or (from_utf8 public_key_bytes) AeFromUtf8 in
  let? private_key_string := ok_or (from_utf8 private_key_bytes) AeFromUtf8 in
  Ok (mkPair public_key_string private_key_string).

Definition generate_with_new_key_pair : M W DpAcmeError RawAcmeKeyPair :=
  let! k := gen_ec_private_key in mlift (from_key_pair k).

Definition pair_from_storage : M W DpAcmeError (option RawAcmeKeyPair) :=
  let! public_key := cfg (sc_get_object PUBLIC_KEY_OBJECT_KEY) in
  let! private_key := cfg (sc_get_object PRIVATE_KEY_OBJECT_KEY) in
  match public_key, private_key with
  | Some pub, Some priv => mret (Some (mkPair (go_body pub) (go_body priv)))
  | _, _ => mret None
  end.

Definition pair_persist (p : RawAcmeKeyPair) : M W DpAcmeError unit :=
  cfg (sc_put_object PUBLIC_KEY_OBJECT_KEY (public_key p)) ;!
  cfg (sc_put_object PRIVATE_KEY_OBJECT_KEY (pair_private_key p)).

(** E3, and the JSON of a pair. *)
Context {J : Json} {A : E3Api W}.
Context (pair_to_value : RawAcmeKeyPair → Value) (value_to_pair : Value → option RawAcmeKeyPair).

Definition in_e3 {B} (m : M W ClientError B) : M W DpAcmeError B := mmap_err AeE3 m.

Definition decrypt_key_pair (encrypted : RawAcmeKeyPair) : M W DpAcmeError RawAcmeKeyPair :=
  let! e3_response := in_e3 (e3_crypto_decrypt (mkCryptoRequest (pair_to_value encrypted))) in
  mlift (ok_or (value_to_pair (cs_data e3_response)) AeSerde).

Definition encrypt_key_pair (raw : RawAcmeKeyPair) : M W DpAcmeError RawAcmeKeyPair :=
  let! e3_response := in_e3 (e3_encrypt (mkCryptoRequest (pair_to_value raw)) None) in
  mlift (ok_or (value_to_pair (cs_data e3_response)) AeSerde).

Definition create_key_pair_and_persist_with_lock : M W DpAcmeError (option Key) :=
  let! key_pair_lock := StorageLock_new KEY_PAIR_LOCK_NAME 0 in
  let! held := write_and_check_persisted key_pair_lock in
  if held then
    let! raw_acme_key_pair := generate_with_new_key_pair in
    let! encrypted_key_pair := encrypt_key_pair raw_acme_key_pair in
    pair_persist encrypted_key_pair ;!
    delete_lock key_pair_lock ;!
    let! k := mlift (key_pair raw_acme_key_pair) in
    mret (Some k)
  else mret None.

(** The body of the polling loop. *)
Definition key_round : M W DpAcmeError (option Key) :=
  let! stored := pair_from_storage in
  match stored with
  | Some raw_acme_key_pair =>
      let! decrypted_key_pair := decrypt_key_pair raw_acme_key_pair in
      let! k := mlift (key_pair decrypted_key_pair) in
      mret (Some k)
  | None =>
      let! existing_lock := read_from_storage KEY_PAIR_LOCK_NAME in
      match existing_lock with
      | Some lock =>
          let! expired := is_expired lock in
          if expired then create_key_pair_and_persist_with_lock else mret None
      | None => create_key_pair_and_persist_with_lock
      end
  end.

(** [i] counts up to [max_checks = 5] and the bound is checked first, so there
    are at most four rounds, each followed by three seconds of sleep. *)
Fixpoint key_rounds (rounds : nat) : M W DpAcmeError Key :=
  match rounds with
  | O => mthrow (AeGeneral "Max retries for getting ")
  | S n =>
      let! k := key_round in
      match k with
      | Some persisted_key_pair => mret persisted_key_pair
      | None => sleep 3 ;! key_rounds n
      end
  end.

Definition get_or_create_enclave_key_pair : M W DpAcmeError Key := key_rounds 4.
End Acme.

(** ** Renewal times (utils.rs, raw_cert.rs) *)

Definition ONE_DAY_IN_SECONDS : Z := 86400.
Definition THIRTY_DAYS_IN_SECONDS : Z := ONE_DAY_IN_SECONDS * 30.
Definition SIXTY_DAYS_IN_SECONDS : Z := ONE_DAY_IN_SECONDS * 60.

(** [rng.gen_range(1..86400)] is the parameter. *)
Definition get_jittered_time (jitter base_time : Z) : Z := base_time + jitter.

(** [Asn1Time::diff] from the epoch: days and seconds, then summed. *)
Definition asn1_time_to_system_time (t : Z) : Z := t / 86400 * 86400 + t mod 86400.

(** [duration_since]: [None] is its error, a time in the past. *)
Definition duration_since (time now : Z) : option Z := if (now <=? time)%Z then Some (time - now)%Z else None.

(** The clock is read before the jitter is drawn, [now], and after, [now']. *)
Definition seconds_with_jitter_to_time (now jitter now' seconds : Z) : option Z :=
  let time := (now + seconds)%Z in
  let jittered_time := get_jittered_time jitter time in
  duration_since jittered_time now'.

(** The earliest [not_after] of a chain. *)
Fixpoint earliest (acc : option Z) (expiries : list Z) : option Z :=
  match expiries with
  | [] => acc
  | t :: rest =>
      match acc with
      | None => earliest (Some t) rest
      | Some e => earliest (Some (if (t <? e)%Z then t else e)) rest
      end
  end.

(** The seconds until renewal; [days_from_now] and [duration_since] read the
    clock, [now] and [now']. *)
Definition time_till_renewal_required (now jitter now' : Z) (expiries : list Z) : option Z :=
  match earliest None expiries with
  | Some earliest_expiry =>
      if (earliest_expiry <? now + THIRTY_DAYS_IN_SECONDS)%Z then Some 0%Z
      else
        let thirty_days_before_expiry :=
          (asn1_time_to_system_time earliest_expiry - THIRTY_DAYS_IN_SECONDS)%Z in
        let time_to_renew_with_jitter := get_jittered_time jitter thirty_days_before_expiry in
        duration_since time_to_renew_with_jitter now'
  | None => Some 0%Z
  end.

(** ** The interface of the storage

    What [StorageConfigClientInterface] promises: [sc_view] is what is stored
    under a key. A failed write may or may not have happened. *)
Class StorageConfigLaws {W E : Type} (SC : StorageConfigClient W E) : Type := {
  sc_view : W → string → option string;
  sc_get_law k w r w' : sc_get_object k w = (r, w') →
    (∀ k', sc_view w' k' = sc_view w k') ∧ ∀ o, r = Ret o → go_body <$> o = sc_view w k;
  sc_put_law k v w r w' : sc_put_object k v w = (r, w') →
    (∀ k', k' ≠ k → sc_view w' k' = sc_view w k') ∧ (r = Ret tt → sc_view w' k = Some v);
  sc_delete_law k w r w' : sc_delete_object k w = (r, w') →
    (∀ k', k' ≠ k → sc_view w' k' = sc_view w k') ∧ (r = Ret tt → sc_view w' k = None)
}.

Section LockLemmas.
Context {CE W : Type} {SC : StorageConfigClient W CE} {SL : StorageConfigLaws SC}.
Context (lock_to_json : StorageLock → string) (lock_from_json : string → option StorageLock).
(** A stored lock reads back with its name and identifier. *)
Context (lock_json : ∀ l, ∃ l', lock_from_json (lock_to_json l) = Some l' ∧
  lk_uuid l' = lk_uuid l ∧ lk_name l' = lk_name l).

Lemma cfg_inv {A} (m : M W CE A) w r w' : cfg m w = (r, w') →
  ∃ r0, m w = (r0, w') ∧ ∀ a, r = Ret a → r0 = Ret a.
Proof.
  unfold cfg, mmap_err. destruct (m w) as [[a|e|] w1]; intros [= <- <-]; eexists; (split; [done|]);
    intros ? ?; by simplify_eq.
Qed.

Lemma StorageLock_new_name {RT : Runtime W} n a w l w' :
  StorageLock_new (CE := CE) n a w = (Ret l, w') → lk_name l = n.
Proof.
  unfold StorageLock_new. intros (u & w1 & _ & (t & w2 & _ & [= <- _])%mbind_inv)%mbind_inv. done.
Qed.

Lemma write_lock_run l w r w' : write_lock lock_to_json l w = (r, w') →
  r = Ret tt → sc_view w' (lock_key_name l) = Some (lock_to_json l).
Proof. intros (r0 & Hr & Hq)%cfg_inv ->. apply sc_put_law in Hr as [_ Hv]. by apply Hv, Hq. Qed.

Lemma is_persisted_run l w r w' : is_persisted lock_from_json l w = (r, w') →
  (∀ k, sc_view w' k = sc_view w k) ∧
  (r = Ret true → ∃ t l', sc_view w (lock_key_name l) = Some t ∧ lock_from_json t = Some l' ∧
    lk_uuid l' = lk_uuid l).
Proof.
  unfold is_persisted, Prelude.mbind at 1. destruct (cfg _ w) as [[o|e|] w1] eqn:Eg;
    apply cfg_inv in Eg as (r0 & Hr & Hq); apply sc_get_law in Hr as [Hv Ho];
    [|intros [= <- <-]; by split..].
  specialize (Ho o (Hq o eq_refl)). destruct o as [[t]|]; [|intros [= <- <-]; by split].
  cbn [fmap option_fmap option_map go_body] in Ho. unfold Prelude.mbind. cbn [go_body].
  destruct (lock_from_json t) as [l'|] eqn:Ej; [|intros [= <- <-]; by split].
  intros [= <- <-]. split; [done|]. intros [= Hu]. exists t, l'. split; [done|]. split; [done|].
  by apply String.eqb_eq.
Qed.
End LockLemmas.

(** ** Renewal *)

Lemma earliest_spec acc expiries e : earliest acc expiries = Some e →
  (acc = Some e ∨ e ∈ expiries) ∧ (∀ t, t ∈ expiries → (e ≤ t)%Z) ∧ (∀ a, acc = Some a → (e ≤ a)%Z).
Proof.
  revert acc. induction expiries as [|t rest IH]; intros acc; cbn [earliest].
  - intros ->. split; [by left|]. split; [by intros t ?%elem_of_nil|]. by intros a [= ->].
  - destruct acc as [a|]; intros (Hin & Hall & Hacc)%IH; specialize (Hacc _ eq_refl).
    + destruct (Z.ltb_spec t a); (split; [|split]).
      * right. destruct Hin as [[= ->]|Hin]; [by left|by right].
      * intros t' [->|Ht]%elem_of_cons; [lia|by apply Hall].
      * intros a' [= <-]. lia.
      * destruct Hin as [[= ->]|Hin]; [by left|right; by right].
      * intros t' [->|Ht]%elem_of_cons; [lia|by apply Hall].
      * intros a' [= <-]. lia.
    + split; [|split]; [|intros t' [->|Ht]%elem_of_cons; [lia|by apply Hall]|done].
      right. destruct Hin as [[= ->]|Hin]; [by left|by right].
Qed.

Lemma renewal_delay now jitter now' expiries :
  (1 ≤ jitter < 86400)%Z → (now' ≤ now + 1)%Z →
  ∃ d, time_till_renewal_required now jitter now' expiries = Some d ∧ (0 ≤ d)%Z ∧
    (d = 0%Z ∨ ∀ t, t ∈ expiries → (now' + d < t - 29 * ONE_DAY_IN_SECONDS)%Z).
Proof.
  intros Hj Hn. unfold time_till_renewal_required.
  destruct (earliest None expiries) as [e|] eqn:Ee; [|exists 0%Z; split; [done|]; split; [lia|by left]].
  apply earliest_spec in Ee as (_ & Hall & _).
  destruct (Z.ltb_spec e (now + THIRTY_DAYS_IN_SECONDS));
    [exists 0%Z; split; [done|]; split; [lia|by left]|].
  assert (asn1_time_to_system_time e = e) as ->.
  { unfold asn1_time_to_system_time. pose proof (Z.div_mod e 86400). lia. }
  unfold duration_since, get_jittered_time, THIRTY_DAYS_IN_SECONDS, ONE_DAY_IN_SECONDS in *.
  destruct (Z.leb_spec now' (e - 86400 * 30 + jitter)); [|lia].
  eexists. split; [done|]. split; [lia|]. right. intros t Ht%Hall. lia.
Qed.

(** A chain is renewed in time: unless the clock jumps while it is computed,
    the delay is never negative, and (for a jitter within a day) renewal comes more than 29 days
    before any certificate of the chain expires, or immediately when one of
    them has less than 30 days left. *)
Theorem renewal_is_in_time now jitter now' expiries :
  (1 ≤ jitter < 86400)%Z → (now' ≤ now + 1)%Z →
  ∃ d, time_till_renewal_required now jitter now' expiries = Some d ∧ (0 ≤ d)%Z ∧
    (d = 0%Z ∨ ∀ t, t ∈ expiries → (now' + d < t - 29 * ONE_DAY_IN_SECONDS)%Z).
Proof. apply renewal_delay. Qed.

(** ** Witnesses *)

Lemma renewal_is_in_time_witness : ∃ d,
  time_till_renewal_required 0 3600 1 [7776000; 31536000]%Z = Some d ∧ (0 ≤ d)%Z ∧
  (d = 0%Z ∨ ∀ t, t ∈ [7776000; 31536000]%Z → (1 + d < t - 29 * ONE_DAY_IN_SECONDS)%Z).
Proof. apply (renewal_is_in_time 0 3600 1 [7776000; 31536000]%Z); lia. Defined.
