(* ===== verification/AcmeStore.v ===== *)
(** * Shared keys over the configuration service

    The configuration client with the control plane's server behind it keeps
    the promise of [StorageConfigClient] ([config_storage_laws]), and instances
    that use any storage that keeps it end up with the same key pair. *)
From Stdlib Require Import Ascii String NArith ZArith Lia.
From stdpp Require Import base countable gmap strings list pretty.
From S2P Require Import Prelude Libs Context Logging E3 Jws CpError Config ConfigRef Acme.
#[local] Open Scope string_scope.
#[local] Open Scope list_scope.
#[local] Open Scope enclave_scope.

(** ** The configuration client keeps the promise *)

Section Discharge.
Context {SW PW : Type} {ST : StorageClient SW} {SL : StorageLaws ST} {O : OpenSsl} {R : Retry} {RL : RetryLaws R}.
Context `{Codec GetCertTokenResponse, Codec GetE3TokenResponse, Codec GetClockSyncResponse,
  Codec PostTrxLogsRequest, Codec GetObjectRequest, Codec GetObjectResponse, Codec PutObjectRequest,
  Codec DeleteObjectRequest, Codec JwsRequest, Codec JwsResult, Codec Jwk}.
Context (trx_json : TrxContext → option string).
Context (prov_cert_token : M PW string GetCertTokenResponse) (prov_e3_token : M PW string GetE3TokenResponse).
Context (token_error : TokenType → string → string) (now : result string (N * N)).
Context (account : AcmeAccountDetails) (staging : bool) (b64 : bytes → string).
Context (header_json : JwsHeader → option string) (parse_order : string → option NewOrderPayload).
Context (display_acme : AcmeError → string) (display_server : ServerError → string).
Context (ctx : CpContext).

#[local] Notation exchange := (to_server (SW := SW) (PW := PW) trx_json prov_cert_token prov_e3_token token_error
  now account staging b64 header_json parse_order display_acme display_server ctx).

Definition config_storage : StorageConfigClient (CpWorld (SW := SW) (PW := PW)) ConfigError := {|
  sc_get_object := get_object exchange;
  sc_put_object := put_object exchange;
  sc_delete_object := delete_object exchange;
  sc_get_time := get_time_from_host exchange
|}.

Lemma namespace_key_inj k k' : namespace_key k ctx = namespace_key k' ctx → k = k'.
Proof. unfold namespace_key. intros E%str_app_inj_l. by injection E. Qed.

(** One attempt is one operation of the store. *)
Lemma base_put_store k v w r w' : base_put_object exchange k v w = (r, w') →
  ∃ r0, st_put (namespace_key k ctx) v (w_store w) = (r0, w_store w') ∧ (r = Ret tt → r0 = Ret tt).
Proof.
  unfold base_put_object, cfg_send, to_server, Prelude.mbind at 1, handle_incoming_request.
  cbn [cq_path cq_method ConfigServerPath_display].
  change (ConfigServerPath_from_str "/storage") with (Some Storage).
  change (String.eqb "PUT" "GET") with false. change (String.eqb "PUT" "PUT") with true.
  unfold handle_acme_storage_put_request, parse_request. cbn [cq_body ok_or rbind]. rewrite dec_enc.
  cbn [ok_or po_key po_object]. unfold Prelude.mbind, mtry, on_store.
  destruct (st_put (namespace_key k ctx) v (w_store w)) as [[[]|e|] x] eqn:Ep;
    intros [= <- <-]; by eexists.
Qed.

Lemma base_delete_store k w r w' : base_delete_object exchange k w = (r, w') →
  ∃ r0, st_delete (namespace_key k ctx) (w_store w) = (r0, w_store w') ∧ (r = Ret tt → r0 = Ret tt).
Proof.
  unfold base_delete_object, cfg_send, to_server, Prelude.mbind at 1, handle_incoming_request.
  cbn [cq_path cq_method ConfigServerPath_display].
  change (ConfigServerPath_from_str "/storage") with (Some Storage).
  change (String.eqb "DELETE" "GET") with false. change (String.eqb "DELETE" "PUT") with false.
  change (String.eqb "DELETE" "DELETE") with true.
  unfold handle_acme_storage_delete_request, parse_request. cbn [cq_body ok_or rbind]. rewrite dec_enc.
  cbn [ok_or do_key]. unfold Prelude.mbind, mtry, on_store.
  destruct (st_delete (namespace_key k ctx) (w_store w)) as [[[]|e|] x] eqn:Ep;
    intros [= <- <-]; by eexists.
Qed.

Definition stored (w : CpWorld (SW := SW) (PW := PW)) (k : string) : option string :=
  objects w !! namespace_key k ctx.

Lemma base_put_frame k v k' w r w' : k' ≠ k →
  base_put_object exchange k v w = (r, w') → stored w' k' = stored w k'.
Proof.
  intros Hne (r0 & Hp & _)%base_put_store. unfold stored, objects.
  apply st_put_law in Hp as [_ [->|[_ ->]]]; [|done].
  apply lookup_insert_ne. by intros E%namespace_key_inj.
Qed.

Lemma base_delete_frame k k' w r w' : k' ≠ k →
  base_delete_object exchange k w = (r, w') → stored w' k' = stored w k'.
Proof.
  intros Hne (r0 & Hp & _)%base_delete_store. unfold stored, objects.
  apply st_delete_law in Hp as [_ [->|[_ ->]]]; [|done].
  apply lookup_delete_ne. by intros E%namespace_key_inj.
Qed.

(** The interface, discharged. *)
#[export] Instance config_storage_laws : StorageConfigLaws config_storage.
Proof.
  refine {| sc_view := stored |}.
  - intros k w r w' [Hv Ho]%get_object_run. split; [intros k'; unfold stored; by rewrite Hv|].
    intros o Hr. rewrite (Ho o Hr). unfold stored. by destruct (objects w !! namespace_key k ctx).
  - intros k v w r w' Hr. split.
    + intros k' Hne. refine (spawn_keeps _ (fun w0 => stored w0 k' = stored w k') 2 w r w' _ eq_refl Hr).
      intros w0 r0 w1 <- Hp. by eapply base_put_frame.
    + intros ->. change (put_object exchange k v w = (Ret tt, w')) in Hr. unfold stored.
      eapply put_object_run. exact Hr.
  - intros k w r w' Hr. split.
    + intros k' Hne. refine (spawn_keeps _ (fun w0 => stored w0 k' = stored w k') 2 w r w' _ eq_refl Hr).
      intros w0 r0 w1 <- Hp. by eapply base_delete_frame.
    + intros ->. apply spawn_ret in Hr as (w0 & (r0 & Hd & Hq)%base_delete_store).
      rewrite (Hq eq_refl) in Hd. apply st_delete_law in Hd as [_ [Hd|[[] _]]]; [|done].
      unfold stored, objects. rewrite Hd. apply lookup_delete_eq.
Defined.
End Discharge.

(** ** One key pair for all instances *)

Section SharedKey.
Context {CE W : Type} {SC : StorageConfigClient W CE} {SL : StorageConfigLaws SC} {RT : Runtime W}.
Context (lock_to_json : StorageLock → string) (lock_from_json : string → option StorageLock).
Context {Key : Type} (public_pem private_pem : Key → option bytes) (key_from_pem : string → option Key).
Context (gen_ec_private_key : M W (DpAcmeError (CE := CE)) Key).
Context {J : Json} {A : E3Api W}.
Context (pair_to_value : RawAcmeKeyPair → Value) (value_to_pair : Value → option RawAcmeKeyPair).

(** What E3 encrypted it decrypts, at any later time. *)
Definition e3_inverts : Prop := ∀ raw w r w' enc,
  e3_encrypt (mkCryptoRequest (pair_to_value raw)) None w = (Ret r, w') →
  value_to_pair (cs_data r) = Some enc →
  ∀ y, ∃ r2 y', e3_crypto_decrypt (mkCryptoRequest (pair_to_value enc)) y = (Ret r2, y') ∧
    value_to_pair (cs_data r2) = Some raw.

(** The storage answers reads. *)
Definition readable : Prop := ∀ k (w : W), ∃ o w', sc_get_object k w = (Ret o, w').

Lemma cfg_ret {B} (m : M W CE B) (w : W) a w' : cfg m w = (Ret a, w') → m w = (Ret a, w').
Proof. intros (r0 & Hm & Hq)%cfg_inv. by rewrite Hm, (Hq a eq_refl). Qed.

Definition pair_at (w : W) (p : RawAcmeKeyPair) : Prop :=
  sc_view w PUBLIC_KEY_OBJECT_KEY = Some (public_key p) ∧
  sc_view w PRIVATE_KEY_OBJECT_KEY = Some (pair_private_key p).

Lemma pair_persist_run p (w w' : W) : pair_persist (CE := CE) p w = (Ret tt, w') → pair_at w' p.
Proof.
  unfold pair_persist. intros ([] & w1 & H1%cfg_ret & H2%cfg_ret)%mbind_inv.
  apply sc_put_law in H1 as [_ H1]. apply sc_put_law in H2 as [Hf H2].
  split; [|by apply H2]. rewrite Hf by done. by apply H1.
Qed.

Lemma pair_from_storage_run p (w : W) : readable → pair_at w p →
  ∃ w', pair_from_storage (CE := CE) w = (Ret (Some p), w').
Proof.
  intros Hr [Hpub Hpriv]. unfold pair_from_storage, Prelude.mbind, cfg, mmap_err.
  destruct (Hr PUBLIC_KEY_OBJECT_KEY w) as (o1 & w1 & E1). rewrite E1.
  apply sc_get_law in E1 as [Hv1 Ho1]. specialize (Ho1 o1 eq_refl). rewrite Hpub in Ho1.
  destruct (Hr PRIVATE_KEY_OBJECT_KEY w1) as (o2 & w2 & E2). rewrite E2.
  apply sc_get_law in E2 as [_ Ho2]. specialize (Ho2 o2 eq_refl). rewrite Hv1, Hpriv in Ho2.
  destruct o1 as [[t1]|], o2 as [[t2]|]; simplify_eq/=. destruct p; by eexists.
Qed.

#[local] Notation create := (create_key_pair_and_persist_with_lock lock_to_json lock_from_json public_pem
  private_pem key_from_pem gen_ec_private_key pair_to_value value_to_pair).

(** What the creator leaves behind. *)
Lemma create_run w k w1 : create w = (Ret (Some k), w1) →
  ∃ raw enc x r x', e3_encrypt (mkCryptoRequest (pair_to_value raw)) None x = (Ret r, x') ∧
    value_to_pair (cs_data r) = Some enc ∧ pair_at w1 enc ∧ key_pair (CE := CE) key_from_pem raw = Ok k.
Proof.
  unfold create_key_pair_and_persist_with_lock.
  intros (lock & w0 & Hn%StorageLock_new_name & (held & w2 & _ & Hr)%mbind_inv)%mbind_inv. destruct held; [|done].
  apply mbind_inv in Hr as (raw & w4 & _ & (enc & w5 & He & Hr)%mbind_inv).
  apply mbind_inv in Hr as ([] & w6 & Hp & ([] & w7 & Hd & Hr)%mbind_inv).
  apply mbind_inv in Hr as (k' & w8 & [Hk ->]%mlift_ok & Hr). unfold mret in Hr. simplify_eq.
  unfold encrypt_key_pair in He. apply mbind_inv in He as (r & w9 & He & [Hv%ok_or_ok ->]%mlift_ok).
  unfold in_e3, mmap_err in He. destruct (e3_encrypt _ None w4) as [[r0|e|] x'] eqn:Ee; simplify_eq.
  exists raw, enc, w4, r, w9. do 2 (split; [done|]). split; [|done].
  apply pair_persist_run in Hp as [H1 H2]. apply cfg_ret, sc_delete_law in Hd as [Hf _].
  unfold lock_key_name in Hf. rewrite Hn in Hf. split; rewrite Hf by done; done.
Qed.

(** All instances use one key pair: once an instance has created a key
    under the lock, any instance (with a storage that answers and still holds
    the two objects, and an E3 that decrypts what it encrypted) that asks for
    the key pair gets that very key, in its first round, whatever else the
    other instances do. *)
Theorem instances_share_the_key w k w1 (w2 : W) :
  readable → e3_inverts → create w = (Ret (Some k), w1) →
  sc_view w2 PUBLIC_KEY_OBJECT_KEY = sc_view w1 PUBLIC_KEY_OBJECT_KEY →
  sc_view w2 PRIVATE_KEY_OBJECT_KEY = sc_view w1 PRIVATE_KEY_OBJECT_KEY →
  ∃ w3, get_or_create_enclave_key_pair lock_to_json lock_from_json public_pem private_pem key_from_pem
    gen_ec_private_key pair_to_value value_to_pair w2 = (Ret k, w3).
Proof.
  intros Hread Hinv (raw & enc & x & r & x' & He & Hv & [Hpub Hpriv] & Hk)%create_run Epub Epriv.
  destruct (pair_from_storage_run enc w2 Hread) as [wr Hs]; [by split; congruence|].
  destruct (Hinv raw x r x' enc He Hv wr) as (r2 & y & Hd & Hv2).
  unfold get_or_create_enclave_key_pair. cbn [key_rounds].
  unfold key_round, decrypt_key_pair, Prelude.mbind, in_e3, mmap_err. rewrite Hs, Hd, Hv2. cbn [ok_or mlift mret].
  rewrite Hk. cbn [mlift mret]. by eexists.
Qed.
End SharedKey.

(** ** Witnesses *)

#[export] Instance map_config : StorageConfigClient (gmap string string) string := {
  sc_get_object k := fun w => (Ret (mkObject <$> w !! k), w);
  sc_put_object k v := fun w => (Ret tt, <[k := v]> w);
  sc_delete_object k := fun w => (Ret tt, delete k w);
  sc_get_time := mthrow "no clock"
}.

#[export] Instance map_config_laws : StorageConfigLaws map_config.
Proof.
  refine {| sc_view w k := w !! k |}.
  - intros k w r w' [= <- <-]. split; [done|]. intros o [= <-]. by destruct (w !! k).
  - intros k v w r w' [= <- <-]. split; [intros k' Hne; by apply lookup_insert_ne|].
    intros _. apply lookup_insert_eq.
  - intros k w r w' [= <- <-]. split; [intros k' Hne; by apply lookup_delete_ne|].
    intros _. apply lookup_delete_eq.
Defined.

(** A lock as its name and identifier, without its times. *)
Definition toy_lock_to (l : StorageLock) : string :=
  String.string_of_list_ascii (bits (encode (lk_name l, lk_uuid l))).
Definition toy_lock_from (s : string) : option StorageLock :=
  (fun '(n, u) => mkLock n u 0 None) <$> (decode (of_bits (b s)) : option (string * string)).

Lemma toy_lock_json l : ∃ l', toy_lock_from (toy_lock_to l) = Some l' ∧
  lk_uuid l' = lk_uuid l ∧ lk_name l' = lk_name l.
Proof.
  unfold toy_lock_from, toy_lock_to, b. rewrite String.list_ascii_of_string_of_list_ascii.
  rewrite of_bits_bits, decode_encode. by eexists.
Qed.

(** Values are texts, encryption turns a text around. *)
Definition pair_json : Json := {|
  Value := RawAcmeKeyPair;
  Value_of_string s := mkPair s s;
  Value_to_vec _ := None;
  json_message s := s;
  json_map_to_string _ := None
|}.

Definition turn_text (s : string) : string := String.string_of_list_ascii (rev (b s)).
Definition turn_pair (p : RawAcmeKeyPair) : RawAcmeKeyPair :=
  mkPair (turn_text (public_key p)) (turn_text (pair_private_key p)).

Lemma turn_pair_twice p : turn_pair (turn_pair p) = p.
Proof.
  destruct p as [x y]. unfold turn_pair, turn_text, b. cbn [public_key pair_private_key].
  rewrite !String.list_ascii_of_string_of_list_ascii, !rev_involutive.
  by rewrite !String.string_of_list_ascii_of_string.
Qed.

Definition turning_e3 {W} : E3Api (J := pair_json) W := {|
  e3_decrypt p := mret p;
  e3_crypto_decrypt p := mret (mkCryptoResponse (J := pair_json) (turn_pair (cr_data (J := pair_json) p)));
  e3_encrypt p _ := mret (mkCryptoResponse (J := pair_json) (turn_pair (cr_data (J := pair_json) p)));
  e3_authenticate _ _ := mret tt
|}.

(** A clock that stands still and sleeps in which nothing happens. *)
Definition still_runtime {W} : Runtime W := {|
  rt_now w := (0%Z, w);
  rt_uuid w := ("uuid", w);
  rt_jitter w := (1%Z, w);
  rt_sleep _ w := w
|}.

Definition sample_created :=
  create_key_pair_and_persist_with_lock (CE := string) (SC := map_config) (RT := still_runtime) (J := pair_json)
    (A := turning_e3) toy_lock_to toy_lock_from (fun k => Some (b "public")) (fun k => Some (b k)) Some
    (mret "secret") id Some ∅.

Lemma instances_share_the_key_witness : ∃ w3,
  get_or_create_enclave_key_pair (SC := map_config) (RT := still_runtime) (J := pair_json) (A := turning_e3)
    toy_lock_to toy_lock_from (fun k => Some (b "public")) (fun k => Some (b k)) Some (mret "secret") id Some
    sample_created.2 = (Ret "secret", w3).
Proof.
  apply (instances_share_the_key (SC := map_config) (RT := still_runtime) (J := pair_json) (A := turning_e3)
    toy_lock_to toy_lock_from (fun k => Some (b "public")) (fun k => Some (b k)) Some (mret "secret") id Some ∅
    "secret" sample_created.2 sample_created.2).
  - intros k w. by eexists _, _.
  - intros raw w r w' enc [= <- <-] [= <-] y. eexists _, y. split; [done|]. cbn. by rewrite turn_pair_twice.
  - vm_compute. reflexivity.
  - reflexivity.
  - reflexivity.
Defined.
