(* ===== verification/AcmeScript.v ===== *)
(** * Instances as scripts

    The code of data-plane/src/acme/key.rs run one call at a time. A scripted
    world hands out replies from a list and records the calls they answer, so
    that the very definitions of [Acme] can be stopped before each of their
    calls and interleaved with those of other instances. The protocol of the
    lock is an automaton that watches the calls; the code of the key pair
    never leaves it, whatever it is answered. *)
From Stdlib Require Import Ascii String NArith ZArith Lia.
From stdpp Require Import base gmap strings list.
From S2P Require Import Prelude Libs Logging E3 Jws Config Acme.
#[local] Open Scope string_scope.
#[local] Open Scope list_scope.
#[local] Open Scope enclave_scope.

Section Script.
Context {J : Json} {Key : Type}.

(** ** Calls and replies *)

Inductive Call : Type :=
| CGet (key : string)
| CPut (key object : string)
| CDelete (key : string)
| CNow
| CUuid
| CJitter
| CSleep (secs : Z)
| CEncrypt (v : Value)
| CDecrypt (v : Value)
| CKey.

(** A failed call says whether its write reached the storage. *)
Inductive Reply : Type :=
| RObject (o : option string)
| RDone
| RTime (t : Z)
| RText (s : string)
| RValue (v : Value)
| RKey (k : Key)
| RFailed (applied : bool).

Definition time_of (r : Reply) : Z := match r with RTime t => t | _ => 0%Z end.
Definition text_of (r : Reply) : string := match r with RText s => s | _ => "" end.

(** The replies to come with their times, the calls answered so far, and the
    call that found no reply. *)
Record Script : Type := mkScript {
  sp_replies : list (Z * Reply);
  sp_done : list (Z * Call * Reply);
  sp_waiting : option Call
}.

Definition ask (c : Call) (w : Script) : option Reply * Script :=
  match sp_waiting w, sp_replies w with
  | Some _, _ => (None, w)
  | None, [] => (None, mkScript [] (sp_done w) (Some c))
  | None, (t, r) :: rs => (Some r, mkScript rs (sp_done w ++ [(t, c, r)]) None)
  end.

(** A call that fails on a reply that is not for it; without a reply the run
    stops. *)
Definition call {E A} (c : Call) (e : E) (f : Reply → option A) : M Script E A := fun w =>
  match ask c w with
  | (Some r, w') => (match f r with Some a => Ret a | None => Throw e end, w')
  | (None, w') => (Panic, w')
  end.

(** The interfaces of the code on the scripted world. *)
#[export] Instance script_storage : StorageConfigClient Script unit := {
  sc_get_object k := call (CGet k) tt (fun r => match r with RObject o => Some (mkObject <$> o) | _ => None end);
  sc_put_object k v := call (CPut k v) tt (fun r => match r with RDone => Some tt | _ => None end);
  sc_delete_object k := call (CDelete k) tt (fun r => match r with RDone => Some tt | _ => None end);
  sc_get_time := mthrow tt
}.

#[export] Instance script_runtime : Runtime Script := {
  rt_now w := let '(r, w') := ask CNow w in (default 0%Z (time_of <$> r), w');
  rt_uuid w := let '(r, w') := ask CUuid w in (default "" (text_of <$> r), w');
  rt_jitter w := let '(r, w') := ask CJitter w in (default 0%Z (time_of <$> r), w');
  rt_sleep n w := (ask (CSleep n) w).2
}.

Definition value_of (r : Reply) : option CryptoResponse := match r with RValue v => Some (mkCryptoResponse v) | _ => None end.

(** E3 as the key pair uses it. *)
#[export] Instance script_e3 : E3Api Script := {
  e3_decrypt _ := mthrow (General "not used");
  e3_crypto_decrypt q := call (CDecrypt (cr_data q)) (FailedRequest 500) value_of;
  e3_encrypt q _ := call (CEncrypt (cr_data q)) (FailedRequest 500) value_of;
  e3_authenticate _ _ := mthrow (General "not used")
}.

(** ** Watching the calls

    An automaton reads the calls with their replies; [None] is a call it
    forbids. *)

Section Watch.
Context {Ph : Type} (adv : Ph → Z → Call → Reply → option Ph) (start : Ph).

Fixpoint watch (p : Ph) (log : list (Z * Call * Reply)) : option Ph :=
  match log with
  | [] => Some p
  | (t, c, r) :: log => p' ← adv p t c r; watch p' log
  end.

Lemma watch_app p l1 l2 : watch p (l1 ++ l2) = p' ← watch p l1; watch p' l2.
Proof.
  revert p. induction l1 as [|[[t c] r] l1 IH]; intros p; [done|]. cbn [app watch].
  destruct (adv p t c r); [apply IH|done].
Qed.

(** What was done so far is allowed, and unless the run has stopped the
    automaton is in [P]. *)
Definition at_phase (P : Ph → Prop) (w : Script) : Prop :=
  ∃ p, watch start (sp_done w) = Some p ∧ (sp_waiting w = None → P p).

(** From a state in [P] the code keeps to what is allowed, and returns in [Q]. *)
Definition obeys {E A} (P : Ph → Prop) (m : M Script E A) (Q : A → Ph → Prop) : Prop :=
  ∀ w, at_phase P w →
  match m w with
  | (Ret a, w') => at_phase (Q a) w'
  | (_, w') => at_phase (fun _ => True) w'
  end.

Lemma at_phase_weaken (P Q : Ph → Prop) w : (∀ p, P p → Q p) → at_phase P w → at_phase Q w.
Proof. intros H (p & Hp & HP). exists p. auto. Qed.

Lemma obeys_ret {E A} (a : A) (Q : A → Ph → Prop) : obeys (Q a) (mret (E := E) a) Q.
Proof. by intros w Hw. Qed.

Lemma obeys_throw {E A} (e : E) (P : Ph → Prop) (Q : A → Ph → Prop) : obeys P (mthrow e) Q.
Proof. intros w Hw. by apply (at_phase_weaken P). Qed.

Lemma obeys_weaken {E A} (P P' : Ph → Prop) (m : M Script E A) (Q Q' : A → Ph → Prop) :
  obeys P' m Q' → (∀ p, P p → P' p) → (∀ a p, Q' a p → Q a p) → obeys P m Q.
Proof.
  intros Hm HP HQ w Hw. specialize (Hm w (at_phase_weaken _ _ _ HP Hw)).
  destruct (m w) as [[a|e|] w']; [|done..]. by apply (at_phase_weaken (Q' a)); [apply HQ|].
Qed.

Lemma obeys_bind {E A B} P (m : M Script E A) (Q : A → Ph → Prop) (f : A → M Script E B) R :
  obeys P m Q → (∀ a, obeys (Q a) (f a) R) → obeys P (Prelude.mbind m f) R.
Proof.
  intros Hm Hf w Hw. specialize (Hm w Hw). unfold Prelude.mbind. destruct (m w) as [[a|e|] w']; [|done..].
  by apply Hf.
Qed.

Lemma obeys_bind_ran {E A B} P (m : M Script E A) (Q : A → Ph → Prop) (f : A → M Script E B) R :
  obeys P m Q → (∀ a w w', m w = (Ret a, w') → obeys (Q a) (f a) R) → obeys P (Prelude.mbind m f) R.
Proof.
  intros Hm Hf w Hw. specialize (Hm w Hw). unfold Prelude.mbind. destruct (m w) as [[a|e|] w'] eqn:Em; [|done..].
  by apply (Hf a w w').
Qed.

Lemma obeys_lift {E A} (P : Ph → Prop) (r : result E A) : obeys P (mlift r) (fun _ => P).
Proof. destruct r; [apply obeys_ret with (Q := fun _ => P)|apply obeys_throw]. Qed.

Lemma obeys_map_err {E F A} (g : E → F) P (m : M Script E A) Q : obeys P m Q → obeys P (mmap_err g m) Q.
Proof. intros Hm w Hw. specialize (Hm w Hw). unfold mmap_err. by destruct (m w) as [[a|e|] w']. Qed.

(** A call is allowed when the automaton goes on with every reply. *)
Lemma ask_obeys (P : Ph → Prop) c w : at_phase P w → (∀ p t r, P p → is_Some (adv p t c r)) →
  match ask c w with
  | (Some r, w') => sp_waiting w' = None ∧ ∃ p t, P p ∧ watch start (sp_done w') = adv p t c r
  | (None, w') => sp_waiting w' ≠ None ∧ at_phase (fun _ => True) w'
  end.
Proof.
  intros (p & Hp & HP) Ha. unfold ask. destruct (sp_waiting w) as [c'|] eqn:Ew; [split; [by rewrite Ew|by exists p]|].
  destruct (sp_replies w) as [|[t r] rs]; [split; [done|by exists p]|]. split; [done|].
  exists p, t. split; [auto|]. cbn [sp_done]. rewrite watch_app, Hp. cbn. by destruct (adv p t c r).
Qed.

Lemma obeys_call {E A} (P : Ph → Prop) c (e : E) (f : Reply → option A) (Q : A → Ph → Prop) :
  (∀ p t r, P p → ∃ p', adv p t c r = Some p' ∧ ∀ a, f r = Some a → Q a p') → obeys P (call c e f) Q.
Proof.
  intros Ha w Hw. unfold call. pose proof (ask_obeys P c w Hw) as Hk.
  destruct (ask c w) as [[r|] w']; [|apply Hk; intros p t r Hp; destruct (Ha p t r Hp) as (p' & -> & _); by eexists].
  destruct Hk as (Hn & p & t & Hp & Hf); [intros p t r' Hp; destruct (Ha p t r' Hp) as (p' & -> & _); by eexists|].
  destruct (Ha p t r Hp) as (p' & Hp' & Hq). destruct (f r) as [a|] eqn:Ef; exists p'; (split; [congruence|]); auto.
Qed.

(** The calls of the runtime return whatever they are answered. *)
Lemma obeys_runtime {E A} (P : Ph → Prop) c (m : M Script E A) (g : option Reply → A) (Q : A → Ph → Prop) :
  (∀ w, m w = let '(r, w') := ask c w in (Ret (g r), w')) →
  (∀ p t r, P p → ∃ p', adv p t c r = Some p' ∧ Q (g (Some r)) p') → obeys P m Q.
Proof.
  intros Hm Ha w Hw. rewrite Hm. pose proof (ask_obeys P c w Hw) as Hk.
  destruct (ask c w) as [[r|] w'].
  - destruct Hk as (Hn & p & t & Hp & Hf); [intros p t r' Hp; destruct (Ha p t r' Hp) as (p' & -> & _); by eexists|].
    destruct (Ha p t r Hp) as (p' & Hp' & Hq). exists p'. split; [congruence|]. auto.
  - destruct Hk as [Hn (p & Hp & _)]; [intros p t r' Hp; destruct (Ha p t r' Hp) as (p' & -> & _); by eexists|].
    exists p. by split.
Qed.

(** Either way. *)
Lemma obeys_or {E A} (P P' : Ph → Prop) (m : M Script E A) (Q : A → Ph → Prop) :
  obeys P m Q → obeys P' m Q → obeys (fun p => P p ∨ P' p) m Q.
Proof.
  intros H H' w (p & Hp & HP). destruct (sp_waiting w) eqn:Ew.
  - apply H. exists p. by rewrite Ew.
  - destruct HP as [HP|HP]; [done| |]; [apply H|apply H']; exists p; by rewrite Ew.
Qed.

End Watch.

#[local] Notation AE := (DpAcmeError (CE := unit)).

Definition script_key : M Script AE Key := call CKey AeOpenSsl (fun r => match r with RKey k => Some k | _ => None end).

(** ** The program of an instance *)

Context (lock_to_json : StorageLock → string) (lock_from_json : string → option StorageLock).
Context (public_pem private_pem : Key → option bytes) (key_from_pem : string → option Key).
Context (pair_to_value : RawAcmeKeyPair → Value) (value_to_pair : Value → option RawAcmeKeyPair).

Definition key_program : M Script AE Key :=
  get_or_create_enclave_key_pair lock_to_json lock_from_json public_pem private_pem key_from_pem script_key
    pair_to_value value_to_pair.

Definition run_script (replies : list (Z * Reply)) : exec AE Key * Script := key_program (mkScript replies [] None).

(** ** The protocol of the lock *)

Definition KEY_LOCK : string := KEY_PAIR_LOCK_NAME +:+ ".lock".

Definition is_key (k k' : string) : bool := String.eqb k k'.

(** Where an instance is: it has read a lock at [r] and looks whether it is
    expired; it has found none at [r] and makes its own; it has written its
    lock at [w], waits and checks; it holds it. *)
Inductive Stage : Type :=
| Fresh
| Sealed (p : RawAcmeKeyPair)
| HalfStored (p : RawAcmeKeyPair)
| Stored (p : RawAcmeKeyPair)
| Failed.

(** Under the lock the key pair is made, sealed by E3 and stored, the public
    half first. *)
Definition work (g : Stage) (c : Call) (r : Reply) : option Stage :=
  match g, c with
  | Fresh, CKey => Some (match r with RKey _ => Fresh | _ => Failed end)
  | Fresh, CEncrypt _ =>
      Some (match r with RValue v => match value_to_pair v with Some p => Sealed p | None => Failed end | _ => Failed end)
  | Sealed p, CPut k v =>
      if is_key k PUBLIC_KEY_OBJECT_KEY && String.eqb v (public_key p)
      then Some (match r with RDone => HalfStored p | _ => Failed end) else None
  | HalfStored p, CPut k v =>
      if is_key k PRIVATE_KEY_OBJECT_KEY && String.eqb v (pair_private_key p)
      then Some (match r with RDone => Stored p | _ => Failed end) else None
  | _, _ => None
  end.

Inductive Phase : Type :=
| Idle
| Saw (r : Z) (l : StorageLock)
| Clear (r : Z)
| Named (r : Z) (uuid : string)
| Made (r : Z) (l : StorageLock)
| Wrote (w : Z) (l : StorageLock)
| Slept (w : Z) (l : StorageLock)
| Holds (w : Z) (l : StorageLock) (g : Stage).

(** What a call does to the phase; [None] is a call the protocol forbids. *)
Definition advance (p : Phase) (t : Z) (c : Call) (r : Reply) : option Phase :=
  match p, c with
  | Idle, CGet k =>
      if is_key k KEY_LOCK then
        match r with
        | RObject None => Some (Clear t)
        | RObject (Some s) => match lock_from_json s with Some l => Some (Saw t l) | None => Some Idle end
        | _ => Some Idle
        end
      else Some Idle
  | Idle, CSleep _ => Some Idle
  | Idle, CDecrypt _ => Some Idle
  | Saw r0 l, CNow => Some (if (lk_expiry_time l <? time_of r)%Z then Clear r0 else Idle)
  | Clear r0, CUuid => Some (Named r0 (text_of r))
  | Named r0 u, CNow => Some (Made r0 (mkLock KEY_PAIR_LOCK_NAME u (time_of r + 30000) (Some 0%N)))
  | Made r0 l, CPut k v =>
      if is_key k KEY_LOCK && String.eqb v (lock_to_json l)
      then Some (match r with RDone => Wrote t l | _ => Idle end) else None
  | Wrote w l, CSleep n => if (n =? 2)%Z then Some (Slept w l) else None
  | Slept w l, CGet k =>
      if is_key k KEY_LOCK then
        match r with
        | RObject (Some s) =>
            match lock_from_json s with
            | Some l' => Some (if has_uuid l' (lk_uuid l) then Holds w l Fresh else Idle)
            | None => Some Idle
            end
        | _ => Some Idle
        end
      else None
  | Holds w l (Stored _), CDelete k => if is_key k KEY_LOCK then Some Idle else None
  | Holds w l g, _ => Holds w l <$> work g c r
  | _, _ => None
  end.

(** ** The code follows the protocol *)

#[local] Notation follows := (obeys advance Idle).

Ltac by_reply := eexists; split; [reflexivity|]; intros; simplify_eq/=; eauto.

Lemma follows_now_saw l : follows (fun p => ∃ r, p = Saw r l) (now (E := AE))
  (fun t p => ∃ r, p = if (lk_expiry_time l <? t)%Z then Clear r else Idle).
Proof.
  apply obeys_runtime with (c := CNow) (g := fun r => default 0%Z (time_of <$> r)).
  - intros w. unfold now, rt_now. cbn. by destruct (ask CNow w).
  - intros p t r [r0 ->]. cbn. eauto.
Qed.

Lemma follows_uuid : follows (fun p => ∃ r, p = Clear r) (new_uuid (E := AE)) (fun u p => ∃ r, p = Named r u).
Proof.
  apply obeys_runtime with (c := CUuid) (g := fun r => default "" (text_of <$> r)).
  - intros w. unfold new_uuid, rt_uuid. cbn. by destruct (ask CUuid w).
  - intros p t r [r0 ->]. cbn. eauto.
Qed.

Lemma follows_now_named u : follows (fun p => ∃ r, p = Named r u) (now (E := AE))
  (fun t p => ∃ r, p = Made r (mkLock KEY_PAIR_LOCK_NAME u (t + 30000) (Some 0%N))).
Proof.
  apply obeys_runtime with (c := CNow) (g := fun r => default 0%Z (time_of <$> r)).
  - intros w. unfold now, rt_now. cbn. by destruct (ask CNow w).
  - intros p t r [r0 ->]. cbn. eauto.
Qed.

Lemma follows_sleep n (P Q : Phase → Prop) :
  (∀ p t r, P p → ∃ p', advance p t (CSleep n) r = Some p' ∧ Q p') → follows P (sleep (E := AE) n) (fun _ => Q).
Proof.
  intros Ha. apply obeys_runtime with (c := CSleep n) (g := fun _ => tt); [|done].
  intros w. unfold sleep, mmodify, rt_sleep. cbn. by destruct (ask (CSleep n) w).
Qed.

Lemma follows_new_lock : follows (fun p => ∃ r, p = Clear r) (StorageLock_new (CE := unit) KEY_PAIR_LOCK_NAME 0)
  (fun l p => ∃ r, p = Made r l).
Proof.
  unfold StorageLock_new. eapply obeys_bind; [apply follows_uuid|intros u].
  eapply obeys_bind; [apply follows_now_named|intros t]. apply obeys_ret with (Q := fun l p => ∃ r, p = Made r l).
Qed.

Lemma follows_check l : lk_name l = KEY_PAIR_LOCK_NAME →
  follows (fun p => ∃ r, p = Made r l) (write_and_check_persisted lock_to_json lock_from_json l)
    (fun held p => if held : bool then ∃ w, p = Holds w l Fresh else p = Idle).
Proof.
  intros Hn. assert (lock_key_name l = KEY_LOCK) as Hk by (unfold lock_key_name; by rewrite Hn).
  unfold write_and_check_persisted, write_lock, is_persisted. rewrite Hk.
  eapply obeys_bind with (Q := fun _ p => ∃ w, p = Wrote w l).
  { apply obeys_map_err, obeys_call. intros p t r [r0 ->]. cbn. rewrite String.eqb_refl.
    by destruct r; by_reply. }
  intros []. eapply obeys_bind with (Q := fun _ p => ∃ w, p = Slept w l).
  { apply follows_sleep. intros p t r [r0 ->]. cbn. eauto. }
  intros []. eapply obeys_bind with (Q := fun o p => match o with
    | Some x => match lock_from_json (go_body x) with
        Some l' => if has_uuid l' (lk_uuid l) then ∃ w, p = Holds w l Fresh else p = Idle | None => True end
    | None => p = Idle end).
  { apply obeys_map_err, obeys_call. intros p t r [r0 ->]. cbn.
    destruct r as [[s|]| | | | | |]; cbn; [|by_reply..].
    destruct (lock_from_json s) as [l'|] eqn:El; (eexists; split; [done|]); intros a [= <-]; cbn; rewrite El; [|done].
    destruct (has_uuid l' (lk_uuid l)); eauto. }
  set (Q := fun (held : bool) p => if held then ∃ w, p = Holds w l Fresh else p = Idle).
  intros [x|]; [|apply (obeys_ret advance Idle false Q)]. destruct (lock_from_json (go_body x)) as [l'|]; intros w Hw; [|done].
  cbn. by destruct (has_uuid l' (lk_uuid l)).
Qed.

Lemma follows_generate l : follows (fun p => ∃ w, p = Holds w l Fresh)
  (generate_with_new_key_pair public_pem private_pem script_key) (fun _ p => ∃ w, p = Holds w l Fresh).
Proof.
  unfold generate_with_new_key_pair.
  eapply obeys_bind with (Q := fun _ p => ∃ w, p = Holds w l Fresh); [|intros k; apply obeys_lift].
  apply obeys_call. intros p t r [w0 ->]. cbn. destruct r; by_reply.
Qed.

Lemma follows_encrypt l raw : follows (fun p => ∃ w, p = Holds w l Fresh)
  (encrypt_key_pair (CE := unit) pair_to_value value_to_pair raw) (fun e p => ∃ w, p = Holds w l (Sealed e)).
Proof.
  unfold encrypt_key_pair, in_e3. eapply obeys_bind with (Q := fun x p =>
    ∀ e, value_to_pair (cs_data x) = Some e → ∃ w, p = Holds w l (Sealed e)).
  { apply obeys_map_err, obeys_call. intros p t r [w0 ->]. cbn. eexists. split; [done|].
    intros a Ha e He. destruct r; simplify_eq/=. rewrite He. by eexists. }
  intros x. destruct (value_to_pair (cs_data x)) as [e|]; [|apply obeys_throw].
  eapply obeys_weaken; [apply (obeys_ret advance Idle e (fun e p => ∃ w, p = Holds w l (Sealed e)))|by intros p Hp; apply Hp|done].
Qed.

Lemma follows_persist l e : follows (fun p => ∃ w, p = Holds w l (Sealed e)) (pair_persist (CE := unit) e)
  (fun _ p => ∃ w, p = Holds w l (Stored e)).
Proof.
  unfold pair_persist. eapply obeys_bind with (Q := fun _ p => ∃ w, p = Holds w l (HalfStored e)).
  - apply obeys_map_err, obeys_call. intros p t r [w ->]. cbn. rewrite String.eqb_refl. destruct r; by_reply.
  - intros []. apply obeys_map_err, obeys_call. intros p t r [w ->]. cbn. rewrite String.eqb_refl. destruct r; by_reply.
Qed.

Lemma follows_delete l e : lk_name l = KEY_PAIR_LOCK_NAME →
  follows (fun p => ∃ w, p = Holds w l (Stored e)) (delete_lock l) (fun _ p => p = Idle).
Proof.
  intros Hn. assert (lock_key_name l = KEY_LOCK) as Hk by (unfold lock_key_name; by rewrite Hn).
  unfold delete_lock. rewrite Hk. apply obeys_map_err, obeys_call. intros p t r [w ->]. cbn. eauto.
Qed.

Lemma follows_create : follows (fun p => ∃ r, p = Clear r)
  (create_key_pair_and_persist_with_lock lock_to_json lock_from_json public_pem private_pem key_from_pem script_key
    pair_to_value value_to_pair) (fun _ p => p = Idle).
Proof.
  unfold create_key_pair_and_persist_with_lock.
  eapply obeys_bind_ran; [apply follows_new_lock|]. intros l w w' Hn%StorageLock_new_name.
  eapply obeys_bind; [by apply follows_check|intros held]. destruct held; [|apply obeys_ret with (Q := fun _ p => p = Idle)].
  eapply obeys_bind; [apply follows_generate|intros raw]. eapply obeys_bind; [apply follows_encrypt|intros e].
  eapply obeys_bind; [apply follows_persist|intros []]. eapply obeys_bind; [by apply follows_delete|intros []].
  eapply obeys_bind; [apply obeys_lift|intros k; apply obeys_ret with (Q := fun _ p => p = Idle)].
Qed.

Lemma follows_get_pair k : is_key k KEY_LOCK = false →
  follows (fun p => p = Idle) (cfg (sc_get_object k)) (fun _ p => p = Idle).
Proof. intros Hk. apply obeys_map_err, obeys_call. intros p t r ->. cbn [advance]. rewrite Hk. eauto. Qed.

Lemma follows_read_lock : follows (fun p => p = Idle) (read_from_storage (CE := unit) lock_from_json KEY_PAIR_LOCK_NAME)
  (fun o p => match o with Some l => ∃ r, p = Saw r l | None => ∃ r, p = Clear r end).
Proof.
  unfold read_from_storage. eapply obeys_bind with (Q := fun o p => match o with
    | Some x => match lock_from_json (go_body x) with Some l => ∃ r, p = Saw r l | None => True end
    | None => ∃ r, p = Clear r end).
  { apply obeys_map_err, obeys_call. intros p t r ->. cbn.
    destruct r as [[s|]| | | | | |]; cbn; [|by_reply..].
    destruct (lock_from_json s) as [l'|] eqn:El; (eexists; split; [done|]); intros a [= <-]; cbn; rewrite El; eauto. }
  set (Q := fun (o : option StorageLock) p => match o with Some l => ∃ r, p = Saw r l | None => ∃ r, p = Clear r end).
  intros [x|]; [|apply (obeys_ret advance Idle None Q)]. by destruct (lock_from_json (go_body x)) as [l|]; intros w Hw.
Qed.

Lemma follows_round : follows (fun p => p = Idle)
  (key_round lock_to_json lock_from_json public_pem private_pem key_from_pem script_key pair_to_value value_to_pair)
  (fun _ p => p = Idle).
Proof.
  unfold key_round, pair_from_storage. eapply obeys_bind with (Q := fun _ p => p = Idle).
  { eapply obeys_bind; [by apply follows_get_pair|intros pub].
    eapply obeys_bind; [by apply follows_get_pair|intros priv].
    destruct pub, priv; apply obeys_ret with (Q := fun _ p => p = Idle). }
  intros [pair|].
  - eapply obeys_bind with (Q := fun _ p => p = Idle).
    { unfold decrypt_key_pair, in_e3. eapply obeys_bind with (Q := fun _ p => p = Idle); [|intros x; apply obeys_lift].
      apply obeys_map_err, obeys_call. intros p t r ->. cbn. eauto. }
    intros d. eapply obeys_bind; [apply obeys_lift|intros k; apply obeys_ret with (Q := fun _ p => p = Idle)].
  - eapply obeys_bind; [apply follows_read_lock|intros [l|]; [|apply follows_create]].
    unfold is_expired. eapply obeys_bind with (Q := fun (e : bool) p => if e then ∃ r, p = Clear r else p = Idle).
    { eapply obeys_bind; [apply follows_now_saw|intros t].
      eapply obeys_weaken; [apply (obeys_ret advance Idle _ (fun (e : bool) p => if e then ∃ r, p = Clear r else p = Idle))| |done].
      intros p [r ->]. destruct (lk_expiry_time l <? t)%Z; eauto. }
    intros [|]; [apply follows_create|apply obeys_ret with (Q := fun _ p => p = Idle)].
Qed.

Lemma follows_rounds n : follows (fun p => p = Idle)
  (key_rounds lock_to_json lock_from_json public_pem private_pem key_from_pem script_key pair_to_value value_to_pair n)
  (fun _ p => p = Idle).
Proof.
  induction n as [|n IH]; cbn [key_rounds]; [apply obeys_throw|].
  eapply obeys_bind; [apply follows_round|intros [k|]]; [apply obeys_ret with (Q := fun _ p => p = Idle)|].
  eapply obeys_bind; [apply follows_sleep|intros []; exact IH]. intros p t r ->. cbn. eauto.
Qed.

(** Whatever an instance is answered, it keeps to the protocol of the lock. *)
Lemma key_program_follows replies : is_Some (watch advance Idle (sp_done (run_script replies).2)).
Proof.
  pose proof (follows_rounds 4 (mkScript replies [] None)) as H. unfold run_script, key_program, get_or_create_enclave_key_pair.
  destruct (key_rounds _ _ _ _ _ _ _ _ _ _) as [[k|e|] w']; (destruct H as (p & Hp & _); [by exists Idle|by exists p]).
Qed.

(** ** An instance that finds the key pair *)

(** Nothing that was done is forgotten, and a run that has stopped does nothing. *)
Definition grows {E A} (m : M Script E A) : Prop := ∀ w, sp_done w `prefix_of` sp_done (m w).2 ∧
  (sp_waiting w ≠ None → (m w).2 = w).

Lemma grows_ret {E A} (a : A) : grows (mret (E := E) a).
Proof. by intros w. Qed.
Lemma grows_throw {E A} (e : E) : grows (mthrow (A := A) e).
Proof. by intros w. Qed.
Lemma grows_lift {E A} (r : result E A) : grows (mlift r).
Proof. by destruct r; intros w. Qed.
Lemma grows_map_err {E F A} (g : E → F) (m : M Script E A) : grows m → grows (mmap_err g m).
Proof. intros H w. specialize (H w). unfold mmap_err. by destruct (m w) as [[|?|] w']. Qed.
Lemma grows_bind {E A B} (m : M Script E A) (f : A → M Script E B) :
  grows m → (∀ a, grows (f a)) → grows (Prelude.mbind m f).
Proof.
  intros H Hf w. specialize (H w). unfold Prelude.mbind. destruct (m w) as [[a|e|] w']; [|done..].
  destruct H as [Hp Hw], (Hf a w') as [Hp' Hw']. split; [by etrans|]. cbn in *. intros Hn.
  specialize (Hw Hn) as ->. auto.
Qed.

Lemma ask_grows c w : sp_done w `prefix_of` sp_done (ask c w).2 ∧ (sp_waiting w ≠ None → (ask c w).2 = w).
Proof. unfold ask. destruct (sp_waiting w); [done|]. destruct (sp_replies w) as [|[t r] rs]; [done|]. split; [by eexists|done]. Qed.

Lemma grows_call {E A} c (e : E) (f : Reply → option A) : grows (call c e f).
Proof. intros w. pose proof (ask_grows c w) as H. unfold call. by destruct (ask c w) as [[r|] w']. Qed.
Lemma grows_now : grows (now (E := AE)).
Proof. intros w. pose proof (ask_grows CNow w) as H. unfold now. cbn. by destruct (ask CNow w). Qed.
Lemma grows_uuid : grows (new_uuid (E := AE)).
Proof. intros w. pose proof (ask_grows CUuid w) as H. unfold new_uuid. cbn. by destruct (ask CUuid w). Qed.
Lemma grows_sleep n : grows (sleep (E := AE) n).
Proof. intros w. apply (ask_grows (CSleep n) w). Qed.
Lemma grows_get k : grows (sc_get_object k).
Proof. apply grows_call. Qed.
Lemma grows_put k v : grows (sc_put_object k v).
Proof. apply grows_call. Qed.
Lemma grows_delete k : grows (sc_delete_object k).
Proof. apply grows_call. Qed.
Lemma grows_encrypt q d : grows (e3_encrypt q d).
Proof. apply grows_call. Qed.
Lemma grows_decrypt q : grows (e3_crypto_decrypt q).
Proof. apply grows_call. Qed.

Create HintDb script.
#[local] Hint Resolve grows_ret grows_throw grows_lift grows_map_err grows_bind grows_call grows_now grows_uuid
  grows_sleep grows_get grows_put grows_delete grows_encrypt grows_decrypt : script.

Ltac grow := repeat first
  [ apply grows_bind; [|intros ?] | match goal with |- grows (match ?x with _ => _ end) => destruct x end
  | solve [eauto 3 with script] ].

Lemma grows_create : grows (create_key_pair_and_persist_with_lock lock_to_json lock_from_json public_pem private_pem
  key_from_pem script_key pair_to_value value_to_pair).
Proof.
  unfold create_key_pair_and_persist_with_lock, StorageLock_new, write_and_check_persisted, write_lock, is_persisted,
    generate_with_new_key_pair, encrypt_key_pair, pair_persist, delete_lock, script_key, in_e3, cfg. grow.
Qed.
#[local] Hint Resolve grows_create : script.

Lemma grows_read : grows (pair_from_storage (CE := unit)).
Proof. unfold pair_from_storage, cfg. grow. Qed.

Lemma grows_found p : grows (let! d := decrypt_key_pair (CE := unit) pair_to_value value_to_pair p in
  mlift (key_pair key_from_pem d)).
Proof. unfold decrypt_key_pair, in_e3. grow. Qed.

Lemma grows_unfound : grows (let! existing_lock := read_from_storage (CE := unit) lock_from_json KEY_PAIR_LOCK_NAME in
  match existing_lock with
  | Some lock =>
      let! expired := is_expired lock in
      if expired then create_key_pair_and_persist_with_lock lock_to_json lock_from_json public_pem private_pem
        key_from_pem script_key pair_to_value value_to_pair else mret None
  | None => create_key_pair_and_persist_with_lock lock_to_json lock_from_json public_pem private_pem
        key_from_pem script_key pair_to_value value_to_pair
  end).
Proof. unfold read_from_storage, is_expired, cfg. grow. Qed.

Lemma grows_rounds n : grows (key_rounds lock_to_json lock_from_json public_pem private_pem key_from_pem script_key
  pair_to_value value_to_pair n).
Proof.
  induction n as [|n IH]; cbn [key_rounds]; [apply grows_throw|].
  apply grows_bind; [|intros [k|]; grow]. unfold key_round. apply grows_bind; [apply grows_read|intros [p|]].
  - unfold decrypt_key_pair, in_e3. grow.
  - apply grows_unfound.
Qed.

Lemma after_read_grows n w w' : pair_from_storage (CE := unit) w = (Ret None, w') →
  sp_done w' `prefix_of` sp_done (key_rounds lock_to_json lock_from_json public_pem private_pem
      key_from_pem script_key pair_to_value value_to_pair (S n) w).2.
Proof.
  intros H. cbn [key_rounds]. unfold key_round, Prelude.mbind at 1 2. rewrite H.
  refine (proj1 (grows_bind _ (fun k => match k with Some k => mret k | None => _ end) grows_unfound _ w')).
  intros [k|]; [apply grows_ret|]. apply grows_bind; [apply grows_sleep|intros []; apply grows_rounds].
Qed.

Definition reads (c : Call) : bool :=
  match c with CPut _ _ | CDelete _ => false | _ => true end.

(** What reading the pair at the start of a run does. *)
Lemma pair_read replies : match pair_from_storage (CE := unit) (mkScript replies [] None) with
  | (Ret (Some p), w) => ∃ t1 t2 rs, w = mkScript rs
      [(t1, CGet PUBLIC_KEY_OBJECT_KEY, RObject (Some (public_key p)));
       (t2, CGet PRIVATE_KEY_OBJECT_KEY, RObject (Some (pair_private_key p)))] None
  | (Ret None, w) => ∃ t k, (t, CGet k, RObject None) ∈ sp_done w ∧
      (k = PUBLIC_KEY_OBJECT_KEY ∨ k = PRIVATE_KEY_OBJECT_KEY)
  | (_, w) => Forall (fun e => reads e.1.2 = true) (sp_done w)
  end.
Proof.
  destruct replies as [|[t1 r1] rs]; [constructor|].
  destruct r1 as [o1| | | | | |]; [|by repeat constructor..].
  destruct rs as [|[t2 r2] rs]; [by destruct o1; repeat constructor|].
  destruct r2 as [o2| | | | | |]; [|by destruct o1; repeat constructor..].
  destruct o1 as [s1|]; [|by exists t1, PUBLIC_KEY_OBJECT_KEY; destruct o2; (split; [left|by left])].
  destruct o2 as [s2|]; [by exists t1, t2, rs|]. exists t2, PRIVATE_KEY_OBJECT_KEY. split; [right; left|by right].
Qed.

Lemma found_round n p w w' : pair_from_storage (CE := unit) w = (Ret (Some p), w') →
  key_rounds lock_to_json lock_from_json public_pem private_pem key_from_pem script_key pair_to_value value_to_pair
    (S n) w = (let! d := decrypt_key_pair pair_to_value value_to_pair p in mlift (key_pair key_from_pem d)) w'.
Proof.
  intros H. cbn [key_rounds]. unfold key_round, Prelude.mbind at 1 2. rewrite H. unfold Prelude.mbind.
  destruct (decrypt_key_pair _ _ _ _) as [[d|e|] w1]; [|done..]. by destruct (key_pair _ d).
Qed.

Definition is_Ret {E A} (r : exec E A) : bool := match r with Ret _ => true | _ => false end.

Lemma stopped_round n w r w' : pair_from_storage (CE := unit) w = (r, w') → is_Ret r = false →
  (key_rounds lock_to_json lock_from_json public_pem private_pem key_from_pem script_key pair_to_value value_to_pair
    (S n) w).2 = w' ∧
  is_Ret (key_rounds lock_to_json lock_from_json public_pem private_pem key_from_pem script_key pair_to_value
    value_to_pair (S n) w).1 = false.
Proof.
  intros H Hr. cbn [key_rounds]. unfold key_round, Prelude.mbind. rewrite H. by destruct r.
Qed.

(** An instance that is answered with a key pair has E3 decrypt that pair,
    returns its key, and writes nothing. *)
Lemma found_pair replies pub priv :
  (∀ t k o, (t, CGet k, RObject o) ∈ sp_done (run_script replies).2 →
    (k = PUBLIC_KEY_OBJECT_KEY → o = Some pub) ∧ (k = PRIVATE_KEY_OBJECT_KEY → o = Some priv)) →
  Forall (fun e => reads e.1.2 = true) (sp_done (run_script replies).2) ∧
  ∀ k, (run_script replies).1 = Ret k → ∃ t v pair,
    (t, CDecrypt (pair_to_value (mkPair pub priv)), RValue v) ∈ sp_done (run_script replies).2 ∧
    value_to_pair v = Some pair ∧ key_from_pem (pair_private_key pair) = Some k.
Proof.
  unfold run_script, key_program, get_or_create_enclave_key_pair. intros H. pose proof (pair_read replies) as Hp.
  destruct (pair_from_storage (mkScript replies [] None)) as [r w] eqn:Er.
  destruct (is_Ret r) eqn:Ei.
  - destruct r as [[p|]|e|]; [| |done..].
    + rewrite (found_round 3 p _ _ Er) in *. destruct Hp as (t1 & t2 & rs & ->).
      assert (p = mkPair pub priv) as ->.
      { pose proof (grows_found p) as Hg.
        destruct (H t1 PUBLIC_KEY_OBJECT_KEY (Some (public_key p))) as [Ha _]; [eapply elem_of_prefix, (Hg _); left|].
        destruct (H t2 PRIVATE_KEY_OBJECT_KEY (Some (pair_private_key p))) as [_ Hb]; [eapply elem_of_prefix, (Hg _); right; left|].
        destruct p as [x y]. specialize (Ha eq_refl). specialize (Hb eq_refl). by simplify_eq/=. }
      clear H. destruct rs as [|[t3 r3] rs]; [split; [by repeat constructor|done]|].
      destruct r3; try (split; [by repeat constructor|done]).
      unfold decrypt_key_pair, in_e3, Prelude.mbind, mmap_err. cbn. destruct (value_to_pair v) as [d|] eqn:Ev; [|cbn; split; [by repeat constructor|done]].
      cbn. unfold key_pair. destruct (key_from_pem (pair_private_key d)) as [k|] eqn:Ek; [|cbn; split; [by repeat constructor|done]].
      cbn. split; [by repeat constructor|]. intros k' [= <-]. exists t3, v, d. split; [|done]. by do 2 right; left.
    + destruct Hp as (t & k & Hin & Hk). pose proof (after_read_grows 3 _ _ Er) as Hg.
      destruct (H t k None); [by eapply elem_of_prefix|]. naive_solver.
  - destruct (stopped_round 3 _ _ _ Er Ei) as [-> Hn]. split; [by destruct r|]. intros k Hk. by rewrite Hk in Hn.
Qed.

(** A run that returns a key has been answered. *)
Lemma call_answered {E F A} c (e : E) (f : Reply → option A) (g : E → F) w a w' :
  mmap_err g (call c e f) w = (Ret a, w') → sp_waiting w' = None.
Proof.
  unfold mmap_err, call, ask. destruct (sp_waiting w); [done|]. destruct (sp_replies w) as [|[t r] rs]; [done|].
  destruct (f r); [|done]. by intros [= _ <-].
Qed.

Lemma lift_quiet {E A} (r : result E A) w a w' : mlift (W := Script) r w = (Ret a, w') → w' = w.
Proof. destruct r; [by intros [= _ <-]|done]. Qed.

Lemma create_answered w k w' : create_key_pair_and_persist_with_lock lock_to_json lock_from_json public_pem private_pem
  key_from_pem script_key pair_to_value value_to_pair w = (Ret (Some k), w') → sp_waiting w' = None.
Proof.
  unfold create_key_pair_and_persist_with_lock. intros (l & w1 & _ & (held & w2 & _ & H)%mbind_inv)%mbind_inv.
  destruct held; [|done]. apply mbind_inv in H as (raw & w3 & _ & (e & w4 & _ & H)%mbind_inv).
  apply mbind_inv in H as ([] & w5 & _ & ([] & w6 & Hd%call_answered & H)%mbind_inv).
  apply mbind_inv in H as (x & w7 & ->%lift_quiet & [= _ <-]). done.
Qed.

Lemma round_answered w k w' : key_round lock_to_json lock_from_json public_pem private_pem key_from_pem script_key
  pair_to_value value_to_pair w = (Ret (Some k), w') → sp_waiting w' = None.
Proof.
  unfold key_round. intros ([p|] & w1 & _ & H)%mbind_inv.
  - apply mbind_inv in H as (d & w2 & (x & w3 & Hd%call_answered & ->%lift_quiet)%mbind_inv & H).
    apply mbind_inv in H as (y & w4 & ->%lift_quiet & [= _ <-]). done.
  - apply mbind_inv in H as ([lock|] & w2 & _ & H); [|by eapply create_answered].
    apply mbind_inv in H as ([] & w3 & _ & H); [by eapply create_answered|done].
Qed.

Lemma rounds_answered n w k w' : key_rounds lock_to_json lock_from_json public_pem private_pem key_from_pem script_key
  pair_to_value value_to_pair n w = (Ret k, w') → sp_waiting w' = None.
Proof.
  revert w. induction n as [|n IH]; intros w; cbn [key_rounds]; [done|].
  intros ([k'|] & w1 & H1 & H2)%mbind_inv.
  - injection H2 as -> ->. by eapply round_answered.
  - apply mbind_inv in H2 as (? & w2 & _ & H2). by eapply IH.
Qed.

Lemma key_answered replies k : (run_script replies).1 = Ret k → sp_waiting (run_script replies).2 = None.
Proof.
  unfold run_script, key_program, get_or_create_enclave_key_pair.
  destruct (key_rounds _ _ _ _ _ _ _ _ _ _) as [r w] eqn:E. cbn. intros ->. by eapply rounds_answered.
Qed.

(** ** An instance that waits

    While the storage has no public key and a lock that has not expired, an
    instance only reads. [Some false] is the state as long as this is what it is
    answered; after any other answer everything is allowed. *)
Definition patience (s : string) (l : StorageLock) (free : bool) (_ : Z) (c : Call) (r : Reply) : option bool :=
  if free then Some true
  else match c with
  | CGet k =>
      Some (if is_key k PUBLIC_KEY_OBJECT_KEY then match r with RObject (Some _) => true | _ => false end
            else if is_key k KEY_LOCK
              then match r with RObject (Some s') => negb (String.eqb s' s) | RObject None => true | _ => false end
            else false)
  | CNow => Some (lk_expiry_time l <? time_of r)%Z
  | CSleep _ => Some false
  | _ => None
  end.

Section Patience.
Context (s : string) (l : StorageLock) (Hs : lock_from_json s = Some l).
#[local] Notation patient := (obeys (patience s l) false).

Lemma free_stays log : watch (patience s l) true log = Some true.
Proof. by induction log as [|[[t c] r] log IH]. Qed.

(** Once it is free, anything goes. *)
Lemma patient_free {E A} (m : M Script E A) : grows m → patient (fun p => p = true) m (fun _ p => p = true).
Proof.
  intros Hg w (p & Hp & HP). destruct (Hg w) as [[ext Hx] Hw].
  assert (at_phase (patience s l) false (fun p => p = true) (m w).2) as Hq.
  { destruct (sp_waiting w) eqn:Ew; [rewrite Hw by done; exists p; by rewrite Ew|].
    specialize (HP eq_refl) as ->. exists true. split; [|done]. by rewrite Hx, watch_app, Hp; cbn; apply free_stays. }
  destruct (m w) as [[a|e|] w']; [done|..]; by eapply at_phase_weaken.
Qed.

Lemma patient_read : patient (fun _ => True) (pair_from_storage (CE := unit)) (fun o p => p = true ∨ o = None).
Proof.
  unfold pair_from_storage. eapply obeys_bind with (Q := fun o p => p = true ∨ o = None).
  { apply obeys_map_err, obeys_call. intros [] t r _; [by eexists; split; [done|left]|]. cbn. eexists. split; [done|].
    intros a Ha. destruct r as [[|]| | | | | |]; simplify_eq/=; auto. }
  intros pub. eapply obeys_bind with (Q := fun _ p => p = true ∨ pub = None).
  { apply obeys_map_err, obeys_call. intros [] t r Hp; [by eexists; split; [done|left]|]. cbn. eexists. split; [done|].
    naive_solver. }
  intros priv. destruct pub as [pub|], priv as [priv|];
    (eapply obeys_weaken; [apply (obeys_ret (patience s l) false _ (fun o p => p = true ∨ o = None))|naive_solver|done]).
Qed.

Lemma patient_lock : patient (fun _ => True) (read_from_storage (CE := unit) lock_from_json KEY_PAIR_LOCK_NAME)
  (fun o p => p = true ∨ o = Some l).
Proof.
  unfold read_from_storage. eapply obeys_bind with (Q := fun o p => p = true ∨ o = Some (mkObject s)).
  { apply obeys_map_err, obeys_call. intros [] t r _; [by eexists; split; [done|left]|]. cbn. eexists. split; [done|].
    intros a Ha. destruct r as [[s'|]| | | | | |]; simplify_eq/=; auto. destruct (String.eqb_spec s' s) as [->|]; auto. }
  set (Q := fun (o : option StorageLock) p => p = true ∨ o = Some l).
  intros [x|].
  - destruct (lock_from_json (go_body x)) as [l'|] eqn:El; [|apply obeys_throw].
    eapply obeys_weaken; [apply (obeys_ret (patience s l) false (Some l') Q)| |done].
    intros p [->|[= ->]]; [by left|]. right. cbn in El. congruence.
  - eapply obeys_weaken; [apply (obeys_ret (patience s l) false None Q)|by intros p [->|]; [left|]|done].
Qed.

Lemma patient_expired : patient (fun _ => True) (is_expired (CE := unit) l) (fun e p => p = true ∨ e = false).
Proof.
  unfold is_expired. eapply obeys_bind with (Q := fun t p => p = true ∨ (lk_expiry_time l <? t)%Z = false).
  { apply obeys_runtime with (c := CNow) (g := fun r => default 0%Z (time_of <$> r)).
    - intros w. unfold now, rt_now. cbn. by destruct (ask CNow w).
    - intros [] t r _; [by eexists; split; [done|left]|]. cbn. eexists. split; [done|].
      destruct (lk_expiry_time l <? time_of r)%Z; auto. }
  intros t. eapply obeys_weaken; [apply (obeys_ret (patience s l) false _ (fun e p => p = true ∨ e = false))|done|done].
Qed.

(** A fact about the run so far may be used unless the run has stopped. *)
Lemma patient_fact {E A} (φ : Prop) (m : M Script E A) Q : grows m → (φ → patient (fun _ => True) m Q) →
  patient (fun _ => φ) m Q.
Proof.
  intros Hg Hm w (p & Hp & HP). destruct (sp_waiting w) eqn:Ew.
  - destruct (Hg w) as [_ Hw]. specialize (Hw ltac:(by rewrite Ew)).
    destruct (m w) as [[a|e|] w']; cbn in Hw; subst w'; exists p; by rewrite Ew.
  - apply Hm; [auto|]. by exists p.
Qed.

Lemma patient_round : patient (fun _ => True)
  (key_round lock_to_json lock_from_json public_pem private_pem key_from_pem script_key pair_to_value value_to_pair)
  (fun o p => p = true ∨ o = None).
Proof.
  unfold key_round. eapply obeys_bind; [apply patient_read|intros [p|]].
  - eapply obeys_weaken; [apply patient_free; unfold decrypt_key_pair, in_e3; grow|naive_solver|by left].
  - eapply obeys_bind; [eapply obeys_weaken; [apply patient_lock|done|done]|intros o]. apply obeys_or.
    + eapply obeys_weaken; [apply patient_free|done|by left]. destruct o; unfold is_expired; grow.
    + apply patient_fact; [destruct o; unfold is_expired; grow|]. intros ->.
      eapply obeys_bind; [apply patient_expired|intros e]. apply obeys_or.
      * eapply obeys_weaken; [apply patient_free|done|by left]. destruct e; grow.
      * apply patient_fact; [destruct e; grow|]. intros ->.
        eapply obeys_weaken; [apply (obeys_ret (patience s l) false None (fun o p => p = true ∨ o = None))|by right|done].
Qed.

Lemma patient_rounds n : patient (fun _ => True)
  (key_rounds lock_to_json lock_from_json public_pem private_pem key_from_pem script_key pair_to_value value_to_pair n)
  (fun _ p => p = true).
Proof.
  induction n as [|n IH]; cbn [key_rounds]; [apply obeys_throw|].
  eapply obeys_bind; [apply patient_round|intros [k|]].
  - eapply obeys_weaken; [apply (obeys_ret (patience s l) false k (fun _ p => p = true))|naive_solver|done].
  - eapply obeys_bind with (Q := fun _ _ => True); [|intros []; exact IH].
    apply obeys_runtime with (c := CSleep 3) (g := fun _ => tt).
    + intros w. unfold sleep, mmodify, rt_sleep. cbn. by destruct (ask (CSleep 3) w).
    + intros [] t r _; by eexists.
Qed.

Lemma waiting_log log : (∀ t c r, (t, c, r) ∈ log → patience s l false t c r ≠ Some true) →
  is_Some (watch (patience s l) false log) →
  watch (patience s l) false log = Some false ∧ Forall (fun e => reads e.1.2 = true) log.
Proof.
  induction log as [|[[t c] r] log IH]; [done|]. intros Hl Hx. cbn [watch] in *.
  pose proof (Hl t c r ltac:(left)) as Hp.
  destruct (patience s l false t c r) as [[]|] eqn:Ep; [done| |by destruct Hx].
  destruct IH as [H1 H2]; [|done|].
  - intros t' c' r' Hin. apply Hl. by right.
  - split; [done|]. constructor; [by destruct c|done].
Qed.

(** An instance that finds neither the public key nor an expired lock writes
    nothing and gets no key. *)
Lemma waiting_instance replies :
  (∀ t c r, (t, c, r) ∈ sp_done (run_script replies).2 → patience s l false t c r ≠ Some true) →
  Forall (fun e => reads e.1.2 = true) (sp_done (run_script replies).2) ∧ ∀ k, (run_script replies).1 ≠ Ret k.
Proof.
  pose proof (patient_rounds 4 (mkScript replies [] None)) as H. unfold run_script, key_program, get_or_create_enclave_key_pair.
  pose proof (key_answered replies) as Hw. unfold run_script, key_program, get_or_create_enclave_key_pair in Hw.
  destruct (key_rounds _ _ _ _ _ _ _ _ 4 _) as [r w']. cbn [fst snd] in *. intros Hl.
  specialize (H ltac:(by exists false)).
  assert (is_Some (watch (patience s l) false (sp_done w'))) as Hx by (destruct r; destruct H as (p & -> & _); by eexists).
  destruct (waiting_log _ Hl Hx) as [Hf Hr]. split; [done|]. intros k ->. destruct H as (p & Hp & HP).
  rewrite Hf in Hp. injection Hp as <-. specialize (HP (Hw k eq_refl)). done.
Qed.
End Patience.
End Script.
