(* ===== verification/AcmeSystem.v ===== *)
(** * Instances that share the key pair (data-plane/src/acme/key.rs, lock.rs)

    Any number of instances run the code of the key pair at the same time on
    one storage. An execution is the list of their calls with the replies, in
    the order they happen: every instance makes the calls of the code on the
    replies it got, the storage answers from its state, the clock moves on, and
    a call that fails may or may not have reached the storage. *)
From Stdlib Require Import Ascii String NArith ZArith Lia.
From stdpp Require Import base gmap strings list.
From S2P Require Import Prelude Libs Logging E3 Jws Config ConfigRef Acme AcmeScript AcmeStore.
#[local] Open Scope string_scope.
#[local] Open Scope list_scope.
#[local] Open Scope enclave_scope.

(** The lock as it is read back: [ts_seconds] keeps whole seconds. *)
Definition stored (l : StorageLock) : StorageLock :=
  mkLock (lk_name l) (lk_uuid l) (lk_expiry_time l / 1000 * 1000) (lk_attempts l).

Section System.
Context {J : Json} {Key : Type}.
Context (lock_to_json : StorageLock → string) (lock_from_json : string → option StorageLock).
Context (public_pem private_pem : Key → option bytes) (key_from_pem : string → option Key).
Context (pair_to_value : RawAcmeKeyPair → Value) (value_to_pair : Value → option RawAcmeKeyPair).
#[local] Notation Reply := (Reply (Key := Key)).

(** ** Executions *)

Record Event : Type := mkEvent {
  ev_time : Z;
  ev_who : nat;
  ev_call : Call;
  ev_reply : Reply
}.

Definition applied (r : Reply) : bool := match r with RDone => true | RFailed b => b | _ => false end.

(** What a call leaves in the storage. *)
Definition affect (c : Call) (r : Reply) (s : gmap string string) : gmap string string :=
  match c with
  | CPut k v => if applied r then <[k := v]> s else s
  | CDelete k => if applied r then delete k s else s
  | _ => s
  end.

Definition store (s0 : gmap string string) (tr : list Event) : gmap string string :=
  foldl (fun s e => affect (ev_call e) (ev_reply e) s) s0 tr.

Definition own (i : nat) (tr : list Event) : list Event := filter (fun e => ev_who e = i) tr.
Definition log_of (i : nat) (tr : list Event) : list (Z * Call * Reply) :=
  (fun e => (ev_time e, ev_call e, ev_reply e)) <$> own i tr.
Definition replies_of (i : nat) (tr : list Event) : list (Z * Reply) :=
  (fun e => (ev_time e, ev_reply e)) <$> own i tr.

Definition clock (tr : list Event) : Z := default 0%Z (ev_time <$> last tr).

(** The identifiers in use: that of the lock found at the start and all that
    were drawn. *)
Definition lock_in (s : gmap string string) : option StorageLock := s !! KEY_LOCK ≫= lock_from_json.
Definition drawn (s0 : gmap string string) (tr : list Event) : list string :=
  option_list (lk_uuid <$> lock_in s0) ++
  omap (fun e => match ev_call e, ev_reply e with CUuid, RText u => Some u | _, _ => None end) tr.

(** The run of an instance on the replies it got. *)
Definition run_of (i : nat) (tr : list Event) : exec (DpAcmeError (CE := unit)) Key * Script (Key := Key) :=
  run_script lock_to_json lock_from_json public_pem private_pem key_from_pem pair_to_value value_to_pair
    (replies_of i tr).

(** What may be answered: the state of the storage, the time, an identifier
    that is not in use, a sleep as long as asked for, anything from E3. *)
Definition answers (s0 : gmap string string) (tr : list Event) (e : Event) : Prop :=
  match ev_call e, ev_reply e with
  | CGet k, RObject o => o = store s0 tr !! k
  | CGet _, RFailed _ => True
  | (CPut _ _ | CDelete _), (RDone | RFailed _) => True
  | CNow, RTime t => t = ev_time e
  | CUuid, RText u => u ∉ drawn s0 tr
  | CSleep n, RDone => (default 0%Z (ev_time <$> last (own (ev_who e) tr)) + 1000 * n ≤ ev_time e)%Z
  | (CEncrypt _ | CDecrypt _), (RValue _ | RFailed _) => True
  | CKey, (RKey _ | RFailed _) => True
  | _, _ => False
  end.

Inductive execution (s0 : gmap string string) : list Event → Prop :=
| ex_start : execution s0 []
| ex_step tr e : execution s0 tr → (clock tr ≤ ev_time e)%Z → answers s0 tr e →
    sp_done (run_of (ev_who e) (tr ++ [e])).2 = log_of (ev_who e) (tr ++ [e]) →
    execution s0 (tr ++ [e]).

(** ** Phases of the instances *)

#[local] Notation adv := (advance lock_to_json lock_from_json value_to_pair).

Definition phase_of (i : nat) (tr : list Event) : Phase := default Idle (watch adv Idle (log_of i tr)).

(** A call in time: a lock is written less than two seconds after the storage
    was read, and what is done under a lock is done before it expires. *)
Definition in_time (tr : list Event) (e : Event) : bool :=
  match phase_of (ev_who e) tr, ev_call e with
  | Made r _, CPut _ _ => (ev_time e <? r + 2000)%Z
  | Holds _ l _, (CPut _ _ | CDelete _) => (ev_time e <=? lk_expiry_time (stored l))%Z
  | _, _ => true
  end.

Inductive timely : list Event → Prop :=
| timely_start : timely []
| timely_step tr e : timely tr → in_time tr e = true → timely (tr ++ [e]).

(** *** What a call changes *)

Definition uuid_of (p : Phase) : option string :=
  match p with
  | Named _ u => Some u
  | Made _ l | Wrote _ l | Slept _ l | Holds _ l _ => Some (lk_uuid l)
  | _ => None
  end.
(** When an instance that may write its lock has read the storage. *)
Definition read_at (p : Phase) : option Z :=
  match p with Clear r | Named r _ | Made r _ => Some r | _ => None end.
Definition wrote (p : Phase) : option (Z * StorageLock) :=
  match p with Wrote w l | Slept w l | Holds w l _ => Some (w, l) | _ => None end.
Definition waited (p : Phase) : option Z :=
  match p with Slept w _ | Holds w _ _ => Some w | _ => None end.

(** The calls the protocol allows, as a relation. *)
Inductive Move (t : Z) : Phase → Call → Reply → Phase → Prop :=
| mv_idle c r : reads c = true → Move t Idle c r Idle
| mv_clear : Move t Idle (CGet KEY_LOCK) (RObject None) (Clear t)
| mv_saw s l : lock_from_json s = Some l → Move t Idle (CGet KEY_LOCK) (RObject (Some s)) (Saw t l)
| mv_expired r0 l r : (lk_expiry_time l < time_of r)%Z → Move t (Saw r0 l) CNow r (Clear r0)
| mv_alive r0 l r : Move t (Saw r0 l) CNow r Idle
| mv_named r0 r : Move t (Clear r0) CUuid r (Named r0 (text_of r))
| mv_made r0 u r : Move t (Named r0 u) CNow r (Made r0 (mkLock KEY_PAIR_LOCK_NAME u (time_of r + 30000) (Some 0%N)))
| mv_wrote r0 l : Move t (Made r0 l) (CPut KEY_LOCK (lock_to_json l)) RDone (Wrote t l)
| mv_write_failed r0 l r : Move t (Made r0 l) (CPut KEY_LOCK (lock_to_json l)) r Idle
| mv_slept w l r : Move t (Wrote w l) (CSleep 2) r (Slept w l)
| mv_holds w l s l' : lock_from_json s = Some l' → lk_uuid l' = lk_uuid l →
    Move t (Slept w l) (CGet KEY_LOCK) (RObject (Some s)) (Holds w l Fresh)
| mv_lost w l r : Move t (Slept w l) (CGet KEY_LOCK) r Idle
| mv_made_pair w l c r : reads c = true → Move t (Holds w l Fresh) c r (Holds w l Fresh)
| mv_sealed w l q v p : value_to_pair v = Some p →
    Move t (Holds w l Fresh) (CEncrypt q) (RValue v) (Holds w l (Sealed p))
| mv_failed w l g c r : (∀ k v, c = CPut k v → k = PUBLIC_KEY_OBJECT_KEY ∨ k = PRIVATE_KEY_OBJECT_KEY) →
    (∀ k, c ≠ CDelete k) → Move t (Holds w l g) c r (Holds w l Failed)
| mv_public w l p : Move t (Holds w l (Sealed p)) (CPut PUBLIC_KEY_OBJECT_KEY (public_key p)) RDone
    (Holds w l (HalfStored p))
| mv_private w l p : Move t (Holds w l (HalfStored p)) (CPut PRIVATE_KEY_OBJECT_KEY (pair_private_key p)) RDone
    (Holds w l (Stored p))
| mv_delete w l p r : Move t (Holds w l (Stored p)) (CDelete KEY_LOCK) r Idle.

Lemma is_key_true k k' : is_key k k' = true → k = k'.
Proof. apply String.eqb_eq. Qed.

Lemma work_moves t w l g c r g' : work value_to_pair g c r = Some g' → Move t (Holds w l g) c r (Holds w l g').
Proof.
  destruct g, c; try done; cbn.
  1,2: intros; repeat case_match; simplify_eq; by constructor.
  all: case_match eqn:Ek; [|done]; apply andb_prop in Ek as [->%is_key_true ->%String.eqb_eq];
    destruct r; intros [= <-]; constructor; naive_solver.
Qed.

Lemma hold_moves t w l g c (r : Reply) p' : adv (Holds w l g) t c r = Some p' →
  (∃ p k, g = Stored p ∧ c = CDelete k ∧ k = KEY_LOCK ∧ p' = Idle) ∨
  ∃ g', work value_to_pair g c r = Some g' ∧ p' = Holds w l g'.
Proof.
  assert ((∃ p k, g = Stored p ∧ c = CDelete k) ∨ adv (Holds w l g) t c r = Holds w l <$> work value_to_pair g c r)
    as [(p & k & -> & ->)|E]; [destruct g; try (by right); destruct c; eauto| |rewrite E].
  - cbn. case_match eqn:Ek; [|done]. apply is_key_true in Ek. intros [= <-]. left. eauto 6.
  - intros (g' & -> & ?)%fmap_Some. eauto.
Qed.

Lemma advance_moves p t c r p' : adv p t c r = Some p' → Move t p c r p'.
Proof.
  destruct p as [|r0 l|r0|r0 u|r0 l|w l|w l|w l g].
  8: { intros [(p & k & -> & -> & -> & ->)|(g' & ? & ->)]%hold_moves; [constructor|by apply work_moves]. }
  all: destruct c; try done; cbn [advance].
  - case_match eqn:Ek; [apply is_key_true in Ek as ->|intros [= <-]; by constructor].
    destruct r as [[s|]| | | | | |]; [case_match eqn:Ej|..]; intros [= <-]; by constructor.
  - intros [= <-]. by constructor.
  - intros [= <-]. by constructor.
  - destruct (Z.ltb_spec (lk_expiry_time l) (time_of r)); intros [= <-]; by constructor.
  - intros [= <-]. by constructor.
  - intros [= <-]. by constructor.
  - case_match eqn:Ek; [|done]. apply andb_prop in Ek as [->%is_key_true ->%String.eqb_eq].
    destruct r; intros [= <-]; by constructor.
  - destruct (Z.eqb_spec secs 2) as [->|]; [|done]. intros [= <-]. by constructor.
  - case_match eqn:Ek; [apply is_key_true in Ek as ->|done].
    destruct r as [[s|]| | | | | |]; [case_match eqn:Ej|..]; [|intros [= <-]; by constructor..].
    destruct (has_uuid _ _) eqn:Eu; intros [= <-]; [|by constructor].
    econstructor; [done|]. by apply String.eqb_eq.
Qed.

(** *** Steps of the system *)

Lemma own_snoc i tr e : own i (tr ++ [e]) = if decide (ev_who e = i) then own i tr ++ [e] else own i tr.
Proof. unfold own. rewrite filter_app. destruct (decide _); [by rewrite filter_cons_True|].
  rewrite filter_cons_False; [|done]. apply app_nil_r. Qed.

Lemma log_snoc i tr e : log_of i (tr ++ [e]) =
  if decide (ev_who e = i) then log_of i tr ++ [(ev_time e, ev_call e, ev_reply e)] else log_of i tr.
Proof. unfold log_of. rewrite own_snoc. destruct (decide _); [|done]. by rewrite fmap_app. Qed.

Lemma store_snoc s0 tr e : store s0 (tr ++ [e]) = affect (ev_call e) (ev_reply e) (store s0 tr).
Proof. unfold store. by rewrite foldl_app. Qed.

Lemma clock_snoc tr e : clock (tr ++ [e]) = ev_time e.
Proof. unfold clock. by rewrite last_snoc. Qed.

Lemma phase_other i tr e : ev_who e ≠ i → phase_of i (tr ++ [e]) = phase_of i tr.
Proof. intros H. unfold phase_of. rewrite log_snoc. by destruct (decide _). Qed.

(** Every call of an execution is one the protocol allows. *)
Lemma execution_moves s0 tr e : execution s0 (tr ++ [e]) →
  Move (ev_time e) (phase_of (ev_who e) tr) (ev_call e) (ev_reply e) (phase_of (ev_who e) (tr ++ [e])).
Proof.
  intros H. inversion H as [Heq|tr' e' _ _ _ Hrun Heq]; [by destruct tr|].
  apply app_inj_tail in Heq as [-> ->]. apply advance_moves.
  destruct (key_program_follows lock_to_json lock_from_json public_pem private_pem key_from_pem pair_to_value
    value_to_pair (replies_of (ev_who e) (tr ++ [e]))) as [p Hp].
  unfold run_of in Hrun. rewrite Hrun, log_snoc in Hp. rewrite decide_True in Hp by done.
  unfold phase_of. rewrite log_snoc, decide_True by done. rewrite watch_app in *. cbn in *.
  destruct (watch adv Idle (log_of (ev_who e) tr)) as [p0|]; [|done]. cbn in *.
  by destruct (adv p0 _ _ _).
Qed.

Lemma execution_invariant s0 (I : list Event → Prop) : I [] →
  (∀ tr e, execution s0 tr → I tr → (clock tr ≤ ev_time e)%Z → answers s0 tr e →
    Move (ev_time e) (phase_of (ev_who e) tr) (ev_call e) (ev_reply e) (phase_of (ev_who e) (tr ++ [e])) →
    I (tr ++ [e])) →
  ∀ tr, execution s0 tr → I tr.
Proof.
  intros H0 HS tr H. induction H as [|tr e Htr IH Ht Ha Hr]; [done|].
  apply HS; [done..|]. eapply execution_moves. by constructor.
Qed.

(** *** Identifiers *)

Context (lock_json : ∀ l, lock_from_json (lock_to_json l) = Some (stored l)).

Lemma affect_reads c r s : reads c = true → affect c r s = s.
Proof. by destruct c. Qed.

(** What becomes of the stored lock. *)
Lemma lock_moves t p c r p' s : Move t p c r p' →
  lock_in (affect c r s) = lock_in s ∨
  (∃ r0 l, p = Made r0 l ∧ c = CPut KEY_LOCK (lock_to_json l) ∧ (p' = Idle ∨ p' = Wrote t l) ∧
    lock_in (affect c r s) = Some (stored l)) ∨
  (∃ w l q, p = Holds w l (Stored q) ∧ c = CDelete KEY_LOCK ∧ p' = Idle ∧ lock_in (affect c r s) = None).
Proof.
  destruct 1; rewrite ?affect_reads by done; try (by left); cbn [affect].
  - right; left. eexists _, _. split; [done|]. split; [done|]. split; [by right|].
    unfold lock_in. cbn [applied]. rewrite lookup_insert_eq. apply lock_json.
  - destruct (applied r) eqn:Er; [|by left]. right; left. eexists _, _. split; [done|]. split; [done|]. split; [by left|].
    unfold lock_in. rewrite lookup_insert_eq. apply lock_json.
  - left. destruct c; try done; [|naive_solver]. cbn. destruct (applied r); [|done].
    unfold lock_in. rewrite lookup_insert_ne; [done|]. destruct (H key object eq_refl) as [->| ->]; done.
  - left. unfold lock_in. cbn. by rewrite lookup_insert_ne.
  - left. unfold lock_in. cbn. by rewrite lookup_insert_ne.
  - destruct (applied r) eqn:Er; [|by left]. right; right. eexists _, _, _. split; [done|]. split; [done|]. split; [done|].
    unfold lock_in. by rewrite lookup_delete_eq.
Qed.

Definition unwritten (p : Phase) : option string :=
  match p with Named _ u => Some u | Made _ l => Some (lk_uuid l) | _ => None end.

Lemma unwritten_uuid p u : unwritten p = Some u → uuid_of p = Some u.
Proof. by destruct p. Qed.
Lemma wrote_uuid p w l : wrote p = Some (w, l) → uuid_of p = Some (lk_uuid l).
Proof. destruct p; naive_solver. Qed.

Lemma uuid_moves t p c r p' u : Move t p c r p' → uuid_of p' = Some u →
  uuid_of p = Some u ∨ (c = CUuid ∧ text_of r = u ∧ ∃ r0, p' = Named r0 u).
Proof. destruct 1; cbn; naive_solver. Qed.
Lemma unwritten_moves t p c r p' u : Move t p c r p' → unwritten p' = Some u →
  unwritten p = Some u ∨ (c = CUuid ∧ text_of r = u).
Proof. destruct 1; cbn; naive_solver. Qed.
Lemma wrote_moves t p c r p' w l : Move t p c r p' → wrote p' = Some (w, l) →
  wrote p = Some (w, l) ∨ (p' = Wrote w l ∧ w = t ∧ c = CPut KEY_LOCK (lock_to_json l) ∧ r = RDone ∧ ∃ r0, p = Made r0 l).
Proof. destruct 1; cbn; naive_solver. Qed.

Record Names (s0 : gmap string string) (tr : list Event) : Prop := {
  names_distinct i j u : uuid_of (phase_of i tr) = Some u → uuid_of (phase_of j tr) = Some u → i = j;
  names_drawn i u : uuid_of (phase_of i tr) = Some u → u ∈ drawn s0 tr;
  names_stored l : lock_in (store s0 tr) = Some l → lk_uuid l ∈ drawn s0 tr;
  names_unwritten i u l : unwritten (phase_of i tr) = Some u → lock_in (store s0 tr) = Some l → lk_uuid l ≠ u;
  names_written i w l l' : wrote (phase_of i tr) = Some (w, l) → lock_in (store s0 tr) = Some l' →
    lk_uuid l' = lk_uuid l → l' = stored l
}.

Lemma drawn_snoc s0 tr e u : u ∈ drawn s0 tr → u ∈ drawn s0 (tr ++ [e]).
Proof. unfold drawn. rewrite omap_app, !elem_of_app. tauto. Qed.

Lemma drawn_uuid s0 tr e u : answers s0 tr e → ev_call e = CUuid → text_of (ev_reply e) = u →
  u ∉ drawn s0 tr ∧ u ∈ drawn s0 (tr ++ [e]).
Proof.
  unfold answers. intros Ha Hc <-. rewrite Hc in Ha. destruct (ev_reply e) eqn:Er; try done. split; [done|].
  unfold drawn. rewrite omap_app, !elem_of_app. right; right. cbn. rewrite Hc, Er. left.
Qed.

Lemma phase_cases i tr e : phase_of i (tr ++ [e]) = phase_of i tr ∨ i = ev_who e.
Proof. destruct (decide (ev_who e = i)) as [<-|]; [by right|left; by apply phase_other]. Qed.

#[local] Notation moves tr e :=
  (Move (ev_time e) (phase_of (ev_who e) tr) (ev_call e) (ev_reply e) (phase_of (ev_who e) (tr ++ [e]))).

Lemma uuid_step i tr e u : moves tr e → uuid_of (phase_of i (tr ++ [e])) = Some u → uuid_of (phase_of i tr) = Some u ∨
  (i = ev_who e ∧ ev_call e = CUuid ∧ text_of (ev_reply e) = u).
Proof.
  intros Hm. destruct (phase_cases i tr e) as [->| ->]; [auto|]. intros H.
  apply (uuid_moves _ _ _ _ _ _ Hm) in H. naive_solver.
Qed.

Lemma unwritten_step i tr e u : moves tr e → unwritten (phase_of i (tr ++ [e])) = Some u →
  unwritten (phase_of i tr) = Some u ∨ (i = ev_who e ∧ ev_call e = CUuid ∧ text_of (ev_reply e) = u).
Proof.
  intros Hm. destruct (phase_cases i tr e) as [->| ->]; [auto|]. intros H.
  apply (unwritten_moves _ _ _ _ _ _ Hm) in H. naive_solver.
Qed.

(** The stored lock after a call. *)
Lemma lock_step s0 tr e : moves tr e →
  lock_in (store s0 (tr ++ [e])) = lock_in (store s0 tr) ∨
  (∃ r0 l, phase_of (ev_who e) tr = Made r0 l ∧ ev_call e = CPut KEY_LOCK (lock_to_json l) ∧
    (phase_of (ev_who e) (tr ++ [e]) = Idle ∨ phase_of (ev_who e) (tr ++ [e]) = Wrote (ev_time e) l) ∧
    lock_in (store s0 (tr ++ [e])) = Some (stored l)) ∨
  (∃ w l q, phase_of (ev_who e) tr = Holds w l (Stored q) ∧ ev_call e = CDelete KEY_LOCK ∧
    phase_of (ev_who e) (tr ++ [e]) = Idle ∧ lock_in (store s0 (tr ++ [e])) = None).
Proof. rewrite store_snoc. apply lock_moves. Qed.

Lemma wrote_step i tr e w l : moves tr e → wrote (phase_of i (tr ++ [e])) = Some (w, l) →
  wrote (phase_of i tr) = Some (w, l) ∨ (i = ev_who e ∧ w = ev_time e ∧ ev_call e = CPut KEY_LOCK (lock_to_json l) ∧
    ev_reply e = RDone ∧ ∃ r0, phase_of i tr = Made r0 l).
Proof.
  intros Hm. destruct (phase_cases i tr e) as [->| ->]; [auto|]. intros H.
  apply (wrote_moves _ _ _ _ _ _ _ Hm) in H. naive_solver.
Qed.

Lemma names_step s0 tr e : Names s0 tr → answers s0 tr e → moves tr e → Names s0 (tr ++ [e]).
Proof.
  intros [Hd Hr Hs Hu Hw] Ha Hm. pose proof (drawn_uuid s0 tr e) as Hnew.
  pose proof (lock_step s0 tr e Hm) as Hl. split.
  - intros i j u [Hi|(-> & Hc & Hi)]%uuid_step [Hj|(-> & Hc' & Hj)]%uuid_step; try done; [by eapply Hd| |].
    + destruct (Hnew u Ha Hc' Hj) as [[] _]. by eapply Hr.
    + destruct (Hnew u Ha Hc Hi) as [[] _]. by eapply Hr.
  - intros i u [Hi|(-> & Hc & Hi)]%uuid_step; [by eapply drawn_snoc, Hr|by apply (Hnew u Ha Hc Hi)|done].
  - intros l. destruct Hl as [->|[(r0 & l0 & Hp & _ & _ & ->)|(w & l0 & q & _ & _ & _ & ->)]]; [|intros [= <-]|done].
    + intros H. by apply drawn_snoc, Hs.
    + apply drawn_snoc, (Hr (ev_who e)). by rewrite Hp.
  - intros i u l Hi. pose proof (unwritten_step _ _ _ _ Hm Hi) as Hiu.
    destruct Hl as [->|[(r0 & l0 & Hp & Hc & Hp' & ->)|(w & l0 & q & _ & _ & _ & ->)]]; [|intros [= <-] Heq|done].
    + destruct Hiu as [Hiu|(-> & Hc & Hiu)]; [by apply (Hu i)|]. intros H%Hs <-. by apply (Hnew _ Ha Hc Hiu).
    + cbn in Heq. destruct Hiu as [Hiu|(-> & Hc' & _)]; [|congruence].
      assert (i = ev_who e) as ->. { eapply Hd; [by apply unwritten_uuid|]. rewrite Hp. cbn. by rewrite Heq. }
      by destruct Hp' as [Hp'|Hp']; rewrite Hp' in Hi.
  - intros i w l l' Hi. pose proof (wrote_step _ _ _ _ _ Hm Hi) as Hiu.
    destruct Hl as [Hl|[(r0 & l0 & Hp & Hc & Hp' & ->)|(w' & l0 & q & _ & _ & _ & ->)]]; [|intros [= <-] Heq|done].
    + destruct Hiu as [Hiu|(-> & -> & Hc & Hq & r0 & Hp)]; [rewrite Hl; by eapply Hw|].
      rewrite store_snoc, Hc, Hq. unfold lock_in. cbn [affect applied]. rewrite lookup_insert_eq. cbn. rewrite lock_json.
      by intros [= <-].
    + cbn in Heq. assert (i = ev_who e) as ->.
      { destruct Hiu as [Hiu|(-> & _)]; [|done]. eapply Hd; [by eapply wrote_uuid|]. rewrite Hp. cbn. by rewrite Heq. }
      destruct Hp' as [Hp'|Hp']; rewrite Hp' in Hi; [done|]. by injection Hi as _ ->.
Qed.

Lemma execution_names s0 tr : execution s0 tr → Names s0 tr.
Proof.
  revert tr. apply execution_invariant; [|intros; by apply names_step]. split; [done..| |done|done].
  intros l Hl. apply elem_of_app. left. unfold store in Hl. cbn in Hl. rewrite Hl. left.
Qed.

(** *** Times *)

Lemma read_moves t p c r p' r0 : Move t p c r p' → read_at p' = Some r0 →
  read_at p = Some r0 ∨ (c = CGet KEY_LOCK ∧ r = RObject None ∧ r0 = t) ∨
  (∃ l, p = Saw r0 l ∧ c = CNow ∧ (lk_expiry_time l < time_of r)%Z).
Proof. destruct 1; cbn; naive_solver. Qed.
Lemma saw_moves t p c r p' r0 l : Move t p c r p' → p' = Saw r0 l →
  r0 = t ∧ c = CGet KEY_LOCK ∧ ∃ s, r = RObject (Some s) ∧ lock_from_json s = Some l.
Proof. destruct 1; naive_solver. Qed.
Lemma waited_moves t p c r p' w : Move t p c r p' → waited p' = Some w →
  waited p = Some w ∨ (c = CSleep 2 ∧ ∃ l, p = Wrote w l).
Proof. destruct 1; cbn; naive_solver. Qed.
Lemma hold_taken t p c r p' w l g : Move t p c r p' → p' = Holds w l g → (∃ g0, p = Holds w l g0) ∨
  (p = Slept w l ∧ c = CGet KEY_LOCK ∧ ∃ s l', r = RObject (Some s) ∧ lock_from_json s = Some l' ∧ lk_uuid l' = lk_uuid l).
Proof. destruct 1; naive_solver. Qed.

Record Times (tr : list Event) : Prop := {
  times_read i r : read_at (phase_of i tr) = Some r → (r ≤ clock tr)%Z;
  times_saw i r l : phase_of i tr = Saw r l → (r ≤ clock tr)%Z;
  times_wrote i w l : phase_of i tr = Wrote w l → ev_time <$> last (own i tr) = Some w;
  times_waited i w : waited (phase_of i tr) = Some w → (w + 2000 ≤ clock tr)%Z
}.

Lemma execution_times s0 tr : execution s0 tr → Times tr.
Proof.
  revert tr. apply execution_invariant; [by split|]. intros tr e _ [Hr Hs Hw Hx] Ht Ha Hm. split; rewrite ?clock_snoc.
  - intros i r. destruct (phase_cases i tr e) as [->| ->]; [intros ?%Hr; lia|]. intros H.
    apply (read_moves _ _ _ _ _ _ Hm) in H as [?%Hr|[(_ & _ & ->)|(l & ?%Hs & _)]]; lia.
  - intros i r l. destruct (phase_cases i tr e) as [->| ->]; [intros ?%Hs; lia|]. intros H.
    apply (saw_moves _ _ _ _ _ _ _ Hm) in H as [-> _]. lia.
  - intros i w l. rewrite own_snoc. destruct (decide (ev_who e = i)) as [<-|Hne].
    + intros H. rewrite last_snoc. rewrite H in Hm. inversion Hm; subst; done.
    + rewrite (phase_other _ _ _ Hne). apply Hw.
  - intros i w. destruct (phase_cases i tr e) as [->| ->]; [intros ?%Hx; lia|]. intros H.
    apply (waited_moves _ _ _ _ _ _ Hm) in H as [?%Hx|(Hc & l & Hp%Hw)]; [lia|].
    unfold answers in Ha. rewrite Hc in Ha. destruct (ev_reply e); try done. rewrite Hp in Ha. cbn in Ha. lia.
Qed.

(** *** Exclusion *)

Definition expiry (l : StorageLock) : Z := lk_expiry_time (stored l).

(** Who holds a lock that has not expired finds it in the storage; and while a
    lock is in the storage, those who may still write theirs have read the
    storage before it was written. *)
Record Guarded (s0 : gmap string string) (tr : list Event) : Prop := {
  guarded_held i w l g : phase_of i tr = Holds w l g → (clock tr ≤ expiry l)%Z →
    lock_in (store s0 tr) = Some (stored l);
  guarded_read i j w l r : wrote (phase_of i tr) = Some (w, l) → lock_in (store s0 tr) = Some (stored l) →
    (clock tr ≤ expiry l)%Z → i ≠ j → read_at (phase_of j tr) = Some r → (r ≤ w)%Z;
  guarded_saw i j w l r l' : wrote (phase_of i tr) = Some (w, l) → lock_in (store s0 tr) = Some (stored l) →
    (clock tr ≤ expiry l)%Z → i ≠ j → phase_of j tr = Saw r l' → (r ≤ w)%Z ∨ l' = stored l
}.

Lemma timely_inv tr e : timely (tr ++ [e]) → timely tr ∧ in_time tr e = true.
Proof. intros H. inversion H as [Heq|tr' e' ? ? Heq]; [by destruct tr|]. by apply app_inj_tail in Heq as [-> ->]. Qed.

(** Two who hold locks that have not expired are one. *)
Lemma guarded_exclusive s0 tr i j w1 l1 g1 w2 l2 g2 : Names s0 tr → Guarded s0 tr →
  phase_of i tr = Holds w1 l1 g1 → phase_of j tr = Holds w2 l2 g2 →
  (clock tr ≤ expiry l1)%Z → (clock tr ≤ expiry l2)%Z → i = j.
Proof.
  intros Hn Hg Hi Hj H1 H2. pose proof (guarded_held _ _ Hg _ _ _ _ Hi H1) as E1.
  pose proof (guarded_held _ _ Hg _ _ _ _ Hj H2) as E2. rewrite E1 in E2. injection E2 as _ Hu _ _.
  apply (names_distinct _ _ Hn i j (lk_uuid l1)); [by rewrite Hi|rewrite Hj; cbn; by rewrite Hu].
Qed.

(** The lock of another is not overwritten or deleted while it is held. *)
Lemma held_stays s0 tr e i w l g : Names s0 tr → Times tr → Guarded s0 tr → moves tr e → in_time tr e = true →
  (clock tr ≤ ev_time e)%Z → i ≠ ev_who e → phase_of i tr = Holds w l g → (ev_time e ≤ expiry l)%Z →
  lock_in (store s0 (tr ++ [e])) = lock_in (store s0 tr).
Proof.
  intros Hn Ht Hg Hm Hin Hc Hne Hi Hx. unfold in_time in Hin.
  pose proof (guarded_held _ _ Hg _ _ _ _ Hi ltac:(lia)) as Hl.
  destruct (lock_step s0 tr e Hm) as [?|[(r0 & l0 & Hp & Hq & _)|(w' & l0 & q & Hp & Hq & _)]]; [done| |];
    rewrite Hp, Hq in Hin.
  - apply Z.ltb_lt in Hin. assert (r0 ≤ w)%Z.
    { eapply (guarded_read _ _ Hg i (ev_who e)); [by rewrite Hi|done|lia|done|by rewrite Hp]. }
    pose proof (times_waited _ Ht i w ltac:(by rewrite Hi)). lia.
  - apply Z.leb_le in Hin. destruct Hne. eapply guarded_exclusive; [done|done|exact Hi|exact Hp|lia|unfold expiry; lia].
Qed.

(** A lock in the storage was there before, or has just been written. *)
Lemma written_before s0 tr e i w l : Names s0 tr → moves tr e → wrote (phase_of i (tr ++ [e])) = Some (w, l) →
  lock_in (store s0 (tr ++ [e])) = Some (stored l) →
  (wrote (phase_of i tr) = Some (w, l) ∧ lock_in (store s0 tr) = Some (stored l)) ∨ (i = ev_who e ∧ w = ev_time e).
Proof.
  intros Hn Hm Hi Hl. apply (wrote_step _ _ _ _ _ Hm) in Hi as [Hi|(-> & -> & _)]; [|by right]. left. split; [done|].
  destruct (lock_step s0 tr e Hm) as [<-|[(r0 & l0 & Hp & _ & _ & Hq)|(w' & l0 & q & _ & _ & _ & Hq)]]; [done| |congruence].
  rewrite Hq in Hl. injection Hl as _ Hu _ _.
  assert (i = ev_who e) as ->. { eapply (names_distinct _ _ Hn); [by eapply wrote_uuid|]. rewrite Hp. cbn. by rewrite Hu. }
  by rewrite Hp in Hi.
Qed.

(** What the storage and the clock answer. *)
Lemma answers_lock s0 tr e o : answers s0 tr e → ev_call e = CGet KEY_LOCK → ev_reply e = RObject o →
  lock_in (store s0 tr) = o ≫= lock_from_json.
Proof. unfold answers, lock_in. intros Ha Hc Hr. rewrite Hc, Hr in Ha. by subst o. Qed.

Lemma answers_now s0 tr e : answers s0 tr e → ev_call e = CNow → time_of (ev_reply e) = ev_time e.
Proof. unfold answers. intros Ha Hc. rewrite Hc in Ha. by destruct (ev_reply e). Qed.

Lemma held_step s0 tr e i w l g : Names s0 tr → Times tr → Guarded s0 tr → moves tr e → in_time tr e = true →
  (clock tr ≤ ev_time e)%Z → answers s0 tr e → phase_of i (tr ++ [e]) = Holds w l g → (ev_time e ≤ expiry l)%Z →
  lock_in (store s0 (tr ++ [e])) = Some (stored l).
Proof.
  intros Hn Ht Hg Hm Hin Hc Ha Hi Hx. destruct (decide (i = ev_who e)) as [->|Hne].
  - destruct (hold_taken _ _ _ _ _ _ _ _ Hm Hi) as [[g0 Hp]|(Hp & Hq & s & l' & Hr & Hj & Hu)].
    + rewrite <- (guarded_held _ _ Hg _ _ _ _ Hp ltac:(lia)).
      destruct (lock_step s0 tr e Hm) as [?|[(? & ? & ? & _)|(? & ? & ? & _ & _ & ? & _)]]; congruence.
    + rewrite store_snoc, Hq. cbn. pose proof (answers_lock _ _ _ _ Ha Hq Hr) as Hl. cbn in Hl. rewrite Hj in Hl.
      rewrite Hl. f_equal. eapply (names_written _ _ Hn); [by rewrite Hp|done..].
  - rewrite (phase_other i tr e) in Hi by done. erewrite held_stays; [|done..]. eapply guarded_held; [done..|lia].
Qed.

Lemma guarded_step s0 tr e : Names s0 tr → Times tr → Guarded s0 tr → moves tr e → in_time tr e = true →
  (clock tr ≤ ev_time e)%Z → answers s0 tr e → Guarded s0 (tr ++ [e]).
Proof.
  intros Hn Ht Hg Hm Hin Hc Ha. split; rewrite clock_snoc; [intros; by eapply held_step|..].
  - intros i j w l r Hi Hl Hx Hne Hr.
    destruct (written_before _ _ _ _ _ _ Hn Hm Hi Hl) as [[Hi0 Hl0]|[-> ->]].
    + destruct (phase_cases j tr e) as [Hj| ->]; [rewrite Hj in Hr; eapply (guarded_read _ _ Hg i j); eauto; lia|].
      apply (read_moves _ _ _ _ _ _ Hm) in Hr as [Hr|[(Hq & Hr & ->)|(l' & Hp & Hq & He)]].
      * eapply (guarded_read _ _ Hg i); eauto; lia.
      * pose proof (answers_lock _ _ _ _ Ha Hq Hr) as He. cbn in He. congruence.
      * rewrite (answers_now _ _ _ Ha Hq) in He.
        edestruct (guarded_saw _ _ Hg i) as [?|Heq]; [exact Hi0|exact Hl0|lia|exact Hne|exact Hp|done|].
        subst l'. unfold expiry in Hx. lia.
    + rewrite phase_other in Hr by done. pose proof (times_read _ Ht _ _ Hr). lia.
  - intros i j w l r l' Hi Hl Hx Hne Hr.
    destruct (written_before _ _ _ _ _ _ Hn Hm Hi Hl) as [[Hi0 Hl0]|[-> ->]].
    + destruct (phase_cases j tr e) as [Hj| ->]; [rewrite Hj in Hr; eapply (guarded_saw _ _ Hg i j); eauto; lia|].
      apply (saw_moves _ _ _ _ _ _ _ Hm) in Hr as (_ & Hq & s & Hs & Hj).
      pose proof (answers_lock _ _ _ _ Ha Hq Hs) as He. cbn in He. right. congruence.
    + rewrite phase_other in Hr by done. pose proof (times_saw _ Ht _ _ _ Hr). lia.
Qed.

Lemma execution_guarded s0 tr : execution s0 tr → timely tr → Guarded s0 tr.
Proof.
  revert tr. apply (execution_invariant s0 (fun tr => timely tr → Guarded s0 tr)); [by split|].
  intros tr e Htr IH Ht Ha Hm [Hin Hok]%timely_inv.
  apply guarded_step; eauto using execution_names, execution_times.
Qed.

(** C22. The lock excludes: however the calls of any number of instances interleave,
    and whatever the storage and E3 fail at, if locks are written less than
    two seconds after the storage was read and nothing is done under an expired
    lock, then no two instances hold locks that have not expired, and the
    lock in the storage is that of the holder. *)
Theorem lock_excludes s0 tr i w l g : execution s0 tr → timely tr → phase_of i tr = Holds w l g →
  (clock tr ≤ expiry l)%Z →
  lock_in (store s0 tr) = Some (stored l) ∧
  ∀ j w' l' g', phase_of j tr = Holds w' l' g' → (clock tr ≤ expiry l')%Z → j = i.
Proof.
  intros Htr Ht Hi Hx. pose proof (execution_guarded _ _ Htr Ht) as Hg. split; [by eapply guarded_held|].
  intros j w' l' g' Hj Hx'. symmetry. eapply guarded_exclusive; eauto using execution_names.
Qed.

(** ** The stored pair *)

Definition sealed (g : Stage) : option RawAcmeKeyPair :=
  match g with Sealed p | HalfStored p | Stored p => Some p | _ => None end.

(** E3 has sealed a pair for an instance. *)
Definition sealed_for (i : nat) (p : RawAcmeKeyPair) (tr : list Event) : Prop :=
  ∃ e q v, e ∈ tr ∧ ev_who e = i ∧ ev_call e = CEncrypt q ∧ ev_reply e = RValue v ∧ value_to_pair v = Some p.

Lemma sealed_moves t p c r p' w l g x : Move t p c r p' → p' = Holds w l g → sealed g = Some x →
  (∃ g0, p = Holds w l g0 ∧ sealed g0 = Some x) ∨ (∃ q v, c = CEncrypt q ∧ r = RValue v ∧ value_to_pair v = Some x).
Proof. destruct 1; intros; simplify_eq/=; eauto 6. Qed.

Lemma sealed_by_e3 s0 tr : execution s0 tr → ∀ i w l g p, phase_of i tr = Holds w l g → sealed g = Some p → sealed_for i p tr.
Proof.
  revert tr. apply (execution_invariant s0 (fun tr => ∀ i w l g p, phase_of i tr = Holds w l g → sealed g = Some p →
    sealed_for i p tr)); [done|]. intros tr e _ IH _ _ Hm i w l g p Hi Hp.
  assert (∀ i, sealed_for i p tr → sealed_for i p (tr ++ [e])) as Hw.
  { intros j (e' & q & v & Hin & He). exists e', q, v. split; [apply elem_of_app; by left|done]. }
  destruct (phase_cases i tr e) as [Hx| ->]; [rewrite Hx in Hi; eauto|].
  destruct (sealed_moves _ _ _ _ _ _ _ _ _ Hm Hi Hp) as [(g0 & ? & ?)|(q & v & ? & ? & ?)]; [eauto|].
  exists e, q, v. split; [|done]. apply elem_of_app. right. left.
Qed.

Definition halves (s : gmap string string) (g : Stage) : Prop :=
  match g with
  | HalfStored p => s !! PUBLIC_KEY_OBJECT_KEY = Some (public_key p)
  | Stored p => s !! PUBLIC_KEY_OBJECT_KEY = Some (public_key p) ∧ s !! PRIVATE_KEY_OBJECT_KEY = Some (pair_private_key p)
  | _ => True
  end.

Lemma halves_ext s s' g : s' !! PUBLIC_KEY_OBJECT_KEY = s !! PUBLIC_KEY_OBJECT_KEY →
  s' !! PRIVATE_KEY_OBJECT_KEY = s !! PRIVATE_KEY_OBJECT_KEY → halves s g → halves s' g.
Proof. intros H1 H2. destruct g; cbn; by rewrite ?H1, ?H2. Qed.

(** The pair changes only under a lock. *)
Lemma pair_moves t p c r p' s : Move t p c r p' →
  (affect c r s !! PUBLIC_KEY_OBJECT_KEY = s !! PUBLIC_KEY_OBJECT_KEY ∧
   affect c r s !! PRIVATE_KEY_OBJECT_KEY = s !! PRIVATE_KEY_OBJECT_KEY) ∨ (∃ w l g k v, p = Holds w l g ∧ c = CPut k v).
Proof.
  destruct 1; rewrite ?affect_reads by done; try (by left); try (by right; eexists _, _, _, _, _); cbn [affect].
  - left. cbn. by rewrite !lookup_insert_ne.
  - left. destruct (applied r); [|done]. by rewrite !lookup_insert_ne.
  - destruct c; try (by left); [right; by eexists _, _, _, _, _|naive_solver].
  - left. destruct (applied r); [|done]. by rewrite !lookup_delete_ne.
Qed.

Lemma work_halves t w l g0 c r g s : Move t (Holds w l g0) c r (Holds w l g) → halves s g0 → halves (affect c r s) g.
Proof.
  intros Hm Hs. inversion Hm; subst; try done; cbn in *; rewrite ?lookup_insert_eq; [done|].
  split; [|done]. by rewrite lookup_insert_ne.
Qed.

Lemma halves_kept s0 tr : execution s0 tr → timely tr → ∀ i w l g, phase_of i tr = Holds w l g →
  (clock tr ≤ expiry l)%Z → halves (store s0 tr) g.
Proof.
  revert tr. apply (execution_invariant s0 (fun tr => timely tr → ∀ i w l g, phase_of i tr = Holds w l g →
    (clock tr ≤ expiry l)%Z → halves (store s0 tr) g)); [done|].
  intros tr e Htr IH Ht _ Hm [Hok Hin]%timely_inv i w l g Hi Hx. rewrite clock_snoc in Hx. rewrite store_snoc.
  destruct (decide (i = ev_who e)) as [->|Hne].
  - destruct (hold_taken _ _ _ _ _ _ _ _ Hm Hi) as [[g0 Hp]|(Hp & _)].
    + rewrite Hp, Hi in Hm. eapply work_halves; [exact Hm|]. eapply IH; [done|exact Hp|lia].
    + rewrite Hp, Hi in Hm. by inversion Hm.
  - rewrite phase_other in Hi by done.
    destruct (pair_moves _ _ _ _ _ (store s0 tr) Hm) as [[H1 H2]|(w' & l' & g' & k & v & Hp & Hc)].
    + eapply halves_ext; [exact H1|exact H2|]. eapply IH; [done|exact Hi|lia].
    + destruct Hne. unfold in_time in Hin. rewrite Hp, Hc in Hin. apply Z.leb_le in Hin.
      eapply guarded_exclusive; [by apply execution_names|by apply execution_guarded|exact Hi|exact Hp|lia|unfold expiry; lia].
Qed.

(** C23. Pairs are not mixed: in an execution in time, an instance that has stored its
    pair and still holds its lock finds both halves in the storage, and they
    are the halves of one pair that E3 sealed for it. *)
Theorem stored_pair_is_whole s0 tr i w l p : execution s0 tr → timely tr → phase_of i tr = Holds w l (Stored p) →
  (clock tr ≤ expiry l)%Z →
  store s0 tr !! PUBLIC_KEY_OBJECT_KEY = Some (public_key p) ∧
  store s0 tr !! PRIVATE_KEY_OBJECT_KEY = Some (pair_private_key p) ∧ sealed_for i p tr.
Proof.
  intros Htr Ht Hi Hx. destruct (halves_kept _ _ Htr Ht _ _ _ _ Hi Hx). split; [done|]. split; [done|].
  by eapply sealed_by_e3.
Qed.

(** ** A pair that is there at the start *)

Lemma execution_logs s0 tr i : execution s0 tr → sp_done (run_of i tr).2 = log_of i tr.
Proof.
  induction 1 as [|tr e Htr IH _ _ Hr]; [done|]. destruct (decide (ev_who e = i)) as [<-|Hne]; [done|].
  rewrite log_snoc, decide_False by done. rewrite <- IH. unfold run_of, replies_of. by rewrite own_snoc, decide_False.
Qed.

Lemma elem_of_log i tr t c r : (t, c, r) ∈ log_of i tr ↔ mkEvent t i c r ∈ tr.
Proof.
  unfold log_of, own. rewrite list_elem_of_fmap. split.
  - intros ([t' i' c' r'] & ? & [<- H]%list_elem_of_filter). by simplify_eq/=.
  - intros H. eexists. split; [|apply list_elem_of_filter; split; [|exact H]]; done.
Qed.

Lemma stored_pair_read s0 tr pub priv : s0 !! PUBLIC_KEY_OBJECT_KEY = Some pub →
  s0 !! PRIVATE_KEY_OBJECT_KEY = Some priv → execution s0 tr →
  store s0 tr = s0 ∧ ∀ t i k o, mkEvent t i (CGet k) (RObject o) ∈ tr → o = s0 !! k.
Proof.
  intros H1 H2. induction 1 as [|tr e Htr [Hs Hr] Ht Ha Hrun]; [split; [done|by intros ? ? ? ? ?%elem_of_nil]|].
  assert (∀ t i k o, mkEvent t i (CGet k) (RObject o) ∈ tr ++ [e] → o = s0 !! k) as Hr'.
  { intros t i k o [Hin|Hin%list_elem_of_singleton]%elem_of_app; [by eapply Hr|]. subst e. cbn in Ha. by rewrite Hs in Ha. }
  split; [|done]. rewrite store_snoc, Hs. apply affect_reads.
  unfold run_of in Hrun. edestruct (found_pair lock_to_json lock_from_json public_pem private_pem key_from_pem
    pair_to_value value_to_pair (replies_of (ev_who e) (tr ++ [e])) pub priv) as [Hf _].
  { intros t k o. rewrite Hrun. intros Hin%elem_of_log%Hr'. naive_solver. }
  rewrite Hrun, log_snoc, decide_True in Hf by done. apply Forall_app in Hf as [_ Hf]. by inversion Hf.
Qed.

(** C24. A pair that is there is kept: when the storage holds a key pair, no
    instance writes anything, however many run and whatever fails; and when E3
    decrypts that pair to [plain], every instance that returns a key returns
    the key of [plain]. *)
Theorem stored_pair_is_kept s0 tr pub priv plain : s0 !! PUBLIC_KEY_OBJECT_KEY = Some pub →
  s0 !! PRIVATE_KEY_OBJECT_KEY = Some priv → execution s0 tr →
  (∀ e v, e ∈ tr → ev_call e = CDecrypt (pair_to_value (mkPair pub priv)) → ev_reply e = RValue v →
    value_to_pair v = Some plain) →
  store s0 tr = s0 ∧ ∀ i k, (run_of i tr).1 = Ret k → key_from_pem (pair_private_key plain) = Some k.
Proof.
  intros H1 H2 Htr He. destruct (stored_pair_read _ _ _ _ H1 H2 Htr) as [Hs Hr]. split; [done|]. intros i k Hk.
  pose proof (execution_logs _ _ i Htr) as Hlog. unfold run_of in *.
  edestruct (found_pair lock_to_json lock_from_json public_pem private_pem key_from_pem
    pair_to_value value_to_pair (replies_of i tr) pub priv) as [_ Hf].
  { intros t k' o. rewrite Hlog. intros Hin%elem_of_log%Hr. naive_solver. }
  destruct (Hf k Hk) as (t & v & pair & Hin & Hv & Hp). rewrite Hlog in Hin. apply elem_of_log in Hin.
  specialize (He _ v Hin eq_refl eq_refl). by simplify_eq.
Qed.

(** ** A lock that is left behind *)

Lemma patient_answers s0 tr e s l : answers s0 tr e → store s0 tr = s0 → s0 !! KEY_LOCK = Some s →
  s0 !! PUBLIC_KEY_OBJECT_KEY = None → (ev_time e ≤ lk_expiry_time l)%Z →
  patience s l false (ev_time e) (ev_call e) (ev_reply e) ≠ Some true.
Proof.
  unfold answers, patience. intros Ha Hs Hl Hp Ht. destruct (ev_call e) as [k| | | | | | | | |]; try done.
  - destruct (ev_reply e); try done; [|by destruct (is_key k PUBLIC_KEY_OBJECT_KEY), (is_key k KEY_LOCK)].
    rewrite Hs in Ha. subst o. destruct (is_key k PUBLIC_KEY_OBJECT_KEY) eqn:E1; [apply is_key_true in E1 as ->; by rewrite Hp|].
    destruct (is_key k KEY_LOCK) eqn:E2; [|done]. apply is_key_true in E2 as ->. by rewrite Hl, String.eqb_refl.
  - destruct (ev_reply e); try done. subst t. cbn. destruct (Z.ltb_spec (lk_expiry_time l) (ev_time e)); [lia|done].
Qed.

Lemma left_behind s0 tr s l : s0 !! KEY_LOCK = Some s → lock_from_json s = Some l →
  s0 !! PUBLIC_KEY_OBJECT_KEY = None → execution s0 tr → (clock tr ≤ lk_expiry_time l)%Z →
  store s0 tr = s0 ∧ ∀ e, e ∈ tr → patience s l false (ev_time e) (ev_call e) (ev_reply e) ≠ Some true.
Proof.
  intros Hl Hj Hp. induction 1 as [|tr e Htr IH Ht Ha Hrun]; [split; [done|by intros ? ?%elem_of_nil]|].
  rewrite clock_snoc. intros Hx. destruct IH as [Hs IH]; [lia|].
  assert (∀ e', e' ∈ tr ++ [e] → patience s l false (ev_time e') (ev_call e') (ev_reply e') ≠ Some true) as Hall.
  { intros e' [Hin|Hin%list_elem_of_singleton]%elem_of_app; [by apply IH|]. subst e'. by eapply patient_answers. }
  split; [|done]. rewrite store_snoc, Hs. apply affect_reads. unfold run_of in Hrun.
  destruct (waiting_instance lock_to_json lock_from_json public_pem private_pem key_from_pem pair_to_value value_to_pair
    s l Hj (replies_of (ev_who e) (tr ++ [e]))) as [Hf _].
  { intros t c r. rewrite Hrun. intros Hin%elem_of_log%Hall. exact Hin. }
  rewrite Hrun, log_snoc, decide_True in Hf by done. apply Forall_app in Hf as [_ Hf]. by inversion Hf.
Qed.

(** C26. A lock that is left behind holds everyone up: as long as it has not expired
    and there is no key pair, no instance writes anything and none gets a key,
    however many run and whatever fails. *)
Theorem left_lock_holds_up s0 tr s l : s0 !! KEY_LOCK = Some s → lock_from_json s = Some l →
  s0 !! PUBLIC_KEY_OBJECT_KEY = None → execution s0 tr → (clock tr ≤ lk_expiry_time l)%Z →
  store s0 tr = s0 ∧ ∀ i k, (run_of i tr).1 ≠ Ret k.
Proof.
  intros Hl Hj Hp Htr Hx. destruct (left_behind _ _ _ _ Hl Hj Hp Htr Hx) as [Hs Hall]. split; [done|]. intros i.
  pose proof (execution_logs _ _ i Htr) as Hlog. unfold run_of in *. eapply waiting_instance; [exact Hj|].
  intros t c r. rewrite Hlog. intros Hin%elem_of_log%Hall. exact Hin.
Qed.

(** ** Checking an execution *)

Fixpoint checked (s0 : gmap string string) (pre post : list Event) : Prop :=
  match post with
  | [] => True
  | e :: post => (clock pre ≤ ev_time e)%Z ∧ answers s0 pre e ∧
      sp_done (run_of (ev_who e) (pre ++ [e])).2 = log_of (ev_who e) (pre ++ [e]) ∧ checked s0 (pre ++ [e]) post
  end.

Lemma checked_execution s0 post pre : execution s0 pre → checked s0 pre post → execution s0 (pre ++ post).
Proof.
  revert pre. induction post as [|e post IH]; intros pre Hp; [by rewrite app_nil_r|]. intros (Ht & Ha & Hr & Hn).
  rewrite (assoc_L (++) pre [e] post : pre ++ e :: post = _). apply IH; [|done]. by constructor.
Qed.

Fixpoint punctual (pre post : list Event) : bool :=
  match post with [] => true | e :: post => in_time pre e && punctual (pre ++ [e]) post end.

Lemma punctual_timely post pre : timely pre → punctual pre post = true → timely (pre ++ post).
Proof.
  revert pre. induction post as [|e post IH]; intros pre Hp; [by rewrite app_nil_r|]. intros [Hi Hn]%andb_prop.
  rewrite (assoc_L (++) pre [e] post : pre ++ e :: post = _). apply IH; [|done]. by constructor.
Qed.
End System.

(** ** Two instances, two keys

    Keys and PEM texts are texts, E3 turns a text around. *)

Definition whole_lock_to (l : StorageLock) : string :=
  String.string_of_list_ascii (bits (encode (lk_name l, lk_uuid l, (lk_expiry_time l / 1000)%Z, lk_attempts l))).
Definition whole_lock_from (s : string) : option StorageLock :=
  (fun '(n, u, t, a) => mkLock n u (t * 1000) a) <$>
  (decode (of_bits (b s)) : option (string * string * Z * option N)).

Lemma whole_lock_json l : whole_lock_from (whole_lock_to l) = Some (stored l).
Proof.
  unfold whole_lock_from, whole_lock_to, b. rewrite String.list_ascii_of_string_of_list_ascii.
  by rewrite of_bits_bits, decode_encode.
Qed.

#[local] Existing Instance pair_json.
#[local] Notation Ev := (Event (J := pair_json) (Key := string)).
#[local] Notation toy_execution := (execution (J := pair_json) whole_lock_to whole_lock_from
  (fun _ => Some (b "public")) (fun k => Some (b k)) Some id Some).
#[local] Notation toy_run := (run_of (J := pair_json) whole_lock_to whole_lock_from
  (fun _ => Some (b "public")) (fun k => Some (b k)) Some id Some).
#[local] Notation toy_timely := (timely (J := pair_json) (Key := string) whole_lock_to whole_lock_from Some).

(** An instance that takes the lock, from the read of the lock at [t] on. *)
Definition creates (i : nat) (t : Z) (u k : string) : list Ev :=
  let lock := mkLock KEY_PAIR_LOCK_NAME u (t + 2 + 30000) (Some 0%N) in
  let raw := mkPair "public" k in
  [ mkEvent t i (CGet KEY_LOCK) (RObject None);
    mkEvent (t + 1) i CUuid (RText u);
    mkEvent (t + 2) i CNow (RTime (t + 2));
    mkEvent (t + 3) i (CPut KEY_LOCK (whole_lock_to lock)) RDone;
    mkEvent (t + 2003) i (CSleep 2) RDone;
    mkEvent (t + 2004) i (CGet KEY_LOCK) (RObject (Some (whole_lock_to lock)));
    mkEvent (t + 2005) i CKey (RKey k);
    mkEvent (t + 2006) i (CEncrypt raw) (RValue (turn_pair raw));
    mkEvent (t + 2007) i (CPut PUBLIC_KEY_OBJECT_KEY (public_key (turn_pair raw))) RDone;
    mkEvent (t + 2010) i (CPut PRIVATE_KEY_OBJECT_KEY (pair_private_key (turn_pair raw))) RDone;
    mkEvent (t + 2011) i (CDelete KEY_LOCK) RDone ].

Definition misses (i : nat) (t : Z) (pub : option string) : list Ev :=
  [ mkEvent t i (CGet PUBLIC_KEY_OBJECT_KEY) (RObject pub);
    mkEvent (t + 1) i (CGet PRIVATE_KEY_OBJECT_KEY) (RObject None) ].

(** The second instance reads the pair when the first has stored one half of it,
    and the lock when it is deleted. *)
Definition overlap : list Ev :=
  misses 0 0 None ++ take 9 (creates 0 2 "a" "first") ++ misses 1 2010 (Some "cilbup") ++
  drop 9 (creates 0 2 "a" "first") ++ creates 1 2014 "b" "second".

Ltac answer := cbn [answers ev_call ev_reply ev_time ev_who];
  first [exact I | vm_compute; reflexivity | vm_compute; congruence | apply (bool_decide_unpack _); vm_compute; exact I].
Ltac by_steps := apply (checked_execution _ _ _ _ _ _ _ _ _ []); [constructor|];
  cbn [checked app take drop overlap misses creates];
  repeat (split; [vm_compute; congruence|split; [answer|split; [vm_compute; reflexivity|]]]).

Lemma overlap_execution : toy_execution ∅ overlap.
Proof. unfold overlap, misses, creates. by_steps. exact I. Qed.

(** C25. Two instances can end with different keys, with every call in time and
    no failure: the pair is not read again once the lock is taken, so an
    instance that has missed the pair while it was being stored takes the
    lock after it was given back, and overwrites the pair the other already
    uses. *)
Theorem instances_may_disagree : ∃ tr,
  toy_execution ∅ tr ∧ toy_timely tr ∧
  Forall (fun e => applied (ev_reply e) = true ∨ reads (ev_call e) = true) tr ∧
  (toy_run 0 tr).1 = Ret "first" ∧ (toy_run 1 tr).1 = Ret "second" ∧
  store ∅ tr !! PRIVATE_KEY_OBJECT_KEY = Some (turn_text "second").
Proof.
  exists overlap. split; [apply overlap_execution|]. split.
  { apply (punctual_timely _ _ _ overlap []); [constructor|vm_compute; reflexivity]. }
  split; [apply (bool_decide_unpack _); vm_compute; exact I|]. by repeat split; vm_compute.
Qed.

(** ** Witnesses *)

Definition lock_a : StorageLock := mkLock KEY_PAIR_LOCK_NAME "a" 30008 (Some 0%N).
Definition lock_b : StorageLock := mkLock KEY_PAIR_LOCK_NAME "b" 30009 (Some 0%N).
Definition raw_a : RawAcmeKeyPair := mkPair "public" "first".

(** Two instances write their locks; the second write wins, and its instance
    stores its pair. *)
Definition contest : list Ev :=
  misses 0 0 None ++ misses 1 2 None ++
  [ mkEvent 4 0 (CGet KEY_LOCK) (RObject None);
    mkEvent 5 1 (CGet KEY_LOCK) (RObject None);
    mkEvent 6 0 CUuid (RText "a");
    mkEvent 7 1 CUuid (RText "b");
    mkEvent 8 0 CNow (RTime 8);
    mkEvent 9 1 CNow (RTime 9);
    mkEvent 10 1 (CPut KEY_LOCK (whole_lock_to lock_b)) RDone;
    mkEvent 11 0 (CPut KEY_LOCK (whole_lock_to lock_a)) RDone;
    mkEvent 2011 0 (CSleep 2) RDone;
    mkEvent 2012 1 (CSleep 2) RDone;
    mkEvent 2013 0 (CGet KEY_LOCK) (RObject (Some (whole_lock_to lock_a)));
    mkEvent 2014 1 (CGet KEY_LOCK) (RObject (Some (whole_lock_to lock_a)));
    mkEvent 2015 0 CKey (RKey "first");
    mkEvent 2016 0 (CEncrypt raw_a) (RValue (turn_pair raw_a));
    mkEvent 2017 0 (CPut PUBLIC_KEY_OBJECT_KEY (public_key (turn_pair raw_a))) RDone;
    mkEvent 2018 0 (CPut PRIVATE_KEY_OBJECT_KEY (pair_private_key (turn_pair raw_a))) RDone ]%Z.

Lemma contest_execution : toy_execution ∅ contest.
Proof. unfold contest, misses. by_steps. exact I. Qed.

Lemma contest_timely : toy_timely contest.
Proof. apply (punctual_timely _ _ _ contest []); [constructor|vm_compute; reflexivity]. Qed.

Lemma lock_excludes_witness :
  lock_in whole_lock_from (store ∅ contest) = Some (stored lock_a) ∧
  ∀ j w' l' g', phase_of (J := pair_json) whole_lock_to whole_lock_from Some j contest = Holds w' l' g' →
    (clock contest ≤ expiry l')%Z → j = 0.
Proof.
  eapply (lock_excludes (J := pair_json) whole_lock_to whole_lock_from (fun _ => Some (b "public")) (fun k => Some (b k))
    Some id Some whole_lock_json ∅ contest 0);
    [apply contest_execution|apply contest_timely|vm_compute; reflexivity|vm_compute; congruence].
Defined.

Lemma stored_pair_is_whole_witness :
  store ∅ contest !! PUBLIC_KEY_OBJECT_KEY = Some "cilbup" ∧
  store ∅ contest !! PRIVATE_KEY_OBJECT_KEY = Some "tsrif" ∧ sealed_for (J := pair_json) Some 0 (turn_pair raw_a) contest.
Proof.
  eapply (stored_pair_is_whole (J := pair_json) whole_lock_to whole_lock_from (fun _ => Some (b "public")) (fun k => Some (b k))
    Some id Some whole_lock_json ∅ contest 0 11 lock_a (turn_pair raw_a));
    [apply contest_execution|apply contest_timely|vm_compute; reflexivity|vm_compute; congruence].
Defined.

(** Without the two seconds exclusion is lost: an instance that writes its lock
    after another has checked takes the lock from it, and both hold one. *)
Definition late_write : list Ev :=
  take 10 contest ++
  [ mkEvent 10 0 (CPut KEY_LOCK (whole_lock_to lock_a)) RDone;
    mkEvent 2010 0 (CSleep 2) RDone;
    mkEvent 2011 0 (CGet KEY_LOCK) (RObject (Some (whole_lock_to lock_a)));
    mkEvent 2012 1 (CPut KEY_LOCK (whole_lock_to lock_b)) RDone;
    mkEvent 4012 1 (CSleep 2) RDone;
    mkEvent 4013 1 (CGet KEY_LOCK) (RObject (Some (whole_lock_to lock_b))) ]%Z.

Example late_writer_takes_the_lock_too : toy_execution ∅ late_write ∧
  phase_of (J := pair_json) whole_lock_to whole_lock_from Some 0 late_write = Holds 10 lock_a Fresh ∧
  phase_of (J := pair_json) whole_lock_to whole_lock_from Some 1 late_write = Holds 2012 lock_b Fresh ∧
  (clock late_write ≤ expiry lock_a)%Z ∧ (clock late_write ≤ expiry lock_b)%Z.
Proof.
  split; [unfold late_write, contest, misses; by_steps; exact I|].
  split; [vm_compute; reflexivity|]. split; [vm_compute; reflexivity|]. split; vm_compute; congruence.
Qed.

(** A pair in the storage, read by two instances at once. *)
Definition at_rest : gmap string string :=
  {[ PUBLIC_KEY_OBJECT_KEY := "cilbup"; PRIVATE_KEY_OBJECT_KEY := "tsrif" ]}.
Definition readers : list Ev :=
  [ mkEvent 0 0 (CGet PUBLIC_KEY_OBJECT_KEY) (RObject (Some "cilbup"));
    mkEvent 0 1 (CGet PUBLIC_KEY_OBJECT_KEY) (RObject (Some "cilbup"));
    mkEvent 1 0 (CGet PRIVATE_KEY_OBJECT_KEY) (RObject (Some "tsrif"));
    mkEvent 2 0 (CDecrypt (mkPair "cilbup" "tsrif")) (RValue raw_a);
    mkEvent 3 1 (CGet PRIVATE_KEY_OBJECT_KEY) (RObject (Some "tsrif"));
    mkEvent 4 1 (CDecrypt (mkPair "cilbup" "tsrif")) (RValue raw_a) ]%Z.

Lemma readers_execution : toy_execution at_rest readers.
Proof. unfold readers. by_steps. exact I. Qed.

Lemma stored_pair_is_kept_witness : (toy_run 1 readers).1 = Ret "first" ∧
  store at_rest readers = at_rest ∧ ∀ i k, (toy_run i readers).1 = Ret k → Some "first" = Some k.
Proof.
  split; [vm_compute; reflexivity|].
  apply (stored_pair_is_kept (J := pair_json) whole_lock_to whole_lock_from (fun _ => Some (b "public")) (fun k => Some (b k))
    Some id Some at_rest readers "cilbup" "tsrif" raw_a); [reflexivity|reflexivity|apply readers_execution|].
  intros e v Hin. unfold readers in Hin. set_unfold in Hin. naive_solver.
Defined.

(** A lock with thirty seconds to go, and an instance that gives up after
    twelve. *)
Definition waits (t : Z) : list Ev :=
  misses 1 t None ++
  [ mkEvent (t + 2) 1 (CGet KEY_LOCK) (RObject (Some (whole_lock_to lock_b)));
    mkEvent (t + 3) 1 CNow (RTime (t + 3));
    mkEvent (t + 3003) 1 (CSleep 3) RDone ].
Definition waiter : list Ev := waits 0 ++ waits 3004 ++ waits 6008 ++ waits 9012.
Definition left_by_b : gmap string string := {[ KEY_LOCK := whole_lock_to lock_b ]}.

Lemma waiter_execution : toy_execution left_by_b waiter.
Proof. unfold waiter, waits, misses. by_steps. exact I. Qed.

Lemma left_lock_holds_up_witness :
  (toy_run 1 waiter).1 = Throw (AeGeneral "Max retries for getting ") ∧ clock waiter = 12015%Z ∧
  store left_by_b waiter = left_by_b ∧ ∀ i k, (toy_run i waiter).1 ≠ Ret k.
Proof.
  split; [vm_compute; reflexivity|]. split; [vm_compute; reflexivity|].
  eapply (left_lock_holds_up (J := pair_json) whole_lock_to whole_lock_from (fun _ => Some (b "public")) (fun k => Some (b k))
    Some id Some left_by_b waiter _ (stored lock_b));
    [reflexivity|apply whole_lock_json|reflexivity|apply waiter_execution|vm_compute; congruence].
Defined.
