(* ===== verification/AcmeClient.v ===== *)
(** * ACME protocol client: directories and accounts

    data-plane/src/acme/client.rs, directory.rs and account.rs: the requests to
    a certificate authority, signed by the control plane, with the nonces that
    protect them from replay. A [Directory] is shared behind an [Arc] and keeps
    its nonce in a mutex: the nonces are cells of the world, a directory holds
    the address of its own. The HTTP connection, the configuration client and
    JSON are interfaces. *)
From Stdlib Require Import Ascii String NArith ZArith Lia.
From stdpp Require Import base gmap strings list pretty.
From S2P Require Import Prelude Libs Context Logging E3 Jws Config Acme.
#[local] Open Scope string_scope.
#[local] Open Scope list_scope.
#[local] Open Scope enclave_scope.

(** ** Interfaces *)

Record AcmeResponse {H : HttpLib} : Type := mkAcmeResponse {
  as_status : N;
  as_headers : HeaderMap;
  (** [None] fails while it is read *)
  as_body : option bytes
}.

(** [trait AcmeClientInterface] (client.rs). *)
Class AcmeClientInterface {H : HttpLib} (T W E : Type) : Type := {
  acme_send : T → Outgoing → M W E AcmeResponse
}.

(** The signing methods of [ConfigClient]. *)
Class SigningClient (W E : Type) : Type := {
  sg_jws : SignatureType → string → option string → string → option string → M W E JwsResult;
  sg_jwk : M W E Jwk
}.

(** ** Data *)

Record DirectoryMeta : Type := mkMeta {
  terms_of_service : option string;
  website : option string;
  caa_identities : option (list string);
  external_account_required : option bool
}.

(** The fields of a [Directory] that are deserialised. *)
Record DirectoryUrls : Type := mkUrls {
  new_nonce_url : string;
  new_account_url : string;
  new_order_url : string;
  revoke_cert_url : string;
  key_change_url : option string;
  new_authz_url : option string;
  meta : option DirectoryMeta
}.

Record Directory {T : Type} : Type := mkDirectory {
  dir_client : T;
  (** the address of [nonce: Mutex<Option<String>>] *)
  dir_nonce : nat;
  dir_urls : DirectoryUrls
}.
#[global] Arguments Directory : clear implicits.

Inductive AccountStatus : Type := AccountValid | AccountDeactivated | AccountRevoked.

(** The fields of an [Account] that are deserialised. *)
Record AccountBody : Type := mkAccountBody {
  ac_status : AccountStatus;
  ac_contact : option (list string);
  ac_terms_of_service_agreed : option bool
}.

Record Account {T Key : Type} : Type := mkAcmeAccount {
  ac_directory : option (Directory T);
  ac_private_key : option Key;
  ac_id : string;
  ac_body : AccountBody;
  ac_provider : option Provider
}.
#[global] Arguments Account : clear implicits.

(** The payloads the client signs. *)
Inductive AcmePayload : Type :=
| PNewAccount (contact : option (list string)) (terms_of_service_agreed only_return_existing : option bool)
    (external_account_binding : option JwsResult)
| PNewOrder (ids : list Identifier)
| PFinalize (csr : string)
| PEmpty.

(** [serde_json] on these types. *)
Class AcmeJson : Type := {
  payload_to_string : AcmePayload → option string;
  jws_to_vec : JwsResult → option bytes;
  jwk_to_string : Jwk → option string;
  thumb_to_string : JwkThumb → option string;
  directory_from_str : string → option DirectoryUrls;
  account_from_str : string → option AccountBody
}.

(** [impl From<&JwsResponse> for JwsResult] *)
Definition JwsResult_from (r : JwsResult) : JwsResult := mkJws (protected r) (payload r) (signature r).

Definition get_acme_host : string := "acme-v02.api.letsencrypt.org".

(** ** The HTTP client (client.rs) *)

Definition ENCLAVE_ACME_PORT : N := 7780.

Record AcmeClient : Type := mkAcmeClient { server_name : string; port : N }.

Definition AcmeClient_new (server_name : string) : AcmeClient := mkAcmeClient server_name ENCLAVE_ACME_PORT.

Definition AcmeClient_default : AcmeClient := AcmeClient_new get_acme_host.

Section HttpClient.
Context {H : HttpLib} {CE W Socket Tls Sender : Type}.
#[local] Notation AE := (DpAcmeError (CE := CE)).
Context (get_socket : N → M W AE Socket) (tls_connect : string → Socket → M W AE Tls)
  (handshake : Tls → M W AE Sender) (send_request : Sender → Outgoing → M W AE AcmeResponse).

Definition get_conn (c : AcmeClient) : M W AE Sender :=
  let! client_connection := get_socket (port c) in
  let! connection := tls_connect (server_name c) client_connection in
  handshake connection.

(** The connection is driven by a task of its own. *)
Definition AcmeClient_send (c : AcmeClient) (r : Outgoing) : M W AE AcmeResponse :=
  let! request_sender := get_conn c in
  send_request request_sender r.

#[export] Instance acme_client : AcmeClientInterface AcmeClient W AE := { acme_send := AcmeClient_send }.
End HttpClient.

(** ** Directories (directory.rs) *)

Section Directory.
Context {H : HttpLib} {CE W T Key : Type} {AJ : AcmeJson}.
#[local] Notation AE := (DpAcmeError (CE := CE)).
Context {CI : AcmeClientInterface T W AE} {SG : SigningClient W CE}.
(** [Uri::try_from] accepts the text. *)
Context (uri_ok : string → bool).

(** The world: what is outside the process, and the nonces of the directories
    fetched so far. The mutexes are never poisoned: nothing panics while one
    is held. *)
Record AcmeWorld : Type := mkAcmeWorld { aw_ext : W; aw_nonces : list (option string) }.

Definition AM : Type → Type := M AcmeWorld AE.

Definition ext {A} (m : M W AE A) : AM A := zoom aw_ext (fun x w => mkAcmeWorld x (aw_nonces w)) m.

(** [guard.take()] *)
Definition take_nonce (i : nat) : AM (option string) := fun w =>
  (Ret (mjoin (aw_nonces w !! i)), mkAcmeWorld (aw_ext w) (<[i := None]> (aw_nonces w))).

(** [*guard = Some(nonce)] *)
Definition put_nonce (i : nat) (nonce : string) : AM unit :=
  mmodify (fun w => mkAcmeWorld (aw_ext w) (<[i := Some nonce]> (aw_nonces w))).

(** [hyper::Request::builder()]: the headers are appended, an invalid URI or
    header value is reported by [body]. *)
Fixpoint append_headers (h : HeaderMap) (l : list (string * string)) : option HeaderMap :=
  match l with
  | [] => Some h
  | (k, v) :: l' => v' ← hv_from_str v; append_headers (hm_append h k v') l'
  end.

Definition build_request (method uri : string) (headers : list (string * string)) (body : bytes) :
    result AE Outgoing :=
  if uri_ok uri then
    let? h := ok_or (append_headers hm_empty headers) AeHttp in
    Ok (mkOutgoing method uri h body)
  else Err AeHttp.

(** [hyper::body::to_bytes] and [from_utf8]. *)
Definition read_body_str (resp : AcmeResponse) : result AE string :=
  let? resp_bytes := ok_or (as_body resp) AeHyper in
  ok_or (from_utf8 resp_bytes) AeUtf8.

Definition extract_nonce_from_response (resp : AcmeResponse) : result AE (option string) :=
  match hm_get (as_headers resp) "replay-nonce" with
  | Some nonce => let? s := ok_or (hv_to_str nonce) AeHeaderConversion in Ok (Some s)
  | None => Ok None
  end.

(** A directory that does not parse panics; the new one has its own cell. *)
Definition fetch_directory (acme_http_client : T) (provider : Provider) : AM (Directory T) :=
  let host := hostname provider in
  let path := directory_path provider in
  let url := "https://" +:+ host +:+ path in
  let! request := mlift (build_request "GET" url [("content-type", "application/json"); ("host", host)] []) in
  let! resp := ext (acme_send acme_http_client request) in
  let! body_str := mlift (read_body_str resp) in
  match directory_from_str body_str with
  | Some urls => fun w =>
      (Ret (mkDirectory T acme_http_client (length (aw_nonces w)) urls),
       mkAcmeWorld (aw_ext w) (aw_nonces w ++ [None]))
  | None => mpanic
  end.

Definition get_nonce (d : Directory T) (provider : Provider) : AM string :=
  let! maybe_nonce := take_nonce (dir_nonce d) in
  match maybe_nonce with
  | Some nonce => mret nonce
  | None =>
      let! new_nonce_request := mlift (build_request "GET" (new_nonce_url (dir_urls d))
        [("content-type", "application/json"); ("host", hostname provider)] []) in
      let! resp := ext (acme_send (dir_client d) new_nonce_request) in
      let! maybe_nonce := mlift (extract_nonce_from_response resp) in
      mlift (ok_or maybe_nonce AeNoNonce)
  end.

(** Keep the nonce of a response, if it has one. *)
Definition store_nonce (d : Directory T) (resp : AcmeResponse) : AM unit :=
  let! maybe_nonce := mlift (extract_nonce_from_response resp) in
  match maybe_nonce with
  | Some nonce => put_nonce (dir_nonce d) nonce
  | None => mret tt
  end.

Definition authenticated_request_raw (d : Directory T) (method url payload : string)
    (account_id : option string) (provider : Provider) : AM AcmeResponse :=
  let! nonce := get_nonce d provider in
  let! result := ext (cfg (sg_jws ECDSA url (Some nonce) payload account_id)) in
  let! body := mlift (ok_or (jws_to_vec (JwsResult_from result)) AeSerde) in
  let! request := mlift (build_request method url
    [("host", get_acme_host); ("content-type", "application/jose+json")] body) in
  let! resp := ext (acme_send (dir_client d) request) in
  if is_success (as_status resp) then store_nonce d resp ;! mret resp
  else
    let! body_str := mlift (read_body_str resp) in
    mthrow (AeClient body_str).

Definition authenticated_request (d : Directory T) (url method : string) (payload : option AcmePayload)
    (account_id : option string) (provider : Provider) : AM AcmeResponse :=
  let! payload_parsed :=
    match payload with
    | None => mret ""
    | Some p => mlift (ok_or (payload_to_string p) AeSerde)
    end in
  let! resp := authenticated_request_raw d method url payload_parsed account_id provider in
  store_nonce d resp ;!
  mret resp.

(** ** Accounts (account.rs) *)

Record AccountBuilder : Type := mkAccountBuilder {
  ab_directory : Directory T;
  ab_eab_required : bool;
  ab_contact : option (list string);
  ab_terms_of_service_agreed : option bool;
  ab_only_return_existing : option bool;
  ab_provider : Provider
}.

Definition AccountBuilder_new (d : Directory T) (eab : bool) (provider : Provider) : AccountBuilder :=
  mkAccountBuilder d eab None None None provider.

Definition contact (c : list string) (s : AccountBuilder) : AccountBuilder :=
  mkAccountBuilder (ab_directory s) (ab_eab_required s) (Some c) (ab_terms_of_service_agreed s)
    (ab_only_return_existing s) (ab_provider s).

Definition terms_of_service_agreed (agreed : bool) (s : AccountBuilder) : AccountBuilder :=
  mkAccountBuilder (ab_directory s) (ab_eab_required s) (ab_contact s) (Some agreed)
    (ab_only_return_existing s) (ab_provider s).

Definition only_return_existing (only : bool) (s : AccountBuilder) : AccountBuilder :=
  mkAccountBuilder (ab_directory s) (ab_eab_required s) (ab_contact s) (ab_terms_of_service_agreed s)
    (Some only) (ab_provider s).

(** The text of the location header, with the error for its absence. *)
Definition location (resp : AcmeResponse) (missing : string) : result AE string :=
  let? l := ok_or (hm_get (as_headers resp) "location") (AeGeneral missing) in
  ok_or (hv_to_str l) AeHeaderConversion.

Definition AccountBuilder_build (s : AccountBuilder) : AM (Account T Key) :=
  let url := new_account_url (dir_urls (ab_directory s)) in
  let! external_account_binding :=
    if ab_eab_required s then
      let! jwk_response := ext (cfg sg_jwk) in
      let! payload := mlift (ok_or (jwk_to_string jwk_response) AeSerde) in
      let! jws := ext (cfg (sg_jws HMAC url None payload None)) in
      mret (Some jws)
    else mret None in
  let! res := authenticated_request (ab_directory s) url "POST"
    (Some (PNewAccount (ab_contact s) (ab_terms_of_service_agreed s) (ab_only_return_existing s)
      external_account_binding)) None (ab_provider s) in
  let! body_str := mlift (read_body_str res) in
  let! body := mlift (ok_or (account_from_str body_str) AeSerde) in
  let! account_id := mlift (location res "No location header in newAccount request") in
  mret (mkAcmeAccount T Key (Some (ab_directory s)) None account_id body (Some (ab_provider s))).

(** The key field of an account is never set. *)
Definition Account_private_key (a : Account T Key) : result AE Key :=
  ok_or (ac_private_key a) (AeGeneral "No private key found for account").
End Directory.
