(* ===== verification/AcmeOrder.v ===== *)
(** * ACME protocol client: orders, authorizations and challenges

    data-plane/src/acme/order.rs and authorization.rs. Polling is bounded by
    the number of attempts, which is the measure of the loops. OpenSSL's
    certificate requests and JSON are parameters. *)
From Stdlib Require Import Ascii String NArith ZArith Lia.
From stdpp Require Import base gmap strings list pretty.
From S2P Require Import Prelude Libs Context Logging E3 Jws Config Acme AcmeClient.
#[local] Open Scope string_scope.
#[local] Open Scope list_scope.
#[local] Open Scope enclave_scope.

(** ** Data *)

(** An error as the server returns it (error.rs). *)
Record AcmeServerError : Type := mkServerError {
  se_type : option string;
  se_title : option string;
  se_status : option N;
  se_detail : option string
}.

Inductive OrderStatus : Type := OPending | OReady | OProcessing | OValid | OInvalid.

Definition order_is_done (s : OrderStatus) : bool :=
  match s with OValid | OInvalid => true | _ => false end.

Definition order_is_pending (s : OrderStatus) : bool :=
  match s with OPending => true | _ => false end.

(** The fields of an [Order] that are deserialised. *)
Record OrderBody : Type := mkOrderBody {
  ob_status : OrderStatus;
  ob_expires : option string;
  ob_identifiers : list Identifier;
  ob_not_before : option string;
  ob_not_after : option string;
  ob_error : option AcmeServerError;
  authorization_urls : list string;
  finalize_url : string;
  certificate_url : option string
}.

Inductive AuthorizationStatus : Type := APending | AValid | AInvalid | ADeactivated | AExpired | ARevoked.

Inductive ChallengeStatus : Type := CPending | CProcessing | CValid | CInvalid.

#[export] Instance authorization_status_eq_dec : EqDecision AuthorizationStatus.
Proof. solve_decision. Defined.
#[export] Instance challenge_status_eq_dec : EqDecision ChallengeStatus.
Proof. solve_decision. Defined.

(** The wire form of a challenge ([IntermediateChallenge]). *)
Record ChallengeBody : Type := mkChallengeBody {
  cb_type : string;
  cb_url : string;
  cb_status : ChallengeStatus;
  cb_validated : option string;
  cb_error : option AcmeServerError;
  cb_token : option string
}.

Record AuthorizationBody : Type := mkAuthorizationBody {
  az_identifier : Identifier;
  az_status : AuthorizationStatus;
  az_expires : option string;
  az_challenges : list ChallengeBody;
  az_wildcard : option bool
}.

Section Types.
Context {T Key : Type}.

Record Order : Type := mkOrder {
  or_account : option (Account T Key);
  or_url : string;
  or_body : OrderBody
}.

Record Challenge : Type := mkChallenge {
  ch_account : option (Account T Key);
  ch_body : ChallengeBody
}.

Record Authorization : Type := mkAuthorization {
  at_account : option (Account T Key);
  at_url : string;
  at_body : AuthorizationBody;
  (** the challenges of the body with the account of each *)
  at_challenges : list Challenge
}.
End Types.
#[global] Arguments Order : clear implicits.
#[global] Arguments Challenge : clear implicits.
#[global] Arguments Authorization : clear implicits.

Class OrderJson : Type := {
  order_from_str : string → option OrderBody;
  authorization_from_str : string → option AuthorizationBody;
  challenge_from_str : string → option ChallengeBody
}.

(** OpenSSL's certificate requests: a name with one entry, the extension of
    the alternative names, the signed request and its DER. *)
Class CsrLib (Key : Type) : Type := {
  X509Name : Type;
  Extension : Type;
  X509Req : Type;
  name_with_cn : string → option X509Name;
  san_extension : list string → option Extension;
  sign_req : X509Name → Extension → Key → option X509Req;
  req_to_der : X509Req → option bytes
}.

Section Order.
Context {H : HttpLib} {CE W T Key : Type} {AJ : AcmeJson} {OJ : OrderJson} {CL : CsrLib Key}.
#[local] Notation AE := (DpAcmeError (CE := CE)).
Context {CI : AcmeClientInterface T W AE} {SG : SigningClient W CE} {RT : Runtime W}.
Context (uri_ok : string → bool) (b64 : bytes → string) (sha256 : bytes → option bytes).

#[local] Notation AM := (AM (CE := CE) (W := W)).
#[local] Notation request := (authenticated_request uri_ok).

(** ** Building an order (order.rs) *)

Record OrderBuilder : Type := mkOrderBuilder {
  bu_account : Account T Key;
  bu_identifiers : list Identifier
}.

Definition OrderBuilder_new (account : Account T Key) : OrderBuilder := mkOrderBuilder account [].

Definition get_directory (s : OrderBuilder) : result AE (Directory T) :=
  ok_or (ac_directory (bu_account s)) (AeFieldNotFound "directory").

Definition set_identifiers (ids : list Identifier) (s : OrderBuilder) : OrderBuilder :=
  mkOrderBuilder (bu_account s) ids.

Definition add_dns_identifier (fqdn : string) (s : OrderBuilder) : OrderBuilder :=
  mkOrderBuilder (bu_account s) (bu_identifiers s ++ [mkIdentifier "dns" fqdn]).

Definition OrderBuilder_build (s : OrderBuilder) (provider : Provider) : AM (Order T Key) :=
  let! directory := mlift (get_directory s) in
  let! response := request directory (new_order_url (dir_urls directory)) "POST"
    (Some (PNewOrder (bu_identifiers s))) (Some (ac_id (bu_account s))) provider in
  let! body_str := mlift (read_body_str response) in
  let! order := mlift (ok_or (order_from_str body_str) AeSerde) in
  let! order_url := mlift (location response "No location header in newOrder response") in
  mret (mkOrder (Some (bu_account s)) order_url order).

Definition gen_csr (key : Key) (domains : list string) : result AE X509Req :=
  match domains with
  | [] => Err (AeCsr "CSR validation error: At least one domain name needs to be supplied")
  | d0 :: _ =>
      let? name := ok_or (name_with_cn d0) AeOpenSsl in
      let? san := ok_or (san_extension domains) AeOpenSsl in
      ok_or (sign_req name san key) AeOpenSsl
  end.

(** ** The steps of an order *)

(** The account of an object and the directory of the account: the method
    [get_account_and_directory] of orders, authorizations and challenges. *)
Definition account_and_directory (a : option (Account T Key)) : result AE (Account T Key * Directory T) :=
  let? account := ok_or a (AeFieldNotFound "account") in
  let? directory := ok_or (ac_directory account) (AeFieldNotFound "directory") in
  Ok (account, directory).

Definition provider_of (account : Account T Key) : Provider := default LetsEncrypt (ac_provider account).

(** A signed POST for an account, and the text of its answer. *)
Definition account_post (a : option (Account T Key)) (url : string) (payload : option AcmePayload) :
    AM (Account T Key * AcmeResponse) :=
  let! (account, directory) := mlift (account_and_directory a) in
  let! response := request directory url "POST" payload (Some (ac_id account)) (provider_of account) in
  mret (account, response).

Definition Order_finalize (pkey : Key) (o : Order T Key) : AM (Order T Key) :=
  let! csr := mlift (gen_csr pkey (id_value <$> ob_identifiers (or_body o))) in
  let! der := mlift (ok_or (req_to_der csr) AeOpenSsl) in
  let csr_b64 := b64 der in
  let! (account, response) := account_post (or_account o) (finalize_url (or_body o)) (Some (PFinalize csr_b64)) in
  let! body_str := mlift (read_body_str response) in
  let! order := mlift (ok_or (order_from_str body_str) AeSerde) in
  mret (mkOrder (Some account) (or_url o) order).

(** [X509::stack_from_pem] is a parameter. *)
Definition Order_certificate {X509 : Type} (stack_from_pem : bytes → option (list X509)) (o : Order T Key) :
    AM (option (list X509)) :=
  match certificate_url (or_body o) with
  | None => mret None
  | Some url =>
      let! (_, response) := account_post (or_account o) url None in
      let! body_bytes := mlift (ok_or (as_body response) AeHyper) in
      let! chain := mlift (ok_or (stack_from_pem body_bytes) AeOpenSsl) in
      mret (Some chain)
  end.

Definition Order_poll (o : Order T Key) : AM (Order T Key) :=
  let! (account, response) := account_post (or_account o) (or_url o) None in
  let! body_str := mlift (read_body_str response) in
  let! order := mlift (ok_or (order_from_str body_str) AeSerde) in
  mret (mkOrder (Some account) (or_url o) order).

(** The four waiting loops: [while busy { if i >= attempts { return Err(..) }
    sleep; x = x.poll()?; i += 1 }]. [attempts] is what is left of the bound. *)
Fixpoint wait_while {A} (busy : A → bool) (poll : A → AM A) (interval : Z) (exceeded : string)
    (attempts : nat) (x : A) : AM A :=
  if busy x then
    match attempts with
    | O => mthrow (AeGeneral exceeded)
    | S n =>
        ext (sleep interval) ;!
        let! x' := poll x in
        wait_while busy poll interval exceeded n x'
    end
  else mret x.

Definition Order_wait_ready (poll_interval : Z) (attempts : nat) (o : Order T Key) : AM (Order T Key) :=
  wait_while (fun o => order_is_pending (ob_status (or_body o))) Order_poll poll_interval
    "Max attempts reached for polling order." attempts o.

Definition Order_wait_done (poll_interval : Z) (attempts : nat) (o : Order T Key) : AM (Order T Key) :=
  wait_while (fun o => negb (order_is_done (ob_status (or_body o)))) Order_poll poll_interval
    "Max attempts reached for polling order." attempts o.

(** ** Authorizations and challenges (authorization.rs) *)

(** [skip_account]: the challenges of a body, without an account. *)
Definition skip_account (l : list ChallengeBody) : list (Challenge T Key) := mkChallenge None <$> l.

Definition authorization_of (account : Account T Key) (url : string) (body : AuthorizationBody) :
    Authorization T Key :=
  mkAuthorization (Some account) url body
    ((fun c => mkChallenge (Some account) (ch_body c)) <$> skip_account (az_challenges body)).

Fixpoint authorizations_loop (account : Account T Key) (directory : Directory T) (urls : list string) :
    AM (list (Authorization T Key)) :=
  match urls with
  | [] => mret []
  | authorization_url :: rest =>
      let! response := request directory authorization_url "POST" None (Some (ac_id account)) (provider_of account) in
      let! body_str := mlift (read_body_str response) in
      let! body := mlift (ok_or (authorization_from_str body_str) AeSerde) in
      let! auths := authorizations_loop account directory rest in
      mret (authorization_of account authorization_url body :: auths)
  end.

Definition Order_authorizations (o : Order T Key) : AM (list (Authorization T Key)) :=
  let! (account, directory) := mlift (account_and_directory (or_account o)) in
  authorizations_loop account directory (authorization_urls (or_body o)).

Definition get_challenge (type : string) (a : Authorization T Key) : option (Challenge T Key) :=
  List.find (fun c => String.eqb (cb_type (ch_body c)) type) (at_challenges a).

(** The challenges of a polled authorization have no account. *)
Definition Authorization_poll (a : Authorization T Key) : AM (Authorization T Key) :=
  let! (account, response) := account_post (at_account a) (at_url a) None in
  let! body_str := mlift (read_body_str response) in
  let! body := mlift (ok_or (authorization_from_str body_str) AeSerde) in
  mret (mkAuthorization (Some account) (at_url a) body (skip_account (az_challenges body))).

Definition Authorization_wait_done (poll_interval : Z) (attempts : nat) (a : Authorization T Key) :
    AM (Authorization T Key) :=
  wait_while (fun a => bool_decide (az_status (at_body a) = APending)) Authorization_poll poll_interval
    "Max attempts reached for checking authorization is complete" attempts a.

Definition key_authorization (c : Challenge T Key) : AM (option string) :=
  match cb_token (ch_body c) with
  | Some token =>
      let! (_, _) := mlift (account_and_directory (ch_account c)) in
      let! response := ext (cfg sg_jwk) in
      let! thumb := mlift (ok_or (thumb_to_string (JwkThumb_from response)) AeSerde) in
      let! digest := mlift (ok_or (sha256 (b thumb)) AeOpenSsl) in
      mret (Some (token +:+ "." +:+ b64 digest))
  | None => mret None
  end.

Definition Challenge_validate (c : Challenge T Key) : AM (Challenge T Key) :=
  let! (account, response) := account_post (ch_account c) (cb_url (ch_body c)) (Some PEmpty) in
  let! body_str := mlift (read_body_str response) in
  let! body := mlift (ok_or (challenge_from_str body_str) AeSerde) in
  mret (mkChallenge (Some account) body).

Definition Challenge_poll (c : Challenge T Key) : AM (Challenge T Key) :=
  let! (account, response) := account_post (ch_account c) (cb_url (ch_body c)) None in
  let! body_str := mlift (read_body_str response) in
  let! body := mlift (ok_or (challenge_from_str body_str) AeSerde) in
  mret (mkChallenge (Some account) body).

Definition Challenge_wait_done (poll_interval : Z) (attempts : nat) (c : Challenge T Key) :
    AM (Challenge T Key) :=
  wait_while (fun c => bool_decide (cb_status (ch_body c) = CPending) || bool_decide (cb_status (ch_body c) = CProcessing))
    Challenge_poll poll_interval "Max attempts polling challenge exceeded" attempts c.
End Order.

(** ** Long names *)

Lemma replace_char_length s c d : String.length (replace_char s c d) = String.length s.
Proof. induction s as [|a s IH]; [done|]. cbn. by rewrite IH. Qed.

Lemma trusted_domain_length staging (c : EnclaveContext) d : d ∈ get_trusted_cert_domains staging c →
  (String.length (Context.name c) + String.length (Context.app_uuid c) + 20 ≤ String.length d)%nat.
Proof.
  unfold get_trusted_cert_domains. cbn [fmap list_fmap]. rewrite !elem_of_cons, elem_of_nil.
  unfold hyphenated_app_uuid. intros [->|[->|[]]]; rewrite !str_length_app, replace_char_length;
    destruct staging; cbn; lia.
Qed.

Section LongNames.
Context {H : HttpLib} {CE W T Key : Type} {AJ : AcmeJson} {OJ : OrderJson} {CL : CsrLib Key}.
Context {CI : AcmeClientInterface T W (DpAcmeError (CE := CE))} {SG : SigningClient W CE}.
Context (uri_ok : string → bool) (b64 : bytes → string).
(** OpenSSL's upper bound on a common name ([ub_common_name]). *)
Context (cn_bound : ∀ s, (64 < String.length s)%nat → name_with_cn s = None).

(** An enclave with a long name never gets its trusted certificate: when
    the names of the enclave and of the application have 45 characters or more
    together, no order for its domains can be finalized, since the common name
    of the request would have more than 64 characters; nothing is sent. *)
Theorem long_name_gets_no_certificate staging (c : EnclaveContext) (o : Order T Key) key w :
  (45 ≤ String.length (Context.name c) + String.length (Context.app_uuid c))%nat →
  ob_identifiers (or_body o) ≠ [] →
  Forall (fun i => id_value i ∈ get_trusted_cert_domains staging c) (ob_identifiers (or_body o)) →
  Order_finalize uri_ok b64 key o w = (Throw AeOpenSsl, w).
Proof.
  intros Hl Hne Hd. unfold Order_finalize. destruct (ob_identifiers (or_body o)) as [|i ids]; [done|].
  apply Forall_cons in Hd as [Hi _]. apply trusted_domain_length in Hi.
  unfold gen_csr. cbn [fmap list_fmap]. rewrite cn_bound by lia. done.
Qed.
End LongNames.
