(* ===== verification/AcmeCert.v ===== *)
(** * ACME certificates

    data-plane/src/acme/raw_cert.rs, cert.rs and mod.rs: ordering the trusted
    certificate, sharing it between the instances through the object storage,
    serving it and renewing it. The storage, E3, the certificate authority and
    the runtime are interfaces; OpenSSL, rustls and the pem crate are
    parameters. Durations are whole seconds. *)
From Stdlib Require Import Ascii String NArith ZArith Lia.
From stdpp Require Import base gmap strings list pretty.
From S2P Require Import Prelude Libs Context Logging E3 Jws Config Acme AcmeClient AcmeOrder.
#[local] Open Scope string_scope.
#[local] Open Scope list_scope.
#[local] Open Scope enclave_scope.

Definition CERTIFICATE_LOCK_NAME : string := "certificate-v1".
Definition CERTIFICATE_OBJECT_KEY : string := "certificate-v1.pem".

(** ** Stored certificates (raw_cert.rs) *)

Record RawAcmeCertificate : Type := mkRaw { certificate : string }.

(** OpenSSL's certificates and keys, rustls' signing keys, the pem crate. *)
Class X509Lib (Key : Type) : Type := {
  X509 : Type;
  SigningKey : Type;
  x509_to_pem : X509 → option bytes;
  stack_from_pem : bytes → option (list X509);
  not_after : X509 → Z;
  private_key_to_der : Key → option bytes;
  public_key_to_der : Key → option bytes;
  any_ecdsa_type : bytes → option SigningKey;
  pem_parse_many : bytes → option (list bytes)
}.

Record CertifiedKey {Key : Type} {XL : X509Lib Key} : Type := mkCertifiedKey {
  cert_chain : list bytes;
  signing_key : SigningKey
}.

(** Where the interfaces live: one world [W] outside the process. *)
Section Cert.
Context {H : HttpLib} {CE W Key : Type} {AJ : AcmeJson} {OJ : OrderJson} {CL : CsrLib Key} {XL : X509Lib Key}.
#[local] Notation AE := (DpAcmeError (CE := CE)).
Context {CI : AcmeClientInterface AcmeClient W AE} {SG : SigningClient W CE} {SC : StorageConfigClient W CE}
  {RT : Runtime W} {J : Json} {A : E3Api W}.
Context (uri_ok : string → bool) (b64 : bytes → string) (sha256 : bytes → option bytes).
Context (lock_to_json : StorageLock → string) (lock_from_json : string → option StorageLock).
Context (raw_to_value : RawAcmeCertificate → Value) (value_to_raw : Value → option RawAcmeCertificate).
(** [cfg(staging)] *)
Context (staging : bool).

Fixpoint pem_strings (l : list X509) : result AE (list string) :=
  match l with
  | [] => Ok []
  | x509 :: l' =>
      let? pem := ok_or (x509_to_pem x509) AeOpenSsl in
      let? pem_string := ok_or (from_utf8 pem) AeUtf8 in
      let? rest := pem_strings l' in
      Ok (pem_string :: rest)
  end.

Definition convert_to_pemfile (l : list X509) : result AE string :=
  let? l := pem_strings l in Ok (join "010" l).

Definition from_x509s (l : list X509) : result AE RawAcmeCertificate :=
  let? pem_string := convert_to_pemfile l in Ok (mkRaw pem_string).

Definition cert_from_storage : M W AE (option RawAcmeCertificate) :=
  let! response_maybe := cfg (sc_get_object CERTIFICATE_OBJECT_KEY) in
  mret ((fun response => mkRaw (go_body response)) <$> response_maybe).

Definition to_x509s (c : RawAcmeCertificate) : result AE (list X509) :=
  ok_or (stack_from_pem (b (certificate c))) AeOpenSsl.

(** The delay computed from two readings of the clock and a fresh jitter. *)
Definition cert_time_till_renewal (x509s : list X509) : M W AE Z :=
  let! t := now in
  let! jitter := draw_jitter in
  let! t' := now in
  mlift (ok_or (time_till_renewal_required (t / 1000) jitter (t' / 1000) (not_after <$> x509s)) AeSystemTime).

Fixpoint pem_certs (l : list X509) : result AE (list bytes) :=
  match l with
  | [] => Ok []
  | x509 :: l' =>
      let? pem := ok_or (x509_to_pem x509) AeOpenSsl in
      let? rest := pem_certs l' in
      Ok (pem :: rest)
  end.

Definition to_certified_key (x509s : list X509) (private_key : Key) : result AE CertifiedKey :=
  let? der_encoded_private_key := ok_or (private_key_to_der private_key) AeOpenSsl in
  let? ecdsa_private_key := ok_or (any_ecdsa_type der_encoded_private_key) AeRustlsSign in
  let? pems := pem_certs x509s in
  let? parsed_pems := ok_or (pem_parse_many (concat pems)) AePem in
  Ok (mkCertifiedKey Key XL parsed_pems ecdsa_private_key).

Definition cert_persist (c : RawAcmeCertificate) : M W AE unit :=
  cfg (sc_put_object CERTIFICATE_OBJECT_KEY (certificate c)).

(** ** The retriever (cert.rs) *)

Record AcmeCertificateRetreiver : Type := mkRetreiver { acme_account : option (Account AcmeClient Key) }.

Definition AcmeCertificateRetreiver_new : AcmeCertificateRetreiver := mkRetreiver None.

(** A renewal task that has been spawned: its delay and its copy of the
    retriever. *)
Record RenewalTask : Type := mkTask { task_delay : Z; task_self : AcmeCertificateRetreiver }.

(** The world of the process: [TRUSTED_CERT_STORE], the spawned tasks and the
    recorded orders. The lock of the store is never poisoned. *)
Record CertWorld : Type := mkCertWorld {
  cw_acme : AcmeWorld (W := W);
  cw_trusted : option CertifiedKey;
  cw_tasks : list RenewalTask;
  cw_orders : list (string * bool)
}.

Definition CM : Type → Type := M CertWorld AE.

Definition acme {B} (m : AM (CE := CE) (W := W) B) : CM B :=
  zoom cw_acme (fun x w => mkCertWorld x (cw_trusted w) (cw_tasks w) (cw_orders w)) m.

Definition outside {B} (m : M W AE B) : CM B := acme (ext m).

Definition write_certificate_to_rwlock (cert : CertifiedKey) : CM unit :=
  mmodify (fun w => mkCertWorld (cw_acme w) (Some cert) (cw_tasks w) (cw_orders w)).

Definition record_cert_order (provider : string) (success : bool) : CM unit :=
  mmodify (fun w => mkCertWorld (cw_acme w) (cw_trusted w) (cw_tasks w) (cw_orders w ++ [(provider, success)])).

(** [tokio::spawn] of [renewal_task] below. *)
Definition schedule_certificate_renewal (self : AcmeCertificateRetreiver) (time_till_renewal : Z) : CM unit :=
  mmodify (fun w => mkCertWorld (cw_acme w) (cw_trusted w)
    (cw_tasks w ++ [mkTask time_till_renewal self]) (cw_orders w)).

Definition decrypt_certificate (encrypted : RawAcmeCertificate) : M W AE RawAcmeCertificate :=
  let! e3_response := in_e3 (e3_crypto_decrypt (mkCryptoRequest (raw_to_value encrypted))) in
  mlift (ok_or (value_to_raw (cs_data e3_response)) AeSerde).

Definition encrypt_certificate (raw : RawAcmeCertificate) : M W AE RawAcmeCertificate :=
  let! e3_response := in_e3 (e3_encrypt (mkCryptoRequest (raw_to_value raw)) None) in
  mlift (ok_or (value_to_raw (cs_data e3_response)) AeSerde).

(** *** Ordering *)

Definition init_acme_account (provider : Provider) : AM (CE := CE) (W := W) (Account AcmeClient Key) :=
  let acme_client := AcmeClient_new (hostname provider) in
  let! directory := fetch_directory uri_ok acme_client provider in
  AccountBuilder_build uri_ok
    (AcmeClient.terms_of_service_agreed true
      (contact ["mailto:engineering@evervault.com"]
        (AccountBuilder_new directory (eab_required provider) provider))).

(** The body of the loop over the authorizations. *)
Definition complete_authorization (auth : Authorization AcmeClient Key) : AM (CE := CE) (W := W) unit :=
  let! challenge := mlift (ok_or (get_challenge "http-01" auth)
    (AeFieldNotFound "Challenge not found in authorization")) in
  let! token := mlift (ok_or (cb_token (ch_body challenge))
    (AeFieldNotFound "Token not found in challenge returned")) in
  let path := "acme-challenges/" +:+ token in
  let! token_value := key_authorization b64 sha256 challenge in
  let! token_value := mlift (ok_or token_value (AeFieldNotFound "Token not found in challenge returned")) in
  ext (cfg (sc_put_object path token_value)) ;!
  let! challenge_validated := Challenge_validate uri_ok challenge in
  Challenge_wait_done uri_ok 10 7 challenge_validated ;!
  Authorization_wait_done uri_ok 10 7 auth ;!
  mret tt.

Fixpoint complete_authorizations (auths : list (Authorization AcmeClient Key)) : AM (CE := CE) (W := W) unit :=
  match auths with
  | [] => mret tt
  | auth :: rest => complete_authorization auth ;! complete_authorizations rest
  end.

(** The account the order is made with: the first one made is kept. *)
Definition order_account (self : AcmeCertificateRetreiver) (provider : Provider) :
    AM (CE := CE) (W := W) (Account AcmeClient Key) :=
  match acme_account self with
  | Some account => mret account
  | None => init_acme_account provider
  end.

Definition order_certificate (self : AcmeCertificateRetreiver) (domains : list string) (key : Key)
    (provider : Provider) : AM (CE := CE) (W := W) (AcmeCertificateRetreiver * RawAcmeCertificate) :=
  let! account := order_account self provider in
  let self := mkRetreiver (Some account) in
  let order_builder := foldl (fun s d => add_dns_identifier d s) (OrderBuilder_new account) domains in
  let! order := OrderBuilder_build uri_ok order_builder provider in
  let! authorizations := Order_authorizations uri_ok order in
  complete_authorizations authorizations ;!
  let! order_ready := Order_wait_ready uri_ok 5 5 order in
  let! order_finalized := Order_finalize uri_ok b64 key order_ready in
  let! order_complete := Order_wait_done uri_ok 5 5 order_finalized in
  let! chain := Order_certificate uri_ok stack_from_pem order_complete in
  let! chain := mlift (ok_or chain (AeFieldNotFound "Certificate not found in completed order")) in
  let! raw := mlift (from_x509s chain) in
  mret (self, raw).

(** *** Locks *)

Definition get_order_lock : M W AE (option StorageLock) := read_from_storage lock_from_json CERTIFICATE_LOCK_NAME.

Definition order_lock_exists_and_is_valid (lock_maybe : option StorageLock) : M W AE bool :=
  match lock_maybe with
  | Some lock => let! expired := is_expired lock in mret (negb expired)
  | None => mret false
  end.

(** The attempts a lock records ([u32]). *)
Definition lock_attempts (lock_maybe : option StorageLock) : N :=
  match lock_maybe with Some lock => default 0%N (number_of_attempts lock) | None => 0%N end.

(** [attempts + 1] on [u32]. *)
Definition next_attempt (attempts : N) : N := ((attempts + 1) mod 2 ^ 32)%N.

(** Two attempts with LetsEncrypt, then ZeroSSL. *)
Definition provider_for (attempts : N) : Provider := if (attempts <=? 2)%N then LetsEncrypt else ZeroSSL.

Definition create_certificate_and_persist_with_lock (self : AcmeCertificateRetreiver) (key : Key)
    (enclave_context : EnclaveContext) (attempts : N) :
    CM (AcmeCertificateRetreiver * option CertifiedKey) :=
  let! certificate_lock := outside (StorageLock_new CERTIFICATE_LOCK_NAME attempts) in
  let! held := outside (write_and_check_persisted lock_to_json lock_from_json certificate_lock) in
  if held then
    let cert_domains := get_trusted_cert_domains staging enclave_context in
    let provider := provider_for attempts in
    let! ordered := mtry (acme (order_certificate self cert_domains key provider)) in
    match ordered with
    | Err e => record_cert_order (get_stats_key provider) false ;! mthrow e
    | Ok (self, acme_certificate) =>
        record_cert_order (get_stats_key provider) true ;!
        let! encrypted_raw_certificate := outside (encrypt_certificate acme_certificate) in
        outside (cert_persist encrypted_raw_certificate) ;!
        outside (delete_lock certificate_lock) ;!
        let! x509s := mlift (to_x509s acme_certificate) in
        let! cert := mlift (to_certified_key x509s key) in
        mret (self, Some cert)
    end
  else mret (self, None).

(** *** Fetching *)

Definition fetch_certificate_and_renewal_time (key : Key) : M W AE (option (CertifiedKey * Z)) :=
  let! stored := cert_from_storage in
  match stored with
  | None => mret None
  | Some raw_acme_certificate =>
      let! decrypted_certificate := decrypt_certificate raw_acme_certificate in
      let! x509s := mlift (to_x509s decrypted_certificate) in
      let! time_till_renewal_required := cert_time_till_renewal x509s in
      let! certified_key := mlift (to_certified_key x509s key) in
      mret (Some (certified_key, time_till_renewal_required))
  end.

Definition fetch_and_decrypt_certificate (self : AcmeCertificateRetreiver) (key : Key) : CM (option CertifiedKey) :=
  let! stored := outside cert_from_storage in
  match stored with
  | None => mret None
  | Some raw_acme_certificate =>
      let! decrypted_certificate := outside (decrypt_certificate raw_acme_certificate) in
      let! x509s := mlift (to_x509s decrypted_certificate) in
      let! time_till_renewal_required := outside (cert_time_till_renewal x509s) in
      schedule_certificate_renewal self time_till_renewal_required ;!
      let! certified_key := mlift (to_certified_key x509s key) in
      mret (Some certified_key)
  end.

(** *** Renewing *)

Definition renew_certificate_and_update_store (self : AcmeCertificateRetreiver) (key : Key)
    (enclave_context : EnclaveContext) : CM unit :=
  let! order_lock_maybe := outside get_order_lock in
  let attempts := lock_attempts order_lock_maybe in
  let! valid := outside (order_lock_exists_and_is_valid order_lock_maybe) in
  if valid then mret tt
  else
    (** on a clone of [self]: its account is dropped *)
    let! created := mtry (create_certificate_and_persist_with_lock self key enclave_context
      (next_attempt attempts)) in
    match created with
    | Ok (_, Some cert) => write_certificate_to_rwlock cert
    | _ => mthrow (AeGeneral "Error renewing certificate")
    end.

(** [for i in 1..retries], with the last error. *)
Fixpoint renew_attempts (self : AcmeCertificateRetreiver) (key : Key) (enclave_context : EnclaveContext)
    (steps : list Z) (delay_in_seconds : Z) (last_error : option AE) : CM (option AE) :=
  match steps with
  | [] => mret last_error
  | i :: steps' =>
      let! renewed := mtry (renew_certificate_and_update_store self key enclave_context) in
      match renewed with
      | Ok _ => mret None
      | Err e =>
          let delay_in_seconds := (delay_in_seconds * i)%Z in
          outside (sleep delay_in_seconds) ;!
          renew_attempts self key enclave_context steps' delay_in_seconds (Some e)
      end
  end.

(** The task a renewal is scheduled as. *)
Definition renewal_task (key : Key) (enclave_context : EnclaveContext) (task : RenewalTask) : CM unit :=
  let self := task_self task in
  outside (sleep (task_delay task)) ;!
  let! fetched := mtry (outside (fetch_certificate_and_renewal_time key)) in
  let renew : CM unit :=
    let! last_error := renew_attempts self key enclave_context [1; 2]%Z 10 None in
    let days_till_renewal := match last_error with
                             | Some _ => ONE_DAY_IN_SECONDS
                             | None => SIXTY_DAYS_IN_SECONDS
                             end in
    let! t := outside now in
    let! jitter := outside draw_jitter in
    let! t' := outside now in
    match seconds_with_jitter_to_time (t / 1000) jitter (t' / 1000) days_till_renewal with
    | Some time_till_renewal => schedule_certificate_renewal self time_till_renewal
    | None => mret tt
    end in
  match fetched with
  | Ok (Some (cert, time_till_expiry)) =>
      if (SIXTY_DAYS_IN_SECONDS <? time_till_expiry)%Z then write_certificate_to_rwlock cert else renew
  | _ => renew
  end.

(** *** Getting the certificate *)

(** [i] counts up to [max_checks = 10] and the bound is checked first: nine
    rounds at most, five seconds apart. *)
Fixpoint cert_rounds (rounds : nat) (self : AcmeCertificateRetreiver) (key : Key)
    (enclave_context : EnclaveContext) : CM CertifiedKey :=
  match rounds with
  | O => mthrow (AeGeneral "Max retries for getting certificate reached")
  | S n =>
      let! found := fetch_and_decrypt_certificate self key in
      match found with
      | Some cert => mret cert
      | None =>
          let! order_lock_maybe := outside get_order_lock in
          let! valid := outside (order_lock_exists_and_is_valid order_lock_maybe) in
          if valid then outside (sleep 5) ;! cert_rounds n self key enclave_context
          else
            let attempts := lock_attempts order_lock_maybe in
            let! (self, created) := create_certificate_and_persist_with_lock self key enclave_context
              (next_attempt attempts) in
            let! t := outside now in
            let! jitter := outside draw_jitter in
            let time_for_renewal := get_jittered_time jitter (t / 1000 + SIXTY_DAYS_IN_SECONDS)%Z in
            let! t' := outside now in
            let! time_till_renewal := mlift (if (t' / 1000 <=? time_for_renewal)%Z
              then Ok (time_for_renewal - t' / 1000)%Z else Err AeSystemTime) in
            schedule_certificate_renewal self time_till_renewal ;!
            match created with
            | Some cert => mret cert
            | None => outside (sleep 5) ;! cert_rounds n self key enclave_context
            end
      end
  end.

Definition get_or_create_enclave_certificate (self : AcmeCertificateRetreiver) (key : Key)
    (enclave_context : EnclaveContext) : CM CertifiedKey :=
  let! persisted_certificate := cert_rounds 9 self key enclave_context in
  write_certificate_to_rwlock persisted_certificate ;!
  mret persisted_certificate.

(** ** The trusted certificate (mod.rs) *)

(** [expect]: an error panics. *)
Definition mexpect {B} (m : CM B) : CM B := fun w =>
  match m w with
  | (Throw _, w') => (Panic, w')
  | r => r
  end.

Section Trusted.
Context (public_pem private_pem : Key → option bytes) (key_from_pem : string → option Key).
Context (gen_ec_private_key : M W AE Key).
Context (pair_to_value : RawAcmeKeyPair → Value) (value_to_pair : Value → option RawAcmeKeyPair).

(** [context] is the cell [ENCLAVE_CONTEXT]. *)
Definition get_trusted_cert (context : option EnclaveContext) : CM (bytes * CertifiedKey) :=
  let! enclave_context := mlift (map_err AeContext (EnclaveContext_get context)) in
  let! trusted_key_pair := mexpect (outside (get_or_create_enclave_key_pair lock_to_json lock_from_json
    public_pem private_pem key_from_pem gen_ec_private_key pair_to_value value_to_pair)) in
  let! cert := get_or_create_enclave_certificate AcmeCertificateRetreiver_new trusted_key_pair enclave_context in
  let! der := mlift (ok_or (public_key_to_der trusted_key_pair) AeOpenSsl) in
  mret (der, cert).
End Trusted.
End Cert.

(** ** Frames of an order

    A preorder on worlds that the requests, the signatures without a nonce,
    the writes, the key requests and the sleeps keep is kept by an order. *)
Section OrderKeeps.
Context {H : HttpLib} {CE W Key : Type} {AJ : AcmeJson} {OJ : OrderJson} {CL : CsrLib Key} {XL : X509Lib Key}.
#[local] Notation AE := (DpAcmeError (CE := CE)).
Context {CI : AcmeClientInterface AcmeClient W AE} {SG : SigningClient W CE} {SC : StorageConfigClient W CE}
  {RT : Runtime W}.
Context (uri_ok : string → bool) (b64 : bytes → string) (sha256 : bytes → option bytes).
Context (P : relation (AcmeWorld (W := W))) {PO : PreOrder P}.
Context (request_keeps : ∀ d url method payload account p,
  keeps P (authenticated_request uri_ok d url method payload account p)).
Context (directory_keeps : ∀ c p, keeps P (fetch_directory (CE := CE) uri_ok c p)).
Context (bind_keeps : ∀ url payload, keeps P (ext (cfg (sg_jws HMAC url None payload None)))).
Context (put_keeps : ∀ k v, keeps P (ext (cfg (sc_put_object k v)))).
Context (jwk_keeps : keeps P (ext (cfg sg_jwk))).
Context (sleep_keeps : ∀ secs, keeps P (ext (CE := CE) (sleep secs))).

#[local] Hint Resolve request_keeps directory_keeps bind_keeps put_keeps jwk_keeps sleep_keeps : encl.

Lemma account_keeps s : keeps P (AccountBuilder_build (T := AcmeClient) (Key := Key) uri_ok s).
Proof. unfold AccountBuilder_build. keep_steps. Qed.

Lemma post_keeps a url p : keeps P (account_post (T := AcmeClient) (Key := Key) uri_ok a url p).
Proof. unfold account_post. keep_steps. Qed.

#[local] Hint Resolve account_keeps post_keeps : encl.

Lemma wait_keeps {B} busy (poll : B → AM (CE := CE) (W := W) B) secs msg n x :
  (∀ x, keeps P (poll x)) → keeps P (wait_while busy poll secs msg n x).
Proof. intros Hp. revert x. induction n as [|n IH]; intros x; cbn; keep_steps. Qed.

Lemma authorizations_keeps account d urls :
  keeps P (authorizations_loop (T := AcmeClient) (Key := Key) uri_ok account d urls).
Proof. induction urls as [|u urls IH]; cbn; keep_steps. Qed.

Lemma validate_keeps c : keeps P (Challenge_validate (T := AcmeClient) (Key := Key) uri_ok c).
Proof. unfold Challenge_validate. keep_steps. Qed.

Lemma order_waits_keep (o : Order AcmeClient Key) secs n :
  keeps P (Order_wait_ready uri_ok secs n o) ∧ keeps P (Order_wait_done uri_ok secs n o).
Proof. split; apply wait_keeps; intros x; unfold Order_poll; keep_steps. Qed.

Lemma challenge_wait_keeps (c : Challenge AcmeClient Key) secs n :
  keeps P (Challenge_wait_done uri_ok secs n c).
Proof. apply wait_keeps. intros x. unfold Challenge_poll. keep_steps. Qed.

Lemma authorization_wait_keeps (a : Authorization AcmeClient Key) secs n :
  keeps P (Authorization_wait_done uri_ok secs n a).
Proof. apply wait_keeps. intros x. unfold Authorization_poll. keep_steps. Qed.

Lemma complete_authorizations_keeps auths :
  keeps P (complete_authorizations (Key := Key) uri_ok b64 sha256 auths).
Proof.
  induction auths as [|a auths IH]; cbn [complete_authorizations]; [keep_steps|].
  unfold complete_authorization, key_authorization. keep_steps;
    (apply challenge_wait_keeps || apply authorization_wait_keeps || apply validate_keeps).
Qed.

Lemma order_certificate_keeps self domains key provider :
  keeps P (order_certificate uri_ok b64 sha256 self domains key provider).
Proof.
  unfold order_certificate, order_account, init_acme_account, OrderBuilder_build, Order_authorizations,
    Order_finalize, Order_certificate. keep_steps;
    (apply order_waits_keep || apply complete_authorizations_keeps || apply authorizations_keeps).
Qed.
End OrderKeeps.
