(* ===== verification/AcmeNonce.v ===== *)
(** * Nonces and requests of an order

    The protocol client is run against an environment that keeps a log: the
    nonces the certificate authority handed out, the nonces the control plane
    was asked to sign, and the number of requests. The log only observes: it
    wraps any client, any signer, any storage and any runtime. *)
From Stdlib Require Import Ascii String NArith ZArith Lia.
From stdpp Require Import base gmap strings list pretty.
From S2P Require Import Prelude Libs Context Logging E3 Jws Config Acme AcmeClient AcmeOrder AcmeCert.
#[local] Open Scope string_scope.
#[local] Open Scope list_scope.
#[local] Open Scope enclave_scope.

(** A request with the nonce of its response, a signature with the nonce it
    covers, and a write to the storage with its outcome. *)
Inductive Event : Type :=
| Sent (url : string) (replay_nonce : option string)
| Signed (url payload : string) (nonce : option string)
| Stored (key value : string) (success : bool).

Definition Log : Type := list Event.

Definition issued_by (e : Event) : option string := match e with Sent _ n => n | _ => None end.
Definition signed_by (e : Event) : option string := match e with Signed _ _ n => n | _ => None end.
Definition is_request (e : Event) : bool := match e with Sent _ _ => true | _ => false end.

Definition lg_issued (l : Log) : list string := omap issued_by l.
Definition lg_signed (l : Log) : list string := omap signed_by l.
Definition lg_requests (l : Log) : nat := length (List.filter is_request l).

Lemma omap_snoc {A B} (f : A → option B) l x : omap f (l ++ [x]) = omap f l ++ option_list (f x).
Proof. rewrite omap_app. cbn. by destruct (f x). Qed.

(** ** Cells of nonces *)

Definition in_cells (l : list (option string)) : list string := omap id l.

Lemma take_cell l i : in_cells l ≡ₚ option_list (mjoin (l !! i)) ++ in_cells (<[i := None]> l).
Proof.
  unfold in_cells. revert i. induction l as [|[x|] l IH]; intros [|i]; cbn; try done.
  rewrite (IH i). by rewrite Permutation_middle.
Qed.

Lemma put_cell l i n : in_cells (<[i := Some n]> l) ⊆+ n :: in_cells l.
Proof.
  unfold in_cells. revert i. induction l as [|[x|] l IH]; intros [|i]; cbn.
  - by constructor.
  - by constructor.
  - apply submseteq_skip. by constructor.
  - etrans; [apply submseteq_skip, (IH i)|]. constructor.
  - done.
  - apply IH.
Qed.

Section Logged.
Context {H : HttpLib} {CE W T Key : Type} {AJ : AcmeJson} {OJ : OrderJson} {CL : CsrLib Key}.
#[local] Notation AE := (DpAcmeError (CE := CE)).
Context {CI : AcmeClientInterface T W AE} {SG : SigningClient W CE} {SC : StorageConfigClient W CE} {RT : Runtime W}.

(** ** The observing environment *)

Definition unlogged {E A} (m : M W E A) : M (W * Log) E A := zoom fst (fun x w => (x, w.2)) m.

(** The nonce a response carries. *)
Definition response_nonce (r : exec AE AcmeResponse) : option string :=
  match r with
  | Ret resp => match extract_nonce_from_response (CE := CE) resp with
                | Ok n => n
                | Err _ => None
                end
  | _ => None
  end.

Definition logged_client : AcmeClientInterface T (W * Log) AE := {|
  acme_send t req := fun w =>
    let '(r, x) := acme_send t req w.1 in (r, (x, w.2 ++ [Sent (o_uri req) (response_nonce r)]))
|}.

Definition logged_signing : SigningClient (W * Log) CE := {|
  sg_jws ty url nonce payload account := fun w =>
    let '(r, x) := sg_jws ty url nonce payload account w.1 in (r, (x, w.2 ++ [Signed url payload nonce]));
  sg_jwk := unlogged sg_jwk
|}.

Definition succeeded {E A} (r : exec E A) : bool := match r with Ret _ => true | _ => false end.

Definition logged_storage : StorageConfigClient (W * Log) CE := {|
  sc_get_object k := unlogged (sc_get_object k);
  sc_put_object k v := fun w =>
    let '(r, x) := sc_put_object k v w.1 in (r, (x, w.2 ++ [Stored k v (succeeded r)]));
  sc_delete_object k := unlogged (sc_delete_object k);
  sc_get_time := unlogged sc_get_time
|}.

Definition logged_runtime : Runtime (W * Log) := {|
  rt_now w := let '(t, x) := rt_now w.1 in (t, (x, w.2));
  rt_uuid w := let '(u, x) := rt_uuid w.1 in (u, (x, w.2));
  rt_jitter w := let '(j, x) := rt_jitter w.1 in (j, (x, w.2));
  rt_sleep s w := (rt_sleep s w.1, w.2)
|}.

#[local] Existing Instances logged_client logged_signing logged_storage logged_runtime.

Context (uri_ok : string → bool) (b64 : bytes → string) (sha256 : bytes → option bytes).

#[local] Notation World := (AcmeWorld (W := W * Log)).

Definition log (w : World) : Log := (aw_ext w).2.

(** Every nonce signed or kept was handed out, each as often at least. *)
Definition nonces_ok (w : World) : Prop :=
  lg_signed (log w) ++ in_cells (aw_nonces w) ⊆+ lg_issued (log w).

Definition kept_ok (w w' : World) : Prop := nonces_ok w → nonces_ok w'.

#[local] Instance kept_ok_po : PreOrder kept_ok.
Proof. split; [by intros w ?|]. intros w w1 w2 Hl Hr Hw. by apply Hr, Hl. Qed.

(** ** Nonces *)

(** What does not touch the log or the cells. *)
Definition same_log (x x' : W * Log) : Prop := x'.2 = x.2.

Lemma ext_keeps {A} (m : M (W * Log) AE A) : keeps same_log m → keeps kept_ok (ext m).
Proof.
  apply keeps_zoom. intros w x Hx Hw. unfold nonces_ok, log in *. cbn. by rewrite Hx.
Qed.

Lemma unlogged_same {E A} (m : M W E A) : keeps same_log (unlogged m).
Proof. by intros w r w' (x & _ & ->)%zoom_inv. Qed.

Lemma sleep_same {E} secs : keeps same_log (sleep (E := E) secs).
Proof. by apply keeps_modify. Qed.

Lemma cfg_same {A} (m : M (W * Log) CE A) : keeps same_log m → keeps same_log (cfg m).
Proof. apply keeps_map_err. Qed.

Hint Resolve ext_keeps unlogged_same sleep_same cfg_same : core.

(** A nonce that is taken is accounted for until it is signed. *)
Definition holds (n : string) (w : World) : Prop :=
  n :: lg_signed (log w) ++ in_cells (aw_nonces w) ⊆+ lg_issued (log w).

Lemma holds_ok n w : holds n w → nonces_ok w.
Proof. unfold holds, nonces_ok. intros Hw. etrans; [|exact Hw]. by constructor. Qed.

Lemma take_nonce_run i (w w' : World) r : take_nonce (CE := CE) i w = (r, w') → nonces_ok w →
  ∃ o, r = Ret o ∧ nonces_ok w' ∧ ∀ n, o = Some n → holds n w'.
Proof.
  intros [= <- <-] Hw. eexists. split; [done|]. unfold nonces_ok, holds, log in *. cbn [aw_ext aw_nonces].
  rewrite (take_cell _ i), Permutation_app_swap_app in Hw. split.
  - etrans; [|exact Hw]. by apply submseteq_inserts_l.
  - intros n Hn. by rewrite Hn in Hw.
Qed.

Lemma send_run t req (w w' : World) r : ext (acme_send t req) w = (r, w') → nonces_ok w →
  nonces_ok w' ∧ ∀ resp n, r = Ret resp → extract_nonce_from_response (CE := CE) resp = Ok (Some n) → holds n w'.
Proof.
  intros (x & Hr & ->)%zoom_inv Hw. cbn in Hr. destruct (acme_send _ _ _) as [r0 y].
  injection Hr as <- <-. unfold nonces_ok, holds, log, lg_issued, lg_signed in *. cbn [aw_ext aw_nonces snd].
  rewrite !omap_snoc. cbn [issued_by signed_by option_list]. rewrite app_nil_r.
  split; [etrans; [exact Hw|]; by apply submseteq_inserts_r|].
  intros resp n -> Hn. cbn [response_nonce]. rewrite Hn. change (option_list (Some n)) with [n]. rewrite <-Permutation_cons_append. by apply submseteq_skip.
Qed.

Lemma get_nonce_run d p (w w' : World) r : get_nonce uri_ok d p w = (r, w') → nonces_ok w →
  nonces_ok w' ∧ ∀ n, r = Ret n → holds n w'.
Proof.
  unfold get_nonce, Prelude.mbind at 1. destruct (take_nonce _ w) as [r0 w0] eqn:Et. intros Hr Hw.
  apply take_nonce_run in Et as (o & -> & Hok & Ho); [|done].
  destruct o as [n|]; [injection Hr as <- <-; split; [done|]; intros ? [= <-]; by apply Ho|].
  destruct (build_request _ _ _ _ _) as [req|e]; [|by injection Hr as <- <-].
  cbn [mlift] in Hr. unfold Prelude.mbind at 1, mret at 1 in Hr. unfold Prelude.mbind at 1 in Hr.
  destruct (ext _ w0) as [[resp|e|] w1] eqn:Es; apply send_run in Es as [Hok1 Hn]; try done;
    [|by injection Hr as <- <-..].
  destruct (extract_nonce_from_response resp) as [[n|]|e] eqn:Ex; injection Hr as <- <-; (split; [done|]);
    intros ? [= <-]. by apply (Hn resp).
Qed.

Lemma sign_run n ty url payload account (w w' : World) r :
  ext (cfg (sg_jws ty url (Some n) payload account)) w = (r, w') → holds n w → nonces_ok w'.
Proof.
  intros (x & (r0 & Hr & _)%cfg_inv & ->)%zoom_inv Hw. cbn in Hr.
  destruct (sg_jws _ _ _ _ _ _) as [r1 y]. injection Hr as <- <-.
  unfold nonces_ok, holds, log, lg_issued, lg_signed in *. cbn [aw_ext aw_nonces snd].
  rewrite !omap_snoc. cbn [issued_by signed_by]. change (option_list (Some n)) with [n].
  rewrite app_nil_r, <-app_assoc. cbn [app]. by rewrite <-Permutation_middle.
Qed.

(** A nonce may be put back as long as it is accounted for; doing it again
    changes nothing. *)
Lemma store_nonce_run (d : Directory T) resp (w w' : World) r : store_nonce (CE := CE) d resp w = (r, w') → nonces_ok w →
  (∀ n, extract_nonce_from_response (CE := CE) resp = Ok (Some n) → holds n w) →
  nonces_ok w' ∧ (r = Ret tt → store_nonce (CE := CE) d resp w' = (Ret tt, w')).
Proof.
  unfold store_nonce. destruct (extract_nonce_from_response resp) as [[n|]|e] eqn:Ex; cbn;
    [|by intros [= <- <-]..].
  intros [= <- <-] Hw Hn. specialize (Hn n eq_refl). unfold nonces_ok, holds, log in *. cbn. split.
  - etrans; [|exact Hn]. rewrite Permutation_middle. apply submseteq_skips_l, put_cell.
  - intros _. cbv [Prelude.mbind mlift mret put_nonce mmodify]. cbn. by rewrite list_insert_insert_eq.
Qed.

Lemma raw_keeps d method url payload account p (w w' : World) r :
  authenticated_request_raw uri_ok d method url payload account p w = (r, w') → nonces_ok w →
  nonces_ok w' ∧ ∀ resp, r = Ret resp → store_nonce (CE := CE) d resp w' = (Ret tt, w').
Proof.
  unfold authenticated_request_raw, Prelude.mbind at 1. intros Hr Hw.
  destruct (get_nonce uri_ok d p w) as [[n|e|] w1] eqn:En; apply get_nonce_run in En as [Hok Hn]; try done;
    [|by injection Hr as <- <-..].
  unfold Prelude.mbind at 1 in Hr.
  destruct (ext _ w1) as [[j|e|] w2] eqn:Es; apply sign_run in Es; try (by apply Hn);
    [|by injection Hr as <- <-..].
  destruct (jws_to_vec _) as [body|]; [|by injection Hr as <- <-].
  cbn [ok_or mlift] in Hr. unfold Prelude.mbind at 1, mret at 1 in Hr.
  destruct (build_request _ _ _ _ _) as [req|e] eqn:Eb; [|by injection Hr as <- <-].
  cbn [mlift] in Hr. unfold Prelude.mbind at 1, mret at 1 in Hr. unfold Prelude.mbind at 1 in Hr.
  destruct (ext _ w2) as [[resp|e|] w3] eqn:Eq; apply send_run in Eq as [Hok3 Hn3]; try done;
    [|by injection Hr as <- <-..].
  destruct (is_success _).
  - unfold Prelude.mbind at 1 in Hr. destruct (store_nonce d resp w3) as [[[]|e|] w4] eqn:Et;
      apply store_nonce_run in Et as [Hok4 Hi]; try done; try (by intros n' Hx; apply (Hn3 resp));
      [|by injection Hr as <- <-..].
    injection Hr as <- <-. split; [done|]. intros ? [= <-]. by apply Hi.
  - destruct (read_body_str resp); by injection Hr as <- <-.
Qed.

Lemma request_keeps d url method payload account p :
  keeps kept_ok (authenticated_request uri_ok d url method payload account p).
Proof.
  unfold authenticated_request. apply keeps_bind; [typeclasses eauto|keep_steps|]. intros s w r w' Hr Hw.
  unfold Prelude.mbind at 1 in Hr.
  destruct (authenticated_request_raw _ _ _ _ _ _ _ w) as [[resp|e|] w1] eqn:Eq; apply raw_keeps in Eq as [Hok Hi];
    try done; [|by injection Hr as <- <-..].
  unfold Prelude.mbind in Hr. rewrite (Hi resp eq_refl) in Hr. by injection Hr as <- <-.
Qed.
(** A signature without a nonce, as for an account binding. *)
Lemma sign_none_keeps ty url payload account :
  keeps kept_ok (ext (cfg (sg_jws ty url None payload account))).
Proof.
  intros w r w' (x & (r0 & Hr & _)%cfg_inv & ->)%zoom_inv Hw. cbn in Hr.
  destruct (sg_jws _ _ _ _ _ _) as [r1 y]. injection Hr as <- <-.
  unfold nonces_ok, log, lg_issued, lg_signed in *. cbn [aw_ext aw_nonces snd]. rewrite !omap_snoc.
  cbn [issued_by signed_by]. by rewrite !app_nil_r.
Qed.

Lemma put_keeps k v : keeps kept_ok (ext (cfg (sc_put_object k v))).
Proof.
  intros w r w' (x & (r0 & Hr & _)%cfg_inv & ->)%zoom_inv Hw. cbn in Hr.
  destruct (sc_put_object _ _ _) as [r1 y]. injection Hr as <- <-.
  unfold nonces_ok, log, lg_issued, lg_signed in *. cbn [aw_ext aw_nonces snd]. rewrite !omap_snoc.
  cbn [issued_by signed_by]. by rewrite !app_nil_r.
Qed.

Lemma send_keeps t req : keeps kept_ok (ext (acme_send t req)).
Proof. by intros w r w' Hr [Hw' _]%(send_run _ _ _ _ _ Hr). Qed.

Lemma fetch_directory_keeps t p : keeps kept_ok (fetch_directory uri_ok t p).
Proof.
  unfold fetch_directory. keep_steps; [apply send_keeps|].
  intros w r w' [= <- <-] Hw. unfold nonces_ok, in_cells, log in *. cbn [aw_ext aw_nonces].
  by rewrite omap_snoc, app_nil_r.
Qed.

Lemma jwk_keeps : keeps kept_ok (ext (cfg sg_jwk)).
Proof. apply ext_keeps, cfg_same, unlogged_same. Qed.

Lemma ext_sleep_keeps secs : keeps kept_ok (ext (CE := CE) (sleep secs)).
Proof. apply ext_keeps, sleep_same. Qed.

(** ** Requests *)

Definition requests (w : World) : nat := lg_requests (log w).

#[local] Notation costs := (costs requests).

Lemma ext_free {A} (m : M (W * Log) AE A) : keeps same_log m → costs 0 (ext m).
Proof.
  intros Hm w r w' (x & Hx%Hm & ->)%zoom_inv. unfold requests, log. cbn [aw_ext]. rewrite Hx. lia.
Qed.

Lemma requests_snoc l e : lg_requests (l ++ [e]) = lg_requests l + (if is_request e then 1 else 0).
Proof. unfold lg_requests. rewrite List.filter_app, length_app. cbn. by destruct (is_request e). Qed.

Lemma send_costs t req : costs 1 (ext (acme_send t req)).
Proof.
  intros w r w' (x & Hr & ->)%zoom_inv. cbn in Hr. destruct (acme_send _ _ _). injection Hr as <- <-.
  unfold requests, log. cbn [aw_ext snd]. rewrite requests_snoc. cbn [is_request]. reflexivity.
Qed.

Lemma sign_free ty url nonce payload account : costs 0 (ext (cfg (sg_jws ty url nonce payload account))).
Proof.
  intros w r w' (x & (r0 & Hr & _)%cfg_inv & ->)%zoom_inv. cbn in Hr. destruct (sg_jws _ _ _ _ _ _).
  injection Hr as <- <-. unfold requests, log. cbn [aw_ext snd]. rewrite requests_snoc. cbn [is_request]. reflexivity.
Qed.

Lemma put_free k v : costs 0 (ext (cfg (sc_put_object k v))).
Proof.
  intros w r w' (x & (r0 & Hr & _)%cfg_inv & ->)%zoom_inv. cbn in Hr. destruct (sc_put_object _ _ _).
  injection Hr as <- <-. unfold requests, log. cbn [aw_ext snd]. rewrite requests_snoc. cbn [is_request]. reflexivity.
Qed.

Lemma jwk_free : costs 0 (ext (cfg sg_jwk)).
Proof. apply ext_free, cfg_same, unlogged_same. Qed.

Lemma sleep_free secs : costs 0 (ext (CE := CE) (sleep secs)).
Proof. apply ext_free, sleep_same. Qed.

Lemma store_free d resp : costs 0 (store_nonce (CE := CE) (T := T) d resp).
Proof. unfold store_nonce. cost_steps. intros w r w' [= <- <-]. unfold requests, log. cbn. lia. Qed.

Hint Resolve send_costs sign_free put_free jwk_free sleep_free store_free : encl.

Lemma request_costs d url method payload account p :
  costs 2 (authenticated_request uri_ok d url method payload account p).
Proof.
  unfold authenticated_request. apply (costs_bind _ 0 2); [cost_steps|intros s].
  apply (costs_bind _ 2 0); [|intros resp; apply (costs_bind _ 0 0); cost_steps].
  unfold authenticated_request_raw. apply (costs_bind _ 1 1); [|intros nonce].
  - unfold get_nonce. apply (costs_bind _ 0 1); [|intros []; cost_steps; apply (costs_bind _ 1 0); cost_steps].
    intros w r w' [= <- <-]. unfold requests, log. cbn. lia.
  - apply (costs_bind _ 0 1); [cost_steps|intros j]. cost_steps. apply (costs_bind _ 1 0); [cost_steps|intros resp].
    destruct (is_success _); [apply (costs_bind _ 0 0)|]; cost_steps.
Qed.

Lemma account_costs (s : AccountBuilder (T := T)) : costs 2 (AccountBuilder_build (Key := Key) uri_ok s).
Proof.
  unfold AccountBuilder_build. apply (costs_bind _ 0 2); [|intros eab].
  - destruct (ab_eab_required s); [|cost_steps]. apply (costs_bind _ 0 0); [cost_steps|intros j].
    cost_steps. apply (costs_bind _ 0 0); cost_steps.
  - apply (costs_bind _ 2 0); [apply request_costs|intros resp]. cost_steps.
Qed.

Lemma fetch_directory_costs t p : costs 1 (fetch_directory uri_ok t p).
Proof.
  unfold fetch_directory. cost_steps. apply (costs_bind _ 1 0); [cost_steps|intros resp]. cost_steps.
  intros w r w' [= <- <-]. unfold requests, log. cbn. lia.
Qed.

Lemma post_costs a url p : costs 2 (account_post (Key := Key) uri_ok a url p).
Proof.
  unfold account_post. cost_steps. apply (costs_bind _ 2 0); [apply request_costs|intros resp]. cost_steps.
Qed.

Hint Resolve request_costs account_costs post_costs : encl.

Lemma wait_costs {A} busy (poll : A → AM (CE := CE) (W := W * Log) A) secs msg n x :
  (∀ x, costs 2 (poll x)) → costs (2 * n) (wait_while busy poll secs msg n x).
Proof.
  intros Hp. revert x. induction n as [|n IH]; intros x; cbn [wait_while]; [cost_steps|].
  destruct (busy x); [|cost_steps]. apply (costs_bind _ 0 (2 * S n)); [cost_steps|intros _].
  eapply costs_le; [apply (costs_bind _ 2 (2 * n)); [apply Hp|apply IH]|lia].
Qed.

Lemma authorizations_costs account d urls :
  costs (2 * length urls) (authorizations_loop (Key := Key) uri_ok account d urls).
Proof.
  induction urls as [|u urls IH]; cbn [authorizations_loop length]; [cost_steps|].
  eapply costs_le; [apply (costs_bind _ 2 (2 * length urls)); [cost_steps|intros resp]|lia]. cost_steps.
  eapply costs_le; [apply (costs_bind _ (2 * length urls) 0); [apply IH|intros auths]|lia]. cost_steps.
Qed.

#[local] Ltac cost_post := apply (costs_bind _ 2 0); [apply post_costs|intros [account resp]; cost_steps].

Lemma order_poll_costs (o : Order T Key) : costs 2 (Order_poll uri_ok o).
Proof. cost_post. Qed.

Lemma authorization_poll_costs (a : Authorization T Key) : costs 2 (Authorization_poll uri_ok a).
Proof. cost_post. Qed.

Lemma challenge_poll_costs (c : Challenge T Key) : costs 2 (Challenge_poll uri_ok c).
Proof. cost_post. Qed.

Lemma validate_costs (c : Challenge T Key) : costs 2 (Challenge_validate uri_ok c).
Proof. cost_post. Qed.

Lemma finalize_costs k (o : Order T Key) : costs 2 (Order_finalize uri_ok b64 k o).
Proof. unfold Order_finalize. cost_steps. cost_post. Qed.

Lemma certificate_costs {X} (parse : bytes → option (list X)) (o : Order T Key) :
  costs 2 (Order_certificate uri_ok parse o).
Proof. unfold Order_certificate. cost_steps. cost_post. Qed.
End Logged.

(** ** Orders *)

Section Orders.
Context {H : HttpLib} {CE W Key : Type} {AJ : AcmeJson} {OJ : OrderJson} {CL : CsrLib Key} {XL : X509Lib Key}.
#[local] Notation AE := (DpAcmeError (CE := CE)).
Context {CI : AcmeClientInterface AcmeClient W AE} {SG : SigningClient W CE} {SC : StorageConfigClient W CE}
  {RT : Runtime W}.
Context (uri_ok : string → bool) (b64 : bytes → string) (sha256 : bytes → option bytes).
#[local] Existing Instances logged_client logged_signing logged_storage logged_runtime.
#[local] Notation World := (AcmeWorld (W := W * Log)).

Lemma order_keeps_nonces self domains key provider :
  keeps kept_ok (order_certificate (SG := logged_signing) (SC := logged_storage) (RT := logged_runtime)
    (CI := logged_client) uri_ok b64 sha256 self domains key provider).
Proof.
  apply order_certificate_keeps; [apply kept_ok_po|apply request_keeps|apply fetch_directory_keeps| | |
    apply jwk_keeps|apply ext_sleep_keeps]; intros; [apply sign_none_keeps|apply put_keeps].
Qed.

(** C35. No nonce is replayed: in a whole order, whatever the authority answers
    and however the order ends, every nonce that is signed was handed out by
    the authority and (as far as the authority hands out each nonce once) is
    signed at most once, also together with the nonces kept from earlier
    orders. *)
Theorem order_never_replays_a_nonce self domains key provider (w w' : World) r :
  nonces_ok w →
  order_certificate (SG := logged_signing) (SC := logged_storage) (RT := logged_runtime) (CI := logged_client)
    uri_ok b64 sha256 self domains key provider w = (r, w') →
  nonces_ok w' ∧ lg_signed (log w') ⊆+ lg_issued (log w') ∧
  (NoDup (lg_issued (log w')) → NoDup (lg_signed (log w'))).
Proof.
  intros Hw Hr. pose proof (order_keeps_nonces _ _ _ _ _ _ _ Hr Hw) as Hok. split; [done|].
  assert (lg_signed (log w') ⊆+ lg_issued (log w')) as Hs.
  { etrans; [|exact Hok]. by apply submseteq_inserts_r. }
  split; [done|]. intros Hn. apply submseteq_Permutation in Hs as [l Hl]. rewrite Hl in Hn.
  by apply NoDup_app in Hn as [Hn _].
Qed.

(** *** Requests *)

Lemma authorizations_length account d urls (w w' : World) l :
  authorizations_loop (CI := logged_client) (SG := logged_signing) (Key := Key) uri_ok account d urls w
    = (Ret l, w') → length l = length urls.
Proof.
  revert w l. induction urls as [|u urls IH]; intros w l; cbn [authorizations_loop]; [by intros [= <- _]|].
  intros (resp & w1 & _ & (s & w2 & _ & (body & w3 & _ & (auths & w4 & Ha & Hr)%mbind_inv)%mbind_inv)%mbind_inv)%mbind_inv.
  unfold mret in Hr. simplify_eq. cbn. f_equal. by eapply IH.
Qed.

Lemma complete_authorization_costs auth :
  costs requests 30 (complete_authorization (SG := logged_signing) (SC := logged_storage) (RT := logged_runtime)
    (CI := logged_client) (Key := Key) uri_ok b64 sha256 auth).
Proof.
  unfold complete_authorization. cost_steps. apply (costs_bind _ 0 30); [|intros v].
  - unfold key_authorization. cost_steps. apply (costs_bind _ 0 0); [apply jwk_free|intros j]. cost_steps.
  - cost_steps. apply (costs_bind _ 0 30); [apply put_free|intros _].
    apply (costs_bind _ 2 28); [apply validate_costs|intros c].
    apply (costs_bind _ 14 14); [apply (wait_costs _ _ _ _ 7); intros x; apply challenge_poll_costs|intros _].
    apply (costs_bind _ 14 0); [apply (wait_costs _ _ _ _ 7); intros x; apply authorization_poll_costs|intros _].
    cost_steps.
Qed.

Lemma complete_authorizations_costs auths :
  costs requests (30 * length auths) (complete_authorizations (SG := logged_signing) (SC := logged_storage)
    (RT := logged_runtime) (CI := logged_client) (Key := Key) uri_ok b64 sha256 auths).
Proof.
  induction auths as [|a auths IH]; cbn [complete_authorizations length]; [cost_steps|].
  eapply costs_le; [apply (costs_bind _ 30 (30 * length auths)); [apply complete_authorization_costs|by intros _]|lia].
Qed.

Lemma order_account_costs self provider :
  costs requests 3 (order_account (SG := logged_signing) (CI := logged_client) (Key := Key) uri_ok self provider).
Proof.
  unfold order_account, init_acme_account. cost_steps.
  apply (costs_bind _ 1 2); [apply fetch_directory_costs|intros d]. apply account_costs.
Qed.

Lemma order_build_costs bd p :
  costs requests 2 (OrderBuilder_build (SG := logged_signing) (CI := logged_client) (Key := Key) uri_ok bd p).
Proof.
  unfold OrderBuilder_build. cost_steps. apply (costs_bind _ 2 0); [apply request_costs|intros resp]. cost_steps.
Qed.

Lemma order_build_body bd p (w w' : World) o :
  OrderBuilder_build (SG := logged_signing) (CI := logged_client) (Key := Key) uri_ok bd p w = (Ret o, w') →
  ∃ s, order_from_str s = Some (or_body o).
Proof.
  unfold OrderBuilder_build.
  intros (d & w1 & _ & (resp & w2 & _ & (s & w3 & _ & (body & w4 & [Hb%ok_or_ok _]%mlift_ok & Hr)%mbind_inv)%mbind_inv)%mbind_inv)%mbind_inv.
  apply mbind_inv in Hr as (u & w5 & _ & Hr). unfold mret in Hr. simplify_eq. by exists s.
Qed.

(** C38. An order is bounded work: if the authority asks for at most [k]
    authorizations per order, ordering a certificate sends at most 29 + 32k
    requests, whatever the authority answers, and then ends. *)
Theorem order_requests_bounded (k : nat) self domains key provider (w w' : World) r :
  (∀ s o, order_from_str s = Some o → (length (authorization_urls o) ≤ k)%nat) →
  order_certificate (SG := logged_signing) (SC := logged_storage) (RT := logged_runtime) (CI := logged_client)
    uri_ok b64 sha256 self domains key provider w = (r, w') →
  (requests w' ≤ requests w + (29 + 32 * k))%nat.
Proof.
  intros Hk Hr. refine ((_ : costs requests (29 + 32 * k) _) w r w' Hr). clear w w' r Hr.
  unfold order_certificate. eapply costs_le.
  - apply (costs_bind _ 3 (2 + (2 * k + (30 * k + 24)))); [apply order_account_costs|intros account].
    apply (costs_bind_post _ (fun o => length (authorization_urls (or_body o)) ≤ k)%nat).
    + apply order_build_costs.
    + intros w o w' [s Hs]%order_build_body. by eapply Hk.
    + intros o Ho. apply (costs_bind_post _ (fun l => length l ≤ k)%nat); [|intros w l w'|intros l Hl].
      * unfold Order_authorizations. cost_steps. eapply costs_le; [apply authorizations_costs|lia].
      * unfold Order_authorizations. intros ([a d] & w1 & _ & Hl%authorizations_length)%mbind_inv. lia.
      * apply costs_bind; [eapply costs_le; [apply complete_authorizations_costs|lia]|intros _].
        apply (costs_bind _ 10 14); [apply (wait_costs _ _ _ _ 5); intros x; apply order_poll_costs|intros o1].
        apply (costs_bind _ 2 12); [apply finalize_costs|intros o2].
        apply (costs_bind _ 10 2); [apply (wait_costs _ _ _ _ 5); intros x; apply order_poll_costs|intros o3].
        apply (costs_bind _ 2 0); [apply certificate_costs|intros chain]. cost_steps.
  - lia.
Qed.

(** *** Challenges *)

(** The log only grows. *)
Definition grows (w w' : World) : Prop := ∃ s, log w' = log w ++ s.

#[local] Instance grows_po : PreOrder grows.
Proof.
  split; [intros w; exists []; by rewrite app_nil_r|].
  intros w w1 w2 [s Hs] [s' Hs']. exists (s ++ s'). by rewrite Hs', Hs, app_assoc.
Qed.

Lemma grows_ext {A} (m : M (W * Log) AE A) : (∀ x r x', m x = (r, x') → ∃ s, x'.2 = x.2 ++ s) → keeps grows (ext m).
Proof. intros Hm w r w' (x & Hx & ->)%zoom_inv. apply Hm in Hx. exact Hx. Qed.

Lemma request_grows d url method payload account p :
  keeps grows (authenticated_request (CI := logged_client) (SG := logged_signing) uri_ok d url method payload account p).
Proof.
  unfold authenticated_request, authenticated_request_raw, get_nonce, store_nonce.
  keep_steps; try (intros w r' w' [= <- <-]; exists []; by rewrite app_nil_r);
    apply grows_ext; intros x r x'; cbn.
  - destruct (acme_send _ _ _). intros [= <- <-]. by eexists.
  - intros (r0 & Hr & _)%cfg_inv. cbn in Hr. destruct (sg_jws _ _ _ _ _ _). injection Hr as <- <-. by eexists.
  - destruct (acme_send _ _ _). intros [= <- <-]. by eexists.
Qed.

Lemma sleep_grows secs : keeps grows (ext (CE := CE) (sleep (RT := logged_runtime) secs)).
Proof. apply grows_ext. intros x r x' Hr%sleep_same. exists []. by rewrite app_nil_r. Qed.

Lemma jwk_quiet (w w' : World) r : ext (cfg (sg_jwk (SigningClient := logged_signing))) w = (r, w') → log w' = log w.
Proof. intros (x & Hx%cfg_same & ->)%zoom_inv; [exact Hx|apply unlogged_same]. Qed.

Lemma key_authorization_run (c : Challenge AcmeClient Key) (w w' : World) r :
  key_authorization (CE := CE) (SG := logged_signing) b64 sha256 c w = (r, w') → log w' = log w ∧
  ∀ v, r = Ret (Some v) → ∃ token jwk thumb digest, cb_token (ch_body c) = Some token ∧
    thumb_to_string (JwkThumb_from jwk) = Some thumb ∧ sha256 (b thumb) = Some digest ∧
    v = token +:+ "." +:+ b64 digest.
Proof.
  unfold key_authorization. destruct (cb_token (ch_body c)) as [token|]; [|by intros [= <- <-]].
  destruct (account_and_directory _) as [[a d]|e]; [|by intros [= <- <-]].
  cbn [mlift]. unfold Prelude.mbind at 1, mret at 1.
  intros (r0 & w1 & Hj%jwk_quiet & Hr)%mbind_cases. destruct r0 as [jwk|e|]; [|by destruct Hr as [-> ->]..].
  destruct (thumb_to_string _) as [thumb|] eqn:Et; [|by injection Hr as <- <-].
  destruct (sha256 (b thumb)) as [digest|] eqn:Es; cbn in Hr; rewrite ?Es in Hr; injection Hr as <- <-; (split; [done|]);
    intros ? [= <-].
  by exists token, jwk, thumb, digest.
Qed.

(** What follows the write. *)
Lemma validation_grows c (auth : Authorization AcmeClient Key) : keeps grows
  (let! challenge_validated := Challenge_validate (SG := logged_signing) (CI := logged_client) (Key := Key) uri_ok c in
   Challenge_wait_done (SG := logged_signing) (CI := logged_client) (RT := logged_runtime) uri_ok 10 7
     challenge_validated ;!
   Authorization_wait_done (SG := logged_signing) (CI := logged_client) (RT := logged_runtime) uri_ok 10 7 auth ;!
   mret tt).
Proof.
  apply keeps_bind; [typeclasses eauto|apply validate_keeps; [typeclasses eauto|apply request_grows]|intros cv].
  apply keeps_bind; [typeclasses eauto|apply challenge_wait_keeps; [typeclasses eauto|apply request_grows|apply sleep_grows]|intros _].
  apply keeps_bind; [typeclasses eauto|apply authorization_wait_keeps; [typeclasses eauto|apply request_grows|apply sleep_grows]|intros _].
  keep_steps.
Qed.

(** C36. A validation is requested only once its answer is in place: completing
    an authorization either leaves no trace, or its first action is to store
    the key authorization of the http-01 challenge (the token, a dot and the
    digest of the account key) under the path of the token, and when that
    write fails nothing is signed or sent after it and the order fails. *)
Theorem challenge_stored_before_validation auth (w w' : World) r :
  complete_authorization (SG := logged_signing) (SC := logged_storage) (RT := logged_runtime)
    (CI := logged_client) (Key := Key) uri_ok b64 sha256 auth w = (r, w') →
  log w' = log w ∨
  ∃ c token jwk thumb digest success rest,
    get_challenge "http-01" auth = Some c ∧ cb_token (ch_body c) = Some token ∧
    thumb_to_string (JwkThumb_from jwk) = Some thumb ∧ sha256 (b thumb) = Some digest ∧
    log w' = log w ++ Stored ("acme-challenges/" +:+ token) (token +:+ "." +:+ b64 digest) success :: rest ∧
    (success = false → rest = [] ∧ r ≠ Ret tt).
Proof.
  unfold complete_authorization. destruct (get_challenge "http-01" auth) as [c|] eqn:Ec; [|intros [= _ <-]; by left].
  cbn [ok_or mlift]. unfold Prelude.mbind at 1, mret at 1.
  destruct (cb_token (ch_body c)) as [token|] eqn:Et; [|intros [= _ <-]; by left].
  cbn [ok_or mlift]. unfold Prelude.mbind at 1, mret at 1.
  intros (r0 & w1 & [Hl Hv]%key_authorization_run & Hr)%mbind_cases.
  destruct r0 as [[v|]|e|]; [|left; by injection Hr as _ <-|left; by destruct Hr as [_ ->]..].
  destruct (Hv v eq_refl) as (token' & jwk & thumb & digest & Ht & Hth & Hsh & ->). simplify_eq.
  cbn [ok_or mlift] in Hr. unfold Prelude.mbind at 1, mret at 1 in Hr.
  apply mbind_cases in Hr as (r1 & w2 & Hput & Hr). right. apply zoom_inv in Hput as (x & Hput & ->).
  unfold cfg, mmap_err in Hput. cbn in Hput. destruct (sc_put_object _ _ _) as [r2 y].
  exists c, token, jwk, thumb, digest, (succeeded r2). destruct r2 as [[]|e|]; injection Hput as <- <-.
  - apply validation_grows in Hr as [rest Hrest]. exists rest. split_and!; try done.
    rewrite Hrest. unfold log in *. cbn. by rewrite Hl, <-app_assoc.
  - destruct Hr as [-> ->]. exists []. split_and!; try done. unfold log in *. cbn. by rewrite Hl.
  - destruct Hr as [-> ->]. exists []. split_and!; try done. unfold log in *. cbn. by rewrite Hl.
Qed.
End Orders.
