(* ===== verification/AcmeShare.v ===== *)
(** * One certificate for all instances

    What the instances of an enclave share and serve: the certificate of the
    object storage. The process refines a two-cell specification, instances
    agree on the certificate, and the renewal tasks are followed to their
    successors. *)
From Stdlib Require Import Ascii String NArith ZArith Lia.
From stdpp Require Import base gmap strings list relations pretty.
From S2P Require Import Prelude Libs Context Logging E3 Jws Config Acme AcmeStore AcmeClient AcmeOrder.
From S2P Require Import AcmeCert.
#[local] Open Scope string_scope.
#[local] Open Scope list_scope.
#[local] Open Scope enclave_scope.

(** ** The specification *)

(** The certificate in the storage, still encrypted, and the one served. *)
Record Shared {C : Type} : Type := mkShared { shared : option string; served : option C }.
#[global] Arguments Shared : clear implicits.
#[global] Arguments mkShared {C}.

(** [opens enc c]: the stored text holds the certificate [c]. The storage is
    everybody's: it changes at any time. An instance serves what it holds. *)
Inductive share_step {C : Type} (opens : string → C → Prop) : relation (Shared C) :=
| step_storage s s' v : share_step opens (mkShared s v) (mkShared s' v)
| step_serve enc c v : opens enc c → share_step opens (mkShared (Some enc) v) (mkShared (Some enc) (Some c)).

Section Share.
Context {H : HttpLib} {CE W Key : Type} {AJ : AcmeJson} {OJ : OrderJson} {CL : CsrLib Key} {XL : X509Lib Key}.
#[local] Notation AE := (DpAcmeError (CE := CE)).
Context {CI : AcmeClientInterface AcmeClient W AE} {SG : SigningClient W CE} {SC : StorageConfigClient W CE}
  {SL : StorageConfigLaws SC} {RT : Runtime W} {J : Json} {A : E3Api W}.
Context (uri_ok : string → bool) (b64 : bytes → string) (sha256 : bytes → option bytes).
Context (lock_to_json : StorageLock → string) (lock_from_json : string → option StorageLock).
Context (raw_to_value : RawAcmeCertificate → Value) (value_to_raw : Value → option RawAcmeCertificate).
Context (staging : bool).

Definition stored_cert (w : W) : option string := sc_view w CERTIFICATE_OBJECT_KEY.

Context {RL : RuntimeLaws RT stored_cert}.
(** E3 does not touch the storage, and decrypts what it encrypted. *)
Context (e3_quiet : ∀ c w r w', e3_crypto_decrypt c w = (r, w') → stored_cert w' = stored_cert w).
Context (e3_inverts : ∀ raw w r w' enc,
  e3_encrypt (mkCryptoRequest (raw_to_value raw)) None w = (Ret r, w') → value_to_raw (cs_data r) = Some enc →
  ∀ y, ∃ r2 y', e3_crypto_decrypt (mkCryptoRequest (raw_to_value enc)) y = (Ret r2, y') ∧
    value_to_raw (cs_data r2) = Some raw).

#[local] Notation create := (create_certificate_and_persist_with_lock uri_ok b64 sha256 lock_to_json
  lock_from_json raw_to_value value_to_raw staging).
#[local] Notation rounds := (cert_rounds uri_ok b64 sha256 lock_to_json lock_from_json raw_to_value
  value_to_raw staging).
#[local] Notation get_or_create := (get_or_create_enclave_certificate uri_ok b64 sha256 lock_to_json
  lock_from_json raw_to_value value_to_raw staging).
#[local] Notation renew := (renew_certificate_and_update_store uri_ok b64 sha256 lock_to_json lock_from_json
  raw_to_value value_to_raw staging).
#[local] Notation task_run := (renewal_task uri_ok b64 sha256 lock_to_json lock_from_json raw_to_value
  value_to_raw staging).
#[local] Notation World := (CertWorld (W := W) (Key := Key)).

(** What a stored text gives an instance with a key. *)
Definition opens (key : Key) (enc : string) (c : CertifiedKey) : Prop :=
  ∃ raw x509s, (∃ y r y', e3_crypto_decrypt (mkCryptoRequest (raw_to_value (mkRaw enc))) y = (Ret r, y') ∧
      value_to_raw (cs_data r) = Some raw) ∧
    to_x509s (CE := CE) raw = Ok x509s ∧ to_certified_key (CE := CE) x509s key = Ok c.

Definition abs (w : World) : Shared CertifiedKey :=
  mkShared (stored_cert (aw_ext (cw_acme w))) (cw_trusted w).

Definition refines (key : Key) (w w' : World) : Prop := rtc (share_step (opens key)) (abs w) (abs w').

#[local] Instance refines_po key : PreOrder (refines key).
Proof. split; [intros w; apply rtc_refl|]. intros w w1 w2 Hl Hr. unfold refines. by etrans. Qed.

(** ** What the steps leave in the storage *)

Lemma now_quiet {E} w r w' : now (E := E) w = (r, w') → stored_cert w' = stored_cert w.
Proof. unfold now. pose proof (rt_now_quiet w) as Hq. destruct (rt_now w). by intros [= _ <-]. Qed.

Lemma uuid_quiet {E} w r w' : new_uuid (E := E) w = (r, w') → stored_cert w' = stored_cert w.
Proof. unfold new_uuid. pose proof (rt_uuid_quiet w) as Hq. destruct (rt_uuid w). by intros [= _ <-]. Qed.

Lemma jitter_quiet {E} w r w' : draw_jitter (E := E) w = (r, w') → stored_cert w' = stored_cert w.
Proof. unfold draw_jitter. pose proof (rt_jitter_quiet w) as Hq. destruct (rt_jitter w). by intros [= _ <-]. Qed.

Lemma renewal_time_quiet x509s w r w' :
  cert_time_till_renewal (CE := CE) x509s w = (r, w') → stored_cert w' = stored_cert w.
Proof.
  unfold cert_time_till_renewal.
  intros (r0 & w1 & H1%now_quiet & Hr)%mbind_cases. destruct r0 as [t|e|]; [|by destruct Hr as [_ ->]..].
  apply mbind_cases in Hr as (r1 & w2 & H2%jitter_quiet & Hr). destruct r1 as [j|e|]; [|by destruct Hr as [_ ->]; congruence..].
  apply mbind_cases in Hr as (r2 & w3 & H3%now_quiet & Hr). destruct r2 as [t'|e|]; [|by destruct Hr as [_ ->]; congruence..].
  destruct (time_till_renewal_required _ _ _ _); injection Hr as _ <-; congruence.
Qed.

Lemma from_storage_run w o w' : cert_from_storage (CE := CE) w = (Ret o, w') →
  stored_cert w' = stored_cert w ∧ o = mkRaw <$> stored_cert w.
Proof.
  unfold cert_from_storage. intros (o0 & w1 & Hg%cfg_ret & Hr)%mbind_inv. unfold mret in Hr. simplify_eq.
  apply sc_get_law in Hg as [Hv Ho]. split; [apply Hv|]. unfold stored_cert. rewrite <-(Ho _ eq_refl). by destruct o0.
Qed.

Lemma decrypt_run enc w raw w' :
  decrypt_certificate (CE := CE) raw_to_value value_to_raw enc w = (Ret raw, w') →
  stored_cert w' = stored_cert w ∧ ∃ r, e3_crypto_decrypt (mkCryptoRequest (raw_to_value enc)) w = (Ret r, w') ∧
    value_to_raw (cs_data r) = Some raw.
Proof.
  unfold decrypt_certificate, in_e3, mmap_err. intros (r & w1 & Hd & [Hr%ok_or_ok ->]%mlift_ok)%mbind_inv.
  destruct (e3_crypto_decrypt _ w) as [[r0|e|] w2] eqn:Ed; simplify_eq. split; [by eapply e3_quiet|by eexists].
Qed.

(** A fetched certificate is what the storage holds. *)
Lemma fetch_run key w c t w' :
  fetch_certificate_and_renewal_time (CE := CE) raw_to_value value_to_raw key w = (Ret (Some (c, t)), w') →
  ∃ enc, stored_cert w' = Some enc ∧ opens key enc c.
Proof.
  unfold fetch_certificate_and_renewal_time. intros (o & w1 & [Hv ->]%from_storage_run & Hr)%mbind_inv.
  destruct (stored_cert w) as [enc|]; [|done]. cbn in Hr.
  apply mbind_inv in Hr as (raw & w2 & [Hq (r & Hd & Hraw)]%decrypt_run & Hr).
  apply mbind_inv in Hr as (x509s & w3 & [Hx ->]%mlift_ok & Hr).
  apply mbind_inv in Hr as (t' & w4 & Ht%renewal_time_quiet & Hr).
  apply mbind_inv in Hr as (c' & w5 & [Hc ->]%mlift_ok & Hr). unfold mret in Hr. simplify_eq.
  exists enc. split; [congruence|]. exists raw, x509s. split; [by eexists _, _, _|done].
Qed.

Definition world (w : World) : W := aw_ext (cw_acme w).

Lemma outside_inv {B} (m : M W AE B) (w w' : World) r : outside m w = (r, w') →
  m (world w) = (r, world w') ∧ cw_trusted w' = cw_trusted w ∧ cw_tasks w' = cw_tasks w.
Proof.
  intros (x & (y & Hm & ->)%zoom_inv & ->)%zoom_inv. done.
Qed.

Lemma fetch_and_decrypt_run self key (w w' : World) c :
  fetch_and_decrypt_certificate raw_to_value value_to_raw self key w = (Ret (Some c), w') →
  ∃ enc, stored_cert (world w') = Some enc ∧ opens key enc c.
Proof.
  unfold fetch_and_decrypt_certificate.
  intros (o & w1 & (Ho & _)%outside_inv & Hr)%mbind_inv. apply from_storage_run in Ho as [Hv ->].
  destruct (stored_cert (world w)) as [enc|]; [|done]. cbn in Hr.
  apply mbind_inv in Hr as (raw & w2 & (Hd & _)%outside_inv & Hr). apply decrypt_run in Hd as [Hq (r & Hd & Hraw)].
  apply mbind_inv in Hr as (x509s & w3 & [Hx ->]%mlift_ok & Hr).
  apply mbind_inv in Hr as (t' & w4 & (Ht & _)%outside_inv & Hr). apply renewal_time_quiet in Ht.
  apply mbind_inv in Hr as ([] & w5 & Hs & Hr). injection Hs as <-.
  apply mbind_inv in Hr as (c' & w6 & [Hc ->]%mlift_ok & Hr). unfold mret in Hr. simplify_eq.
  exists enc. split; [unfold world in *; cbn; congruence|]. exists raw, x509s. split; [by eexists _, _, _|done].
Qed.

(** A created certificate has been stored. *)
Lemma created_run self key ctx attempts (w w' : World) self' c :
  create self key ctx attempts w = (Ret (self', Some c), w') →
  ∃ raw enc x509s x r x', e3_encrypt (mkCryptoRequest (raw_to_value raw)) None x = (Ret r, x') ∧
    value_to_raw (cs_data r) = Some enc ∧ stored_cert (world w') = Some (certificate enc) ∧
    to_x509s (CE := CE) raw = Ok x509s ∧ to_certified_key (CE := CE) x509s key = Ok c.
Proof.
  unfold create_certificate_and_persist_with_lock.
  intros (lock & w0 & (Hn%StorageLock_new_name & _)%outside_inv & (held & w1 & _ & Hr)%mbind_inv)%mbind_inv.
  destruct held; [|done]. apply mbind_inv in Hr as (ordered & w2 & _ & Hr). destruct ordered as [[self2 raw]|e]; [|done].
  apply mbind_inv in Hr as ([] & w3 & _ & (enc & w4 & (He & _)%outside_inv & Hr)%mbind_inv).
  apply mbind_inv in Hr as ([] & w5 & (Hp%cfg_ret & _)%outside_inv & Hr).
  apply mbind_inv in Hr as ([] & w6 & (Hd%cfg_ret & _)%outside_inv & Hr).
  apply mbind_inv in Hr as (x509s & w7 & [Hx ->]%mlift_ok & Hr).
  apply mbind_inv in Hr as (c' & w8 & [Hc ->]%mlift_ok & Hr). unfold mret in Hr. simplify_eq.
  unfold encrypt_certificate, in_e3, mmap_err in He. apply mbind_inv in He as (r & w9 & He & [Hv%ok_or_ok _]%mlift_ok).
  destruct (e3_encrypt _ None (world w3)) as [[r0|e|] x'] eqn:Ee; simplify_eq.
  exists raw, enc, x509s, (world w3), r, w9. split_and!; try done. unfold stored_cert.
  apply sc_put_law in Hp as [_ Hp]. apply sc_delete_law in Hd as [Hf _].
  unfold lock_key_name in Hf. rewrite Hn in Hf. rewrite Hf by done. by apply Hp.
Qed.

Lemma created_opens raw enc x509s key x r x' c :
  e3_encrypt (mkCryptoRequest (raw_to_value raw)) None x = (Ret r, x') → value_to_raw (cs_data r) = Some enc →
  to_x509s (CE := CE) raw = Ok x509s → to_certified_key (CE := CE) x509s key = Ok c → opens key (certificate enc) c.
Proof.
  intros He Hv Hx Hc. exists raw, x509s. split; [|done].
  destruct (e3_inverts raw x r x' enc He Hv x) as (r2 & y & Hd & Hr). exists x, r2, y. by destruct enc.
Qed.

Lemma rounds_run n self key ctx (w w' : World) c : rounds n self key ctx w = (Ret c, w') →
  ∃ enc, stored_cert (world w') = Some enc ∧ opens key enc c.
Proof.
  revert self w. induction n as [|n IH]; intros self w; cbn [cert_rounds]; [done|].
  intros (found & w1 & Hf & Hr)%mbind_inv. destruct found as [c'|].
  { unfold mret in Hr. simplify_eq. by eapply fetch_and_decrypt_run. }
  apply mbind_inv in Hr as (lock & w2 & _ & (valid & w3 & _ & Hr)%mbind_inv). destruct valid.
  { apply mbind_inv in Hr as ([] & w4 & _ & Hr). by eapply IH. }
  apply mbind_inv in Hr as ([self' created] & w4 & Hc & Hr).
  apply mbind_inv in Hr as (t & w5 & (H5%now_quiet & _)%outside_inv & Hr).
  apply mbind_inv in Hr as (j & w6 & (H6%jitter_quiet & _)%outside_inv & Hr).
  apply mbind_inv in Hr as (t' & w7 & (H7%now_quiet & _)%outside_inv & Hr).
  apply mbind_inv in Hr as (d & w8 & [_ ->]%mlift_ok & ([] & w9 & Hs & Hr)%mbind_inv). injection Hs as <-.
  destruct created as [c'|]; [|apply mbind_inv in Hr as ([] & w10 & _ & Hr); by eapply IH].
  unfold mret in Hr. simplify_eq. apply created_run in Hc as (raw & enc & x509s & x & r & x' & He & Hv & Hst & Hx & Hc).
  exists (certificate enc). split; [unfold world in *; cbn; congruence|by eapply created_opens].
Qed.

(** ** Refinement *)

Lemma acme_refines key {B} (m : AM (CE := CE) (W := W) B) : keeps (refines key) (acme m).
Proof. intros w r w' (x & _ & ->)%zoom_inv. apply rtc_once. apply step_storage. Qed.

Lemma quiet_refines key (w w' : World) : abs w' = abs w → refines key w w'.
Proof. intros Ha. unfold refines. rewrite Ha. apply rtc_refl. Qed.

Lemma serve_refines key (w w' : World) r c enc : stored_cert (world w) = Some enc → opens key enc c →
  write_certificate_to_rwlock (CE := CE) c w = (r, w') → refines key w w'.
Proof.
  intros Hs Ho [= <- <-]. unfold refines, abs, world in *. cbn. rewrite Hs. by apply rtc_once, step_serve.
Qed.

Lemma outside_refines key {B} (m : M W AE B) : keeps (refines key) (outside m).
Proof. apply acme_refines. Qed.

Lemma schedule_refines key self d : keeps (refines key) (schedule_certificate_renewal (CE := CE) self d).
Proof. apply keeps_modify. intros w. by apply quiet_refines. Qed.

Lemma record_refines key p s : keeps (refines key) (record_cert_order (CE := CE) p s).
Proof. apply keeps_modify. intros w. by apply quiet_refines. Qed.

#[local] Hint Resolve acme_refines outside_refines schedule_refines record_refines : encl.

Lemma create_refines self key ctx attempts : keeps (refines key) (create self key ctx attempts).
Proof. unfold create_certificate_and_persist_with_lock. keep_steps. Qed.

Lemma fetch_refines self key :
  keeps (refines key) (fetch_and_decrypt_certificate (CE := CE) raw_to_value value_to_raw self key).
Proof. unfold fetch_and_decrypt_certificate. keep_steps. Qed.

#[local] Hint Resolve create_refines fetch_refines : encl.

Lemma rounds_refines n self key ctx : keeps (refines key) (rounds n self key ctx).
Proof. revert self. induction n as [|n IH]; intros self; cbn [cert_rounds]; keep_steps. Qed.

Lemma renew_refines self key ctx : keeps (refines key) (renew self key ctx).
Proof.
  unfold renew_certificate_and_update_store.
  apply keeps_bind; [typeclasses eauto|apply outside_refines|intros lock].
  apply keeps_bind; [typeclasses eauto|apply outside_refines|intros valid]. destruct valid; [keep_steps|].
  intros w r w' (r0 & w1 & Hc & Hr)%mbind_cases. transitivity w1; [by eapply keeps_try, Hc; apply create_refines|].
  destruct r0 as [[[self' [c|]]|e]|e|];
    [|by injection Hr as _ <-|by injection Hr as _ <-|by destruct Hr as [_ ->]..].
  unfold mtry in Hc. destruct (create self key ctx _ w) as [[[self2 o]|e|] w2] eqn:Ec; simplify_eq.
  apply created_run in Ec as (raw & enc & x509s & x & r0 & x' & He & Hv & Hst & Hx & Hk).
  eapply serve_refines, Hr; [exact Hst|by eapply created_opens].
Qed.

Lemma attempts_refine self key ctx steps delay last :
  keeps (refines key) (renew_attempts uri_ok b64 sha256 lock_to_json lock_from_json raw_to_value value_to_raw staging
    self key ctx steps delay last).
Proof.
  revert delay last. induction steps as [|i steps IH]; intros delay last; cbn [renew_attempts]; keep_steps.
  apply renew_refines.
Qed.

Lemma task_refines key ctx task : keeps (refines key) (task_run key ctx task).
Proof.
  unfold renewal_task. apply keeps_bind; [typeclasses eauto|apply outside_refines|intros _].
  intros w r w' (r0 & w1 & Hf & Hr)%mbind_cases.
  transitivity w1; [by eapply keeps_try, Hf; apply outside_refines|].
  revert Hr. match goal with |- context [Prelude.mbind (renew_attempts _ _ _ _ _ _ _ _ _ _ _ _ _ _) ?k] =>
    assert (keeps (refines key) (Prelude.mbind (renew_attempts uri_ok b64 sha256 lock_to_json lock_from_json
      raw_to_value value_to_raw staging (task_self task) key ctx [1; 2]%Z 10 None) k)) as Hrenew end.
  { apply keeps_bind; [typeclasses eauto|apply attempts_refine|intros last]. keep_steps. }
  destruct r0 as [[[[c t]|]|e]|e|]; try (apply Hrenew); [|by intros [_ ->]..].
  destruct (SIXTY_DAYS_IN_SECONDS <? t)%Z; [|apply Hrenew]. intros Hw.
  unfold mtry in Hf. destruct (outside _ w) as [[o|e|] w2] eqn:Eo; simplify_eq.
  apply outside_inv in Eo as [Eo _]. apply fetch_run in Eo as (enc & Hst & Ho). by eapply serve_refines.
Qed.

(** C34. The process refines the specification of a shared certificate: however
    the instance gets a certificate or renews it, and however that ends, every
    change of the certificate it serves is a step that serves what the storage
    holds at that moment, opened with the enclave's key; and the certificate
    it returns is the one it serves from then on. *)
Theorem certificate_service_refines self key ctx task :
  keeps (refines key) (get_or_create self key ctx) ∧ keeps (refines key) (task_run key ctx task) ∧
  ∀ w c w', get_or_create self key ctx w = (Ret c, w') →
    cw_trusted w' = Some c ∧ ∃ enc, shared (abs w') = Some enc ∧ opens key enc c.
Proof.
  assert (∀ w r w', get_or_create self key ctx w = (r, w') → refines key w w' ∧
    ∀ c, r = Ret c → cw_trusted w' = Some c ∧ ∃ enc, shared (abs w') = Some enc ∧ opens key enc c) as Hg.
  { intros w r w' (r0 & w1 & Hc & Hr)%mbind_cases. pose proof (rounds_refines _ _ _ _ _ _ _ Hc) as Hk.
    destruct r0 as [c|e|]; [|by destruct Hr as [-> ->]..]. apply rounds_run in Hc as (enc & Hs & Ho).
    injection Hr as <- <-. split; [|intros ? [= <-]; by split; [|exists enc]].
    transitivity w1; [done|]. by eapply serve_refines. }
  split_and!; [by intros w r w' [Hr _]%Hg|apply task_refines|]. intros w c w' [_ Hr]%Hg. by apply Hr.
Qed.
(** ** Agreement *)

Lemma from_storage_finds w enc : readable (CE := CE) (W := W) → stored_cert w = Some enc →
  ∃ w', cert_from_storage (CE := CE) w = (Ret (Some (mkRaw enc)), w').
Proof.
  intros Hr Hs. destruct (Hr CERTIFICATE_OBJECT_KEY w) as (o & w' & Ho). exists w'.
  unfold cert_from_storage, Prelude.mbind, cfg, mmap_err. rewrite Ho. apply sc_get_law in Ho as [_ Ho].
  specialize (Ho o eq_refl). unfold stored_cert in Hs. rewrite Hs in Ho. by destruct o as [[]|]; simplify_eq/=.
Qed.

(** The clock does not jump while a jitter is drawn: the second reading is at
    most a second after the first, and not before it. *)
Definition steady_clock : Prop := ∀ x : W,
  let t := rt_now x in
  let t' := rt_now (rt_jitter t.2).2 in
  (t.1 / 1000 ≤ t'.1 / 1000 ≤ t.1 / 1000 + 1)%Z.

Lemma renewal_time_finds x509s w : steady_clock →
  ∃ d w', cert_time_till_renewal (CE := CE) x509s w = (Ret d, w') ∧ (0 ≤ d)%Z.
Proof.
  intros Hs. specialize (Hs w). unfold cert_time_till_renewal, Prelude.mbind, now, draw_jitter.
  destruct (rt_now w) as [t w1]. pose proof (rt_jitter_range w1) as Hj. cbn zeta in Hs. cbn [fst snd] in Hs.
  destruct (rt_jitter w1) as [j w2]. cbn [snd] in Hs. destruct (rt_now w2) as [t' w3]. cbn [fst] in Hs.
  destruct (renewal_delay (t / 1000) j (t' / 1000) (not_after <$> x509s) Hj) as (d & Hd & Hn & _); [lia|]. exists d, w3.
  by rewrite Hd.
Qed.

(** An operation outside the process leaves the rest of it alone. *)
Lemma outside_run {B} (m : M W AE B) (w : World) r x : m (world w) = (r, x) →
  outside m w = (r, mkCertWorld (mkAcmeWorld x (aw_nonces (cw_acme w))) (cw_trusted w) (cw_tasks w) (cw_orders w)).
Proof. intros Hm. unfold outside, acme, ext, zoom. unfold world in Hm. by rewrite Hm. Qed.

Lemma fetch_and_decrypt_finds self key (w : World) enc raw x509s c :
  steady_clock → readable (CE := CE) (W := W) → stored_cert (world w) = Some (certificate enc) →
  (∀ y, ∃ r y', e3_crypto_decrypt (mkCryptoRequest (raw_to_value enc)) y = (Ret r, y') ∧
    value_to_raw (cs_data r) = Some raw) →
  to_x509s (CE := CE) raw = Ok x509s → to_certified_key (CE := CE) x509s key = Ok c →
  ∃ d w', fetch_and_decrypt_certificate (CE := CE) raw_to_value value_to_raw self key w = (Ret (Some c), w') ∧
    (0 ≤ d)%Z ∧ cw_tasks w' = cw_tasks w ++ [mkTask d self].
Proof.
  intros Hclock Hread Hs Hdec Hx Hc. destruct (from_storage_finds (world w) _ Hread Hs) as [x1 H1].
  destruct (Hdec x1) as (r & x2 & Hd & Hraw). destruct (renewal_time_finds x509s x2 Hclock) as (d & x3 & Ht & Hn).
  exists d. unfold fetch_and_decrypt_certificate, Prelude.mbind at 1. rewrite (outside_run _ _ _ _ H1).
  assert (decrypt_certificate (CE := CE) raw_to_value value_to_raw (mkRaw (certificate enc)) x1 = (Ret raw, x2)) as H2.
  { unfold decrypt_certificate, Prelude.mbind, in_e3, mmap_err. destruct enc as [s]. cbn [AcmeCert.certificate]. by rewrite Hd, Hraw. }
  unfold Prelude.mbind at 1. erewrite outside_run by exact H2. cbn [world aw_ext cw_acme cw_trusted cw_tasks cw_orders aw_nonces].
  rewrite Hx. cbn [mlift]. unfold Prelude.mbind at 1, mret at 1. unfold Prelude.mbind at 1.
  erewrite outside_run by exact Ht. rewrite Hc. by eexists.
Qed.

(** All instances serve one certificate: once an instance has created a
    certificate under the lock, any instance with the same key whose storage
    still holds it (and answers) gets that very certificate in its first
    round, serves it, and has exactly one renewal scheduled. *)
Theorem instances_share_the_certificate self key ctx attempts w self' c w1 self2 ctx2 (w2 : World) :
  steady_clock → readable (CE := CE) (W := W) → create self key ctx attempts w = (Ret (self', Some c), w1) →
  stored_cert (world w2) = stored_cert (world w1) →
  ∃ d w3, get_or_create self2 key ctx2 w2 = (Ret c, w3) ∧ cw_trusted w3 = Some c ∧
    (0 ≤ d)%Z ∧ cw_tasks w3 = cw_tasks w2 ++ [mkTask d self2].
Proof.
  intros Hclock Hread (raw & enc & x509s & x & r & x' & He & Hv & Hs & Hx & Hc)%created_run Heq. rewrite Hs in Heq.
  destruct (fetch_and_decrypt_finds self2 key w2 enc raw x509s c Hclock Hread Heq (e3_inverts raw x r x' enc He Hv) Hx Hc)
    as (d & w3 & Hf & Hd & Ht).
  exists d. unfold get_or_create_enclave_certificate. cbn [cert_rounds]. unfold Prelude.mbind. rewrite Hf. by eexists.
Qed.

(** ** Renewal *)

Definition same_tasks (w w' : World) : Prop := cw_tasks w' = cw_tasks w.

#[local] Instance same_tasks_po : PreOrder same_tasks.
Proof. split; [by intros w|]. unfold same_tasks. intros w w1 w2 Hl Hr. congruence. Qed.

Lemma acme_same {B} (m : AM (CE := CE) (W := W) B) : keeps same_tasks (acme m).
Proof. by intros w r w' (x & _ & ->)%zoom_inv. Qed.

Lemma outside_same {B} (m : M W AE B) : keeps same_tasks (outside m).
Proof. apply acme_same. Qed.

#[local] Hint Resolve acme_same outside_same : encl.

Lemma create_same self key ctx attempts : keeps same_tasks (create self key ctx attempts).
Proof. unfold create_certificate_and_persist_with_lock. keep_steps; by apply keeps_modify. Qed.

#[local] Hint Resolve create_same : encl.



(** What a task that has renewed, or tried to, leaves behind: from the clock's
    readings and the jitter, a successor after the delay, or none when the
    clock has overtaken the time computed. *)
Definition successor (self : AcmeCertificateRetreiver) (days : Z) (w w' : World) : Prop := ∃ x : W,
  let t := rt_now x in
  let j := rt_jitter t.2 in
  let t' := rt_now j.2 in
  let due := (t.1 / 1000 + days + j.1)%Z in
  (1 ≤ j.1 < 86400)%Z ∧
  if decide (t'.1 / 1000 ≤ due)%Z then cw_tasks w' = cw_tasks w ++ [mkTask (due - t'.1 / 1000) self]
  else cw_tasks w' = cw_tasks w.



Lemma steady_successor self days (w w' : World) : steady_clock → (0 ≤ days)%Z → successor self days w w' →
  ∃ d, cw_tasks w' = cw_tasks w ++ [mkTask d self] ∧ (days ≤ d < days + ONE_DAY_IN_SECONDS)%Z.
Proof.
  intros Hs Hd (x & Hj & Ht). specialize (Hs x). cbn zeta in *. unfold ONE_DAY_IN_SECONDS.
  revert Hs Hj Ht. generalize (rt_now x). intros [t x1]. cbn [fst snd]. destruct (rt_jitter x1) as [j x2]. cbn [fst snd].
  destruct (rt_now x2) as [t' x3]. cbn [fst snd]. intros Hs Hj. destruct (decide _) as [|Hn]; [|lia].
  intros ->. eexists. split; [done|]. lia.
Qed.

(** The end of a task that renews. *)
Lemma successor_run self days (w w' : World) r :
  (let! t := outside now in
   let! jitter := outside draw_jitter in
   let! t' := outside now in
   match seconds_with_jitter_to_time (t / 1000) jitter (t' / 1000) days with
   | Some time_till_renewal => schedule_certificate_renewal (CE := CE) self time_till_renewal
   | None => mret tt
   end) w = (r, w') →
  r = Ret tt ∧ cw_trusted w' = cw_trusted w ∧ successor self days w w'.
Proof.
  unfold Prelude.mbind. destruct (now (E := AE) (world w)) as [r1 x1] eqn:E1. rewrite (outside_run _ _ _ _ E1).
  unfold now in E1. destruct (rt_now (world w)) as [t x] eqn:Et. injection E1 as <- <-.
  destruct (draw_jitter (E := AE) x) as [r2 x2] eqn:E2. erewrite outside_run by exact E2.
  unfold draw_jitter in E2. pose proof (rt_jitter_range x) as Hj. destruct (rt_jitter x) as [j x3] eqn:Ej.
  injection E2 as <- <-. cbn [fst] in Hj. destruct (now (E := AE) x3) as [r3 x4] eqn:E3. erewrite outside_run by exact E3.
  unfold now in E3. destruct (rt_now x3) as [t' x5] eqn:Et'. injection E3 as <- <-.
  unfold seconds_with_jitter_to_time, duration_since, get_jittered_time. intros Hr.
  assert (r = Ret tt ∧ cw_trusted w' = cw_trusted w ∧
    if decide (t' / 1000 ≤ t / 1000 + days + j)%Z
    then cw_tasks w' = cw_tasks w ++ [mkTask (t / 1000 + days + j - t' / 1000) self] else cw_tasks w' = cw_tasks w) as (-> & -> & Ht).
  { destruct (Z.leb_spec (t' / 1000) (t / 1000 + days + j)); injection Hr as <- <-; (split_and!; [done..|]);
      [by rewrite decide_True by lia|by rewrite decide_False by lia]. }
  split_and!; [done..|]. exists (world w). rewrite Et. cbn zeta. cbn [fst snd]. rewrite Ej. cbn [fst snd]. by rewrite Et'.
Qed.




(** An attempt that meets a valid lock counts as a success. *)
Lemma attempts_locked self key ctx steps i delay last (w : World) lock x3 x4 :
  get_order_lock (CE := CE) lock_from_json (world w) = (Ret (Some lock), x3) →
  is_expired (CE := CE) lock x3 = (Ret false, x4) →
  renew_attempts uri_ok b64 sha256 lock_to_json lock_from_json raw_to_value value_to_raw staging
    self key ctx (i :: steps) delay last w
  = (Ret None, mkCertWorld (mkAcmeWorld x4 (aw_nonces (cw_acme w))) (cw_trusted w) (cw_tasks w) (cw_orders w)).
Proof.
  intros Hl He. cbn [renew_attempts].
  assert (order_lock_exists_and_is_valid (CE := CE) (Some lock) x3 = (Ret true, x4)) as Hv.
  { unfold order_lock_exists_and_is_valid, Prelude.mbind. by rewrite He. }
  unfold Prelude.mbind at 1, mtry, renew_certificate_and_update_store. unfold Prelude.mbind at 1.
  rewrite (outside_run _ _ _ _ Hl). unfold Prelude.mbind at 1. by erewrite outside_run by exact Hv.
Qed.

(** A renewal that meets a valid lock is given up for sixty days: when the
    stored certificate is due and another instance holds the lock, the task
    reports success, keeps serving the old certificate, and does not look
    again for at least sixty days, which is longer than the certificate (due
    thirty days before it expires) is still valid. *)
Theorem renewal_skipped_while_locked key ctx task (w : World) c t x2 lock x3 x4 :
  steady_clock →
  fetch_certificate_and_renewal_time (CE := CE) raw_to_value value_to_raw key (rt_sleep (task_delay task) (world w))
    = (Ret (Some (c, t)), x2) → (t ≤ SIXTY_DAYS_IN_SECONDS)%Z →
  get_order_lock (CE := CE) lock_from_json x2 = (Ret (Some lock), x3) →
  is_expired (CE := CE) lock x3 = (Ret false, x4) →
  ∃ d w', task_run key ctx task w = (Ret tt, w') ∧ cw_trusted w' = cw_trusted w ∧
    cw_tasks w' = cw_tasks w ++ [mkTask d (task_self task)] ∧ (SIXTY_DAYS_IN_SECONDS ≤ d)%Z.
Proof.
  intros Hst Hf Ht Hl He. destruct (task_run key ctx task w) as [r w'] eqn:Er. revert Er.
  unfold renewal_task. unfold Prelude.mbind at 1.
  assert (sleep (E := AE) (task_delay task) (world w) = (Ret tt, rt_sleep (task_delay task) (world w))) as Hs by done.
  rewrite (outside_run _ _ _ _ Hs). unfold Prelude.mbind at 1, mtry at 1. erewrite outside_run by exact Hf.
  cbv beta iota zeta. rewrite (proj2 (Z.ltb_ge _ _) Ht). unfold Prelude.mbind at 1.
  erewrite attempts_locked by (exact Hl || exact He). intros (-> & Htr & Hn)%successor_run.
  apply (steady_successor _ _ _ _ Hst) in Hn as (d & Hd & Hb & _); [|done]. exists d, w'. by split_and!.
Qed.
End Share.
