(* ===== verification/AcmeSigning.v ===== *)
(** * Signing the enclave's orders

    The configuration client and the control plane's server behind it are the
    signer the ACME client is written against; the control plane, which checks
    the domains of an order before it signs it, signs the orders the data
    plane makes. *)
From Stdlib Require Import Ascii String NArith ZArith Lia.
From stdpp Require Import base gmap strings list pretty.
From S2P Require Import Prelude Libs Context Logging E3 Jws CpError Config ConfigRef Acme AcmeClient AcmeOrder.
#[local] Open Scope string_scope.
#[local] Open Scope list_scope.
#[local] Open Scope enclave_scope.

Section Signing.
Context {SW PW : Type} {ST : StorageClient SW} {O : OpenSsl} {R : Retry}.
Context `{Codec GetCertTokenResponse, Codec GetE3TokenResponse, Codec GetClockSyncResponse,
  Codec PostTrxLogsRequest, Codec GetObjectRequest, Codec GetObjectResponse, Codec PutObjectRequest,
  Codec DeleteObjectRequest, Codec JwsRequest, Codec JwsResult, Codec Jwk}.
Context (trx_json : TrxContext → option string).
Context (prov_cert_token : M PW string GetCertTokenResponse) (prov_e3_token : M PW string GetE3TokenResponse).
Context (token_error : TokenType → string → string) (now : result string (N * N)).
Context (account : AcmeAccountDetails) (staging : bool) (b64 : bytes → string).
Context (header_json : JwsHeader → option string) (parse_order : string → option NewOrderPayload).
Context (display_acme : AcmeError → string) (display_server : ServerError → string).
Context (ctx : CpContext).

#[local] Notation exchange := (to_server (SW := SW) (PW := PW) trx_json prov_cert_token prov_e3_token token_error
  now account staging b64 header_json parse_order display_acme display_server ctx).

Definition config_signing : SigningClient (CpWorld (SW := SW) (PW := PW)) ConfigError := {|
  sg_jws := client_jws exchange;
  sg_jwk := client_jwk exchange
|}.

(** The identifiers of an order for some domains. *)
Lemma ordered_identifiers {T Key} (a : Account T Key) domains ids :
  bu_identifiers (foldl (fun s d => add_dns_identifier d s) (mkOrderBuilder a ids) domains)
  = ids ++ (mkIdentifier "dns" <$> domains).
Proof.
  revert ids. induction domains as [|d domains IH]; intros ids; cbn; [by rewrite app_nil_r|].
  unfold add_dns_identifier at 2. cbn. rewrite IH, <-app_assoc. done.
Qed.

Lemma own_identifiers_valid (c : EnclaveContext) : Context.name c = cp_name ctx → Context.app_uuid c = cp_app_uuid ctx →
  valid_order_identifiers ctx staging (mkNewOrder (mkIdentifier "dns" <$> get_trusted_cert_domains staging c)) = true.
Proof.
  intros Hn Ha. unfold valid_order_identifiers, get_trusted_cert_domains, get_trusted_cert_base_domains,
    cp_hyphenated_app_uuid, hyphenated_app_uuid. rewrite Hn, Ha. cbn [fmap list_fmap identifiers forallb id_value str_mem].
  by rewrite !String.eqb_refl, !orb_true_r.
Qed.

(** The exchange of a signing request, for an order or not. *)
Lemma sign_exchange ty url nonce payload kid (w : CpWorld (SW := SW) (PW := PW)) order j :
  ty = ECDSA → parse_order payload = Some order → valid_order_identifiers ctx staging order = true →
  jws b64 header_json url nonce payload (Some (account_ec_key account)) kid = Ret j →
  client_jws exchange ty url nonce payload kid w = (Ret (JwsResponse_from j), w).
Proof.
  intros -> Hp Hv Hj. unfold client_jws, cfg_send, to_server, Prelude.mbind at 1, handle_incoming_request.
  cbn [cq_path cq_method ConfigServerPath_display]. change (ConfigServerPath_from_str "/acme/sign") with (Some AcmeSign).
  unfold handle_acme_signing_request, Prelude.mbind at 1, mtry, sign_acme_payload, parse_request. cbn [cq_body ok_or rbind].
  rewrite dec_enc. cbn [ok_or jr_signature_type jr_url jr_nonce jr_payload jr_account_id]. rewrite Hj, Hp.
  cbn [ok_or mlift]. unfold Prelude.mbind at 1, mret. rewrite Hv. destruct (is_order_url url);
    cbn [cs_status N.eqb Pos.eqb]; unfold parse_response, Prelude.mbind; cbn [cs_body ok_or mlift mret];
    by rewrite dec_enc.
Qed.

(** The control plane signs the enclave's own orders: when both planes
    have the same name and application, the order the data plane builds for
    its trusted domains passes the control plane's check of the identifiers,
    and the request for its signature returns the signature over the nonce and
    the payload with the account key. *)
Theorem own_order_is_signed {T Key} (a : Account T Key) (c : EnclaveContext) url nonce payload kid j
    (w : CpWorld (SW := SW) (PW := PW)) :
  Context.name c = cp_name ctx → Context.app_uuid c = cp_app_uuid ctx →
  parse_order payload = Some (mkNewOrder (bu_identifiers
    (foldl (fun s d => add_dns_identifier d s) (OrderBuilder_new a) (get_trusted_cert_domains staging c)))) →
  jws b64 header_json url nonce payload (Some (account_ec_key account)) kid = Ret j →
  sg_jws (SigningClient := config_signing) ECDSA url nonce payload kid w = (Ret (JwsResponse_from j), w).
Proof.
  intros Hn Ha Hp Hj. unfold OrderBuilder_new in Hp. rewrite ordered_identifiers in Hp.
  eapply sign_exchange; [done|exact Hp|by apply own_identifiers_valid|done].
Qed.
End Signing.

(** ** Witness *)

Definition dp_context : EnclaveContext := mkContext "team" "app_1" "uuid" "one".

Definition own_order (payload : string) : option NewOrderPayload :=
  Some (mkNewOrder (mkIdentifier "dns" <$> get_trusted_cert_domains false dp_context)).

Definition sample_signer : Account unit unit :=
  mkAcmeAccount unit unit None None "id" (mkAccountBody AccountValid None None) None.

Definition own_signature : exec AcmeError JwsResult :=
  jws (O := toy_ssl) String.string_of_list_ascii (fun h => Some (h_url h)) "https://ca/new-order" (Some "n1") "order"
    (Some 5%N) (Some "kid").

Lemma own_order_is_signed_witness : ∃ j, own_signature = Ret j ∧
  sg_jws (SigningClient := config_signing (O := toy_ssl) (fun _ => None) (mthrow "down") (mthrow "down")
    (fun _ e => e) (Ok (12, 34)%N) toy_account false String.string_of_list_ascii (fun h => Some (h_url h)) own_order
    (fun _ => "acme") (fun _ => "server") (enclave_of "one")) ECDSA "https://ca/new-order" (Some "n1") "order"
    (Some "kid") empty_world = (Ret (JwsResponse_from j), empty_world).
Proof.
  eexists. split; [vm_compute; reflexivity|].
  apply (own_order_is_signed (O := toy_ssl) (fun _ => None) (mthrow "down") (mthrow "down") (fun _ e => e)
    (Ok (12, 34)%N) toy_account false String.string_of_list_ascii (fun h => Some (h_url h)) own_order
    (fun _ => "acme") (fun _ => "server") (enclave_of "one") sample_signer dp_context); vm_compute; reflexivity.
Defined.
