(* ===== verification/AcmeRef.v ===== *)
(** * A certificate authority to run the client against

    Concrete instances of the interfaces of the ACME components, on a world
    that is a map of objects: they show that the hypotheses of the theorems can
    hold, and the witnesses run a whole order on them. *)
From Stdlib Require Import Ascii String NArith ZArith Lia.
From stdpp Require Import base gmap strings list relations pretty.
From S2P Require Import Prelude Libs Context Logging E3 Jws Config Acme AcmeStore AcmeClient AcmeOrder.
From S2P Require Import AcmeCert AcmeNonce AcmeShare.
#[local] Open Scope string_scope.
#[local] Open Scope list_scope.
#[local] Open Scope enclave_scope.

(** ** The authority *)

Definition ToyWorld : Type := gmap string string.

(** Every answer carries the next nonce, which the authority keeps. *)
Definition next_nonce (w : ToyWorld) : string := "n" +:+ default "" (w !! "#nonce").

Definition toy_body (uri : string) : string :=
  if ends_with uri "/directory" then "directory"
  else if String.eqb uri "new-account" then "account"
  else if String.eqb uri "new-order" then "pending"
  else if String.eqb uri "the-order" then "ready"
  else if String.eqb uri "finalize" then "valid"
  else uri.

Definition toy_client {T} : AcmeClientInterface T ToyWorld (DpAcmeError (CE := string)) := {|
  acme_send _ req := fun w =>
    let n := next_nonce w in
    (Ret (mkAcmeResponse http_ref 200 [("replay-nonce", b n); ("location", b "the-order")] (Some (b (toy_body (o_uri req))))),
     <["#nonce" := n]> w)
|}.

Definition toy_signing : SigningClient ToyWorld string := {|
  sg_jws _ url _ payload _ := mret (mkJws url payload "signature");
  sg_jwk := mret (mkJwk "ES256" "P-256" "EC" "sig" "x" "y")
|}.

Definition toy_acme_json : AcmeJson := {|
  payload_to_string _ := Some "payload";
  jws_to_vec j := Some (b (protected j));
  jwk_to_string _ := Some "jwk";
  thumb_to_string t := Some (th_x t);
  directory_from_str s :=
    if String.eqb s "directory" then Some (mkUrls "new-nonce" "new-account" "new-order" "revoke" None None None) else None;
  account_from_str s := if String.eqb s "account" then Some (mkAccountBody AccountValid None (Some true)) else None
|}.

Definition toy_ca_order (status : OrderStatus) : OrderBody :=
  mkOrderBody status None [mkIdentifier "dns" "a.cage.evervault.com"] None None None ["authorization"] "finalize"
    (Some "certificate").

Definition toy_challenge : ChallengeBody := mkChallengeBody "http-01" "challenge" CValid None None (Some "token").

Definition toy_order_json : OrderJson := {|
  order_from_str s :=
    if String.eqb s "pending" then Some (toy_ca_order OPending)
    else if String.eqb s "ready" then Some (toy_ca_order OReady)
    else if String.eqb s "valid" then Some (toy_ca_order OValid) else None;
  authorization_from_str s :=
    if String.eqb s "authorization"
    then Some (mkAuthorizationBody (mkIdentifier "dns" "a.cage.evervault.com") AValid None [toy_challenge] None) else None;
  challenge_from_str s := if String.eqb s "challenge" then Some toy_challenge else None
|}.

(** A name has at most 64 characters, as in OpenSSL. *)
Definition toy_csr : CsrLib string := {|
  X509Name := string;
  Extension := list string;
  X509Req := string * list string * string;
  name_with_cn s := if Nat.leb (String.length s) 64 then Some s else None;
  san_extension := Some;
  sign_req n e k := Some (n, e, k);
  req_to_der r := Some (b r.1.1)
|}.

(** Certificates are their texts and last ninety days from the epoch. *)
Definition toy_x509 : X509Lib string := {|
  X509 := bytes;
  SigningKey := bytes;
  x509_to_pem := Some;
  stack_from_pem i := Some [i];
  not_after _ := 7776000%Z;
  private_key_to_der k := Some (b k);
  public_key_to_der k := Some (b k);
  any_ecdsa_type := Some;
  pem_parse_many i := Some [i]
|}.

Definition toy_e3 : E3Api (J := json_ref) ToyWorld := {|
  e3_decrypt p := mret p;
  e3_crypto_decrypt p := mret (mkCryptoResponse (J := json_ref) (turn_text (cr_data (J := json_ref) p)));
  e3_encrypt p _ := mret (mkCryptoResponse (J := json_ref) (turn_text (cr_data (J := json_ref) p)));
  e3_authenticate _ _ := mret tt
|}.

Definition text_of (c : RawAcmeCertificate) : Value (Json := json_ref) := certificate c.
Definition of_text (v : Value (Json := json_ref)) : option RawAcmeCertificate := Some (mkRaw v).

Lemma turn_text_twice s : turn_text (turn_text s) = s.
Proof.
  unfold turn_text, b. rewrite String.list_ascii_of_string_of_list_ascii, rev_involutive.
  apply String.string_of_list_ascii_of_string.
Qed.

(** ** An order, observed *)

Definition any_uri (s : string) : bool := true.

Definition sample_order (w : AcmeWorld (W := ToyWorld * Log)) :=
  order_certificate (H := http_ref) (AJ := toy_acme_json) (OJ := toy_order_json) (CL := toy_csr) (XL := toy_x509)
    (CI := logged_client (CI := toy_client)) (SG := logged_signing (SG := toy_signing))
    (SC := logged_storage (SC := map_config)) (RT := logged_runtime (RT := still_runtime))
    any_uri String.string_of_list_ascii Some AcmeCertificateRetreiver_new ["a.cage.evervault.com"] "key" LetsEncrypt w.

Definition fresh_world : AcmeWorld (W := ToyWorld * Log) := mkAcmeWorld (∅, []) [].

Definition ordered_text {E A} (r : exec E (A * RawAcmeCertificate)) : option string :=
  match r with Ret p => Some (certificate p.2) | _ => None end.

Example sample_order_succeeds : ordered_text (sample_order fresh_world).1 = Some "certificate".
Proof. vm_compute. reflexivity. Qed.

Lemma order_never_replays_a_nonce_witness :
  ordered_text (sample_order fresh_world).1 = Some "certificate" ∧
  NoDup (lg_signed (log (sample_order fresh_world).2)).
Proof.
  split; [vm_compute; reflexivity|].
  destruct (order_never_replays_a_nonce (H := http_ref) (AJ := toy_acme_json) (OJ := toy_order_json) (CL := toy_csr)
    (XL := toy_x509) (CI := toy_client) (SG := toy_signing) (SC := map_config) (RT := still_runtime)
    any_uri String.string_of_list_ascii Some AcmeCertificateRetreiver_new ["a.cage.evervault.com"] "key" LetsEncrypt
    fresh_world (sample_order fresh_world).2 (sample_order fresh_world).1) as (_ & _ & Hn).
  - by constructor.
  - apply surjective_pairing.
  - apply Hn. apply (bool_decide_unpack _). vm_compute. exact I.
Defined.

Lemma order_requests_bounded_witness : (requests (sample_order fresh_world).2 ≤ requests fresh_world + 61)%nat.
Proof.
  apply (order_requests_bounded (H := http_ref) (AJ := toy_acme_json) (OJ := toy_order_json) (CL := toy_csr)
    (XL := toy_x509) (CI := toy_client) (SG := toy_signing) (SC := map_config) (RT := still_runtime)
    any_uri String.string_of_list_ascii Some 1 AcmeCertificateRetreiver_new ["a.cage.evervault.com"] "key" LetsEncrypt
    fresh_world (sample_order fresh_world).2 (sample_order fresh_world).1).
  - intros s o. cbn. destruct (String.eqb s "pending"); [by intros [= <-]|].
    destruct (String.eqb s "ready"); [by intros [= <-]|]. by destruct (String.eqb s "valid"); [intros [= <-]|].
  - apply surjective_pairing.
Defined.

Definition sample_account : Account AcmeClient string :=
  mkAcmeAccount AcmeClient string (Some (mkDirectory AcmeClient (AcmeClient_new "ca") 0
    (mkUrls "new-nonce" "new-account" "new-order" "revoke" None None None))) None "id"
    (mkAccountBody AccountValid None None) (Some LetsEncrypt).

Definition sample_auth : Authorization AcmeClient string :=
  authorization_of sample_account "authorization"
    (mkAuthorizationBody (mkIdentifier "dns" "a.cage.evervault.com") APending None [toy_challenge] None).

Definition sample_complete (w : AcmeWorld (W := ToyWorld * Log)) :=
  complete_authorization (H := http_ref) (AJ := toy_acme_json) (OJ := toy_order_json)
    (CI := logged_client (CI := toy_client)) (SG := logged_signing (SG := toy_signing))
    (SC := logged_storage (SC := map_config)) (RT := logged_runtime (RT := still_runtime))
    any_uri String.string_of_list_ascii Some sample_auth w.

Lemma challenge_stored_before_validation_witness :
  (sample_complete fresh_world).1 = Ret tt ∧
  head (log (sample_complete fresh_world).2) = Some (Stored "acme-challenges/token" "token.x" true) ∧
  ∃ c, get_challenge "http-01" sample_auth = Some c.
Proof.
  split; [vm_compute; reflexivity|]. split; [vm_compute; reflexivity|].
  destruct (challenge_stored_before_validation (H := http_ref) (AJ := toy_acme_json) (OJ := toy_order_json)
    (CI := toy_client) (SG := toy_signing) (SC := map_config) (RT := still_runtime) any_uri
    String.string_of_list_ascii Some sample_auth fresh_world (sample_complete fresh_world).2
    (sample_complete fresh_world).1 (surjective_pairing _))
    as [Hl|(c & token & jwk & thumb & digest & success & rest & Hc & _)].
  - exfalso. assert (Nat.eqb (length (log (sample_complete fresh_world).2)) 0 = false) as Hn by (vm_compute; reflexivity).
    by rewrite Hl in Hn.
  - by exists c.
Defined.

(** ** The shared certificate *)

Definition view_laws : RuntimeLaws (still_runtime (W := ToyWorld)) (stored_cert (SL := map_config_laws)).
Proof. by split. Qed.

Definition sample_context : EnclaveContext := mkContext "team" "app_1" "uuid" "a".

Definition toy_cert_world (w : ToyWorld) : CertWorld (W := ToyWorld) (Key := string) (XL := toy_x509) :=
  mkCertWorld (mkAcmeWorld w []) None [] [].

Definition sample_create (w : CertWorld (W := ToyWorld) (Key := string) (XL := toy_x509)) :=
  create_certificate_and_persist_with_lock (H := http_ref) (AJ := toy_acme_json) (OJ := toy_order_json) (CL := toy_csr)
    (CI := toy_client) (SG := toy_signing) (SC := map_config) (RT := still_runtime) (J := json_ref) (A := toy_e3)
    any_uri String.string_of_list_ascii Some toy_lock_to toy_lock_from text_of of_text false
    AcmeCertificateRetreiver_new "key" sample_context 1 w.

Definition sample_certified : CertifiedKey (XL := toy_x509) := mkCertifiedKey string toy_x509 [b "certificate"] (b "key").

Definition created_cert {E A B} (r : exec E (A * option B)) : option B := match r with Ret p => p.2 | _ => None end.

Example sample_create_succeeds : created_cert (sample_create (toy_cert_world ∅)).1 = Some sample_certified.
Proof. vm_compute. reflexivity. Qed.

Definition sample_self : AcmeCertificateRetreiver :=
  match (sample_create (toy_cert_world ∅)).1 with Ret p => p.1 | _ => AcmeCertificateRetreiver_new end.

Definition sample_world : CertWorld (W := ToyWorld) (Key := string) (XL := toy_x509) :=
  (sample_create (toy_cert_world ∅)).2.

Lemma sample_create_eq : sample_create (toy_cert_world ∅) = (Ret (sample_self, Some sample_certified), sample_world).
Proof. rewrite (surjective_pairing (sample_create _)). apply (f_equal2 pair); [vm_compute; reflexivity|reflexivity]. Qed.

Lemma toy_e3_quiet c (w : ToyWorld) r (w' : ToyWorld) : e3_crypto_decrypt (E3Api := toy_e3) c w = (r, w') →
  stored_cert (SL := map_config_laws) w' = stored_cert (SL := map_config_laws) w.
Proof. by intros [= _ <-]. Qed.

Lemma toy_e3_inverts raw (w : ToyWorld) r (w' : ToyWorld) enc :
  e3_encrypt (E3Api := toy_e3) (mkCryptoRequest (text_of raw)) None w = (Ret r, w') →
  of_text (cs_data r) = Some enc →
  ∀ y, ∃ r2 y', e3_crypto_decrypt (E3Api := toy_e3) (mkCryptoRequest (text_of enc)) y = (Ret r2, y') ∧
    of_text (cs_data r2) = Some raw.
Proof.
  intros [= <- _] [= <-] y. eexists _, y. split; [done|].
  change (Some (mkRaw (turn_text (turn_text (certificate raw)))) = Some raw).
  rewrite turn_text_twice. by destruct raw.
Qed.

Lemma toy_readable : readable (SC := map_config).
Proof. intros k w. by eexists _, _. Qed.

Definition sample_get (self : AcmeCertificateRetreiver) (w : CertWorld (W := ToyWorld) (Key := string) (XL := toy_x509)) :=
  get_or_create_enclave_certificate (H := http_ref) (AJ := toy_acme_json) (OJ := toy_order_json) (CL := toy_csr)
    (CI := toy_client) (SG := toy_signing) (SC := map_config) (RT := still_runtime) (J := json_ref) (A := toy_e3)
    any_uri String.string_of_list_ascii Some toy_lock_to toy_lock_from text_of of_text false
    self "key" sample_context w.

Lemma instances_share_the_certificate_witness : ∃ d w3,
  sample_get AcmeCertificateRetreiver_new sample_world = (Ret sample_certified, w3) ∧
  cw_trusted w3 = Some sample_certified ∧ (0 ≤ d)%Z ∧
  cw_tasks w3 = cw_tasks sample_world ++ [mkTask d AcmeCertificateRetreiver_new].
Proof.
  apply (instances_share_the_certificate (H := http_ref) (AJ := toy_acme_json) (OJ := toy_order_json) (CL := toy_csr)
    (XL := toy_x509) (CI := toy_client) (SG := toy_signing) (SC := map_config) (SL := map_config_laws)
    (RT := still_runtime) (J := json_ref) (A := toy_e3) any_uri String.string_of_list_ascii Some toy_lock_to
    toy_lock_from text_of of_text false (RL := view_laws) toy_e3_inverts AcmeCertificateRetreiver_new "key" sample_context 1
    (toy_cert_world ∅) sample_self sample_certified sample_world AcmeCertificateRetreiver_new sample_context sample_world).
  - by intros x.
  - exact toy_readable.
  - exact sample_create_eq.
  - reflexivity.
Defined.

Lemma certificate_service_refines_witness :
  let w' := (sample_get AcmeCertificateRetreiver_new sample_world).2 in
  rtc (share_step (opens (CE := string) (A := toy_e3) text_of of_text "key"))
    (abs (SL := map_config_laws) sample_world) (abs (SL := map_config_laws) w') ∧
  cw_trusted w' = Some sample_certified.
Proof.
  cbv zeta. destruct (certificate_service_refines (H := http_ref) (AJ := toy_acme_json) (OJ := toy_order_json)
    (CL := toy_csr) (XL := toy_x509) (CI := toy_client) (SG := toy_signing) (SC := map_config) (SL := map_config_laws)
    (RT := still_runtime) (J := json_ref) (A := toy_e3) any_uri String.string_of_list_ascii Some toy_lock_to
    toy_lock_from text_of of_text false (RL := view_laws) toy_e3_quiet toy_e3_inverts
    AcmeCertificateRetreiver_new "key" sample_context (mkTask 0 AcmeCertificateRetreiver_new)) as (Hr & _ & Hg).
  split.
  - eapply Hr. apply surjective_pairing.
  - refine (proj1 (Hg sample_world sample_certified _ _)). rewrite (surjective_pairing (get_or_create_enclave_certificate _ _ _ _ _ _ _ _ _ _ _ _)).
    apply (f_equal2 pair); [vm_compute; reflexivity|reflexivity].
Defined.



(** A certificate authority whose directory cannot be parsed ends renewal: the
    task of an enclave without a certificate panics and leaves no successor. *)
Definition broken_directory : AcmeJson := {|
  payload_to_string _ := Some "payload";
  jws_to_vec j := Some (b (protected j));
  jwk_to_string _ := Some "jwk";
  thumb_to_string t := Some (th_x t);
  directory_from_str _ := None;
  account_from_str _ := None
|}.

Example broken_directory_ends_renewal :
  let run := renewal_task (H := http_ref) (AJ := broken_directory) (OJ := toy_order_json) (CL := toy_csr)
    (CI := toy_client) (SG := toy_signing) (SC := map_config) (RT := still_runtime) (J := json_ref) (A := toy_e3)
    any_uri String.string_of_list_ascii Some toy_lock_to toy_lock_from text_of of_text false
    "key" sample_context (mkTask 0 AcmeCertificateRetreiver_new) (toy_cert_world ∅) in
  run.1 = Panic ∧ cw_tasks run.2 = [].
Proof. vm_compute. by split. Qed.

(** A certificate that is due (a jitter of a second at most is left of its
    sixty days when a day has passed) and a lock another instance holds. *)
Definition later_runtime : Runtime ToyWorld := {|
  rt_now w := ((86400 * 1000)%Z, w);
  rt_uuid w := ("uuid", w);
  rt_jitter w := (1%Z, w);
  rt_sleep _ w := w
|}.

Definition later_laws : RuntimeLaws later_runtime (stored_cert (SL := map_config_laws)).
Proof. by split. Qed.

(** Locks that never expire. *)
Definition long_lock_from (s : string) : option StorageLock :=
  (fun l => mkLock (lk_name l) (lk_uuid l) (10 ^ 12) None) <$> toy_lock_from s.

Definition locked_world : CertWorld (W := ToyWorld) (Key := string) (XL := toy_x509) :=
  toy_cert_world (<["certificate-v1.lock" := toy_lock_to (mkLock CERTIFICATE_LOCK_NAME "other" 0 None)]>
    (aw_ext (cw_acme sample_world))).

Definition other_lock : StorageLock := mkLock CERTIFICATE_LOCK_NAME "other" (10 ^ 12) None.

Lemma known_result {W E A} (m : M W E A) w r : (m w).1 = r → m w = (r, (m w).2).
Proof. intros <-. apply surjective_pairing. Qed.

Lemma renewal_skipped_while_locked_witness : ∃ d w',
  renewal_task (H := http_ref) (AJ := toy_acme_json) (OJ := toy_order_json) (CL := toy_csr)
    (CI := toy_client) (SG := toy_signing) (SC := map_config) (RT := later_runtime) (J := json_ref) (A := toy_e3)
    any_uri String.string_of_list_ascii Some toy_lock_to long_lock_from text_of of_text false
    "key" sample_context (mkTask 0 AcmeCertificateRetreiver_new) locked_world = (Ret tt, w') ∧
  cw_trusted w' = None ∧ cw_tasks w' = [mkTask d AcmeCertificateRetreiver_new] ∧ (SIXTY_DAYS_IN_SECONDS ≤ d)%Z.
Proof.
  eapply (renewal_skipped_while_locked (H := http_ref) (AJ := toy_acme_json) (OJ := toy_order_json) (CL := toy_csr)
    (XL := toy_x509) (CI := toy_client) (SG := toy_signing) (SC := map_config) (SL := map_config_laws)
    (RT := later_runtime) (J := json_ref) (A := toy_e3) any_uri String.string_of_list_ascii Some toy_lock_to
    long_lock_from text_of of_text false (RL := later_laws) "key" sample_context
    (mkTask 0 AcmeCertificateRetreiver_new) locked_world sample_certified 5097601%Z _ other_lock _ _).
  - by intros x.
  - apply known_result. vm_compute. reflexivity.
  - by vm_compute.
  - apply known_result. vm_compute. reflexivity.
  - apply known_result. vm_compute. reflexivity.
Defined.

(** ** Long names *)

Definition long_context : EnclaveContext :=
  mkContext "team" "app_0123456789ab" "uuid" "a-sick-enclave-with-a-long-name".

Definition long_order : Order AcmeClient string :=
  mkOrder (Some sample_account) "the-order"
    (mkOrderBody OReady None (mkIdentifier "dns" <$> get_trusted_cert_domains false long_context) None None None []
      "finalize" None).

Lemma long_name_gets_no_certificate_witness :
  Order_finalize (H := http_ref) (AJ := toy_acme_json) (OJ := toy_order_json) (CL := toy_csr) (CI := toy_client)
    (SG := toy_signing) any_uri String.string_of_list_ascii "key" long_order (mkAcmeWorld ∅ [])
  = (Throw AeOpenSsl, mkAcmeWorld ∅ []).
Proof.
  apply (long_name_gets_no_certificate (H := http_ref) (AJ := toy_acme_json) (OJ := toy_order_json) (CL := toy_csr)
    (CI := toy_client) (SG := toy_signing) any_uri String.string_of_list_ascii) with (staging := false) (c := long_context).
  - intros s Hs. cbn. by rewrite (proj2 (Nat.leb_gt _ _) Hs).
  - cbn. lia.
  - done.
  - repeat constructor; set_solver.
Defined.
