(* ===== verification/ProxyProtocol.v ===== *)
(** * Proxy protocol (shared/src/server/proxy_protocol.rs)

    The header a load balancer puts in front of a connection is read off the
    stream; what was read beyond it is handed to the reader first. The parser
    of the [ppp] crate is a parameter. *)
From Stdlib Require Import Ascii String NArith Lia.
From stdpp Require Import base strings list pretty.
From S2P Require Import Prelude Net.
#[local] Open Scope list_scope.
#[local] Open Scope enclave_scope.

(** The addresses of a header: of IPv4 or IPv6, or none or those of sockets. *)
Inductive Addresses : Type :=
| AddrIp (source destination : IpAddr) (source_port destination_port : N)
| AddrOther.

(** [ppp::v2::Header]: the bytes it was parsed from, which it keeps, and its
    addresses; its other fields are read from the bytes, by nobody here. *)
Record PPHeader : Type := mkPP { pp_bytes : bytes; pp_addresses : Addresses }.

(** [Header::len] and [Header::as_bytes]. *)
Definition pp_len (h : PPHeader) : nat := length (pp_bytes h).
Definition pp_as_bytes (h : PPHeader) : bytes := pp_bytes h.

(** What [ppp::v2::Header::try_from] says of the bytes so far. *)
Inductive PPResult : Type :=
| PPOk (h : PPHeader)
| PPIncomplete
| PPPartial (required : nat)
| PPInvalid.

Inductive PPError : Type := PPIo | UnexpectedEOF.

Record AcceptedConn : Type := mkAccepted {
  ac_inner : Conn;
  ac_header : option PPHeader;
  ac_preread : option bytes
}.

(** [AcceptedConn::new]: an empty buffer is not kept. *)
Definition AcceptedConn_new (inner : Conn) (h : option PPHeader) (preread : option bytes) : AcceptedConn :=
  mkAccepted inner h
    (match preread with
     | Some (c :: buf) => Some (c :: buf)
     | _ => None
     end).

(** [poll_read] into a buffer of [n] bytes. *)
Definition accepted_read (n : nat) (c : AcceptedConn) : result unit bytes * AcceptedConn :=
  match ac_preread c with
  | Some preread_buf =>
      let len := Nat.min (length preread_buf) n in
      let rest := drop len preread_buf in
      (Ok (take len preread_buf),
       mkAccepted (ac_inner c) (ac_header c) (match rest with [] => None | _ => Some rest end))
  | None =>
      let '(r, inner) := conn_read n (ac_inner c) in (r, mkAccepted inner (ac_header c) None)
  end.

(** [poll_write], [poll_shutdown]: on the inner stream. *)
Definition accepted_write (d : bytes) (c : AcceptedConn) : result unit unit * AcceptedConn :=
  let '(r, inner) := conn_write d (ac_inner c) in (r, mkAccepted inner (ac_header c) (ac_preread c)).
Definition accepted_shutdown (c : AcceptedConn) : AcceptedConn :=
  mkAccepted (conn_shutdown (ac_inner c)) (ac_header c) (ac_preread c).

Definition MIN_PROXY_PROTOCOL_HEADER_LEN : nat := 16.

(** The bytes a connection still delivers. *)
Definition conn_bytes (c : Conn) : bytes := concat (default [] <$> c_in c).
Definition accepted_bytes (c : AcceptedConn) : bytes := default [] (ac_preread c) ++ conn_bytes (ac_inner c).

(** The capacity a [read_buf] leaves when the buffer is full. *)
Definition grown (len cap : nat) : nat := if Nat.ltb len cap then cap else Nat.max (2 * cap) (len + 64).

Section Parse.
Context (parse : bytes → PPResult).

(** The loop of [try_parse_proxy_protocol], with the buffer and its capacity;
    every turn that goes on has read a byte. *)
Fixpoint pp_loop (fuel : nat) (buf : bytes) (cap : nat) (c : Conn) : exec PPError AcceptedConn * Conn :=
  match fuel with
  | O => (Throw UnexpectedEOF, c)
  | S n =>
      let cap := grown (length buf) cap in
      match conn_read (cap - length buf) c with
      | (Err _, c) => (Throw PPIo, c)
      | (Ok [], c) => (Throw UnexpectedEOF, conn_shutdown c)
      | (Ok (x :: d), c) =>
          let buf := buf ++ x :: d in
          match parse buf with
          | PPOk h =>
              if Nat.leb (pp_len h) (length buf)
              then (Ret (AcceptedConn_new c (Some h) (Some (drop (pp_len h) buf))), c)
              else (Panic, c)
          | PPIncomplete => pp_loop n buf cap c
          | PPPartial required_bytes => pp_loop n buf (Nat.max cap (length buf + required_bytes)) c
          | PPInvalid => (Ret (AcceptedConn_new c None (Some buf)), c)
          end
      end
  end.

Definition conn_size (c : Conn) : nat := length (c_in c) + length (conn_bytes c).

Definition try_parse_proxy_protocol (c : Conn) : exec PPError AcceptedConn * Conn :=
  pp_loop (S (conn_size c)) [] MIN_PROXY_PROTOCOL_HEADER_LEN c.

(** [ProxiedConnection] *)
Definition proxy_protocol (c : AcceptedConn) : option PPHeader := ac_header c.
Definition has_proxy_protocol (c : AcceptedConn) : bool := is_some (ac_header c).
Definition get_remote_addr (c : AcceptedConn) : option string :=
  match proxy_protocol c with
  | Some h => match pp_addresses h with AddrIp source _ _ _ => Some (ip_to_string source) | AddrOther => None end
  | None => None
  end.

(** ** Lemmas *)

Lemma conn_read_bytes n c d c' : conn_read n c = (Ok d, c') → 0 < n →
  conn_bytes c = d ++ conn_bytes c' ∧ (d ≠ [] → conn_size c' < conn_size c).
Proof.
  unfold conn_read, conn_size, conn_bytes. destruct (c_in c) as [|[seg|] rest] eqn:Ei.
  - intros [= <- <-] _. rewrite Ei. done.
  - cbn [fmap list_fmap concat default length from_option]. unfold id. destruct (Nat.leb_spec (length seg) n).
    + intros [= <- <-] _. cbn [c_in]. split; [done|]. rewrite length_app. lia.
    + intros [= <- <-] Hn. cbn [c_in fmap list_fmap concat default from_option length]. unfold id.
      rewrite app_assoc, take_drop. split; [done|]. rewrite !length_app, length_drop. lia.
  - done.
Qed.

Lemma grown_spare len cap : len < grown len cap.
Proof. unfold grown. destruct (Nat.ltb_spec len cap); lia. Qed.

Lemma pp_loop_fuel f f' buf cap c : conn_size c < f → conn_size c < f' →
  pp_loop f buf cap c = pp_loop f' buf cap c.
Proof.
  revert f' buf cap c. induction f as [|f IH]; intros [|f'] buf cap c; [lia..|]. intros Hf Hf'. cbn [pp_loop].
  destruct (conn_read _ c) as [[[|x d]|e] c'] eqn:Er; [done| |done].
  pose proof (grown_spare (length buf) cap).
  apply conn_read_bytes in Er as [_ Hlt]; [|lia]. specialize (Hlt ltac:(done)).
  destruct (parse _); [done|apply IH; lia|apply IH; lia|done].
Qed.

Lemma AcceptedConn_new_bytes c h buf : accepted_bytes (AcceptedConn_new c h (Some buf)) = buf ++ conn_bytes c.
Proof. by destruct buf. Qed.

Lemma pp_loop_spec f buf cap c r c' : pp_loop f buf cap c = (r, c') →
  ∀ a, r = Ret a → ∃ hd, buf ++ conn_bytes c = hd ++ accepted_bytes a ∧
    match ac_header a with
    | Some h => ∃ rest, parse (hd ++ rest) = PPOk h ∧ length hd = pp_len h
    | None => hd = [] ∧ ∃ seen, parse seen = PPInvalid ∧ seen `prefix_of` accepted_bytes a
    end.
Proof.
  revert buf cap c. induction f as [|f IH]; intros buf cap c; cbn [pp_loop]; [by intros [= <- <-]|].
  destruct (conn_read _ c) as [[[|x d]|e] c1] eqn:Er; [by intros [= <- <-]| |by intros [= <- <-]].
  pose proof (grown_spare (length buf) cap). apply conn_read_bytes in Er as [Hb _]; [|lia].
  rewrite Hb, app_assoc. destruct (parse (buf ++ x :: d)) as [h| |req|] eqn:Ep; [|apply IH|apply IH|].
  - destruct (Nat.leb_spec (pp_len h) (length (buf ++ x :: d))); [|by intros [= <- <-]].
    intros [= <- <-] a [= <-]. exists (take (pp_len h) (buf ++ x :: d)).
    rewrite AcceptedConn_new_bytes, app_assoc, take_drop. split; [done|]. cbn [ac_header AcceptedConn_new].
    exists (drop (pp_len h) (buf ++ x :: d)). rewrite take_drop. split; [done|]. rewrite length_take. lia.
  - intros [= <- <-] a [= <-]. exists []. rewrite AcceptedConn_new_bytes. split; [done|]. cbn [ac_header AcceptedConn_new].
    split; [done|]. exists (buf ++ x :: d). split; [done|]. by exists (conn_bytes c1).
Qed.

Lemma accepted_read_bytes n a d a' : accepted_read n a = (Ok d, a') → 0 < n →
  accepted_bytes a = d ++ accepted_bytes a'.
Proof.
  unfold accepted_read, accepted_bytes. destruct (ac_preread a) as [buf|] eqn:Ep; cbn [default from_option]; unfold id.
  - intros [= <- <-] _. cbn [ac_inner ac_preread].
    assert (∀ l : bytes, default [] (match l with [] => None | _ => Some l end) = l) as -> by by intros [].
    by rewrite app_assoc, take_drop.
  - destruct (conn_read n (ac_inner a)) as [r inner] eqn:Er. intros [= -> <-] Hn.
    by apply conn_read_bytes in Er as [-> _].
Qed.

(** The proxy protocol is transparent: an accepted connection delivers
    exactly the bytes of the stream after the header it recognised (all of
    them when there is none), whatever the sizes of the reads, before and after
    it was accepted; and the loop ends on every finite stream. *)
Theorem proxy_protocol_transparent c :
  (∀ a c', try_parse_proxy_protocol c = (Ret a, c') →
    ∃ hd, conn_bytes c = hd ++ accepted_bytes a ∧
      length hd = match ac_header a with Some h => pp_len h | None => 0 end ∧
      ∀ n d a', 0 < n → accepted_read n a = (Ok d, a') → accepted_bytes a = d ++ accepted_bytes a') ∧
  (∀ fuel, conn_size c < fuel →
    pp_loop fuel [] MIN_PROXY_PROTOCOL_HEADER_LEN c = try_parse_proxy_protocol c).
Proof.
  split.
  - intros a c' Hr. destruct (pp_loop_spec _ _ _ _ _ _ Hr a eq_refl) as (hd & Hb & Hh).
    exists hd. split; [done|]. split; [|intros; by eapply accepted_read_bytes].
    destruct (ac_header a); [by destruct Hh as (? & _ & ?)|by destruct Hh as [-> _]].
  - intros fuel Hf. apply pp_loop_fuel; lia.
Qed.
End Parse.
