(* ===== verification/Host.v ===== *)
(** * Clock and environment of the enclave

    Setting the enclave's clock from the host (data-plane/src/time/mod.rs)
    and writing the environment of the user process
    (data-plane/src/env/mod.rs). The file system and the clock are parts of
    the world, the storage client and E3 are used through their interfaces. *)
From Stdlib Require Import Ascii String NArith ZArith Lia.
From stdpp Require Import base strings list pretty.
From S2P Require Import Prelude Libs Context Logging E3 Jws CpError Config ConfigRef.
#[local] Open Scope string_scope.
#[local] Open Scope list_scope.
#[local] Open Scope enclave_scope.

(** ** Clock *)

Section Clock.
Context {W CE : Type} {SC : StorageConfigClient W CE}.

Inductive ClockSyncError : Type :=
| CkError (e : CE)
| CkSync (e : string)
| CkSystemTime.

(** The clock in nanoseconds since the epoch beside the client's world. *)
Record ClockWorld : Type := mkClockWorld { ck_store : W; ck_clock : Z }.

Definition on_client {A} (m : M W CE A) : M ClockWorld ClockSyncError A := fun w =>
  match m (ck_store w) with
  | (Ret a, x) => (Ret a, mkClockWorld x (ck_clock w))
  | (Throw e, x) => (Throw (CkError e), mkClockWorld x (ck_clock w))
  | (Panic, x) => (Panic, mkClockWorld x (ck_clock w))
  end.

(** [clock_settime] with seconds and nanoseconds: whether it succeeds. *)
Definition clock_settime (tv_sec tv_nsec : Z) : M ClockWorld ClockSyncError bool := fun w =>
  if ((0 <=? tv_sec) && (0 <=? tv_nsec) && (tv_nsec <? 1000000000))%Z
  then (Ret true, mkClockWorld (ck_store w) (tv_sec * 1000000000 + tv_nsec))
  else (Ret false, w).

(** [elapsed]: what the timer of the request reads, in milliseconds. *)
Definition sync_time_from_host (elapsed : option Z) : M ClockWorld ClockSyncError unit :=
  let! time := on_client sc_get_time in
  let! elapsed := mlift (ok_or elapsed CkSystemTime) in
  if (500 <? elapsed)%Z then mret tt
  else
    let! ok := clock_settime (seconds time) (milliseconds time) in
    if ok then mret tt else mthrow (CkSync "Could not sync enclave time with host").
End Clock.

(** ** Environment *)

Section Env.
Context {J : Json} {EW : Type} {A : E3Api EW}.
Context (secrets_to_value : list Secret → Value) (value_to_secrets : Value → option (list Secret)).

Inductive EnvError : Type :=
| EnvIo
| EnvSerde
| EnvClient (e : ClientError).

(** [/etc/customer-env], when it exists, and whether it can be written. *)
Record EnvWorld : Type := mkEnv { env_file : option string; env_writable : bool; env_e3 : EW }.

Definition export_line (env : Secret) : string :=
  "export " +:+ secret_name env +:+ "=" +:+ secret_value env +:+ "  ".

Fixpoint concat_lines (l : list string) : string :=
  match l with [] => "" | s :: l' => s +:+ concat_lines l' end.

Definition write_env_file (secrets : list Secret) : M EnvWorld EnvError unit := fun w =>
  if env_writable w
  then (Ret tt, mkEnv (Some (concat_lines (export_line <$> secrets))) true (env_e3 w))
  else (Throw EnvIo, w).

Definition on_env_e3 {B} (m : M EW ClientError B) : M EnvWorld EnvError B := fun w =>
  match m (env_e3 w) with
  | (Ret a, x) => (Ret a, mkEnv (env_file w) (env_writable w) x)
  | (Throw e, x) => (Throw (EnvClient e), mkEnv (env_file w) (env_writable w) x)
  | (Panic, x) => (Panic, mkEnv (env_file w) (env_writable w) x)
  end.

Definition is_encrypted (env : Secret) : bool := starts_with (secret_value env) "ev:".

Definition Environment_init (secrets : list Secret) : M EnvWorld EnvError unit :=
  let '(encrypted_env, plaintext_env) := List.partition is_encrypted secrets in
  match encrypted_env with
  | [] => write_env_file plaintext_env
  | _ =>
      let! e3_response := on_env_e3 (e3_crypto_decrypt (mkCryptoRequest (secrets_to_value encrypted_env))) in
      let! decrypted_env := mlift (ok_or (value_to_secrets (cs_data e3_response)) EnvSerde) in
      write_env_file (decrypted_env ++ plaintext_env)
  end.

(** Appends, to a file that must exist. *)
Definition write_startup_complete_env_vars : M EnvWorld EnvError unit := fun w =>
  match env_file w with
  | Some f =>
      if env_writable w
      then (Ret tt, mkEnv (Some (f +:+ "export EV_INITIALIZED=true")) true (env_e3 w))
      else (Throw EnvIo, w)
  | None => (Throw EnvIo, w)
  end.
End Env.

(** ** Properties *)

Section ClockProperties.
Context {SW PW : Type} {ST : StorageClient SW} {O : OpenSsl} {R : Retry} {RL : RetryLaws R}.
Context `{Codec GetCertTokenResponse, Codec GetE3TokenResponse, Codec GetClockSyncResponse,
  Codec PostTrxLogsRequest, Codec GetObjectRequest, Codec GetObjectResponse, Codec PutObjectRequest,
  Codec DeleteObjectRequest, Codec JwsRequest, Codec JwsResult, Codec Jwk}.
Context (trx_json : TrxContext → option string).
Context (prov_cert_token : M PW string GetCertTokenResponse) (prov_e3_token : M PW string GetE3TokenResponse).
Context (token_error : TokenType → string → string).
Context (account : AcmeAccountDetails) (staging : bool) (b64 : bytes → string).
Context (header_json : JwsHeader → option string) (parse_order : string → option NewOrderPayload).
Context (display_acme : AcmeError → string) (display_server : ServerError → string) (ctx : CpContext).

#[local] Notation exchange now := (to_server (SW := SW) (PW := PW) trx_json prov_cert_token prov_e3_token
  token_error now account staging b64 header_json parse_order display_acme display_server ctx).

(** The client of a host whose clock reads [now]. *)
Definition host_clock (now : result string (N * N)) :
    StorageConfigClient (CpWorld (SW := SW) (PW := PW)) ConfigError := {|
  sc_get_object := get_object (exchange now);
  sc_put_object := put_object (exchange now);
  sc_delete_object := delete_object (exchange now);
  sc_get_time := get_time_from_host (exchange now)
|}.

Lemma host_time secs millis w : (secs < 2 ^ 63)%N →
  get_time_from_host (exchange (Ok (secs, millis))) w = (Ret (mkClock (Z.of_N secs) (Z.of_N millis)), w).
Proof.
  intros Hs. unfold get_time_from_host. rewrite spawn_more.
  assert (base_get_time_from_host (exchange (Ok (secs, millis))) w
    = (Ret (mkClock (Z.of_N secs) (Z.of_N millis)), w)) as ->; [|done].
  unfold base_get_time_from_host, cfg_send, to_server, Prelude.mbind at 1, handle_incoming_request.
  cbn [cq_path ConfigServerPath_display]. change (ConfigServerPath_from_str "/time") with (Some Time).
  unfold handle_time_sync_request, mret, build_success_response. cbn [cs_status].
  change ((200 =? 200)%N) with true. unfold parse_response, Prelude.mbind. cbn [cs_body ok_or mlift default].
  unfold mret, id. rewrite dec_enc. cbn [ok_or mlift mret]. unfold mret.
  unfold as_i64. assert ((Z.of_N secs <? 2 ^ 63)%Z = true) as -> by (apply Z.ltb_lt; lia). done.
Qed.

(** The clock the enclave gets from its host is never ahead of it and less
    than a second behind, but it is behind by all of the milliseconds: they
    are put in the field of the nanoseconds. *)
Theorem synced_clock_lags secs millis elapsed w :
  (secs < 2 ^ 63)%N → (millis < 1000)%N → (elapsed ≤ 500)%Z →
  let host := (Z.of_N secs * 1000000000 + Z.of_N millis * 1000000)%Z in
  ∃ w', sync_time_from_host (SC := host_clock (Ok (secs, millis))) (Some elapsed) w = (Ret tt, w') ∧
    (host - ck_clock w' = Z.of_N millis * 999999)%Z ∧ (0 ≤ host - ck_clock w' < 1000000000)%Z.
Proof.
  intros Hs Hm He host. unfold sync_time_from_host, Prelude.mbind at 1, on_client.
  change (sc_get_time (StorageConfigClient := host_clock (Ok (secs, millis))))
    with (get_time_from_host (exchange (Ok (secs, millis)))).
  rewrite host_time by done. unfold Prelude.mbind. cbn [ok_or mlift]. unfold mret.
  rewrite (proj2 (Z.ltb_ge 500 elapsed)) by done. cbn [seconds milliseconds].
  unfold clock_settime.
  assert (((0 <=? Z.of_N secs) && (0 <=? Z.of_N millis) && (Z.of_N millis <? 1000000000))%Z = true) as ->.
  { rewrite !andb_true_iff, !Z.leb_le, Z.ltb_lt. lia. }
  eexists. split; [done|]. cbn [ck_clock]. subst host. lia.
Qed.
End ClockProperties.

Section EnvProperties.
Context {J : Json} {EW : Type} {A : E3Api EW}.
Context (secrets_to_value : list Secret → Value) (value_to_secrets : Value → option (list Secret)).

(** The file written holds what E3 decrypted, then the plain secrets, and no
    value that is still encrypted reaches it unless E3 returned it. *)
Theorem env_file_contents secrets w w' :
  Environment_init secrets_to_value value_to_secrets secrets w = (Ret tt, w') →
  ∃ decrypted, env_file w' = Some (concat_lines (export_line <$>
      decrypted ++ List.filter (fun s => negb (is_encrypted s)) secrets)) ∧
    (decrypted = [] ∧ List.filter is_encrypted secrets = [] ∨
     ∃ r x, e3_crypto_decrypt (mkCryptoRequest (secrets_to_value (List.filter is_encrypted secrets))) (env_e3 w)
       = (Ret r, x) ∧ value_to_secrets (cs_data r) = Some decrypted).
Proof.
  unfold Environment_init. rewrite partition_as_filter.
  destruct (List.filter is_encrypted secrets) as [|s0 enc] eqn:Ef.
  - unfold write_env_file. destruct (env_writable w); [|done]. intros [= <-]. exists []. split; [done|]. by left.
  - intros (r & w1 & He & (d & w2 & Hd & Hw)%mbind_inv)%mbind_inv.
    unfold on_env_e3 in He. destruct (e3_crypto_decrypt _ (env_e3 w)) as [[r0| |] x] eqn:Ee; simplify_eq.
    destruct (value_to_secrets (cs_data r)) as [d'|] eqn:Ev; [|done]. cbn [ok_or mlift] in Hd.
    unfold mret in Hd. simplify_eq. unfold write_env_file in Hw. cbn [env_writable] in Hw.
    destruct (env_writable w); [|done]. simplify_eq. exists d. split; [done|]. right. by exists r, x.
Qed.
End EnvProperties.

(** ** Witnesses *)

Lemma synced_clock_lags_witness : ∃ w',
  sync_time_from_host (SC := host_clock (O := toy_ssl) (fun _ => None) (mthrow "down") (mthrow "down") (fun _ e => e)
    toy_account false String.string_of_list_ascii (fun h => Some (h_url h)) toy_order
    (fun _ => "acme") (fun _ => "server") (enclave_of "one") (Ok (12, 34)%N)) (Some 20%Z)
    (mkClockWorld empty_world 0) = (Ret tt, w') ∧
  (12034000000 - ck_clock w' = 34 * 999999)%Z ∧ (0 ≤ 12034000000 - ck_clock w' < 1000000000)%Z.
Proof.
  apply (synced_clock_lags (O := toy_ssl) (fun _ => None) (mthrow "down") (mthrow "down") (fun _ e => e)
    toy_account false String.string_of_list_ascii (fun h => Some (h_url h)) toy_order
    (fun _ => "acme") (fun _ => "server") (enclave_of "one") 12 34 20 (mkClockWorld empty_world 0)); lia.
Defined.
