(* ===== verification/Attest.v ===== *)
(** * Attestation and the crypto API

    The Nitro secure module (data-plane/src/utils/nsm.rs), the attestation
    documents (data-plane/src/crypto/attest.rs), random bytes
    (data-plane/src/crypto/rand.rs), and the local HTTP API the user process
    encrypts, decrypts and attests with (data-plane/src/crypto/api.rs). The
    driver of the module, CBOR, COSE, chrono and OpenSSL are parameters. *)
From Stdlib Require Import Ascii String NArith ZArith Lia.
From stdpp Require Import base gmap strings list pretty.
From S2P Require Import Prelude Libs Context E3.
#[local] Open Scope string_scope.
#[local] Open Scope list_scope.
#[local] Open Scope enclave_scope.

(** ** The secure module *)

Inductive NsmRequest : Type :=
| ReqAttestation (user_data nonce public_key : option bytes)
| ReqGetRandom.

(** The responses the code tells apart. *)
Inductive NsmResponse : Type :=
| ResAttestation (document : bytes)
| ResGetRandom (random : bytes)
| ResError (code : N)
| ResOther.

(** The driver: [nsm_init] returns a descriptor, negative when it fails. *)
Class Nsm (W : Type) : Type := {
  nsm_init : W → Z * W;
  nsm_exit : Z → W → W;
  nsm_process_request : Z → NsmRequest → W → NsmResponse * W
}.

(** What the driver promises: [nsm_open] is what is open; a failed [nsm_init]
    opens nothing, a request neither opens nor closes. *)
Class NsmLaws {W : Type} (NS : Nsm W) : Type := {
  nsm_open : W → list Z;
  nsm_init_law w : nsm_open (nsm_init w).2 =
    if ((nsm_init w).1 <? 0)%Z then nsm_open w else (nsm_init w).1 :: nsm_open w;
  nsm_exit_law fd l w : nsm_open w = fd :: l → nsm_open (nsm_exit fd w) = l;
  nsm_request_law fd r w : nsm_open (nsm_process_request fd r w).2 = nsm_open w
}.

Inductive DriverCalls : Type := GetAttestationDocument | GetRandom.

Inductive AttestationError : Type :=
| AttestationFailed (code : N)
| UnexpectedResponse (call : DriverCalls) (r : NsmResponse)
| CoseSign1ParseFailed
| AttestationDocParseFailed
| SigningCertParseFailed
| ConnectionFailed
| DateTimeParseError
| InvalidTimeError (s : string).

Section Attest.
Context {W : Type} {NS : Nsm W}.

Definition NsmConnection_try_new {E} (e : E) : M W E Z := fun w =>
  let '(nsm_fd, w') := nsm_init w in
  if (nsm_fd <? 0)%Z then (Throw e, w') else (Ret nsm_fd, w').

(** [Drop] closes the connection however the scope is left. *)
Definition with_nsm {E A} (e : E) (body : Z → M W E A) : M W E A :=
  let! fd := NsmConnection_try_new e in
  fun w => let '(r, w') := body fd w in (r, nsm_exit fd w').

Definition process {E} (fd : Z) (r : NsmRequest) : M W E NsmResponse := fun w =>
  let '(res, w') := nsm_process_request fd r w in (Ret res, w').

Definition get_nonce (nonce : option bytes) (nsm_fd : Z) : M W AttestationError bytes :=
  match nonce with
  | Some nonce => mret nonce
  | None =>
      let! res := process nsm_fd ReqGetRandom in
      match res with
      | ResGetRandom random_bytes => mret random_bytes
      | unexpected_response => mthrow (UnexpectedResponse GetRandom unexpected_response)
      end
  end.

Definition get_attestation_doc (challenge nonce : option bytes) : M W AttestationError bytes :=
  with_nsm ConnectionFailed (fun fd =>
    let! nonce := get_nonce nonce fd in
    let nsm_request := ReqAttestation challenge (Some nonce) None in
    let! res := process fd nsm_request in
    match res with
    | ResAttestation document => mret document
    | ResError err => mthrow (AttestationFailed err)
    | unexpected_response => mthrow (UnexpectedResponse GetAttestationDocument unexpected_response)
    end).

(** ** Expiry of a document *)

(** [serde_cbor], [cose], OpenSSL and chrono: the COSE structure, its payload,
    the signing certificate of the document, the printed end of its validity,
    the parsed local time with what follows it, time zones, and the earliest
    UTC time of a local one, in seconds since the epoch. *)
Context {Cose Cert Tz : Type}.
Context (cose_from_slice : bytes → option Cose) (cose_payload : Cose → option bytes).
Context (doc_certificate : bytes → option bytes) (x509_from_der : bytes → option Cert) (not_after_text : Cert → string).
Context (parse_and_remainder : string → option (Z * string)) (tz_from_str : string → option Tz) (UTC : Tz).
Context (trim : string → string) (earliest_utc : Tz → Z → option Z).

Definition parse_not_after_date_time (not_after : string) : result AttestationError Z :=
  let? (date_time, remainder) := ok_or (parse_and_remainder not_after) DateTimeParseError in
  let tz := default UTC (tz_from_str (trim remainder)) in
  ok_or (earliest_utc tz date_time) (InvalidTimeError not_after).

(** A time before the epoch overflows [SystemTime] when it is read as [u64]. *)
Definition get_expiry_time (cose_sign_1_bytes : bytes) : M W AttestationError Z :=
  let! cose_sign_1 := mlift (ok_or (cose_from_slice cose_sign_1_bytes) CoseSign1ParseFailed) in
  match cose_payload cose_sign_1 with
  | None => mpanic
  | Some attestation_doc_bytes =>
      let! certificate := mlift (ok_or (doc_certificate attestation_doc_bytes) AttestationDocParseFailed) in
      let! signing_cert := mlift (ok_or (x509_from_der certificate) SigningCertParseFailed) in
      let! timestamp := mlift (parse_not_after_date_time (not_after_text signing_cert)) in
      if (timestamp <? 0)%Z then mpanic else mret timestamp
  end.

(** ** Random bytes (rand.rs) *)

Inductive RandError : Type := RandNsm | RandCrypto (e : string).

(** [copy_from_slice] panics unless the lengths agree. *)
Definition rand_bytes (show_code : N → string) (len : nat) : M W RandError bytes :=
  with_nsm RandNsm (fun fd =>
    let! res := process fd ReqGetRandom in
    match res with
    | ResGetRandom random => if Nat.eqb (length random) len then mret random else mpanic
    | ResError e => mthrow (RandCrypto ("Could not get entropy from the Nitro Secure Module! " +:+ show_code e))
    | _ => mthrow (RandCrypto "Received unknown response from Nitro Secure Module")
    end).
End Attest.

(** ** The crypto API (api.rs) *)

Section Api.
Context {H : HttpLib} {J : Json} {R : Retry} {W : Type} {NS : Nsm W} {A : E3Api W}.
(** [serde_json] and the texts of the errors. *)
Context (value_from_slice : bytes → option Value).

Record AttestationRequest : Type := mkAttestationRequest { ar_nonce : option string; ar_challenge : option string }.

Context (attestation_request : Value → option AttestationRequest).

Inductive CryptoApiError : Type :=
| ApiMissingEnclaveContext
| ApiSerde (e : string)
| ApiHyper
| ApiClient (e : ClientError)
| ApiAttestation (e : AttestationError)
| ApiNotFound
| ApiSerialization
| ApiContext (e : ContextError)
| ApiError (e : string).

Context (display : CryptoApiError → string).

(** A request (its body is [None] when it fails while it is read) and a
    response. *)
Record ApiRequest : Type := mkApiRequest {
  aq_method : string;
  aq_path : string;
  aq_headers : HeaderMap;
  aq_body : option bytes
}.

Record ApiResponse : Type := mkApiResponse {
  ap_status : N;
  ap_content_length : option nat;
  ap_body : bytes
}.

Definition build_response (status : N) (body : string) : ApiResponse :=
  mkApiResponse status (Some (String.length body)) (b body).

(** [impl From<CryptoApiError> for Response] *)
Definition error_response (err : CryptoApiError) : ApiResponse :=
  match err with
  | ApiSerde e => build_response 400 e
  | ApiSerialization => build_response 400 (display err)
  | _ => build_response 500 (display err)
  end.

Definition build_request (req : ApiRequest) : M W CryptoApiError CryptoRequest :=
  let! body_bytes := mlift (ok_or (aq_body req) ApiHyper) in
  let! body := mlift (ok_or (value_from_slice body_bytes) ApiSerialization) in
  mret (mkCryptoRequest body).

Definition to_body (r : CryptoResponse) : M W CryptoApiError bytes :=
  mlift (ok_or (Value_to_vec (cs_data r)) (ApiSerde "to_vec")).

Definition api_encrypt (req : ApiRequest) : M W CryptoApiError bytes :=
  let data_role := v ← hm_get (aq_headers req) "x-evervault-data-role"; hv_to_str v in
  let! request := build_request req in
  let! e3_response := mmap_err ApiClient (encrypt_with_retries 2 request data_role) in
  to_body e3_response.

(** [decrypt_with_retries] at the type of these requests. *)
Definition crypto_decrypt_with_retries (retries : nat) (payload : CryptoRequest) : M W ClientError CryptoResponse :=
  spawn retries (e3_crypto_decrypt payload).

Definition api_decrypt (req : ApiRequest) : M W CryptoApiError bytes :=
  let! request := build_request req in
  let! e3_response := mmap_err ApiClient (crypto_decrypt_with_retries 2 request) in
  to_body e3_response.

Definition api_attestation_doc (req : ApiRequest) : M W CryptoApiError bytes :=
  let! bytes := mlift (ok_or (aq_body req) ApiHyper) in
  let! body := mlift (ok_or (value_from_slice bytes) (ApiSerde "from_slice")) in
  let! ad_request := mlift (ok_or (attestation_request body) (ApiSerde "from_value")) in
  let challenge := b <$> ar_challenge ad_request in
  let nonce := b <$> ar_nonce ad_request in
  mmap_err ApiAttestation (get_attestation_doc challenge nonce).

Definition api (req : ApiRequest) : M W CryptoApiError ApiResponse :=
  let! response := mtry
    (if String.eqb (aq_method req) "POST" then
       if String.eqb (aq_path req) "/encrypt" then api_encrypt req
       else if String.eqb (aq_path req) "/decrypt" then api_decrypt req
       else if String.eqb (aq_path req) "/attestation-doc" then api_attestation_doc req
       else mthrow ApiNotFound
     else mthrow ApiNotFound) in
  match response with
  | Ok body => mret (mkApiResponse 200 None body)
  | Err error => mret (error_response error)
  end.
End Api.

(** ** Properties *)

Section AttestProperties.
Context {W : Type} {NS : Nsm W} {NL : NsmLaws NS}.

Definition same_open (w w' : W) : Prop := nsm_open w' = nsm_open w.

#[local] Instance same_open_po : PreOrder same_open.
Proof. split; [by intros w|]. unfold same_open. intros w w1 w2 Hl Hr. congruence. Qed.

Lemma process_open {E} fd r : keeps same_open (process (E := E) fd r).
Proof.
  intros w res w'. unfold process. pose proof (nsm_request_law fd r w) as Hq.
  destruct (nsm_process_request fd r w). by intros [= _ <-].
Qed.

#[local] Hint Resolve process_open : encl.

(** A scope closes what it opened, however it is left. *)
Lemma with_nsm_open {E A} (e : E) (body : Z → M W E A) :
  (∀ fd, keeps same_open (body fd)) → keeps same_open (with_nsm e body).
Proof.
  intros Hb w r w'. unfold with_nsm, Prelude.mbind, NsmConnection_try_new.
  pose proof (nsm_init_law w) as Hi. destruct (nsm_init w) as [fd w1]. cbn [fst snd] in Hi.
  destruct (fd <? 0)%Z; [by intros [= _ <-]|].
  destruct (body fd w1) as [r1 w2] eqn:Eb. apply Hb in Eb. intros [= _ <-].
  apply nsm_exit_law. by rewrite Eb.
Qed.

Lemma attestation_open challenge nonce : keeps same_open (get_attestation_doc challenge nonce).
Proof. apply with_nsm_open. intros fd. unfold get_nonce. keep_steps. Qed.

Lemma rand_open show len : keeps same_open (rand_bytes show len).
Proof. apply with_nsm_open. intros fd. keep_steps. Qed.

(** Connections to the secure module are never leaked: asking for a
    document or for random bytes closes what it opened on every path, errors
    and panics included. *)
Theorem nsm_connections_closed challenge nonce show len :
  keeps same_open (get_attestation_doc challenge nonce) ∧ keeps same_open (rand_bytes show len).
Proof. split; [apply attestation_open|apply rand_open]. Qed.
End AttestProperties.

Section AttestBinding.
Context {W : Type} {NS : Nsm W}.

(** What a returned document was asked for: the challenge as user data, and
    the nonce of the caller, or random bytes of the module. *)
Lemma attestation_run challenge nonce w doc w' :
  get_attestation_doc challenge nonce w = (Ret doc, w') →
  ∃ fd used x x', nsm_process_request fd (ReqAttestation challenge (Some used) None) x = (ResAttestation doc, x') ∧
    (nonce = Some used ∨ nonce = None ∧ ∃ y y', nsm_process_request fd ReqGetRandom y = (ResGetRandom used, y')).
Proof.
  unfold get_attestation_doc, with_nsm. intros (fd & w1 & _ & Hr)%mbind_inv.
  destruct (Prelude.mbind _ _ w1) as [r w2] eqn:Eb. injection Hr as -> _.
  apply mbind_inv in Eb as (used & w3 & Hn & (res & w4 & Hp & Hr)%mbind_inv).
  unfold process in Hp. destruct (nsm_process_request fd _ w3) as [res0 x] eqn:Ep. simplify_eq.
  destruct res; try done. injection Hr as -> _. exists fd, used, w3, w4. split; [done|].
  unfold get_nonce in Hn. destruct nonce as [n|]; [left; by injection Hn as -> _|right; split; [done|]].
  apply mbind_inv in Hn as (res & w5 & Hp & Hr). unfold process in Hp.
  destruct (nsm_process_request fd ReqGetRandom w1) as [res1 y] eqn:Eq. simplify_eq.
  destruct res; try done. injection Hr as -> _. by exists w1, w5.
Qed.
End AttestBinding.

(** *** What the crypto API answers *)

Section ApiProperties.
Context {H : HttpLib} {J : Json} {R : Retry} {W : Type} {NS : Nsm W} {A : E3Api W}.
Context (value_from_slice : bytes → option Value) (attestation_request : Value → option AttestationRequest).
Context (display : CryptoApiError → string).
#[local] Notation run_api := (api value_from_slice attestation_request display).

Definition posted_to (path : string) (req : ApiRequest) : Prop := aq_method req = "POST" ∧ aq_path req = path.

(** The operation behind a route of E3. *)
Inductive e3_route (req : ApiRequest) : (CryptoRequest → M W ClientError CryptoResponse) → Prop :=
| route_encrypt : posted_to "/encrypt" req →
    e3_route req (fun p => encrypt_with_retries 2 p (v ← hm_get (aq_headers req) "x-evervault-data-role"; hv_to_str v))
| route_decrypt : posted_to "/decrypt" req → e3_route req (crypto_decrypt_with_retries 2).

Definition json_body (req : ApiRequest) (v : Value) : Prop := ∃ text, aq_body req = Some text ∧ value_from_slice text = Some v.

(** A request that is served: the JSON of what E3 answered to the JSON of the
    body, or the document of the secure module for the challenge and the nonce
    in the body. *)
Inductive served (req : ApiRequest) (w : W) : bytes → W → Prop :=
| served_e3 op v e3_response body w' : e3_route req op → json_body req v →
    op (mkCryptoRequest v) w = (Ret e3_response, w') → Value_to_vec (cs_data e3_response) = Some body →
    served req w body w'
| served_document v challenge nonce body w' : posted_to "/attestation-doc" req → json_body req v →
    attestation_request v = Some (mkAttestationRequest nonce challenge) →
    get_attestation_doc (b <$> challenge) (b <$> nonce) w = (Ret body, w') → served req w body w'.

(** A request that is refused: its body is not JSON, or not that of an
    attestation request; or E3's answer is no JSON. *)
Inductive refused (req : ApiRequest) (w : W) : W → Prop :=
| refused_body text : (∃ op, e3_route req op) ∨ posted_to "/attestation-doc" req →
    aq_body req = Some text → value_from_slice text = None → refused req w w
| refused_fields v : posted_to "/attestation-doc" req → json_body req v → attestation_request v = None → refused req w w
| refused_answer op v e3_response w' : e3_route req op → json_body req v →
    op (mkCryptoRequest v) w = (Ret e3_response, w') → Value_to_vec (cs_data e3_response) = None → refused req w w'.

(** A request that fails: to no route, with a body that cannot be read, or E3
    or the secure module fails. *)
Inductive failed (req : ApiRequest) (w : W) : W → Prop :=
| failed_route : (∀ op, ¬ e3_route req op) → ¬ posted_to "/attestation-doc" req → failed req w w
| failed_body : (∃ op, e3_route req op) ∨ posted_to "/attestation-doc" req → aq_body req = None → failed req w w
| failed_e3 op v e w' : e3_route req op → json_body req v → op (mkCryptoRequest v) w = (Throw e, w') → failed req w w'
| failed_document v challenge nonce e w' : posted_to "/attestation-doc" req → json_body req v →
    attestation_request v = Some (mkAttestationRequest nonce challenge) →
    get_attestation_doc (b <$> challenge) (b <$> nonce) w = (Throw e, w') → failed req w w'.

(** An error states the length of its body. *)
Definition states_length (res : ApiResponse) : Prop := ap_content_length res = Some (length (ap_body res)).

(** The secure module's code has no panic. *)
Lemma attestation_no_panic challenge nonce w w' : get_attestation_doc challenge nonce w ≠ (Panic, w').
Proof.
  unfold get_attestation_doc, with_nsm, Prelude.mbind, NsmConnection_try_new, get_nonce, process, mret, mthrow.
  destruct (nsm_init w) as [fd w1]. destruct (fd <? 0)%Z; [done|]. destruct nonce as [n|].
  - destruct (nsm_process_request fd _ w1) as [[] w2]; done.
  - unfold Prelude.mbind. destruct (nsm_process_request fd ReqGetRandom w1) as [[] w2]; try done.
    destruct (nsm_process_request fd _ w2) as [[] w3]; done.
Qed.

(** The outcome of a handler, as the API answers it. *)
Definition outcome (req : ApiRequest) (w : W) (r : exec CryptoApiError bytes) (w' : W) : Prop :=
  match r with
  | Ret body => served req w body w'
  | Throw e => (ap_status (error_response display e) = 400%N ∧ refused req w w') ∨
      (ap_status (error_response display e) = 500%N ∧ failed req w w')
  | Panic => ∃ op v, e3_route req op ∧ json_body req v ∧ op (mkCryptoRequest v) w = (Panic, w')
  end.

Lemma e3_outcome req w op r w' : e3_route req op →
  (let! request := build_request value_from_slice req in
   let! e3_response := mmap_err ApiClient (op request) in
   to_body e3_response) w = (r, w') → outcome req w r w'.
Proof.
  intros Ho. unfold build_request, Prelude.mbind, mmap_err, to_body.
  destruct (aq_body req) as [text|] eqn:Eb; [|intros [= <- <-]; right; split; [done|apply failed_body; [by left; exists op|done]]].
  cbn [ok_or mlift mret]. destruct (value_from_slice text) as [v|] eqn:Ev;
    [|intros [= <- <-]; left; split; [done|by eapply refused_body; [left; exists op| |]]].
  assert (json_body req v) as Hj by by exists text. cbn [ok_or mlift mret].
  destruct (op (mkCryptoRequest v) w) as [[x|e|] w1] eqn:Eo.
  - destruct (Value_to_vec (cs_data x)) as [body|] eqn:Et; intros [= <- <-]; [by eapply served_e3|].
    left. split; [done|by eapply refused_answer].
  - intros [= <- <-]. right. split; [done|by eapply failed_e3].
  - intros [= <- <-]. by exists op, v.
Qed.

Lemma document_outcome req w r w' : posted_to "/attestation-doc" req →
  api_attestation_doc value_from_slice attestation_request req w = (r, w') → outcome req w r w'.
Proof.
  intros Hp. unfold api_attestation_doc, Prelude.mbind, mmap_err.
  destruct (aq_body req) as [text|] eqn:Eb; [|intros [= <- <-]; right; split; [done|apply failed_body; [by right|done]]].
  cbn [ok_or mlift mret]. destruct (value_from_slice text) as [v|] eqn:Ev;
    [|intros [= <- <-]; left; split; [done|by eapply refused_body; [right| |]]].
  assert (json_body req v) as Hj by by exists text. cbn [ok_or mlift mret].
  destruct (attestation_request v) as [[nonce challenge]|] eqn:Ea;
    [|intros [= <- <-]; left; split; [done|by eapply refused_fields]]. cbn [ok_or mlift mret ar_challenge ar_nonce].
  destruct (get_attestation_doc _ _ w) as [[doc|e|] w1] eqn:Ed; [|intros [= <- <-]..|by apply attestation_no_panic in Ed].
  - intros [= <- <-]. by eapply served_document.
  - right. split; [done|by eapply failed_document].
Qed.

(** The handler [api] runs. *)
Definition dispatch (req : ApiRequest) : M W CryptoApiError bytes :=
  if String.eqb (aq_method req) "POST" then
    if String.eqb (aq_path req) "/encrypt" then api_encrypt value_from_slice req
    else if String.eqb (aq_path req) "/decrypt" then api_decrypt value_from_slice req
    else if String.eqb (aq_path req) "/attestation-doc" then api_attestation_doc value_from_slice attestation_request req
    else mthrow ApiNotFound
  else mthrow ApiNotFound.

Lemma dispatch_outcome req w r w' : dispatch req w = (r, w') → outcome req w r w'.
Proof.
  unfold dispatch. destruct (String.eqb_spec (aq_method req) "POST") as [Hm|Hm].
  2: { intros [= <- <-]. right. split; [done|]. apply failed_route; [by intros op [[]|[]]|by intros []]. }
  destruct (String.eqb_spec (aq_path req) "/encrypt"); [by apply e3_outcome, route_encrypt|].
  destruct (String.eqb_spec (aq_path req) "/decrypt"); [by apply e3_outcome, route_decrypt|].
  destruct (String.eqb_spec (aq_path req) "/attestation-doc"); [by apply document_outcome|].
  intros [= <- <-]. right. split; [done|]. apply failed_route; [by intros op [[]|[]]|by intros []].
Qed.

Lemma e3_route_dispatch req w op v : e3_route req op → json_body req v →
  dispatch req w = (let! e3_response := mmap_err ApiClient (op (mkCryptoRequest v)) in to_body e3_response) w.
Proof.
  intros Ho (text & Hb & Hv). unfold dispatch, api_encrypt, api_decrypt, build_request.
  destruct Ho as [[-> ->]|[-> ->]]; cbn; rewrite Hb; cbn [ok_or mlift mret]; unfold Prelude.mbind at 1 2 3, mret at 1;
    by rewrite Hv.
Qed.

(** C40. The crypto API serves its three routes and nothing else: whatever the
    request, a response has status 200 exactly when the request was posted to
    a route and E3, or the secure module, served that very request, and then
    its body is their answer; a body or an answer that is not the JSON it
    should be gives 400, everything else 500 (also a path it does not know),
    both with the exact length of the message. It never ends with an error, and
    it panics only when the client of E3 does. *)
Theorem crypto_api_responses req w :
  (∀ body w', served req w body w' → run_api req w = (Ret (mkApiResponse 200 None body), w')) ∧
  match run_api req w with
  | (Ret res, w') =>
      ap_status res = 200%N ∧ served req w (ap_body res) w' ∨
      ap_status res = 400%N ∧ refused req w w' ∧ states_length res ∨
      ap_status res = 500%N ∧ failed req w w' ∧ states_length res
  | (Throw _, _) => False
  | (Panic, w') => ∃ op v, e3_route req op ∧ json_body req v ∧ op (mkCryptoRequest v) w = (Panic, w')
  end.
Proof.
  assert (run_api req w = (let! response := mtry (dispatch req) in
    match response with Ok body => mret (mkApiResponse 200 None body) | Err error => mret (error_response display error) end) w)
    as -> by done. split.
  - intros body w' Hs. unfold Prelude.mbind, mtry.
    assert (dispatch req w = (Ret body, w')) as ->; [|done].
    destruct Hs as [op v x ? ? Ho Hj Hx Hb|v challenge nonce ? ? [Hm Hp] (text & Hb & Hv) Ha Hd].
    + rewrite (e3_route_dispatch req w op v Ho Hj). unfold Prelude.mbind, mmap_err, to_body. by rewrite Hx, Hb.
    + unfold dispatch, api_attestation_doc. rewrite Hm, Hp. cbn. rewrite Hb. cbn [ok_or mlift]. unfold Prelude.mbind, mret, mmap_err.
      rewrite Hv. cbn [ok_or mlift mret]. unfold mret. rewrite Ha. cbn. by rewrite Hd.
  - unfold Prelude.mbind, mtry. destruct (dispatch req w) as [[body|e|] w'] eqn:Ed; apply dispatch_outcome in Ed; cbn in *.
    + by left.
    + assert (states_length (error_response display e)) as Hl by (unfold states_length; destruct e; cbn; by rewrite length_b).
      destruct Ed as [[Hs Hf]|[Hs Hf]]; [right; left|right; right]; by split_and!.
    + done.
Qed.
End ApiProperties.

(** ** Witnesses *)

(** A module whose world is the list of open descriptors. *)
Definition toy_nsm : Nsm (list Z) := {|
  nsm_init w := (Z.of_nat (length w), Z.of_nat (length w) :: w);
  nsm_exit _ w := tail w;
  nsm_process_request _ r w :=
    (match r with
     | ReqAttestation user_data nonce _ => ResAttestation (default [] user_data ++ default [] nonce)
     | ReqGetRandom => ResGetRandom (b "random")
     end, w)
|}.

Definition toy_nsm_laws : NsmLaws toy_nsm.
Proof.
  refine {| nsm_open w := w |}.
  - intros w. cbn. rewrite (proj2 (Z.ltb_ge _ _)) by lia. done.
  - by intros fd l w ->.
  - done.
Defined.

Definition echo_e3 {W} : E3Api (J := json_ref) W := {|
  e3_decrypt p := mret p;
  e3_crypto_decrypt p := mret (mkCryptoResponse (J := json_ref) (cr_data (J := json_ref) p));
  e3_encrypt p _ := mret (mkCryptoResponse (J := json_ref) (cr_data (J := json_ref) p));
  e3_authenticate _ _ := mret tt
|}.

Lemma nsm_connections_closed_witness :
  (get_attestation_doc (NS := toy_nsm) (Some (b "key")) None []).1 = Ret (b "keyrandom") ∧
  nsm_open (NsmLaws := toy_nsm_laws) (get_attestation_doc (NS := toy_nsm) (Some (b "key")) None []).2 = [].
Proof.
  split; [reflexivity|].
  destruct (nsm_connections_closed (NL := toy_nsm_laws) (Some (b "key")) None (fun _ => "code") 32) as [Ha _].
  exact (Ha [] _ _ (surjective_pairing _)).
Defined.

(** Posted to the route, the body comes back from E3; with another method the
    route does not exist. *)
Example echoed :
  let run method := (api (H := http_ref) (J := json_ref) (NS := toy_nsm) (A := echo_e3)
    (fun i => Some (string_of_list_ascii i)) (fun _ => None) (fun _ => "error")
    (mkApiRequest (H := http_ref) method "/encrypt" [] (Some (b "text"))) []).1 in
  run "POST" = Ret (mkApiResponse 200 None (b "text")) ∧ run "GET" = Ret (mkApiResponse 500 (Some 5) (b "error")).
Proof. by split. Qed.
