(* ===== verification/CertResolver.v ===== *)
(** * Which certificate a handshake is answered with

    data-plane/src/server/tls/cert_resolver.rs and trusted_cert_container.rs:
    certificates that carry an attestation document, generated for a nonce in
    the server name or kept until the document expires, and the trusted
    certificate for the trusted domains. The enclave build is modelled (feature
    [enclave]). OpenSSL, rustls, base64 and the pem crate are parameters; the
    secure module is used through [Nsm], the clock through [Runtime]. *)
From Stdlib Require Import Ascii String NArith ZArith Lia.
From stdpp Require Import base gmap strings list pretty.
From S2P Require Import Prelude Libs Context E3 Jws Config Acme AcmeCert Attest.
#[local] Open Scope string_scope.
#[local] Open Scope list_scope.
#[local] Open Scope enclave_scope.

(** ** Hexadecimal (shared/src/utils.rs) *)

Definition hex_digit (upper : bool) (n : nat) : ascii :=
  if Nat.ltb n 10 then ascii_of_nat (48 + n) else ascii_of_nat ((if upper then 55 else 87) + n).

Fixpoint hex (upper : bool) (l : bytes) : string :=
  match l with
  | [] => ""
  | c :: l' => String (hex_digit upper (code c / 16)) (String (hex_digit upper (code c mod 16)) (hex upper l'))
  end.

(** [impl LowerHex] and [impl UpperHex for HexSlice] *)
Definition LowerHex (l : bytes) : string := hex false l.
Definition UpperHex (l : bytes) : string := hex true l.

(** ** Errors (server/error.rs) *)

Inductive TlsError : Type :=
| TeIo
| TeTls
| TeNoHostnameSpecified
| TeNoCertFound
| TeNoKeyFound
| TeServer
| TeAttestation (e : AttestationError)
| TeOpenssl
| TeSign
| TePem
| TeCertProvisioner (e : string)
| TeContext (e : ContextError)
| TeSystemTime
| TeTryFromInt
| TeEnv.

(** ** Names *)

Definition extract_nonce_from_servername (base64_decode : string → option bytes) (received_servername : string) :
    option bytes :=
  let tokens := split "." received_servername in
  if Nat.ltb 2 (length tokens) then
    match tokens with
    | nonce :: second :: _ => if String.eqb second "attest" then base64_decode nonce else None
    | _ => None
    end
  else None.

Definition is_trusted_cert_domain (received_servername : option string) : bool :=
  match received_servername with
  | Some servername =>
      match rev (split "." servername) !! 2 with
      | Some subdomain => str_mem subdomain ["cage"; "enclave"]
      | None => false
      end
  | None => false
  end.

(** ** Generating *)

(** What is put into a certificate before it is signed. *)
Record CertDraft {Key X509Name : Type} : Type := mkDraft {
  dr_serial : N;
  dr_subject : list (string * string);
  dr_issuer : X509Name;
  dr_key : Key;
  dr_not_before : Z;
  dr_not_after : Z;
  dr_dns : list string
}.
#[global] Arguments CertDraft : clear implicits.

(** OpenSSL's generation of keys and certificates. [subject_ok] is whether
    [append_entry_by_text] takes the entries, [sign_cert] adds the constraints,
    the key usage and the identifiers and signs with the key of the issuer. *)
Class CertGen (W Key : Type) (XL : X509Lib Key) : Type := {
  Name : Type;
  subject_name : X509 → Name;
  subject_ok : list (string * string) → bool;
  generate_key : W → option Key * W;
  sign_csr : list (string * string) → Key → option unit;
  random_serial : W → option N * W;
  sign_cert : CertDraft Key Name → X509 → Key → option X509
}.

Section Resolver.
Context {W Key : Type} {XL : X509Lib Key} {CG : CertGen W Key XL} {RT : Runtime W} {NS : Nsm W}.
Context (base64_decode : string → option bytes).
(** [attest::get_expiry_time] with its libraries, in seconds. *)
Context (get_expiry_time : bytes → M W AttestationError Z).
Context (staging : bool).

Definition openssl {A} (o : W → option A * W) : M W TlsError A := fun w =>
  let '(r, w') := o w in (match r with Some a => Ret a | None => Throw TeOpenssl end, w').

(** The entries of the subject; the common name is at most 64 bytes long. *)
Definition csr_subject (hostnames : list string) : list (string * string) :=
  [("C", "IE"); ("ST", "DUB"); ("O", "Evervault")] ++
  match hostnames with
  | first_hostname :: _ => if Nat.ltb (String.length first_hostname) 65 then [("CN", first_hostname)] else []
  | [] => []
  end.

Definition generate_csr (key_pair : Key) (hostnames : list string) : result TlsError (list (string * string)) :=
  let subject := csr_subject hostnames in
  if subject_ok subject then let? _ := ok_or (sign_csr subject key_pair) TeOpenssl in Ok subject else Err TeOpenssl.

(** [unwrap] on the document: a failing module panics. *)
Definition append_attestation_info (hostnames : list string) (challenge nonce : option bytes) (san_ext : list string) :
    M W TlsError (Z * list string) :=
  let! attestation_doc := mtry (get_attestation_doc challenge nonce) in
  match attestation_doc with
  | Err _ => mpanic
  | Ok attestation_doc =>
      let! expiry := mmap_err TeAttestation (get_expiry_time attestation_doc) in
      let hex_encoded_ad := LowerHex attestation_doc in
      mret (expiry, san_ext ++ ((fun hostname => hex_encoded_ad +:+ "." +:+ hostname) <$> hostnames))
  end.

Definition convert_openssl_cert_chain_to_certified_key (leaf_cert intermediate_cert : X509) (private_key : Key) :
    result TlsError CertifiedKey :=
  let? der_encoded_private_key := ok_or (private_key_to_der private_key) TeOpenssl in
  let? ecdsa_private_key := ok_or (any_ecdsa_type der_encoded_private_key) TeSign in
  let? leaf_pem := ok_or (x509_to_pem leaf_cert) TeOpenssl in
  let? intermediate_pem := ok_or (x509_to_pem intermediate_cert) TeOpenssl in
  let? parsed_pems := ok_or (pem_parse_many (leaf_pem ++ intermediate_pem)) TePem in
  Ok (mkCertifiedKey Key XL parsed_pems ecdsa_private_key).

(** The clock as seconds, ten seconds less: [u64] wraps, and the result must
    fit [i64]. *)
Definition not_before_now : M W TlsError Z :=
  let! t := now in
  let secs := (t / 1000)%Z in
  if (secs <? 0)%Z then mthrow TeSystemTime
  else
    let n := ((secs - 10) mod 2 ^ 64)%Z in
    if (n <? 2 ^ 63)%Z then mret n else mthrow TeTryFromInt.

Definition generate_self_signed_cert (signing_cert : X509) (signing_key : Key) (hostnames : list string)
    (nonce : option bytes) : M W TlsError (Z * CertifiedKey) :=
  match hostnames with
  | [] => mthrow TeNoHostnameSpecified
  | _ =>
      let! key_pair := openssl generate_key in
      let! subject := mlift (generate_csr key_pair hostnames) in
      let! serial_number := openssl random_serial in
      let! not_before := not_before_now in
      let! t := now in
      let not_after := (t / 1000 + 365 * 86400)%Z in
      let san_ext := hostnames in
      let! challenge := mlift (ok_or (public_key_to_der key_pair) TeOpenssl) in
      let! (expiry_time, san_ext) := append_attestation_info hostnames (Some challenge) nonce san_ext in
      let draft := mkDraft _ _ serial_number subject (subject_name signing_cert) key_pair not_before not_after san_ext in
      let! leaf := mlift (ok_or (sign_cert draft signing_cert signing_key) TeOpenssl) in
      let! generated_cert_and_key := mlift (convert_openssl_cert_chain_to_certified_key leaf signing_cert key_pair) in
      mret (expiry_time, generated_cert_and_key)
  end.

(** ** The container of the base certificate

    [RwLock<(SystemTime, Arc<CertifiedKey>)>]: a panic while the write lock is
    held poisons it, and then every use panics. *)
Record CertContainer : Type := mkContainer {
  cc_expiry : Z;
  cc_cert : CertifiedKey;
  cc_poisoned : bool
}.

Definition CertContainer_new (created_at : Z) (cert : CertifiedKey) : CertContainer := mkContainer created_at cert false.

(** The resolver's world: what is outside, the container, and
    [TRUSTED_CERT_STORE] as [try_read] sees it ([None] while it is written). *)
Record ResolverWorld : Type := mkResolverWorld {
  rw_ext : W;
  rw_base : CertContainer;
  rw_trusted : option (option CertifiedKey)
}.

Definition RM : Type → Type := M ResolverWorld TlsError.

Definition outer {A} (m : M W TlsError A) : RM A :=
  zoom rw_ext (fun x w => mkResolverWorld x (rw_base w) (rw_trusted w)) m.

(** [self.inner.read().unwrap()] and [self.inner.write().unwrap()] *)
Definition lock_base : RM CertContainer := fun w =>
  if cc_poisoned (rw_base w) then (Panic, w) else (Ret (rw_base w), w).

Definition set_base (c : CertContainer) : RM unit :=
  mmodify (fun w => mkResolverWorld (rw_ext w) c (rw_trusted w)).

Definition expiry_time : RM Z := let! c := lock_base in mret (cc_expiry c).
Definition base_cert : RM CertifiedKey := let! c := lock_base in mret (cc_cert c).

(** While [create_new_cert] runs the write lock is held. *)
Definition poisoning {A} (m : RM A) : RM A := fun w =>
  match m w with
  | (Panic, w') => (Panic, mkResolverWorld (rw_ext w')
      (mkContainer (cc_expiry (rw_base w')) (cc_cert (rw_base w')) true) (rw_trusted w'))
  | r => r
  end.

Definition rotate_cert (create_new_cert : RM (Z * CertifiedKey)) : RM CertifiedKey :=
  let! write_lock := lock_base in
  let! t := outer now in
  if (t / 1000 <? cc_expiry write_lock)%Z then mret (cc_cert write_lock)
  else
    let! (expiry, new_cert) := poisoning create_new_cert in
    set_base (mkContainer expiry new_cert false) ;!
    mret new_cert.

Definition resolve_cert (create_new_cert : RM (Z * CertifiedKey)) : RM (option CertifiedKey) :=
  let! expiry := expiry_time in
  let! t := outer now in
  if (t / 1000 <? expiry)%Z then let! c := base_cert in mret (Some c)
  else
    let! r := mtry (rotate_cert create_new_cert) in
    match r with
    | Ok cert => mret (Some cert)
    | Err _ => let! c := base_cert in mret (Some c)
    end.

(** ** The resolver *)

Record AttestableCertResolver : Type := mkResolver {
  re_context : EnclaveContext;
  re_internal_ca : X509;
  re_internal_pk : Key
}.

(** The resolver and its container, from the cell of the context. *)
Definition AttestableCertResolver_new (context : option EnclaveContext) (internal_ca : X509) (internal_pk : Key) :
    M W TlsError (AttestableCertResolver * CertContainer) :=
  let! enclave_context := mlift (map_err TeContext (EnclaveContext_get context)) in
  let hostnames := get_cert_names staging enclave_context in
  let! (created_at, cert_and_key) := generate_self_signed_cert internal_ca internal_pk hostnames None in
  mret (mkResolver enclave_context internal_ca internal_pk, CertContainer_new created_at cert_and_key).

Definition base_generator (self : AttestableCertResolver) : RM (Z * CertifiedKey) :=
  outer (generate_self_signed_cert (re_internal_ca self) (re_internal_pk self)
    (get_cert_names staging (re_context self)) None).

Definition resolve_cert_using_sni (self : AttestableCertResolver) (server_name : option string) :
    RM (option CertifiedKey) :=
  let sni_header := default (get_cert_name staging (re_context self)) server_name in
  let maybe_decoded_nonce := s ← server_name; extract_nonce_from_servername base64_decode s in
  match maybe_decoded_nonce with
  | Some nonce =>
      let! r := mtry (outer (generate_self_signed_cert (re_internal_ca self) (re_internal_pk self) [sni_header]
        (Some nonce))) in
      mret (snd <$> ok r)
  | None =>
      if is_trusted_cert_domain server_name then
        let! w := mget in
        match rw_trusted w with
        | Some (Some cert) => mret (Some cert)
        | _ => resolve_cert (base_generator self)
        end
      else resolve_cert (base_generator self)
  end.
End Resolver.

(** ** Hexadecimal texts determine the bytes *)

Lemma hex_length upper l : String.length (hex upper l) = (2 * length l)%nat.
Proof. induction l as [|c l IH]; [done|]. cbn [hex String.length length]. rewrite IH. lia. Qed.

Lemma hex_digit_inj m n : (m < 16)%nat → (n < 16)%nat → hex_digit false m = hex_digit false n → m = n.
Proof.
  intros Hm Hn. do 16 (destruct m as [|m]; [do 16 (destruct n as [|n]; [done|]); lia|]). lia.
Qed.

Lemma hex_cons upper c l : hex upper (c :: l) =
  String (hex_digit upper (code c / 16)) (String (hex_digit upper (code c mod 16)) (hex upper l)).
Proof. done. Qed.

Lemma string_cons2_inj a a2 s c c2 t : String a (String a2 s) = String c (String c2 t) → a = c ∧ a2 = c2 ∧ s = t.
Proof. by intros [= -> -> ->]. Qed.

Lemma LowerHex_inj l l' : LowerHex l = LowerHex l' → l = l'.
Proof.
  unfold LowerHex. revert l'. induction l as [|c l IH]; intros [|d l']; [done|done|done|].
  rewrite !hex_cons. intros (H1 & H2 & Hl)%string_cons2_inj. f_equal; [|by apply IH].
  assert (∀ a, (code a < 256)%nat) as Hb by (intros a; unfold code; apply nat_ascii_bounded).
  apply hex_digit_inj in H1; [|apply Nat.Div0.div_lt_upper_bound; apply Hb..].
  apply hex_digit_inj in H2; [|by apply Nat.mod_upper_bound..].
  rewrite <-(ascii_nat_embedding c), <-(ascii_nat_embedding d). f_equal. fold (code c) (code d).
  pose proof (Nat.div_mod_eq (code c) 16). pose proof (Nat.div_mod_eq (code d) 16). lia.
Qed.

(** ** Properties *)

Section ResolverProperties.
Context {W Key : Type} {XL : X509Lib Key} {CG : CertGen W Key XL} {RT : Runtime W} {NS : Nsm W}.
Context (base64_decode : string → option bytes) (get_expiry_time : bytes → M W AttestationError Z).
Context (staging : bool).

#[local] Notation generate := (generate_self_signed_cert get_expiry_time).
#[local] Notation resolve := (resolve_cert_using_sni base64_decode get_expiry_time staging).
#[local] Notation World := (ResolverWorld (W := W) (Key := Key)).

(** What a generated certificate attests: [doc] was issued by the module for
    the public key of the certificate and for a nonce, and names every host. *)
Definition attests (ca : X509) (pk : Key) (hosts : list string) (nonce : option bytes) (c : CertifiedKey) : Prop :=
  ∃ key der doc fd used x x' draft leaf,
    public_key_to_der key = Some der ∧
    nsm_process_request fd (ReqAttestation (Some der) (Some used) None) x = (ResAttestation doc, x') ∧
    (nonce = Some used ∨ nonce = None ∧ ∃ y y', nsm_process_request fd ReqGetRandom y = (ResGetRandom used, y')) ∧
    dr_key draft = key ∧ dr_dns draft = hosts ++ ((fun h => LowerHex doc +:+ "." +:+ h) <$> hosts) ∧
    sign_cert draft ca pk = Some leaf ∧ convert_openssl_cert_chain_to_certified_key leaf ca key = Ok c.

Lemma append_run hosts challenge nonce sans w e sans' w' :
  append_attestation_info get_expiry_time hosts challenge nonce sans w = (Ret (e, sans'), w') →
  ∃ doc w1 w2, get_attestation_doc challenge nonce w1 = (Ret doc, w2) ∧
    sans' = sans ++ ((fun h => LowerHex doc +:+ "." +:+ h) <$> hosts).
Proof.
  unfold append_attestation_info. intros (r & w1 & Hm & Hr)%mbind_inv. unfold mtry in Hm.
  destruct (get_attestation_doc challenge nonce w) as [[doc|er|] w2] eqn:Ed; simplify_eq.
  apply mbind_inv in Hr as (e0 & w3 & _ & Hr). unfold mret in Hr. simplify_eq. by exists doc, w, w1.
Qed.

Lemma generate_run ca pk hosts nonce w e c w' : generate ca pk hosts nonce w = (Ret (e, c), w') →
  attests ca pk hosts nonce c.
Proof.
  unfold generate_self_signed_cert. destruct hosts as [|h hosts]; [done|].
  intros (key & w1 & _ & (subject & w2 & _ & (serial & w3 & _ & (nb & w4 & _ & Hr)%mbind_inv)%mbind_inv)%mbind_inv)%mbind_inv.
  apply mbind_inv in Hr as (t & w5 & _ & (der & w6 & [Hder%ok_or_ok ->]%mlift_ok & Hr)%mbind_inv).
  apply mbind_inv in Hr as ([e1 sans] & w7 & (doc & y & y' & Hdoc & Hs)%append_run & Hr).
  apply mbind_inv in Hr as (leaf & w8 & [Hleaf%ok_or_ok ->]%mlift_ok & Hr).
  apply mbind_inv in Hr as (c' & w9 & [Hc ->]%mlift_ok & Hr). unfold mret in Hr. simplify_eq.
  apply attestation_run in Hdoc as (fd & used & x & x' & Hp & Hn).
  match type of Hleaf with sign_cert ?draft _ _ = _ => exists key, der, doc, fd, used, x, x', draft, leaf end.
  by split_and!.
Qed.

Lemma outer_inv {A} (m : M W TlsError A) (w w' : World) r : outer m w = (r, w') →
  m (rw_ext w) = (r, rw_ext w') ∧ rw_base w' = rw_base w ∧ rw_trusted w' = rw_trusted w.
Proof. by intros (x & Hm & ->)%zoom_inv. Qed.

(** A handshake with a nonce is answered with an attested certificate: when
    the server name carries a nonce and a certificate is returned, it was made
    for exactly that server name, and the document embedded in its names was
    issued by the secure module for the public key of that very certificate
    and for that very nonce; the document can be read back from the name, and
    the base certificate is left alone. *)
Theorem nonce_certificate_is_attested self sni nonce (w w' : World) c :
  extract_nonce_from_servername base64_decode sni = Some nonce →
  resolve self (Some sni) w = (Ret (Some c), w') →
  rw_base w' = rw_base w ∧ attests (re_internal_ca self) (re_internal_pk self) [sni] (Some nonce) c ∧
  ∀ doc doc', LowerHex doc +:+ "." +:+ sni = LowerHex doc' +:+ "." +:+ sni → doc = doc'.
Proof.
  intros Hn. unfold resolve_cert_using_sni. cbn [base.mbind option_bind]. rewrite Hn.
  intros (r & w1 & Hm & Hr)%mbind_inv. unfold mret in Hr. unfold mtry in Hm.
  destruct (outer _ w) as [[[e c']|er|] w2] eqn:Eo; simplify_eq. cbn in H. simplify_eq.
  apply outer_inv in Eo as (Eo & Hb & _). split; [done|]. split; [by eapply generate_run|].
  intros doc doc' He. apply LowerHex_inj. revert He. generalize (LowerHex doc) (LowerHex doc'). clear.
  intros s t He. assert (String.length s = String.length t) as Hl.
  { apply (f_equal String.length) in He. rewrite !str_length_app in He. cbn in He. lia. }
  revert t He Hl. induction s as [|a s IH]; intros [|b t]; cbn; [done|done|done|].
  intros [= -> He] [= Hl]. f_equal. by apply IH.
Qed.

(** *** Names *)

Lemma split_dot s t : split "." (s +:+ String "." t) = split "." s ++ split "." t.
Proof.
  induction s as [|a s IH]; [done|]. cbn [split String.append]. destruct (Ascii.eqb a "."); [by rewrite IH|].
  rewrite IH. pose proof (split_not_nil "." s). by destruct (split "." s).
Qed.

(** The label before the last two decides. *)
Lemma third_label s l1 l2 l3 : no_char "." l1 = true → no_char "." l2 = true → no_char "." l3 = true →
  rev (split "." (s +:+ String "." (l1 +:+ String "." (l2 +:+ String "." l3)))) !! 2 = Some l1.
Proof.
  intros H1 H2 H3. rewrite !split_dot, (split_no_char _ l1), (split_no_char _ l2), (split_no_char _ l3) by done.
  cbn [app]. by rewrite !rev_app_distr.
Qed.

Lemma own_third name app l t : no_char "." l = true → no_char "." t = true →
  rev (split "." (name +:+ String "." (app +:+ String "." (l +:+ String "." ("evervault" +:+ String "." t))))) !! 2
  = Some l.
Proof.
  intros Hl Ht. pose proof (third_label (name +:+ String "." app) l "evervault" t Hl eq_refl Ht) as Hq.
  rewrite <-str_app_assoc in Hq. exact Hq.
Qed.

Lemma is_trusted_third s l : rev (split "." s) !! 2 = Some l →
  is_trusted_cert_domain (Some s) = str_mem l ["cage"; "enclave"].
Proof. intros Hq. unfold is_trusted_cert_domain. by rewrite Hq. Qed.

Lemma tld_plain : no_char "." (tld staging) = true.
Proof. by destruct staging. Qed.

Definition plain_name (c : EnclaveContext) : Prop :=
  no_char "." (Context.name c) = true ∧ no_char "." (hyphenated_app_uuid c) = true ∧
  no_char "." (Context.app_uuid c) = true ∧ hyphenated_app_uuid c ≠ "attest" ∧ Context.app_uuid c ≠ "attest".

Lemma no_nonce name app rest : no_char "." name = true → no_char "." app = true → app ≠ "attest" →
  extract_nonce_from_servername base64_decode (name +:+ String "." (app +:+ String "." rest)) = None.
Proof.
  intros Hn Ha Hne. unfold extract_nonce_from_servername. rewrite !split_app by done. cbn [length].
  destruct (Nat.ltb _ _); [|done]. by rewrite (proj2 (String.eqb_neq _ _) Hne).
Qed.

(** The enclave's own names are told apart: its trusted domains get the
    trusted certificate as long as there is one, with nothing generated, and
    its other names always get the base certificate, whatever the trusted
    store holds. *)
Theorem own_names_resolved self d (w : World) :
  plain_name (re_context self) →
  (d ∈ get_trusted_cert_domains staging (re_context self) → ∀ cert, rw_trusted w = Some (Some cert) →
    resolve self (Some d) w = (Ret (Some cert), w)) ∧
  (d ∈ get_cert_names staging (re_context self) →
    resolve self (Some d) w = resolve_cert (base_generator get_expiry_time staging self) w).
Proof.
  intros (Hn & Hh & Ha & Hne & Hne'). set (c := re_context self) in *. split.
  - intros Hd cert Ht. assert (extract_nonce_from_servername base64_decode d = None ∧
      is_trusted_cert_domain (Some d) = true) as [H1 H2].
    { unfold get_trusted_cert_domains in Hd. cbn [fmap list_fmap] in Hd. rewrite !elem_of_cons, elem_of_nil in Hd.
      destruct Hd as [->|[->|[]]]; (split; [by apply no_nonce|]).
      - rewrite (is_trusted_third _ "cage"); [done|]. apply (own_third _ _ "cage" (tld staging)); [done|apply tld_plain].
      - rewrite (is_trusted_third _ "enclave"); [done|].
        apply (own_third _ _ "enclave" (tld staging)); [done|apply tld_plain]. }
    unfold resolve_cert_using_sni. cbn [base.mbind option_bind]. rewrite H1, H2. unfold Prelude.mbind, mget. by rewrite Ht.
  - intros Hd. assert (extract_nonce_from_servername base64_decode d = None ∧
      is_trusted_cert_domain (Some d) = false) as [H1 H2].
    { unfold get_cert_names, get_cert_name, get_hyphenated_cert_name in Hd. rewrite !elem_of_cons, elem_of_nil in Hd.
      destruct Hd as [->|[->|[]]]; (split; [by apply no_nonce|]); rewrite (is_trusted_third _ "cages"); try done;
        (apply (own_third _ _ "cages" (tld staging)); [done|apply tld_plain]). }
    unfold resolve_cert_using_sni. cbn [base.mbind option_bind]. by rewrite H1, H2.
Qed.
(** *** The base certificate *)

Lemma lock_inv (w w' : World) r : lock_base w = (r, w') → w' = w ∧
  (cc_poisoned (rw_base w) = false ∧ r = Ret (rw_base w) ∨ cc_poisoned (rw_base w) = true ∧ r = Panic).
Proof. unfold lock_base. destruct (cc_poisoned (rw_base w)); intros [= <- <-]; auto. Qed.

Lemma now_inv (w w' : World) t : outer now w = (Ret t, w') →
  rw_base w' = rw_base w ∧ ∃ x, t = (rt_now x).1.
Proof.
  intros (Hn & Hb & _)%outer_inv. split; [done|]. exists (rw_ext w). unfold now in Hn.
  destruct (rt_now (rw_ext w)). by injection Hn as -> _.
Qed.

(** A reading of the clock at which the certificate was still good. *)
Definition fresh_then (c : CertContainer (Key := Key)) : Prop := ∃ x, ((rt_now x).1 / 1000 < cc_expiry c)%Z.

Lemma rotate_run g (w w' : World) c : rotate_cert (outer g) w = (Ret c, w') →
  cc_poisoned (rw_base w') = false ∧ cc_cert (rw_base w') = c ∧
  (rw_base w' = rw_base w ∧ fresh_then (rw_base w) ∨
   ∃ x x', g x = (Ret (cc_expiry (rw_base w'), c), x')).
Proof.
  unfold rotate_cert. intros (l & w1 & (-> & [[Hp [= ->]]|[_ ?]])%lock_inv & Hr)%mbind_inv; [|done].
  apply mbind_inv in Hr as (t & w2 & (Hb & x & ->)%now_inv & Hr).
  destruct (Z.ltb_spec ((rt_now x).1 / 1000) (cc_expiry (rw_base w))).
  - injection Hr as <- <-. rewrite Hb. split_and!; [done..|]. left. split; [done|]. by exists x.
  - apply mbind_inv in Hr as ([e c'] & w3 & Hg & ([] & w4 & Hs & Hr)%mbind_inv).
    unfold poisoning in Hg. destruct (outer g w2) as [[p|er|] w5] eqn:Eg; simplify_eq.
    apply outer_inv in Eg as (Eg & _). injection Hs as <-. injection Hr as <- <-. cbn. split_and!; [done..|].
    right. by exists (rw_ext w2), (rw_ext w3).
Qed.

Lemma rotate_throw g (w w' : World) e : rotate_cert (outer g) w = (Throw e, w') →
  rw_base w' = rw_base w ∧ cc_poisoned (rw_base w) = false ∧ ∃ x x', g x = (Throw e, x').
Proof.
  unfold rotate_cert. intros (r & w1 & (-> & [[Hp ->]|[_ ->]])%lock_inv & Hr)%mbind_cases; [|by destruct Hr].
  apply mbind_cases in Hr as (r & w2 & Hn & Hr). destruct r as [t|er|]; cycle 1.
  { apply outer_inv in Hn as (Hn & _). unfold now in Hn. by destruct (rt_now (rw_ext w)). }
  { by destruct Hr. }
  apply now_inv in Hn as (Hb & x & ->). destruct (_ <? _)%Z; [done|].
  apply mbind_cases in Hr as (r & w3 & Hg & Hr). unfold poisoning in Hg.
  destruct (outer g w2) as [r0 w4] eqn:Eg. apply outer_inv in Eg as (Eg & Hb4 & _).
  destruct r0 as [p|er|]; simplify_eq; [| |by destruct Hr].
  - destruct p as [e' c']. apply mbind_cases in Hr as (r & w5 & Hs & Hr). by injection Hs as <- <-.
  - destruct Hr as [[= ->] ->]. split_and!; [congruence|done|]. by exists (rw_ext w2), (rw_ext w3).
Qed.

(** An expired base certificate is served only when a new one cannot be
    made: a certificate is always returned unless the resolver panics; it is
    the one in the container, and either a reading of the clock found it
    unexpired, or it was generated just now, or generating a new one failed
    and the container is as before. *)
Theorem base_certificate_served g (w w' : World) o :
  resolve_cert (outer g) w = (Ret o, w') →
  cc_poisoned (rw_base w') = false ∧ o = Some (cc_cert (rw_base w')) ∧
  (rw_base w' = rw_base w ∧ fresh_then (rw_base w) ∨
   (∃ x x', g x = (Ret (cc_expiry (rw_base w'), cc_cert (rw_base w')), x')) ∨
   rw_base w' = rw_base w ∧ ∃ x e x', g x = (Throw e, x')).
Proof.
  unfold resolve_cert, expiry_time, base_cert.
  intros (e & w1 & (l & w2 & (-> & [[Hp [= ->]]|[_ ?]])%lock_inv & Hq)%mbind_inv & Hr)%mbind_inv; [|done].
  unfold mret in Hq. simplify_eq. apply mbind_inv in Hr as (t & w2 & (Hb & x & ->)%now_inv & Hr).
  destruct (Z.ltb_spec ((rt_now x).1 / 1000) (cc_expiry (rw_base w1))).
  - apply mbind_inv in Hr as (c & w3 & (l & w4 & (-> & [[_ [= ->]]|[_ ?]])%lock_inv & Hq)%mbind_inv & Hr); [|done].
    injection Hq as <- <-. injection Hr as <- <-. rewrite Hb. split_and!; [done..|]. left. split; [done|]. by exists x.
  - apply mbind_inv in Hr as (r & w3 & Hm & Hr). unfold mtry in Hm.
    destruct (rotate_cert (outer g) w2) as [[c|er|] w4] eqn:Er; simplify_eq.
    + apply rotate_run in Er as (Hp' & Hc & Hcase). injection Hr as <- <-. split_and!; [done|by rewrite Hc|].
      rewrite Hb in Hcase. destruct Hcase as [Hf|(y & y' & Hg)]; [by left|right; left]. exists y, y'. by rewrite Hc.
    + apply rotate_throw in Er as (Hb3 & Hp2 & y & y' & Hg).
      apply mbind_inv in Hr as (c & w5 & (l & w6 & (-> & [[_ [= ->]]|[_ ?]])%lock_inv & Hq)%mbind_inv & Hr); [|done].
      injection Hq as <- <-. injection Hr as <- <-. rewrite Hb3, Hb. split_and!; [done..|]. right. right.
      split; [done|]. by exists y, er, y'.
Qed.

Lemma rotate_panics g (w : World) : cc_poisoned (rw_base w) = false →
  (∀ x, cc_expiry (rw_base w) ≤ (rt_now x).1 / 1000)%Z → (∀ x, (g x).1 = Panic) →
  ∃ w', rotate_cert (outer g) w = (Panic, w') ∧ cc_poisoned (rw_base w') = true.
Proof.
  intros Hp He Hg. unfold rotate_cert. unfold lock_base at 1, Prelude.mbind at 1. rewrite Hp.
  unfold Prelude.mbind at 1, outer at 1, zoom at 1, now at 1.
  pose proof (He (rw_ext w)) as He1. destruct (rt_now (rw_ext w)) as [t1 x1]. cbn [fst] in He1.
  rewrite (proj2 (Z.ltb_ge _ _) He1). unfold Prelude.mbind at 1, poisoning, outer, zoom. cbn [rw_ext].
  specialize (Hg x1). destruct (g x1) as [r x2]. cbn [fst] in Hg. subst r. by eexists.
Qed.

(** One failure of the secure module at the wrong moment ends the service:
    if generating the new certificate panics (the document is unwrapped) when
    the base certificate has expired, the handshake panics and the lock of the
    container stays poisoned; and once it is poisoned every handshake for a
    name without a nonce panics, until the process is restarted, except for a
    trusted domain while there is a trusted certificate. *)
Theorem module_failure_poisons_resolver self sni (w : World) :
  is_trusted_cert_domain sni = false → (s ← sni; extract_nonce_from_servername base64_decode s) = None →
  cc_poisoned (rw_base w) = false → (∀ x, cc_expiry (rw_base w) ≤ (rt_now x).1 / 1000)%Z →
  (∀ x, (generate (re_internal_ca self) (re_internal_pk self) (get_cert_names staging (re_context self)) None x).1
     = Panic) →
  (∃ w', resolve self sni w = (Panic, w') ∧ cc_poisoned (rw_base w') = true) ∧
  ∀ w2 : World, cc_poisoned (rw_base w2) = true → resolve self sni w2 = (Panic, w2).
Proof.
  intros Ht Hn Hp He Hg. unfold resolve_cert_using_sni. rewrite Hn, Ht. split.
  - unfold resolve_cert, expiry_time. unfold lock_base at 1, Prelude.mbind at 1 2. rewrite Hp.
    unfold Prelude.mbind at 1, mret at 1, outer at 1, zoom at 1, now at 1.
    pose proof (He (rw_ext w)) as He1. destruct (rt_now (rw_ext w)) as [t1 x1]. cbn [fst] in He1.
    rewrite (proj2 (Z.ltb_ge _ _) He1). unfold Prelude.mbind at 1, mtry at 1.
    match goal with |- context [rotate_cert _ ?w1] => destruct (rotate_panics
      (generate (re_internal_ca self) (re_internal_pk self) (get_cert_names staging (re_context self)) None) w1)
      as (w' & Hr & Hp'); [done|exact He|exact Hg|] end.
    unfold base_generator. rewrite Hr. by exists w'.
  - intros w2 Hp2. unfold resolve_cert, expiry_time, lock_base, Prelude.mbind. by rewrite Hp2.
Qed.
End ResolverProperties.
