(* ===== verification/TlsServer.v ===== *)
(** * Starting the TLS server

    data-plane/src/server/tls/tls_server.rs and inter_ca_retreiver.rs, the
    client of the certificate provisioner
    (data-plane/src/cert_provisioner_client), and the start of an enclave
    without TLS termination (data-plane/src/env/mod.rs): the intermediate CA,
    the context and the secrets come from the provisioner, the trusted
    certificate from ACME, then the user process is told to start and the
    resolver is set up. *)
From Stdlib Require Import Ascii String NArith ZArith Lia.
From stdpp Require Import base gmap strings list pretty.
From S2P Require Import Prelude Libs Context Logging E3 Jws Config Acme AcmeClient AcmeOrder AcmeCert.
From S2P Require Import Host Attest CertResolver.
#[local] Open Scope string_scope.
#[local] Open Scope list_scope.
#[local] Open Scope enclave_scope.

(** ** The client of the provisioner *)

Definition ENCLAVE_CERT_PORT : N := 7775.

(** [configuration::get_cert_provisioner_host] in the enclave. *)
Definition get_cert_provisioner_host : string := "provisioner.cages.internal".

Definition CertProvisionerClient_uri (path : string) : string :=
  "https://" +:+ get_cert_provisioner_host +:+ ":" +:+ pretty ENCLAVE_CERT_PORT +:+ path.

(** The certificate the peer presents is not looked at. *)
Definition verify_server_cert {Certificate : Type} (end_entity : Certificate) (intermediates : list Certificate)
    (server_name : string) : bool := String.eqb get_cert_provisioner_host server_name.

Record GetCertRequest : Type := mkGetCertRequest { gc_attestation_doc : string }.

Record GetCertResponse : Type := mkGetCertResponse {
  gc_intermediate_cert : string;
  gc_key_pair : string;
  gc_secrets : option (list Secret);
  gc_context : ProvisionerContext
}.

Record GetSecretsResponse : Type := mkGetSecretsResponse {
  gs_secrets : list Secret;
  gs_context : ProvisionerContext
}.

Section Provisioner.
Context {H : HttpLib} {W : Type} {NS : Nsm W}.
Context (get_conn : M W ClientError unit) (send_request : Outgoing → M W ClientError (N * bytes)).
Context (CLIENT_VERSION CLIENT_MAJOR_VERSION : string).
Context (base64_encode : bytes → string) (attestation_text : AttestationError → string).
Context (request_json : GetCertRequest → option bytes) (cert_response_json : bytes → option GetCertResponse)
  (secrets_response_json : bytes → option GetSecretsResponse).

Definition prov_attestation_doc (token : string) : M W ClientError string :=
  let token_bytes := b token in
  let! attestation_doc := mmap_err (fun err => General (attestation_text err))
    (get_attestation_doc (Some token_bytes) None) in
  mret (base64_encode attestation_doc).

(** [get_cert] and [get_secrets]: the same request to two paths. *)
Definition prov_request {T} (path : string) (parse : bytes → option T) (token : string) : M W ClientError T :=
  let! attestation_doc := prov_attestation_doc token in
  let! body := mlift (ok_or (request_json (mkGetCertRequest attestation_doc)) (General "into_body")) in
  let! response := E3.send get_conn send_request CLIENT_VERSION CLIENT_MAJOR_VERSION None "POST"
    (CertProvisionerClient_uri path) body None in
  mlift (ok_or (parse response) (SerdeError "parse_response")).

Definition get_cert (token : string) : M W ClientError GetCertResponse := prov_request "/cert" cert_response_json token.
Definition get_secrets (token : string) : M W ClientError GetSecretsResponse :=
  prov_request "/secrets" secrets_response_json token.
End Provisioner.

(** ** The process that starts *)

(** Errors (error.rs) of the start, and the exit of the process. *)
Inductive DpError : Type :=
| ErConfig (e : ConfigError)
| ErCertServer (e : string)
| ErClient (e : ClientError)
| ErEnv (e : EnvError)
| ErCrypto
| ErTls (e : TlsError)
| ErExit (code : Z).

Section Start.
Context {H : HttpLib} {W Key : Type} {AJ : AcmeJson} {OJ : OrderJson} {CL : CsrLib Key} {XL : X509Lib Key}.
Context {CI : AcmeClientInterface AcmeClient W (DpAcmeError (CE := ConfigError))} {SG : SigningClient W ConfigError}
  {SC : StorageConfigClient W ConfigError} {RT : Runtime W} {J : Json} {A : E3Api W} {NS : Nsm W} {CG : CertGen W Key XL}.
(** The configuration client's and the provisioner client's requests. *)
Context (get_cert_token : M W ConfigError GetCertTokenResponse) (get_cert : string → M W ClientError GetCertResponse)
  (get_secrets : string → M W ClientError GetSecretsResponse) (client_text : ClientError → string).
(** The trusted certificate ([acme::get_trusted_cert]) from the cell of the
    context. *)
Context (get_trusted_cert : option EnclaveContext →
  M (CertWorld (W := W) (Key := Key)) (DpAcmeError (CE := ConfigError)) (bytes * CertifiedKey)).
Context (secrets_to_value : list Secret → Value) (value_to_secrets : Value → option (list Secret)).
(** Base64, OpenSSL's PEM parsers, the jitter and the sleep of the backoff in
    milliseconds. *)
Context (base64_decode : string → option bytes) (x509_from_pem : bytes → option X509)
  (key_from_pem : bytes → option Key).
Context (backoff_jitter : W → Z * W) (thread_sleep : Z → W → W).
Context (get_expiry_time : bytes → M W AttestationError Z) (staging : bool).

(** The ACME world, the environment file, and the cells [ENCLAVE_CONTEXT] and
    [TRUSTED_PUB_CERT]. *)
Record StartWorld : Type := mkStart {
  sw_cert : CertWorld (W := W) (Key := Key);
  sw_file : option string;
  sw_writable : bool;
  sw_context : option EnclaveContext;
  sw_pub_cert : option bytes
}.

Definition sw_ext (w : StartWorld) : W := aw_ext (cw_acme (sw_cert w)).

Definition set_ext (x : W) (w : StartWorld) : StartWorld :=
  let c := sw_cert w in
  mkStart (mkCertWorld (mkAcmeWorld x (aw_nonces (cw_acme c))) (cw_trusted c) (cw_tasks c) (cw_orders c))
    (sw_file w) (sw_writable w) (sw_context w) (sw_pub_cert w).

Definition SM : Type → Type := M StartWorld DpError.

Definition on_ext {E B} (f : E → DpError) (m : M W E B) : SM B := zoom sw_ext set_ext (mmap_err f m).

(** The environment file beside what is outside. *)
Definition on_env {B} (m : M (EnvWorld (EW := W)) EnvError B) : SM B :=
  zoom (fun w => mkEnv (sw_file w) (sw_writable w) (sw_ext w))
    (fun e w => let w := set_ext (env_e3 e) w in
       mkStart (sw_cert w) (env_file e) (env_writable e) (sw_context w) (sw_pub_cert w))
    (mmap_err ErEnv m).

Definition set_context (ctx : EnclaveContext) : SM unit :=
  mmodify (fun w => mkStart (sw_cert w) (sw_file w) (sw_writable w) (EnclaveContext_set ctx (sw_context w)) (sw_pub_cert w)).

Definition parse_cert (raw_cert : string) : result DpError X509 :=
  let? decoded_cert := ok_or (base64_decode raw_cert) ErCrypto in
  ok_or (x509_from_pem decoded_cert) ErCrypto.

Definition parse_key (raw_key : string) : result DpError Key :=
  let? decoded_key := ok_or (base64_decode raw_key) ErCrypto in
  ok_or (key_from_pem decoded_key) ErCrypto.

(** [unwrap] on the secrets: a response without them panics. *)
Definition get_intermediate_ca : SM (X509 * Key) :=
  let! token := on_ext ErConfig get_cert_token in
  let! cert_response := on_ext (fun err => ErCertServer (client_text err)) (get_cert (ct_token token)) in
  set_context (EnclaveContext_from (gc_context cert_response)) ;!
  match gc_secrets cert_response with
  | None => mpanic
  | Some secrets =>
      on_env (Environment_init secrets_to_value value_to_secrets secrets) ;!
      let! inter_ca_cert := mlift (parse_cert (gc_intermediate_cert cert_response)) in
      let! inter_ca_key_pair := mlift (parse_key (gc_key_pair cert_response)) in
      mret (inter_ca_cert, inter_ca_key_pair)
  end.

(** [(2 ^ attempts) * 100 + jitter]: [^] is exclusive or. *)
Definition backoff_ms (attempts jitter : Z) : Z := (Z.lxor 2 attempts * 100 + jitter)%Z.

Definition ca_sleep (attempts : Z) : SM unit := fun w =>
  if (attempts <? 7)%Z then
    let '(jitter, x) := backoff_jitter (sw_ext w) in
    (Ret tt, set_ext (thread_sleep (backoff_ms attempts jitter) x) w)
  else (Ret tt, set_ext (thread_sleep 20000 (sw_ext w)) w).

(** [loop]: [fuel] is the number of attempts that are watched, [None] that the
    loop is still going after them. *)
Fixpoint get_ca_with_retry (fuel : nat) (attempts : Z) : SM (option (X509 * Key)) :=
  match fuel with
  | O => mret None
  | S n =>
      let! r := mtry get_intermediate_ca in
      match r with
      | Ok ca => mret (Some ca)
      | Err _ => ca_sleep attempts ;! get_ca_with_retry n (if (attempts <? 7)%Z then attempts + 1 else attempts)%Z
      end
  end.

(** The process exits when there is no trusted certificate. *)
Definition enclave_trusted_cert : SM CertifiedKey := fun w =>
  match get_trusted_cert (sw_context w) (sw_cert w) with
  | (Ret (pub_key, trusted_cert), c) =>
      (Ret trusted_cert, mkStart c (sw_file w) (sw_writable w) (sw_context w)
         (Some (default pub_key (sw_pub_cert w))))
  | (Throw _, c) => (Throw (ErExit 1), mkStart c (sw_file w) (sw_writable w) (sw_context w) (sw_pub_cert w))
  | (Panic, c) => (Panic, mkStart c (sw_file w) (sw_writable w) (sw_context w) (sw_pub_cert w))
  end.

(** What the TLS acceptor is built from. *)
Record TlsConfig : Type := mkTlsConfig {
  tc_resolver : AttestableCertResolver (Key := Key);
  tc_base : CertContainer (Key := Key);
  tc_alpn : list string
}.

(** After the intermediate CA has been obtained. *)
Definition with_ca (ca_cert : X509) (ca_private_key : Key) : SM TlsConfig :=
  enclave_trusted_cert ;!
  on_env write_startup_complete_env_vars ;!
  let! w := mget in
  let! (resolver, base) := on_ext ErTls (AttestableCertResolver_new get_expiry_time staging (sw_context w) ca_cert
    ca_private_key) in
  mret (mkTlsConfig resolver base ["http/1.1"; "h2"]).

Definition with_attestable_cert (fuel : nat) : SM (option TlsConfig) :=
  let! ca := get_ca_with_retry fuel 0 in
  match ca with
  | Some (ca_cert, ca_private_key) => let! c := with_ca ca_cert ca_private_key in mret (Some c)
  | None => mret None
  end.

(** Without TLS termination (env/mod.rs): the token is unwrapped, the result of
    the last write is dropped. *)
Definition init_without_certs : SM unit :=
  let! token := mtry (on_ext ErConfig get_cert_token) in
  match token with
  | Err _ => mpanic
  | Ok token =>
      let! secrets_response := on_ext ErClient (get_secrets (ct_token token)) in
      set_context (EnclaveContext_from (gs_context secrets_response)) ;!
      on_env (Environment_init secrets_to_value value_to_secrets (gs_secrets secrets_response)) ;!
      let! _ := mtry (F := DpError) (on_env write_startup_complete_env_vars) in
      mret tt
  end.
End Start.

(** ** Properties *)

Definition startup_marker : string := "export EV_INITIALIZED=true".

Section StartProperties.
Context {H : HttpLib} {W Key : Type} {AJ : AcmeJson} {OJ : OrderJson} {CL : CsrLib Key} {XL : X509Lib Key}.
Context {RT : Runtime W} {J : Json} {A : E3Api W} {NS : Nsm W} {CG : CertGen W Key XL}.
Context (get_cert_token : M W ConfigError GetCertTokenResponse) (get_cert : string → M W ClientError GetCertResponse)
  (client_text : ClientError → string).
Context (get_trusted_cert : option EnclaveContext →
  M (CertWorld (W := W) (Key := Key)) (DpAcmeError (CE := ConfigError)) (bytes * CertifiedKey)).
Context (secrets_to_value : list Secret → Value) (value_to_secrets : Value → option (list Secret)).
Context (base64_decode : string → option bytes) (x509_from_pem : bytes → option X509)
  (key_from_pem : bytes → option Key).
Context (backoff_jitter : W → Z * W) (thread_sleep : Z → W → W).
Context (get_expiry_time : bytes → M W AttestationError Z) (staging : bool).

#[local] Notation World := (StartWorld (W := W) (Key := Key)).
#[local] Notation ca_attempt := (get_intermediate_ca get_cert_token get_cert client_text secrets_to_value
  value_to_secrets base64_decode x509_from_pem key_from_pem).
#[local] Notation retry := (get_ca_with_retry get_cert_token get_cert client_text secrets_to_value
  value_to_secrets base64_decode x509_from_pem key_from_pem backoff_jitter thread_sleep).
#[local] Notation trusted := (enclave_trusted_cert get_trusted_cert).

Lemma trusted_file (w w' : World) r : trusted w = (r, w') → sw_file w' = sw_file w ∧ sw_context w' = sw_context w ∧
  ∀ c, r = Ret c → ∃ k x, get_trusted_cert (sw_context w) (sw_cert w) = (Ret (k, c), x).
Proof.
  unfold enclave_trusted_cert. destruct (get_trusted_cert _ _) as [[[k c]|e|] x]; intros [= <- <-];
    (split_and!; [done..|]); intros ? [=]; subst; by eexists _, _.
Qed.

Lemma ext_file {E B} (f : E → DpError) (m : M W E B) (w w' : World) r : on_ext f m w = (r, w') →
  sw_file w' = sw_file w.
Proof. by intros (x & _ & ->)%zoom_inv. Qed.

Lemma marker_run (w w' : World) r : on_env write_startup_complete_env_vars w = (r, w') →
  sw_context w' = sw_context w ∧ (r = Ret tt ∧ (∃ f, sw_file w = Some f ∧ sw_file w' = Some (f +:+ startup_marker)) ∨
  r ≠ Ret tt ∧ sw_file w' = sw_file w).
Proof.
  intros (x & Hx & ->)%zoom_inv. split; [done|]. unfold mmap_err, write_startup_complete_env_vars in Hx.
  cbn [env_file env_writable env_e3] in Hx. destruct (sw_file w) as [f|]; [|right; by injection Hx as <- <-].
  destruct (sw_writable w); [|right; by injection Hx as <- <-]. left. injection Hx as <- <-. split; [done|]. by exists f.
Qed.

(** The user process is told to start only when the enclave can serve it:
    the marker is written to its environment only after the trusted
    certificate has been obtained, once, and at the end of the file; when that
    fails the process exits with the file as it was. A server that comes up
    has written it, and its resolver is for the context of the enclave. *)
Theorem user_process_started_last ca pk (w w' : World) r :
  with_ca get_trusted_cert get_expiry_time staging ca pk w = (r, w') →
  (sw_file w' = sw_file w ∧ (∀ cfg, r ≠ Ret cfg) ∨
   ∃ f k c x, get_trusted_cert (sw_context w) (sw_cert w) = (Ret (k, c), x) ∧ sw_file w = Some f ∧
     sw_file w' = Some (f +:+ startup_marker)) ∧
  ∀ cfg, r = Ret cfg → sw_context w = Some (re_context (tc_resolver cfg)) ∧ tc_alpn cfg = ["http/1.1"; "h2"].
Proof.
  unfold with_ca. intros (r0 & w1 & (Hf & Hc & Hk)%trusted_file & Hr)%mbind_cases.
  destruct r0 as [c|e|]; [|destruct Hr as [-> ->]; split; [left; by split|done]..].
  destruct (Hk c eq_refl) as (k & x & Ht).
  apply mbind_cases in Hr as (r1 & w2 & (Hc2 & Hm)%marker_run & Hr).
  destruct Hm as [[-> (f & Hf1 & Hf2)]|[Hne Hf2]]; cycle 1.
  { destruct r1 as [[]|e|]; [done|destruct Hr as [-> ->]; split; [left; split; [congruence|done]|done]..]. }
  apply mbind_cases in Hr as (r2 & w3 & Hg & Hr). injection Hg as <- <-.
  apply mbind_cases in Hr as (r3 & w4 & Hn & Hr). pose proof (ext_file _ _ _ _ _ Hn) as Hf4.
  assert (sw_file w' = Some (f +:+ startup_marker)) as Hw'.
  { destruct r3 as [[re ba]|e|]; [injection Hr as _ <-|destruct Hr as [_ ->]..]; congruence. }
  split; [right; exists f, k, c, x; split_and!; congruence|]. intros cfg ->.
  destruct r3 as [[re ba]|e|]; [|by destruct Hr..]. injection Hr as <- _. cbn. split; [|done].
  apply zoom_inv in Hn as (y & Hn & _). unfold mmap_err, AttestableCertResolver_new in Hn.
  rewrite Hc2, Hc in Hn. destruct (sw_context w) as [ctx|]; [|done]. cbn [EnclaveContext_get ok_or map_err mlift] in Hn.
  unfold Prelude.mbind, mret in Hn. destruct (generate_self_signed_cert _ _ _ _ _ _) as [[[e0 c0]|e0|] y0]; simplify_eq.
  done.
Qed.

(** Getting the intermediate CA outlasts failures of the provisioner: if
    (from the worlds in question) it answers after any number of failed
    attempts, the loop ends with its answer, one attempt later. *)
Theorem ca_retry_outlasts_failures (good : World → Prop) (down : World → nat) :
  (∀ w, good w → down w = 0%nat → ∃ ca w', ca_attempt w = (Ret ca, w')) →
  (∀ w k a, good w → down w = S k → ∃ e w1 w2, ca_attempt w = (Throw e, w1) ∧
    ca_sleep backoff_jitter thread_sleep a w1 = (Ret tt, w2) ∧ good w2 ∧ down w2 = k) →
  ∀ w a, good w → ∃ ca w', retry (S (down w)) a w = (Ret (Some ca), w').
Proof.
  intros H0 HS w. remember (down w) as n eqn:Hn. revert w Hn. induction n as [|n IH]; intros w Hn a Hw.
  - destruct (H0 w Hw (eq_sym Hn)) as (ca & w' & Hc). exists ca, w'. cbn [get_ca_with_retry].
    unfold Prelude.mbind, mtry. by rewrite Hc.
  - destruct (HS w n a Hw (eq_sym Hn)) as (e & w1 & w2 & Hc & Hs & Hw2 & Hd).
    destruct (IH w2 (eq_sym Hd) (if (a <? 7)%Z then a + 1 else a)%Z Hw2) as (ca & w' & Hr). exists ca, w'.
    remember (S n) as m. cbn [get_ca_with_retry]. unfold Prelude.mbind, mtry. by rewrite Hc, Hs.
Qed.
End StartProperties.

(** The backoff between the attempts is bounded but not exponential: the
    seven first waits are between 50 and 850 milliseconds, and (the operator
    being exclusive or) the third one is the shortest, shorter than the first,
    and the sixth is longer than the seventh. *)
Theorem backoff_is_not_exponential attempts jitter jitter' :
  (0 ≤ attempts < 7)%Z → (50 ≤ jitter < 150)%Z → (50 ≤ jitter' < 150)%Z →
  (50 ≤ backoff_ms attempts jitter < 850)%Z ∧ (backoff_ms 2 jitter < backoff_ms 0 jitter')%Z ∧
  (backoff_ms 6 jitter < backoff_ms 5 jitter')%Z.
Proof.
  intros Ha Hj Hj'. unfold backoff_ms.
  assert (attempts = 0 ∨ attempts = 1 ∨ attempts = 2 ∨ attempts = 3 ∨ attempts = 4 ∨ attempts = 5 ∨ attempts = 6)%Z
    as Hc by lia. destruct Hc as [->|[->|[->|[->|[->|[->| ->]]]]]];
    repeat match goal with |- context [Z.lxor ?x ?y] =>
      let v := eval vm_compute in (Z.lxor x y) in change (Z.lxor x y) with v end; lia.
Qed.

Lemma backoff_is_not_exponential_witness :
  (50 ≤ backoff_ms 2 149 < 850)%Z ∧ (backoff_ms 2 149 < backoff_ms 0 50)%Z ∧ (backoff_ms 6 149 < backoff_ms 5 50)%Z.
Proof. apply (backoff_is_not_exponential 2 149 50); lia. Defined.
