(* ===== verification/TlsRef.v ===== *)
(** * Witnesses of the TLS server

    Concrete instances of the interfaces of the resolver and of the start of
    the server, on the world of [AcmeRef]. *)
From Stdlib Require Import Ascii String NArith ZArith Lia.
From stdpp Require Import base gmap strings list pretty.
From S2P Require Import Prelude Libs Context Logging E3 Jws Config Acme AcmeStore AcmeClient AcmeOrder.
From S2P Require Import AcmeCert AcmeRef Host Attest CertResolver TlsServer.
#[local] Open Scope string_scope.
#[local] Open Scope list_scope.
#[local] Open Scope enclave_scope.

(** The module answers with the user data and the nonce, or cannot be opened. *)
Definition open_nsm (fd : Z) : Nsm ToyWorld := {|
  nsm_init w := (fd, w);
  nsm_exit _ w := w;
  nsm_process_request _ r w :=
    (match r with
     | ReqAttestation user_data nonce _ => ResAttestation (default [] user_data ++ default [] nonce)
     | ReqGetRandom => ResGetRandom (b "random")
     end, w)
|}.

(** A certificate is the text of its names. *)
Definition toy_leaf (dns : list string) : X509 (X509Lib := toy_x509) := b (join "," dns).
Definition toy_ca : X509 (X509Lib := toy_x509) := b "ca".
Definition toy_from_pem (pem : bytes) : option (X509 (X509Lib := toy_x509)) := Some pem.

Definition toy_gen : CertGen ToyWorld string toy_x509 := {|
  Name := unit;
  subject_name _ := tt;
  subject_ok _ := true;
  generate_key w := (Some "leafkey", w);
  sign_csr _ _ := Some tt;
  random_serial w := (Some 7%N, w);
  sign_cert draft _ _ := Some (toy_leaf (dr_dns draft))
|}.

(** A clock that reads a hundred seconds. *)
Definition hundred_runtime : Runtime ToyWorld := {|
  rt_now w := (100000%Z, w);
  rt_uuid w := ("uuid", w);
  rt_jitter w := (1%Z, w);
  rt_sleep _ w := w
|}.

Definition later_expiry (doc : bytes) : M ToyWorld AttestationError Z := mret 500%Z.
Definition toy_decode (s : string) : option bytes := Some (b s).

Definition toy_resolver : AttestableCertResolver (Key := string) (XL := toy_x509) :=
  mkResolver sample_context toy_ca "cakey".

Definition old_cert : CertifiedKey (XL := toy_x509) := mkCertifiedKey string toy_x509 [b "old"] (b "oldkey").

Definition resolver_world (expiry : Z) (trusted : option CertifiedKey) :
    ResolverWorld (W := ToyWorld) (Key := string) (XL := toy_x509) :=
  mkResolverWorld ∅ (CertContainer_new expiry old_cert) (Some trusted).

Definition toy_resolve (fd : Z) (sni : option string) w :=
  resolve_cert_using_sni (CG := toy_gen) (RT := hundred_runtime) (NS := open_nsm fd) toy_decode later_expiry false
    toy_resolver sni w.

Definition nonce_name : string := "n1.attest.a.app-1.cages.evervault.com".

Definition nonce_cert : CertifiedKey (XL := toy_x509) :=
  match (toy_resolve 3 (Some nonce_name) (resolver_world 0 None)).1 with Ret (Some c) => c | _ => old_cert end.

Lemma nonce_certificate_is_attested_witness :
  cert_chain nonce_cert = [b (nonce_name +:+ "," +:+ LowerHex (b "leafkeyn1") +:+ "." +:+ nonce_name ) ++ b "ca"] ∧
  attests (CG := toy_gen) (NS := open_nsm 3) toy_ca "cakey" [nonce_name] (Some (b "n1")) nonce_cert.
Proof.
  split; [vm_compute; reflexivity|].
  destruct (nonce_certificate_is_attested (CG := toy_gen) (RT := hundred_runtime) (NS := open_nsm 3) toy_decode
    later_expiry false toy_resolver nonce_name (b "n1") (resolver_world 0 None)
    (toy_resolve 3 (Some nonce_name) (resolver_world 0 None)).2 nonce_cert) as (_ & Ha & _).
  - reflexivity.
  - apply known_result. vm_compute. reflexivity.
  - exact Ha.
Defined.

Lemma own_names_resolved_witness :
  toy_resolve 3 (Some "a.app-1.enclave.evervault.com") (resolver_world 0 (Some nonce_cert))
  = (Ret (Some nonce_cert), resolver_world 0 (Some nonce_cert)).
Proof.
  refine (proj1 (own_names_resolved (CG := toy_gen) (RT := hundred_runtime) (NS := open_nsm 3) toy_decode later_expiry
    false toy_resolver "a.app-1.enclave.evervault.com" (resolver_world 0 (Some nonce_cert)) _) _ nonce_cert eq_refl).
  - by split_and!.
  - apply list_elem_of_In. by right; left.
Defined.

Definition base_of (fd : Z) : M ToyWorld TlsError (Z * CertifiedKey (XL := toy_x509)) :=
  generate_self_signed_cert (CG := toy_gen) (RT := hundred_runtime) (NS := open_nsm fd) later_expiry toy_ca "cakey"
    (get_cert_names false sample_context) None.

Definition sample_resolved := resolve_cert (RT := hundred_runtime) (outer (base_of 3)) (resolver_world 0 None).

Lemma base_certificate_served_witness :
  cc_expiry (rw_base sample_resolved.2) = 500%Z ∧
  sample_resolved.1 = Ret (Some (cc_cert (rw_base sample_resolved.2))) ∧
  cc_poisoned (rw_base sample_resolved.2) = false.
Proof.
  split; [vm_compute; reflexivity|]. split; [vm_compute; reflexivity|].
  refine (proj1 (base_certificate_served (RT := hundred_runtime) (base_of 3) (resolver_world 0 None) sample_resolved.2
    (Some (cc_cert (rw_base sample_resolved.2))) _)).
  apply known_result. vm_compute. reflexivity.
Defined.

Lemma module_failure_poisons_resolver_witness : ∃ w',
  toy_resolve (-1) (Some "a.app_1.cages.evervault.com") (resolver_world 0 None) = (Panic, w') ∧
  cc_poisoned (rw_base w') = true.
Proof.
  refine (proj1 (module_failure_poisons_resolver (CG := toy_gen) (RT := hundred_runtime) (NS := open_nsm (-1)) toy_decode
    later_expiry false toy_resolver (Some "a.app_1.cages.evervault.com") (resolver_world 0 None) _ _ _ _ _)).
  - vm_compute. reflexivity.
  - vm_compute. reflexivity.
  - reflexivity.
  - intros x. vm_compute. discriminate.
  - intros x. reflexivity.
Defined.

(** ** Start *)

Definition start_world (file : option string) : StartWorld (W := ToyWorld) (Key := string) (XL := toy_x509) :=
  mkStart (toy_cert_world ∅) file true (Some sample_context) None.

Definition toy_trusted (ctx : option EnclaveContext) :
    M (CertWorld (W := ToyWorld) (Key := string) (XL := toy_x509)) (DpAcmeError (CE := ConfigError))
      (bytes * CertifiedKey (XL := toy_x509)) := mret (b "public", old_cert).

Definition sample_start :=
  with_ca (CG := toy_gen) (RT := hundred_runtime) (NS := open_nsm 3) toy_trusted later_expiry false toy_ca "cakey"
    (start_world (Some "export A=1  ")).

Lemma user_process_started_last_witness :
  sw_file sample_start.2 = Some "export A=1  export EV_INITIALIZED=true" ∧
  ∃ f, sw_file (start_world (Some "export A=1  ")) = Some f ∧ sw_file sample_start.2 = Some (f +:+ startup_marker).
Proof.
  split; [vm_compute; reflexivity|].
  destruct (user_process_started_last (CG := toy_gen) (RT := hundred_runtime) (NS := open_nsm 3) toy_trusted later_expiry
    false toy_ca "cakey" (start_world (Some "export A=1  ")) sample_start.2 sample_start.1 (surjective_pairing _))
    as [[[Hf _]|(f & k & c & x & _ & H1 & H2)] _].
  - exfalso. assert (bool_decide (sw_file sample_start.2 = Some "export A=1  ") = false) as Hn
      by (vm_compute; reflexivity). rewrite Hf in Hn. discriminate.
  - by exists f.
Defined.

(** A provisioner that fails until the object [ready] exists, which the sleep
    after a failure creates. *)
Definition toy_cert_response : GetCertResponse :=
  mkGetCertResponse "cert" "key" (Some []) (mkProvisioner "team" "uuid" "a" "app_1").

Definition toy_get_cert (token : string) : M ToyWorld ClientError GetCertResponse := fun w =>
  match w !! "ready" with Some _ => (Ret toy_cert_response, w) | None => (Throw (General "down"), w) end.

Definition toy_sleep (ms : Z) (w : ToyWorld) : ToyWorld := <["ready" := "yes"]> w.

Definition is_down (w : StartWorld (W := ToyWorld) (Key := string) (XL := toy_x509)) : nat :=
  match sw_ext w !! "ready" with Some _ => 0 | None => 1 end.

Lemma ca_retry_outlasts_failures_witness : ∃ ca w',
  get_ca_with_retry (A := toy_e3) (J := json_ref) (mret (mkCertToken "token")) toy_get_cert (fun _ => "error")
    (fun _ => "") (fun _ => Some []) toy_decode toy_from_pem (fun i => Some (string_of_list_ascii i)) (fun w => (60%Z, w)) toy_sleep
    (S (is_down (start_world None))) 0 (start_world None) = (Ret (Some ca), w').
Proof.
  apply (ca_retry_outlasts_failures (XL := toy_x509) (A := toy_e3) (J := json_ref) (mret (mkCertToken "token"))
    toy_get_cert (fun _ => "error") (fun _ => "") (fun _ => Some []) toy_decode toy_from_pem
    (fun i => Some (string_of_list_ascii i)) (fun w => (60%Z, w)) toy_sleep (fun w => sw_writable w = true) is_down).
  - intros [[[x n] t o ts] f wr c p] Hw Hd. cbn in Hw. subst wr. unfold is_down, sw_ext in Hd. cbn in Hd.
    destruct (x !! "ready") eqn:Er; [|done]. eexists _, _.
    unfold get_intermediate_ca, Prelude.mbind, on_ext, zoom, mmap_err, toy_get_cert, sw_ext. cbn [sw_cert cw_acme aw_ext mret].
    cbn. rewrite Er. reflexivity.
  - intros [[[x n] t o ts] f wr c p] k a Hw Hd. cbn in Hw. subst wr. unfold is_down, sw_ext in Hd. cbn in Hd.
    destruct (x !! "ready") eqn:Er; [done|]. injection Hd as <-. eexists _, _, _. split_and!.
    + unfold get_intermediate_ca, Prelude.mbind, on_ext, zoom, mmap_err, toy_get_cert, sw_ext. cbn. rewrite Er. reflexivity.
    + unfold ca_sleep. by destruct (a <? 7)%Z.
    + by destruct (a <? 7)%Z.
    + unfold is_down, sw_ext. pose proof (lookup_insert_eq (M := gmap string) x "ready" "yes") as Hq. exact (f_equal (fun o : option string => match o with Some _ => 0%nat | None => 1%nat end) Hq).
  - reflexivity.
Defined.
