(* ===== verification/Addr.v ===== *)
(** * Numbers and addresses in text

    What the programs use of the standard library to read numbers and socket
    addresses: [str::trim], [u16::from_str] and its relatives, the parsers of
    [IpAddr] and [SocketAddr] (core::net::parser), and that what is printed is
    read back. *)
From Stdlib Require Import Ascii String NArith ZArith Lia.
From stdpp Require Import base strings list pretty.
From S2P Require Import Prelude Net.
#[local] Open Scope string_scope.
#[local] Open Scope list_scope.
#[local] Open Scope enclave_scope.

(** ** Trimming *)

(** The UTF-8 encodings of the characters with the property White_Space. *)
Definition white_space : list bytes :=
  ((fun n => [ascii_of_nat n]) <$> [9; 10; 11; 12; 13; 32])%nat ++
  ((fun '(x, y) => [ascii_of_nat x; ascii_of_nat y]) <$> [(194, 133); (194, 160)])%nat ++
  ((fun '(x, y, z) => [ascii_of_nat x; ascii_of_nat y; ascii_of_nat z]) <$>
    [(225, 154, 128); (226, 128, 128); (226, 128, 129); (226, 128, 130); (226, 128, 131); (226, 128, 132);
     (226, 128, 133); (226, 128, 134); (226, 128, 135); (226, 128, 136); (226, 128, 137); (226, 128, 138);
     (226, 128, 168); (226, 128, 169); (226, 128, 175); (226, 129, 159); (227, 128, 128)])%nat.

(** Drops the listed texts from the front as long as there is one. *)
Fixpoint trim_front (fuel : nat) (ws : list bytes) (s : bytes) : bytes :=
  match fuel with
  | O => s
  | S n => match List.find (fun w => is_prefix w s) ws with
           | Some w => trim_front n ws (drop (length w) s)
           | None => s
           end
  end.

Definition trim_bytes (s : bytes) : bytes :=
  let s := trim_front (length s) white_space s in
  rev (trim_front (length s) (rev (A := ascii) <$> white_space) (rev s)).

(** [str::trim] *)
Definition trim (s : string) : string := String.string_of_list_ascii (trim_bytes (b s)).

(** ** Numbers *)

(** [uN::from_str]: an optional plus sign, then digits, at most [max]. *)
Definition parse_unsigned (max : N) (s : string) : option N :=
  let ds := match s with String "+" s' => s' | _ => s end in
  if String.eqb ds "" then None
  else match digits 0 ds with
       | Some n => if (n <=? max)%N then Some n else None
       | None => None
       end.

(** [i32::from_str]: a minus sign also. *)
Definition parse_i32 (s : string) : option Z :=
  match s with
  | String "-" s' =>
      if String.eqb s' "" then None
      else match digits 0 s' with
           | Some n => if (n <=? 2147483648)%N then Some (- Z.of_N n)%Z else None
           | None => None
           end
  | _ => Z.of_N <$> parse_unsigned 2147483647 s
  end.

Definition u16_max : N := 65535.
Definition u32_max : N := 4294967295.

(** ** Addresses: the parser of core::net *)

Definition to_digit (radix : N) (c : ascii) : option N :=
  let d := if in_range 48 57 c then Some (N.of_nat (code c - 48))
           else if in_range 97 122 c then Some (N.of_nat (code c - 87))
           else if in_range 65 90 c then Some (N.of_nat (code c - 55))
           else None in
  match d with Some n => if (n <? radix)%N then Some n else None | None => None end.

(** Reads digits into an integer of at most [limit], at most [max] of them. *)
Fixpoint read_digits (radix limit : N) (max : option nat) (count : nat) (acc : N) (s : string) :
    option (nat * N * string) :=
  match s with
  | EmptyString => Some (count, acc, s)
  | String c s' =>
      match to_digit radix c with
      | None => Some (count, acc, s)
      | Some d =>
          let acc' := (acc * radix + d)%N in
          if (limit <? acc')%N then None
          else match max with
               | Some m => if Nat.ltb m (S count) then None else read_digits radix limit max (S count) acc' s'
               | None => read_digits radix limit max (S count) acc' s'
               end
      end
  end.

Definition read_number (radix limit : N) (max : option nat) (allow_zero_prefix : bool) (s : string) :
    option (N * string) :=
  match read_digits radix limit max 0 0 s with
  | Some (count, n, rest) =>
      if Nat.eqb count 0 then None
      else if negb allow_zero_prefix && starts_with s "0" && Nat.ltb 1 count then None
      else Some (n, rest)
  | None => None
  end.

Definition read_given_char (c : ascii) (s : string) : option string := strip_prefix_char s c.

(** An element, after a separator unless it is the first. *)
Definition read_separator {A} (sep : ascii) (index : nat) (inner : string → option (A * string)) (s : string) :
    option (A * string) :=
  match index with
  | O => inner s
  | S _ => s' ← read_given_char sep s; inner s'
  end.

Fixpoint read_octets (n index : nat) (s : string) : option (list N * string) :=
  match n with
  | O => Some ([], s)
  | S n' =>
      '(o, s') ← read_separator "." index (read_number 10 255 (Some 3) false) s;
      '(os, s'') ← read_octets n' (S index) s';
      Some (o :: os, s'')
  end.

Definition read_ipv4_addr (s : string) : option (N * N * N * N * string) :=
  match read_octets 4 0 s with
  | Some ([a; b; c; d], rest) => Some (a, b, c, d, rest)
  | _ => None
  end.

(** Up to [limit] groups from group [i] on: the groups read, whether the last
    two were an embedded IPv4 address, and the rest. *)
Fixpoint read_groups (limit i : nat) (s : string) : list N * bool * string :=
  match limit with
  | O => ([], false, s)
  | S limit' =>
      match (if Nat.ltb 0 limit' then read_separator ":" i (fun p =>
               '(x, y, z, t, p') ← read_ipv4_addr p; Some ((x * 256 + y, z * 256 + t)%N, p')) s else None) with
      | Some ((g1, g2), s') => ([g1; g2], true, s')
      | None =>
          match read_separator ":" i (read_number 16 u16_max (Some 4) true) s with
          | Some (g, s') => let '(gs, v4, rest) := read_groups limit' (S i) s' in (g :: gs, v4, rest)
          | None => ([], false, s)
          end
      end
  end.

Definition ipv6_of (gs : list N) : option IpAddr :=
  match gs with [s0; s1; s2; s3; s4; s5; s6; s7] => Some (V6 s0 s1 s2 s3 s4 s5 s6 s7) | _ => None end.

Definition read_ipv6_addr (s : string) : option (IpAddr * string) :=
  let '(head, head_ipv4, rest) := read_groups 8 0 s in
  if Nat.eqb (length head) 8 then ip ← ipv6_of head; Some (ip, rest)
  else if head_ipv4 then None
  else
    s1 ← read_given_char ":" rest;
    s2 ← read_given_char ":" s1;
    let '(tail, _, rest') := read_groups (8 - (length head + 1)) 0 s2 in
    ip ← ipv6_of (head ++ repeat 0%N (8 - length head - length tail) ++ tail);
    Some (ip, rest').

Definition read_ip_addr (s : string) : option (IpAddr * string) :=
  match read_ipv4_addr s with
  | Some (x, y, z, t, rest) => Some (V4 x y z t, rest)
  | None => read_ipv6_addr s
  end.

Definition whole {A} (r : option (A * string)) : option A :=
  match r with Some (a, EmptyString) => Some a | _ => None end.

(** [IpAddr::from_str] *)
Definition parse_ip (s : string) : option IpAddr := whole (read_ip_addr s).

Definition read_port (s : string) : option (N * string) :=
  s' ← read_given_char ":" s; read_number 10 u16_max None true s'.

Definition read_scope_id (s : string) : option (N * string) :=
  s' ← read_given_char "%" s; read_number 10 u32_max None true s'.

Record SocketAddr : Type := mkSocketAddr { sa_ip : IpAddr; sa_port : N; sa_scope : N }.

#[export] Instance SocketAddr_eq_dec : EqDecision SocketAddr.
Proof. solve_decision. Defined.

Definition read_socket_addr_v4 (s : string) : option (SocketAddr * string) :=
  '(x, y, z, t, s1) ← read_ipv4_addr s;
  '(port, s2) ← read_port s1;
  Some (mkSocketAddr (V4 x y z t) port 0, s2).

Definition read_socket_addr_v6 (s : string) : option (SocketAddr * string) :=
  s1 ← read_given_char "[" s;
  '(ip, s2) ← read_ipv6_addr s1;
  let '(scope, s3) := default (0%N, s2) (read_scope_id s2) in
  s4 ← read_given_char "]" s3;
  '(port, s5) ← read_port s4;
  Some (mkSocketAddr ip port scope, s5).

(** [SocketAddr::from_str] *)
Definition parse_socket_addr (s : string) : option SocketAddr :=
  whole (match read_socket_addr_v4 s with Some r => Some r | None => read_socket_addr_v6 s end).

Example parse_ip_samples :
  parse_ip "8.8.8.8" = Some (V4 8 8 8 8) ∧ parse_ip "::1" = Some (V6 0 0 0 0 0 0 0 1) ∧
  parse_ip "2001:db8::1:0:2" = Some (V6 0x2001 0xdb8 0 0 0 1 0 2) ∧
  parse_ip "::ffff:1.2.3.4" = Some (V6 0 0 0 0 0 0xffff 0x102 0x304) ∧
  parse_ip "1:2:3:4:5:6:7:8" = Some (V6 1 2 3 4 5 6 7 8) ∧ parse_ip "::" = Some (V6 0 0 0 0 0 0 0 0) ∧
  parse_ip "01.2.3.4" = None ∧ parse_ip "1.2.3.4:" = None ∧ parse_ip "1::2::3" = None ∧
  parse_ip "12345::" = None ∧ parse_ip "1:2:3:4:5:6:7:8:9" = None ∧
  parse_socket_addr "127.0.0.1:443" = Some (mkSocketAddr (V4 127 0 0 1) 443 0) ∧
  parse_socket_addr "[fe80::1%3]:80" = Some (mkSocketAddr (V6 0xfe80 0 0 0 0 0 0 1) 80 3) ∧
  parse_socket_addr "127.0.0.1" = None ∧ parse_socket_addr "1.2.3.4:70000" = None ∧
  trim (String "009" " 3  ") = "3" ∧ trim "  " = "" ∧
  parse_unsigned 255 "+7" = Some 7%N ∧ parse_unsigned 255 "" = None ∧ parse_unsigned 255 "256" = None.
Proof. vm_compute. auto 30. Qed.

(** ** Printed numbers are read back *)

(** A text of digits, of at least one. *)
Definition numeral (s : string) : Prop := s ≠ "" ∧ Forall (fun c => in_range 48 57 c = true) (b s).

Lemma pretty_char_digit x : (x < 10)%N → digit_of (pretty_N_char x) = Some x.
Proof.
  intros Hx. assert (x = 0 ∨ x = 1 ∨ x = 2 ∨ x = 3 ∨ x = 4 ∨ x = 5 ∨ x = 6 ∨ x = 7 ∨ x = 8 ∨ x = 9)%N as Hc by lia.
  by repeat destruct Hc as [->|Hc]; subst.
Qed.

Lemma pretty_go_digits x s : digits 0 (pretty_N_go x s) = digits x s.
Proof.
  revert s. induction (N.lt_wf_0 x) as [x _ IH]; intros s.
  assert (x = 0 ∨ 0 < x)%N as [->|Hx] by lia; [done|].
  rewrite pretty_N_go_step by done. rewrite IH by (by apply N.div_lt). cbn [digits].
  rewrite pretty_char_digit by (by apply N.mod_lt). f_equal. rewrite N.mul_comm. symmetry. by apply N.div_mod.
Qed.

Lemma digits_pretty n : digits 0 (pretty n) = Some n.
Proof.
  unfold pretty, pretty_N. destruct (decide (n = 0)%N) as [->|]; [done|]. by rewrite pretty_go_digits.
Qed.

Lemma pretty_go_numeral x s : Forall (fun c => in_range 48 57 c = true) (b s) →
  Forall (fun c => in_range 48 57 c = true) (b (pretty_N_go x s)) ∧
  ((0 < x)%N ∨ s ≠ "" → pretty_N_go x s ≠ "").
Proof.
  revert s. induction (N.lt_wf_0 x) as [x _ IH]; intros s Hs.
  assert (x = 0 ∨ 0 < x)%N as [->|Hx] by lia; [rewrite pretty_N_go_0; split; [done|]; intros [?|?]; [lia|done]|].
  rewrite pretty_N_go_step by done. destruct (IH (x / 10)%N) with (s := String (pretty_N_char (x mod 10)) s) as [H1 H2].
  - by apply N.div_lt.
  - constructor; [|done]. unfold pretty_N_char. by repeat case_match.
  - split; [done|]. intros _. apply H2. by right.
Qed.

Lemma pretty_numeral (n : N) : numeral (pretty n).
Proof.
  unfold numeral, pretty, pretty_N. destruct (decide (n = 0)%N) as [->|]; [by repeat constructor|].
  destruct (pretty_go_numeral n "") as [H1 H2]; [constructor|]. split; [apply H2; lia|done].
Qed.

Lemma numeral_head s : numeral s → ∃ c s', s = String c s' ∧ in_range 48 57 c = true.
Proof. intros [Hn Hd]. destruct s as [|c s]; [done|]. inversion Hd; subst. by exists c, s. Qed.

Lemma parse_unsigned_pretty max n : parse_unsigned max (pretty n) = if (n <=? max)%N then Some n else None.
Proof.
  destruct (numeral_head _ (pretty_numeral n)) as (c & s & Hs & Hc). unfold parse_unsigned.
  pose proof (digits_pretty n) as Hd. rewrite Hs in *.
  assert (match String c s with String "+" s' => s' | _ => String c s end = String c s) as ->.
  { destruct c as [[] [] [] [] [] [] [] []]; done. }
  cbn [String.eqb]. by rewrite Hd.
Qed.

Lemma numeral_no_char s c : numeral s → in_range 48 57 c = false → no_char c s = true.
Proof.
  intros [_ Hs] Hc. induction s as [|d s IH]; [done|]. inversion Hs as [|? ? Hd Hs']; subst. cbn [no_char].
  destruct (Ascii.eqb_spec d c) as [->|]; [congruence|]. by apply IH.
Qed.

(** No white space begins or ends with a digit. *)
Lemma trim_front_digit ws fuel c s :
  Forall (fun w => match w with [] => False | d :: _ => in_range 48 57 d = false end) ws →
  in_range 48 57 c = true → trim_front fuel ws (c :: s) = c :: s.
Proof.
  intros Hws Hc. destruct fuel as [|n]; [done|]. cbn [trim_front].
  destruct (List.find _ ws) as [w|] eqn:Ef; [|done]. exfalso. apply find_some in Ef as [Hin Hp].
  apply list_elem_of_In in Hin. rewrite Forall_forall in Hws. specialize (Hws w Hin). destruct w as [|d w]; [done|].
  cbn in Hp. apply andb_true_iff in Hp as [->%Ascii.eqb_eq _]. congruence.
Qed.

Lemma trim_numeral s : numeral s → trim s = s.
Proof.
  intros Hs. destruct (numeral_head _ Hs) as (c & s' & -> & Hc). destruct Hs as [_ Hd]. unfold trim, trim_bytes.
  change (b (String c s')) with (c :: b s') in *.
  rewrite trim_front_digit; [|repeat constructor|done].
  assert (∃ d l, rev (c :: b s') = d :: l ∧ in_range 48 57 d = true) as (d & l & Hl & Hdd).
  { destruct (rev (c :: b s')) as [|d l] eqn:El; [by apply (f_equal (length (A := ascii))) in El; rewrite length_rev in El|].
    exists d, l. split; [done|]. apply Forall_rev in Hd. rewrite El in Hd. by inversion Hd. }
  rewrite Hl. rewrite trim_front_digit; [|repeat constructor|done]. rewrite <-Hl, rev_involutive.
  cbn [String.string_of_list_ascii]. f_equal. apply String.string_of_list_ascii_of_string.
Qed.
