(* ===== verification/DnsDriver.v ===== *)
(** * The DNS servers of the enclave and of the host

    data-plane/src/dns/enclavedns.rs: [bind_server] receives packets on a UDP
    socket and hands them through a bounded channel to the driver, which takes
    a permit of a semaphore for each and spawns a task that performs the lookup
    and answers the sender. The three run interleaved: the state machine
    [driver_step] has one event for every point where one of them goes on.
    The accept loop of control-plane/src/dnsproxy.rs is [DnsProxy_listen]. *)
From Stdlib Require Import Ascii String NArith ZArith Lia.
From stdpp Require Import base gmap strings list.
From S2P Require Import Prelude Net Addr Egress EgressProxy.
#[local] Open Scope string_scope.
#[local] Open Scope list_scope.
#[local] Open Scope enclave_scope.

(** ** Limits *)

Definition max_concurrent_requests : nat := 250.
Definition dns_channel_capacity : nat := 500.
Definition dns_buffer_size : nat := 512.

(** A datagram and the address it came from. *)
Record Lookup : Type := mkLookup { lk_packet : bytes; lk_src : IpAddr * N }.

(** What became of a received datagram. *)
Inductive Fate : Type :=
| NotDispatched
| LookupFailed (e : DNSError)
| LookupPanicked
| SendFailed (response : bytes)
| Answered (response : bytes).

Section Driver.
Context {T : TtlLib} {D : DnsLib}.
Context (allowed_destinations : EgressDestinations).

(** [ds_dispatching]: the datagram [bind_server] is sending into the channel;
    [ds_waiting]: the one the driver has taken and waits for a permit with;
    [ds_tasks]: the lookups that run; [ds_done]: the datagrams that are no
    longer held, with what became of them. The semaphore is never closed, nor
    is the channel. *)
Record DriverState : Type := mkDriver {
  ds_dispatching : option Lookup;
  ds_channel : list Lookup;
  ds_waiting : option Lookup;
  ds_permits : nat;
  ds_tasks : list Lookup;
  ds_cache : IpCache;
  ds_done : list (Lookup * Fate)
}.

Definition EnclaveDnsDriver_new (concurrency_limit : nat) (cache : IpCache) : DriverState :=
  mkDriver None [] None concurrency_limit [] cache [].

(** What a task does from its start to its end: the connection to the host it
    gets, whether the lookup is in time and whether the answer can be sent are
    given. *)
Definition lookup_task (vsock : option Conn) (in_time sendable : bool) (l : Lookup) (cache : IpCache) :
    Fate * IpCache :=
  let '(r, w) := perform_dns_lookup (lk_packet l) in_time allowed_destinations (mkDns vsock cache) in
  (match r with
   | Ret dns_response => if sendable then Answered dns_response else SendFailed dns_response
   | Throw e => LookupFailed e
   | Panic => LookupPanicked
   end, dw_cache w).

Inductive DriverEvent : Type :=
(** [recv_from] fails, or returns a datagram and its sender *)
| EvRecvFailed
| EvRecv (datagram : bytes) (src : IpAddr * N)
(** the pending [send] completes, or its timeout of a second passes *)
| EvDispatch
| EvDispatchTimeout
(** the driver receives, then gets a permit and spawns *)
| EvTake
| EvSpawn
(** a task runs to its end and drops its permit *)
| EvFinish (i : nat) (vsock : option Conn) (in_time sendable : bool).

(** [None]: the event cannot happen now. A pending [send] waits only while the
    channel is full, so only then can it time out. *)
Definition driver_step (e : DriverEvent) (s : DriverState) : option DriverState :=
  let '(mkDriver disp ch wait permits tasks cache done) := s in
  match e with
  | EvRecvFailed => match disp with None => Some s | Some _ => None end
  | EvRecv datagram src =>
      match disp with
      | None => Some (mkDriver (Some (mkLookup (take dns_buffer_size datagram) src)) ch wait permits tasks cache done)
      | Some _ => None
      end
  | EvDispatch =>
      match disp with
      | Some l => if Nat.ltb (length ch) dns_channel_capacity
                  then Some (mkDriver None (ch ++ [l]) wait permits tasks cache done) else None
      | None => None
      end
  | EvDispatchTimeout =>
      match disp with
      | Some l => if Nat.ltb (length ch) dns_channel_capacity then None
                  else Some (mkDriver None ch wait permits tasks cache (done ++ [(l, NotDispatched)]))
      | None => None
      end
  | EvTake =>
      match wait, ch with
      | None, l :: ch' => Some (mkDriver disp ch' (Some l) permits tasks cache done)
      | _, _ => None
      end
  | EvSpawn =>
      match wait, permits with
      | Some l, S permits' => Some (mkDriver disp ch None permits' (tasks ++ [l]) cache done)
      | _, _ => None
      end
  | EvFinish i vsock in_time sendable =>
      match tasks !! i with
      | Some l =>
          let '(fate, cache') := lookup_task vsock in_time sendable l cache in
          Some (mkDriver disp ch wait (S permits) (delete i tasks) cache' (done ++ [(l, fate)]))
      | None => None
      end
  end.

Fixpoint driver_run (es : list DriverEvent) (s : DriverState) : option DriverState :=
  match es with
  | [] => Some s
  | e :: es' => s' ← driver_step e s; driver_run es' s'
  end.

(** The state [bind_server] starts from. *)
Definition bind_server (cache : IpCache) : DriverState := EnclaveDnsDriver_new max_concurrent_requests cache.

Inductive reachable (cache : IpCache) : DriverState → Prop :=
| reach_start : reachable cache (bind_server cache)
| reach_step s e s' : reachable cache s → driver_step e s = Some s' → reachable cache s'.

Definition received (es : list DriverEvent) : list Lookup :=
  omap (fun e => match e with EvRecv d src => Some (mkLookup (take dns_buffer_size d) src) | _ => None end) es.

(** The events that do not need a new datagram. *)
Definition internal (e : DriverEvent) : bool :=
  match e with EvRecvFailed | EvRecv _ _ => false | _ => true end.

Definition held (s : DriverState) : list Lookup :=
  option_list (ds_dispatching s) ++ ds_channel s ++ option_list (ds_waiting s) ++ ds_tasks s.
End Driver.

(** ** The server of the host (control-plane/src/dnsproxy.rs) *)

Definition DNS_SERVER_OVERRIDE_KEY : string := "EV_CONTROL_PLANE_DNS_SERVER".

Definition read_dns_server_ips_from_env_var (env : gmap string string) : option (list IpAddr) :=
  (fun env_var => omap parse_ip (split "," env_var)) <$> env !! DNS_SERVER_OVERRIDE_KEY.

(** control-plane/src/main.rs *)
Definition dns_server_ips (env : gmap string string) : list IpAddr :=
  default DNS_SERVERS (read_dns_server_ips_from_env_var env).

Section HostServer.
Context {T : TtlLib} {D : DnsLib}.
Context (remote_dns_socket : IpAddr → bool) (exchange : IpAddr → bytes → option bytes).
(** The shuffle with the random numbers of a turn. *)
Context (shuffle : nat → list IpAddr → list IpAddr).

(** One connection: its task, with the cache the tasks share. *)
Definition dns_connection (turn : nat) (ips : list IpAddr) (allowed_domains : EgressDestinations)
    (stream : Conn) (cache : IpCache) : Conn * IpCache :=
  let w := snd (serve_dns_connection remote_dns_socket exchange (shuffle turn ips) allowed_domains (mkProxy stream cache)) in
  (pw_stream w, pw_cache w).

(** The loop on what [accept] delivers, [None] being an error: the streams as
    their tasks leave them. *)
Fixpoint DnsProxy_listen (turn : nat) (ips : list IpAddr) (allowed_domains : EgressDestinations)
    (accepts : list (option Conn)) (cache : IpCache) : list Conn * IpCache :=
  match accepts with
  | [] => ([], cache)
  | None :: accepts' => DnsProxy_listen (S turn) ips allowed_domains accepts' cache
  | Some stream :: accepts' =>
      let '(stream', cache') := dns_connection turn ips allowed_domains stream cache in
      let '(streams, cache'') := DnsProxy_listen (S turn) ips allowed_domains accepts' cache' in
      (stream' :: streams, cache'')
  end.
End HostServer.

(** ** Properties *)

(** Splits a step by its event; impossible steps are discharged. *)
Ltac driver_cases H :=
  match type of H with
  | driver_step _ ?e ?s = Some ?s' =>
      destruct s as [[disp|] ch [wait|] permits tasks cch dn], e as [|dg src| | | | |i vs it sd];
      cbn -[dns_channel_capacity lookup_task] in H;
      repeat (case_match; cbn -[dns_channel_capacity lookup_task] in H); simplify_eq
  end.

Section DriverProperties.
Context {T : TtlLib} {D : DnsLib}.
Context (allowed_destinations : EgressDestinations).
#[local] Notation step := (driver_step allowed_destinations).
#[local] Notation run := (driver_run allowed_destinations).

Record driver_inv (s : DriverState) : Prop := {
  inv_permits : ds_permits s + length (ds_tasks s) = max_concurrent_requests;
  inv_channel : (length (ds_channel s) ≤ dns_channel_capacity)%nat
}.

Lemma step_inv e s s' : step e s = Some s' → driver_inv s → driver_inv s'.
Proof.
  intros Hs [Hp Hc]. driver_cases Hs; (split; cbn in *);
    rewrite ?length_app, ?length_delete by (by eapply mk_is_Some); cbn [length]; try lia;
    repeat match goal with
    | H : Nat.ltb _ _ = true |- _ => apply Nat.ltb_lt in H
    | H : ?x !! ?i = Some _ |- _ => apply lookup_lt_Some in H
    end; lia.
Qed.

Lemma reachable_inv cache s : reachable allowed_destinations cache s → driver_inv s.
Proof. induction 1 as [|s e s' _ IH Hs]; [split; [done|apply Nat.le_0_l]|by eapply step_inv]. Qed.

(** C11. The enclave never runs more than 250 lookups, and no permit is lost:
    whatever arrives and however the lookups end (answered, failed, timed out
    or panicking), the permits and the running lookups are 250 in number, the
    channel holds at most 500 requests, and 752 are held altogether. *)
Theorem dns_concurrency_bounded cache s : reachable allowed_destinations cache s →
  ds_permits s + length (ds_tasks s) = max_concurrent_requests ∧
  (length (ds_channel s) ≤ dns_channel_capacity)%nat ∧ (length (held s) ≤ 752)%nat.
Proof.
  intros [Hp Hc]%reachable_inv. split_and!; [done..|]. unfold held. rewrite !length_app.
  unfold max_concurrent_requests, dns_channel_capacity in *.
  destruct (ds_dispatching s), (ds_waiting s); cbn; lia.
Qed.

(** *** Accounting *)

Lemma step_accounts e s s' : step e s = Some s' →
  received [e] ++ held s ++ (ds_done s).*1 ≡ₚ held s' ++ (ds_done s').*1.
Proof.
  intros Hs. driver_cases Hs; unfold held; cbn; rewrite ?fmap_app; cbn; try done.
  all: try match goal with H : ?x !! ?i = Some _ |- _ =>
    pose proof (delete_Permutation x i _ H) as Hd; revert Hd; generalize (delete i x); intros rest Hd; rewrite Hd end.
  all: solve_Permutation.
Qed.

Lemma received_cons e es : received (e :: es) = received [e] ++ received es.
Proof. unfold received. by destruct e. Qed.

Lemma run_accounts es s s' : run es s = Some s' →
  received es ++ held s ++ (ds_done s).*1 ≡ₚ held s' ++ (ds_done s').*1.
Proof.
  revert s. induction es as [|e es IH]; intros s; cbn [driver_run].
  - by intros [= ->].
  - intros (s1 & Hs & Hr)%bind_Some. apply IH in Hr. apply step_accounts in Hs.
    rewrite received_cons, <-(assoc_L app), (Permutation_app_comm (received es)), (assoc_L app), Hs.
    by rewrite Permutation_app_comm.
Qed.

(** [r] is what came back on [v] after [packet] was written to it. *)
Definition exchanged (v : Conn) (packet r : bytes) : Prop :=
  c_writable v = true ∧ (conn_read 512 v).1 = Ok r ∧
  ∀ c, ∃ v', forward_dns_lookup packet (mkDns (Some v) c) = (Ret r, mkDns (Some v') c) ∧ c_out v' = c_out v ++ packet.

(** The [j]-th datagram that was done with, [l], was answered [r]: the task that
    held it then finished, in time, over the connection [v] of its own, on
    which its packet was written and [r] read back. *)
Definition answered_over (cache : IpCache) (es : list DriverEvent) (j : nat) (l : Lookup) (r : bytes) : Prop :=
  ∃ before i v after s, es = before ++ EvFinish i (Some v) true true :: after ∧
    run before (bind_server cache) = Some s ∧ length (ds_done s) = j ∧ ds_tasks s !! i = Some l ∧
    check_dns_allowed_for_domain (lk_packet l) allowed_destinations = Ok tt ∧ exchanged v (lk_packet l) r.

Lemma forward_exchanged packet vsock c r w : forward_dns_lookup packet (mkDns vsock c) = (Ret r, w) →
  ∃ v, vsock = Some v ∧ exchanged v packet r.
Proof.
  destruct vsock as [v|]; [|done]. intros Hf. exists v. split; [done|]. destruct v as [cin out shut wr].
  unfold exchanged, forward_dns_lookup, Prelude.mbind, mget, mmodify, conn_write, conn_read in *. cbn in *.
  destruct wr; [|done]. cbn in *.
  destruct cin as [|[seg|] rest]; cbn in *; [| |done]; [|destruct (length seg <=? 512)%nat]; cbn in *;
    injection Hf as <- <-; (split_and!; [done..|]); intros c'; by eexists.
Qed.

Lemma lookup_answered vsock in_time sendable l cache r c' :
  lookup_task allowed_destinations vsock in_time sendable l cache = (Answered r, c') →
  in_time = true ∧ sendable = true ∧ check_dns_allowed_for_domain (lk_packet l) allowed_destinations = Ok tt ∧
  ∃ v, vsock = Some v ∧ exchanged v (lk_packet l) r.
Proof.
  unfold lookup_task. destruct (perform_dns_lookup _ _ _ _) as [[resp|e|] w] eqn:Ep; [|done..].
  destruct sendable; [|done]. intros [= <- _]. unfold perform_dns_lookup in Ep.
  apply mbind_inv in Ep as ([] & w1 & [Hc ->]%mlift_ok & Ep).
  apply mbind_inv in Ep as (resp' & w2 & Hf & ([] & w3 & _ & Ep)%mbind_inv). injection Ep as -> _.
  destruct in_time; [|by apply mbind_inv in Hf as (? & ? & _ & ?)].
  split_and!; [done|done|by destruct (check_dns_allowed_for_domain _ _) as [[]|]|by eapply forward_exchanged].
Qed.

(** A step is done with one datagram at most. *)
Lemma step_done e s s' : step e s = Some s' → ds_done s' = ds_done s ∨
  ∃ l fate, ds_done s' = ds_done s ++ [(l, fate)] ∧
    ∀ r, fate = Answered r → ∃ i v, e = EvFinish i (Some v) true true ∧ ds_tasks s !! i = Some l ∧
      check_dns_allowed_for_domain (lk_packet l) allowed_destinations = Ok tt ∧ exchanged v (lk_packet l) r.
Proof.
  intros Hs. driver_cases Hs; try (by left); right; do 2 eexists; (split; [done|]); intros r Hr; try discriminate Hr; subst;
    match goal with H : lookup_task _ _ _ _ _ _ = _ |- _ => apply lookup_answered in H as (-> & -> & ? & v & -> & ?) end;
    by exists i, v.
Qed.

Lemma run_snoc es e s : run (es ++ [e]) s = run es s ≫= step e.
Proof.
  revert s. induction es as [|e0 es IH]; intros s; cbn.
  - by destruct (step e s).
  - destruct (step e0 s); cbn; [apply IH|done].
Qed.

Lemma run_answers cache es s : run es (bind_server cache) = Some s →
  ∀ j l r, ds_done s !! j = Some (l, Answered r) → answered_over cache es j l r.
Proof.
  revert s. induction es as [|e es IH] using rev_ind; intros s; [by intros [= <-] j l r [=]|].
  rewrite run_snoc. intros (s1 & Hr & Hs)%bind_Some j l r Hj.
  assert (ds_done s1 !! j = Some (l, Answered r) → answered_over cache (es ++ [e]) j l r) as Hold.
  { intros Hj1. destruct (IH s1 Hr j l r Hj1) as (before & i & v & after & s0 & -> & H0).
    exists before, i, v, (after ++ [e]), s0. by rewrite <-(assoc_L app). }
  apply step_done in Hs as [Hd|(l' & fate & Hd & Ha)]; rewrite Hd in Hj; [by apply Hold|].
  apply lookup_app_Some in Hj as [Hj|[Hle Hj]]; [by apply Hold|].
  apply list_lookup_singleton_Some in Hj as [Hj [= -> ->]].
  destruct (Ha r eq_refl) as (i & v & -> & Ht & Hc & Hx). exists es, i, v, [], s1. split_and!; [done..|lia|done|done|done].
Qed.

(** C12. Every DNS request is accounted for exactly once: the datagrams received
    are, as a multiset, those still held and those that are done with (answered,
    failed, or dropped because the channel stayed full). And every answer is
    the reply to its own query: when the [j]-th datagram done with was answered
    [r], then the step that was done with it was the end of the task holding
    that datagram, all its names were on the allow list, and [r] is what was
    read from the connection of that very step, to which exactly this
    datagram's packet had been written. *)
Theorem dns_requests_accounted cache es s : run es (bind_server cache) = Some s →
  received es ≡ₚ held s ++ (ds_done s).*1 ∧
  ∀ j l r, ds_done s !! j = Some (l, Answered r) → answered_over cache es j l r.
Proof.
  intros Hr. split; [|by apply run_answers].
  apply run_accounts in Hr. cbn in Hr. by rewrite app_nil_r in Hr.
Qed.

(** *** Draining *)

Definition pending (s : DriverState) : nat :=
  4 * length (option_list (ds_dispatching s)) + 3 * length (ds_channel s) +
  2 * length (option_list (ds_waiting s)) + length (ds_tasks s).

Lemma internal_decreases e s s' : internal e = true → step e s = Some s' → (pending s' < pending s)%nat.
Proof.
  intros He Hs. driver_cases Hs; try discriminate He; unfold pending; cbn [ds_dispatching ds_channel ds_waiting ds_tasks];
    rewrite ?length_app, ?length_delete by (by eapply mk_is_Some); cbn -[Nat.add Nat.mul];
    try match goal with H : ?x !! ?i = Some _ |- _ => apply lookup_lt_Some in H end; lia.
Qed.

Lemma internal_enabled s : driver_inv s → held s ≠ [] → ∃ e s', internal e = true ∧ step e s = Some s'.
Proof.
  intros [Hp Hc] Hh. destruct s as [disp ch wait permits tasks cache done]. cbn in Hp, Hc, Hh.
  destruct tasks as [|l tasks].
  - rewrite Nat.add_0_r in Hp. subst permits. destruct wait as [l|]; [by eexists EvSpawn, _|].
    destruct ch as [|l ch]; [|by eexists EvTake, _]. destruct disp as [l|]; [by eexists EvDispatch, _|done].
  - exists (EvFinish 0 None true true). cbn -[lookup_task].
    destruct (lookup_task _ _ _ _ _ _) as [f c]. by eexists.
Qed.

(** C13. The driver cannot get stuck: from every reachable state the work on
    what has been received ends after at most 1756 steps of the server, the
    driver and its tasks, in whatever order they run, and it ends only when
    nothing is held any more. *)
Theorem dns_driver_drains cache s : reachable allowed_destinations cache s →
  ∀ es s', forallb internal es = true → run es s = Some s' →
  (length es ≤ 1756)%nat ∧ (held s' = [] ∨ ∃ e s'', internal e = true ∧ step e s' = Some s'').
Proof.
  intros Hs%reachable_inv es s' He Hr.
  assert (length es + pending s' ≤ pending s ∧ driver_inv s')%nat as [Hl Hs'].
  { revert s Hs Hr. induction es as [|e es IH]; intros s Hs; cbn [driver_run]; [by intros [= ->]|].
    intros (s1 & H1 & Hr)%bind_Some. cbn in He. apply andb_true_iff in He as [He1 He2].
    pose proof (step_inv _ _ _ H1 Hs) as Hs1. apply internal_decreases in H1; [|done].
    destruct (IH He2 _ Hs1 Hr) as [Hl ?]. split; [cbn [length]; lia|done]. }
  split.
  - destruct Hs as [Hp Hc]. unfold pending, max_concurrent_requests, dns_channel_capacity in *.
    destruct (ds_dispatching s), (ds_waiting s); cbn -[Nat.add Nat.mul] in *; lia.
  - destruct (decide (held s' = [])) as [|Hn]; [by left|right]. by apply internal_enabled.
Qed.
End DriverProperties.

(** ** The override of the DNS servers *)

Section OverrideProperties.
Context {T : TtlLib} {D : DnsLib}.
Context (remote_dns_socket : IpAddr → bool) (exchange : IpAddr → bytes → option bytes).
Context (shuffle : nat → list IpAddr → list IpAddr).

(** An override none of whose entries is an address turns DNS off: the
    variable replaces the built-in servers by the empty list, and then no
    connection is ever read from or answered. *)
Theorem bad_dns_override_disables_dns env v allowed accepts cache :
  env !! DNS_SERVER_OVERRIDE_KEY = Some v → Forall (fun e => parse_ip e = None) (split "," v) →
  (∀ turn l, shuffle turn l ≡ₚ l) →
  DnsProxy_listen remote_dns_socket exchange shuffle 0 (dns_server_ips env) allowed accepts cache = (omap id accepts, cache).
Proof.
  intros Hv Hs Hp. assert (dns_server_ips env = []) as ->.
  { unfold dns_server_ips, read_dns_server_ips_from_env_var. rewrite Hv. cbn [fmap option_fmap option_map default].
    induction (split "," v) as [|e es IH]; [done|]. inversion Hs as [|? ? He Hes]; subst. cbn. rewrite He. by apply IH. }
  generalize 0%nat. induction accepts as [|[stream|] accepts IH]; intros turn; [done| |apply IH].
  cbn [DnsProxy_listen]. unfold dns_connection. rewrite (proj1 (Permutation_nil_r _) (Hp turn [])).
  cbn. by rewrite IH.
Qed.
End OverrideProperties.

(** ** Witnesses *)

(** A packet is its question. *)
#[local] Instance dns_plain : DnsLib := {
  packet_parse d := Some (mkPacket [String.string_of_list_ascii d] [])
}.

Definition empty_cache : IpCache := mkIpCache ttl_ref false ∅ 0.
Definition open_destinations : EgressDestinations := get_egress_allow_list "a.com".
Definition client : IpAddr * N := (V4 127 0 0 1, 5353%N).
Definition served_events : list DriverEvent :=
  [EvRecv (b "a.com") client; EvDispatch; EvRecv (b "b.com") client; EvTake; EvSpawn; EvDispatch;
   EvFinish 0 (Some (conn_of [b "1.2.3.4"])) true true].

Definition served_state : DriverState (T := ttl_ref) :=
  default (bind_server empty_cache) (driver_run open_destinations served_events (bind_server empty_cache)).

Lemma served_reachable : reachable open_destinations empty_cache served_state.
Proof.
  assert (driver_run open_destinations served_events (bind_server empty_cache) = Some served_state) as Hr
    by (vm_compute; reflexivity). revert Hr. generalize served_events, (reach_start open_destinations empty_cache).
  generalize (bind_server empty_cache). intros s es Hs. revert s Hs.
  induction es as [|e es IH]; intros s Hs; cbn [driver_run]; [by intros [= <-]|].
  intros (s1 & H1 & Hr)%bind_Some. by eapply IH, Hr; econstructor.
Defined.

Lemma dns_concurrency_bounded_witness :
  length (held served_state) = 1%nat ∧ ds_permits served_state + length (ds_tasks served_state) = max_concurrent_requests.
Proof.
  split; [vm_compute; reflexivity|].
  apply (dns_concurrency_bounded open_destinations empty_cache served_state served_reachable).
Defined.

Lemma dns_requests_accounted_witness :
  received served_events ≡ₚ held served_state ++ (ds_done served_state).*1 ∧
  answered_over open_destinations empty_cache served_events 0 (mkLookup (b "a.com") client) (b "1.2.3.4").
Proof.
  destruct (dns_requests_accounted open_destinations empty_cache served_events served_state) as [Hr Ha];
    [vm_compute; reflexivity|].
  split; [exact Hr|]. apply Ha. vm_compute. reflexivity.
Defined.

Definition resumed_state : DriverState (T := ttl_ref) :=
  default served_state (driver_run open_destinations [EvTake; EvSpawn] served_state).

Lemma dns_driver_drains_witness :
  length (ds_tasks resumed_state) = 1%nat ∧
  (held resumed_state = [] ∨ ∃ e s'', internal e = true ∧ driver_step open_destinations e resumed_state = Some s'').
Proof.
  split; [vm_compute; reflexivity|].
  apply (dns_driver_drains open_destinations empty_cache served_state served_reachable [EvTake; EvSpawn] resumed_state);
    vm_compute; reflexivity.
Defined.

Lemma bad_dns_override_disables_dns_witness :
  DnsProxy_listen (fun _ => true) (fun _ r => Some r) (fun _ l => l) 0
    (dns_server_ips {[DNS_SERVER_OVERRIDE_KEY := "dns.example"]}) open_destinations
    [Some (conn_of [b "a.com"]); None] empty_cache = ([conn_of [b "a.com"]], empty_cache).
Proof.
  apply (bad_dns_override_disables_dns (fun _ => true) (fun _ r => Some r) (fun _ l => l)
    {[DNS_SERVER_OVERRIDE_KEY := "dns.example"]} "dns.example" open_destinations
    [Some (conn_of [b "a.com"]); None] empty_cache).
  - apply lookup_singleton_eq.
  - repeat constructor.
  - intros turn l. reflexivity.
Defined.
