(* ===== verification/VsockProxy.v ===== *)
(** * The vsock proxy (crates/vsock-proxy)

    A command-line tool that listens on a TCP or vsock address and pipes every
    connection to an address of the other kind. The addresses are parsed from
    the arguments; clap's conflicts between them are the table of the source;
    the sockets are a class. *)
From Stdlib Require Import Ascii String NArith ZArith Lia.
From stdpp Require Import base strings list pretty.
From S2P Require Import Prelude Net Addr.
#[local] Open Scope string_scope.
#[local] Open Scope list_scope.
#[local] Open Scope enclave_scope.

(** ** Addresses (net.rs) *)

Inductive VsockParseError : Type :=
| InvalidAddress (tokens : nat)
| TokenParseError.

Inductive AddressError : Type :=
| TcpParseError
| VsockParse (e : VsockParseError).

Inductive Address : Type :=
| Vsock (cid port : N)
| Tcp (addr : SocketAddr).

#[export] Instance Address_eq_dec : EqDecision Address.
Proof. solve_decision. Defined.

Definition new_tcp_address (addr : string) : result AddressError Address :=
  let? socket_addr := ok_or (parse_socket_addr addr) TcpParseError in
  Ok (Tcp socket_addr).

Definition new_vsock_address (addr : string) : result AddressError Address :=
  let addr_parts := split ":" addr in
  if negb (Nat.eqb (length addr_parts) 2) then Err (VsockParse (InvalidAddress (length addr_parts)))
  else
    let? parsed_cid := ok_or (parse_unsigned u32_max (trim (nth 0 addr_parts ""))) (VsockParse TokenParseError) in
    let? parsed_port := ok_or (parse_unsigned u32_max (trim (nth 1 addr_parts ""))) (VsockParse TokenParseError) in
    Ok (Vsock parsed_cid parsed_port).

(** ** Sockets *)

(** tokio's and tokio_vsock's listeners and streams in a world [W]; [None] is
    an I/O error. *)
Class ProxySockets (W Listener Stream : Type) : Type := {
  tcp_bind : SocketAddr → W → option Listener * W;
  vsock_bind : N → N → W → option Listener * W;
  tcp_accept : Listener → W → option Stream * W;
  vsock_accept : Listener → W → option Stream * W;
  tcp_connect : SocketAddr → W → option Stream * W;
  vsock_connect : N → N → W → option Stream * W;
  copy_bidirectional : Stream → Stream → W → option unit * W
}.

Section Proxy.
Context {W Listener Stream : Type} {PS : ProxySockets W Listener Stream}.

(** [Connection] and [SourceConnection]: a stream or a listener and its kind. *)
Inductive Connection : Type :=
| ConnTcp (s : Stream)
| ConnVsock (s : Stream).

Inductive SourceConnection : Type :=
| SourceTcp (l : Listener)
| SourceVsock (l : Listener).

Definition stream_of (c : Connection) : Stream := match c with ConnTcp s | ConnVsock s => s end.

Definition io {A} (o : W → option A * W) : M W unit A := fun w =>
  let '(r, w') := o w in (match r with Some a => Ret a | None => Throw tt end, w').

Definition into_listener (a : Address) : M W unit SourceConnection :=
  match a with
  | Tcp tcp_addr => let! listener := io (tcp_bind tcp_addr) in mret (SourceTcp listener)
  | Vsock cid port => let! listener := io (vsock_bind cid port) in mret (SourceVsock listener)
  end.

Definition get_destination_connection (a : Address) : M W unit Connection :=
  match a with
  | Tcp tcp_addr => let! socket := io (tcp_connect tcp_addr) in mret (ConnTcp socket)
  | Vsock cid port => let! socket := io (vsock_connect cid port) in mret (ConnVsock socket)
  end.

Definition source_accept (s : SourceConnection) : M W unit Connection :=
  match s with
  | SourceTcp tcp_listener => let! accepted_conn := io (tcp_accept tcp_listener) in mret (ConnTcp accepted_conn)
  | SourceVsock vsock_listener => let! vsock_conn := io (vsock_accept vsock_listener) in mret (ConnVsock vsock_conn)
  end.

(** ** The program (main.rs) *)

Record Matches : Type := mkMatches {
  tcp_source : option string;
  tcp_destination : option string;
  vsock_source : option string;
  vsock_destination : option string
}.

(** The pairs declared with [conflicts_with]. *)
Definition conflicts (m : Matches) : bool :=
  let both (x y : option string) := is_some x && is_some y in
  both (tcp_source m) (vsock_source m) || both (tcp_destination m) (vsock_destination m)
  || both (tcp_destination m) (tcp_source m) || both (vsock_destination m) (vsock_source m).

Inductive ProxyExit : Type :=
| UsageError
| NoSource
| NoDestination
| BadSource (e : AddressError)
| BadDestination (e : AddressError)
| ListenFailed.

(** One turn of the loop: the turn ends when the piping has ended. *)
Definition proxy_turn (source : SourceConnection) (destination_address : Address) : M W unit unit :=
  let! accepted := mtry (F := unit) (source_accept source) in
  match accepted with
  | Err _ => mret tt
  | Ok accepted_conn =>
      let! dest := mtry (F := unit) (get_destination_connection destination_address) in
      match dest with
      | Err _ => mret tt
      | Ok destination =>
          let! _ := mtry (F := unit) (io (copy_bidirectional (stream_of accepted_conn) (stream_of destination))) in
          mret tt
      end
  end.

Fixpoint proxy_loop (turns : nat) (source : SourceConnection) (destination_address : Address) : M W unit unit :=
  match turns with
  | O => mret tt
  | S n => proxy_turn source destination_address ;! proxy_loop n source destination_address
  end.

(** Before the loop: the two addresses, or why the program ends. The two
    [expect]s are reached only when one of the options is there. *)
Definition parse_addresses (m : Matches) : exec ProxyExit (Address * Address) :=
  if conflicts m then Throw UsageError
  else if negb (is_some (tcp_source m)) && negb (is_some (vsock_source m)) then Throw NoSource
  else if negb (is_some (tcp_destination m)) && negb (is_some (vsock_destination m)) then Throw NoDestination
  else
    match (match tcp_source m with Some a => Some (new_tcp_address a) | None => new_vsock_address <$> vsock_source m end) with
    | None => Panic
    | Some (Err e) => Throw (BadSource e)
    | Some (Ok source_address) =>
        match (match tcp_destination m with Some a => Some (new_tcp_address a)
               | None => new_vsock_address <$> vsock_destination m end) with
        | None => Panic
        | Some (Err e) => Throw (BadDestination e)
        | Some (Ok destination_address) => Ret (source_address, destination_address)
        end
    end.

(** [turns] turns of the loop are watched. *)
Definition main (turns : nat) (m : Matches) : M W ProxyExit unit := fun w =>
  match parse_addresses m with
  | Throw e => (Throw e, w)
  | Panic => (Panic, w)
  | Ret (source_address, destination_address) =>
      match into_listener source_address w with
      | (Ret source, w') =>
          match proxy_loop turns source destination_address w' with
          | (Ret _, w'') => (Ret tt, w'')
          | (Throw _, w'') | (Panic, w'') => (Panic, w'')
          end
      | (Throw _, w') => (Throw ListenFailed, w')
      | (Panic, w') => (Panic, w')
      end
  end.
End Proxy.

(** ** Properties *)

Definition is_vsock (a : Address) : bool := match a with Vsock _ _ => true | Tcp _ => false end.

Definition print_vsock (cid port : N) : string := pretty cid +:+ String ":" (pretty port).

(** A vsock address is read as it is printed: the two numbers of CID:PORT
    come back when both fit 32 bits, and otherwise the address is rejected. *)
Theorem vsock_address_roundtrip cid port :
  new_vsock_address (print_vsock cid port) =
    if (cid <=? u32_max)%N && (port <=? u32_max)%N then Ok (Vsock cid port) else Err (VsockParse TokenParseError).
Proof.
  unfold new_vsock_address, print_vsock. pose proof (pretty_numeral cid) as Hc. pose proof (pretty_numeral port) as Hp.
  rewrite split_app by (by apply numeral_no_char). rewrite split_no_char by (by apply numeral_no_char).
  cbn [length Nat.eqb negb nth]. rewrite !trim_numeral, !parse_unsigned_pretty by done.
  by destruct (cid <=? u32_max)%N, (port <=? u32_max)%N.
Qed.

Lemma new_tcp_is_tcp s a : new_tcp_address s = Ok a → is_vsock a = false.
Proof. unfold new_tcp_address. destruct (parse_socket_addr s); [|done]. by intros [= <-]. Qed.

Lemma new_vsock_is_vsock s a : new_vsock_address s = Ok a → is_vsock a = true.
Proof.
  unfold new_vsock_address. destruct (negb _); [done|]. destruct (parse_unsigned _ _); [|done].
  destruct (parse_unsigned _ _); [|done]. by intros [= <-].
Qed.

Section ProxyProperties.
Context {W Listener Stream : Type} {PS : ProxySockets W Listener Stream}.

Lemma io_cases {A} (o : W → option A * W) w r w' : io o w = (r, w') → r ≠ Panic.
Proof. unfold io. destruct (o w) as [[a|] w1]; by intros [= <- _]. Qed.

Lemma turn_returns source dst (w : W) : ∃ w', proxy_turn source dst w = (Ret tt, w').
Proof.
  unfold proxy_turn, Prelude.mbind at 1, mtry at 1.
  assert (∀ r w', source_accept source w = (r, w') → r ≠ Panic) as Ha.
  { intros r w'. destruct source; intros (r0 & w1 & H0%io_cases & Hr)%mbind_cases;
      (destruct r0; [by injection Hr as <- _|by destruct Hr as [-> _]|done]). }
  destruct (source_accept source w) as [[c|e|] w1]; [|by eexists|by edestruct Ha]. unfold Prelude.mbind at 1, mtry at 1.
  assert (∀ r w', get_destination_connection dst w1 = (r, w') → r ≠ Panic) as Hd.
  { intros r w'. destruct dst; intros (r0 & w2 & H0%io_cases & Hr)%mbind_cases;
      (destruct r0; [by injection Hr as <- _|by destruct Hr as [-> _]|done]). }
  destruct (get_destination_connection dst w1) as [[c'|e|] w2]; [|by eexists|by edestruct Hd].
  unfold Prelude.mbind at 1, mtry at 1.
  destruct (io (copy_bidirectional (stream_of c) (stream_of c')) w2) as [[x|e|] w3] eqn:Ec; [by eexists..|].
  by apply io_cases in Ec.
Qed.

Lemma loop_returns turns source dst (w : W) : ∃ w', proxy_loop turns source dst w = (Ret tt, w').
Proof.
  revert w. induction turns as [|n IH]; intros w; [by eexists|]. cbn [proxy_loop]. unfold Prelude.mbind.
  destruct (turn_returns source dst w) as [w1 ->]. apply IH.
Qed.

(** The tool bridges: it never panics, and when it serves, it listens on
    one kind of address and connects to the other, both as given by the
    arguments; a single failing connection does not end it. *)
Theorem vsock_proxy_bridges turns m (w w' : W) r : main turns m w = (r, w') →
  r ≠ Panic ∧ (r = Ret tt → ∃ src dst, parse_addresses m = Ret (src, dst) ∧ is_vsock dst = negb (is_vsock src)) ∧
  (∀ src dst l w1, parse_addresses m = Ret (src, dst) → into_listener src w = (Ret l, w1) → r = Ret tt).
Proof.
  unfold main. destruct (parse_addresses m) as [[src dst]|e|] eqn:Ea.
  - assert (is_vsock dst = negb (is_vsock src)) as Hb.
    { revert Ea. unfold parse_addresses, conflicts. destruct m as [[ts|] [td|] [vs|] [vd|]]; cbn; try done.
      - destruct (new_tcp_address ts) eqn:E1; [|done]. destruct (new_vsock_address vd) eqn:E2; [|done].
        intros [= <- <-]. by rewrite (new_tcp_is_tcp _ _ E1), (new_vsock_is_vsock _ _ E2).
      - destruct (new_vsock_address vs) eqn:E1; [|done]. destruct (new_tcp_address td) eqn:E2; [|done].
        intros [= <- <-]. by rewrite (new_vsock_is_vsock _ _ E1), (new_tcp_is_tcp _ _ E2). }
    destruct (into_listener src w) as [[l|e|] w1] eqn:El.
    + destruct (loop_returns turns l dst w1) as [w2 ->]. intros [= <- <-]. split_and!; [done| |done].
      intros _. by exists src, dst.
    + intros [= <- <-]. split_and!; [done..|]. intros ???? [= <- <-]. by rewrite El.
    + exfalso. destruct src; apply mbind_cases in El as (r0 & w2 & H0%io_cases & Hr);
        (destruct r0; [by injection Hr as ? _|by destruct Hr as [? _]|done]).
  - intros [= <- <-]. by split_and!.
  - exfalso. revert Ea. unfold parse_addresses, conflicts. destruct m as [[ts|] [td|] [vs|] [vd|]]; cbn; try done.
    + destruct (new_tcp_address ts); [|done]. by destruct (new_vsock_address vd).
    + destruct (new_vsock_address vs); [|done]. by destruct (new_tcp_address td).
Qed.
End ProxyProperties.

(** ** Witness: every socket works, the world counts the pipes *)

#[local] Instance counting_sockets : ProxySockets nat unit unit := {
  tcp_bind _ w := (Some tt, w);
  vsock_bind _ _ w := (Some tt, w);
  tcp_accept _ w := (Some tt, w);
  vsock_accept _ w := (Some tt, w);
  tcp_connect _ w := (Some tt, w);
  vsock_connect _ _ w := (Some tt, w);
  copy_bidirectional _ _ w := (Some tt, S w)
}.

Lemma vsock_proxy_bridges_witness :
  main 2 (mkMatches (Some "127.0.0.1:443") None None (Some "3:8008")) 0 = (Ret tt, 2%nat) ∧
  ∃ src dst, parse_addresses (mkMatches (Some "127.0.0.1:443") None None (Some "3:8008")) = Ret (src, dst) ∧
    is_vsock dst = negb (is_vsock src).
Proof.
  split; [vm_compute; reflexivity|].
  apply (vsock_proxy_bridges (W := nat) (Listener := unit) (Stream := unit) 2
    (mkMatches (Some "127.0.0.1:443") None None (Some "3:8008")) 0 2 (Ret tt)); vm_compute; reflexivity.
Defined.
