(* ===== verification/Provisioner.v ===== *)
(** * The control plane's client of the certificate provisioner

    control-plane/src/clients/mtls_config.rs (the certificates of the mutually
    authenticated connection, from the environment) and cert_provisioner.rs
    (tokens for the enclave), and the path of a token to the data plane through
    the configuration server. rustls_pemfile, rustls, TCP and hyper are a class. *)
From Stdlib Require Import Ascii String NArith ZArith Lia.
From stdpp Require Import base countable gmap strings list pretty.
From S2P Require Import Prelude Libs Net Addr Egress Context Logging E3 Jws CpError Config ConfigRef.
#[local] Open Scope string_scope.
#[local] Open Scope list_scope.
#[local] Open Scope enclave_scope.

(** A certificate and a key in DER. *)
Record Certificate : Type := mkCertificate { cert_der : bytes }.
Record PrivateKey : Type := mkPrivateKey { key_der : bytes }.

(** ** Certificates of the connection (mtls_config.rs) *)

(** [rustls_pemfile]: the sections of a kind in a PEM text, or its error. *)
Class PemFile : Type := {
  pem_certs : bytes → result string (list bytes);
  pem_pkcs8_private_keys : bytes → result string (list bytes)
}.

Record CertProvisionerMtlsCerts : Type := mkMtlsCerts {
  root_certificate : Certificate;
  client_key_pair : list Certificate * PrivateKey
}.

Section MtlsConfig.
Context {PF : PemFile}.

Definition parse_client_certs (client_cert_raw : bytes) : result ServerError (list Certificate) :=
  let? certs := map_err (fun err => SeCertProvisionerMtls
      ("Couldn't parse cert-provisioner client cert. Error:   " +:+ err))
    (let? certs := pem_certs client_cert_raw in Ok (mkCertificate <$> certs)) in
  match certs with
  | [] => Err (SeCertProvisionerMtls "No client certs present in input to parse.")
  | _ => Ok certs
  end.

Definition parse_client_key (client_key_raw : bytes) : result ServerError PrivateKey :=
  let? parsed_keys := map_err (fun err => SeCertProvisionerMtls
      ("Couldn't parse cert-provisioner client key from secrets. Error: " +:+ err))
    (pem_pkcs8_private_keys client_key_raw) in
  match parsed_keys with
  | [] => Err (SeCertProvisionerMtls "No client key present in input to parse.")
  | key :: _ => Ok (mkPrivateKey key)
  end.

Definition parse_root_cert (root_cert_raw : bytes) : result ServerError Certificate :=
  let? certs := map_err (fun err => SeCertProvisionerMtls
      ("Couldn't parse cert-provisioner root cert. Error: " +:+ err))
    (let? certs := pem_certs root_cert_raw in Ok (mkCertificate <$> certs)) in
  match certs with
  | [cert] => Ok cert
  | _ => Err (SeCertProvisionerMtls "Expected only a single root cert. ")
  end.

Definition get_cert_provisioner_mtls_cert_env (env : string → option string) : option string :=
  env "CERT_PROVISIONER_MTLS_CLIENT_CERT".
Definition get_cert_provisioner_mtls_key_env (env : string → option string) : option string :=
  env "CERT_PROVISIONER_MTLS_CLIENT_KEY".
Definition get_cert_provisioner_mtls_root_cert_env (env : string → option string) : option string :=
  env "CERT_PROVISIONER_MTLS_ROOT_CERT".

Definition mtls_from_env_vars (env : string → option string) : result ServerError CertProvisionerMtlsCerts :=
  let? client_certs_raw := ok_or (get_cert_provisioner_mtls_cert_env env) SeEnv in
  let? client_key_raw := ok_or (get_cert_provisioner_mtls_key_env env) SeEnv in
  let? root_certificate_raw := ok_or (get_cert_provisioner_mtls_root_cert_env env) SeEnv in
  let? client_certs_parsed := parse_client_certs (b client_certs_raw) in
  let? client_key_parsed := parse_client_key (b client_key_raw) in
  let? root_certificate_parsed := parse_root_cert (b root_certificate_raw) in
  Ok (mkMtlsCerts root_certificate_parsed (client_certs_parsed, client_key_parsed)).

Definition root_cert (c : CertProvisionerMtlsCerts) : Certificate := root_certificate c.
End MtlsConfig.

(** ** The client (cert_provisioner.rs) *)

Definition CERT_PROVISIONER_MTLS_PORT : Z := 3443.

Record GetCertTokenRequestControlPlane : Type := mkTokenRequest {
  tr_cage_uuid : string;
  tr_version_id : Z;
  tr_cage_name : string;
  tr_app_uuid : string;
  tr_team_uuid : string
}.

Record GetCertTokenResponseControlPlane : Type := mkCpCertToken { cct_token : string }.
Record GetE3TokenResponseControlPlane : Type := mkCpE3Token { cet_token : string; cet_token_id : string }.

(** [expect]: a missing or malformed variable panics. *)
Definition get_token_request_metadata_from_env (env : string → option string) :
    option GetCertTokenRequestControlPlane :=
  uuid ← env "CAGE_UUID";
  version ← env "EV_CAGE_VERSION_ID";
  version_id ← parse_i32 version;
  name ← env "EV_CAGE_NAME";
  app_uuid ← env "EV_APP_UUID";
  team_uuid ← env "EV_TEAM_UUID";
  Some (mkTokenRequest uuid version_id name app_uuid team_uuid).

(** rustls, TCP and hyper in a world [PW]; [None] is an error. A response is
    its status and its body ([None]: it cannot be read). *)
Class MtlsNet {H : HttpLib} (PW : Type) : Type := {
  TlsConnector : Type;
  TcpStream : Type;
  TlsStream : Type;
  SendRequest : Type;
  with_mtls : Certificate → list Certificate → PrivateKey → option TlsConnector;
  mn_connect : string → PW → option TcpStream * PW;
  mn_secure : TlsConnector → string → TcpStream → PW → option TlsStream * PW;
  mn_handshake : TlsStream → PW → option SendRequest * PW;
  mn_send : SendRequest → Outgoing → PW → option (N * option bytes) * PW
}.

Section CertProvisioner.
Context {H : HttpLib} {PW : Type} {MN : MtlsNet PW}.
Context (env : string → option string).
Context (CLIENT_VERSION CLIENT_MAJOR_VERSION : string).
(** Whether the http crate takes the URI, and the text of a status. *)
Context (uri_ok : string → bool) (status_text : N → string).

Definition PM : Type → Type := M PW ServerError.

Definition or_error {A} (e : ServerError) (o : PW → option A * PW) : PM A := fun w =>
  let '(r, w') := o w in (match r with Some a => Ret a | None => Throw e end, w').

Definition get_socket : PM TcpStream :=
  or_error SeIo (mn_connect (get_cert_provisoner_host env +:+ ":" +:+ pretty CERT_PROVISIONER_MTLS_PORT)).

Record CertProvisionerClient : Type := mkProvClient { mtls_connector : TlsConnector; prov_server_name : string }.

(** [expect] on the certificates. *)
Definition get_mtls_connector (root_certificate : Certificate) (client_key_pair : list Certificate * PrivateKey) :
    option TlsConnector := with_mtls root_certificate client_key_pair.1 client_key_pair.2.

Definition CertProvisionerClient_new (client_key_pair : list Certificate * PrivateKey)
    (root_certificate : Certificate) : option CertProvisionerClient :=
  connector ← get_mtls_connector root_certificate client_key_pair;
  Some (mkProvClient connector (get_cert_provisoner_host env)).

Definition construct_uri (port : Z) (path : string) : string :=
  "https://" +:+ get_cert_provisoner_host env +:+ ":" +:+ pretty port +:+ path.

Definition get_connection (self : CertProvisionerClient) : PM SendRequest :=
  let! client_connection := get_socket in
  let! connection := or_error SeIo (mn_secure (mtls_connector self) (prov_server_name self) client_connection) in
  or_error SeHyper (mn_handshake connection).

Definition prov_headers : HeaderMap :=
  let h := hm_append hm_empty "content-type" (b "application/json") in
  let h := hm_append h "user-agent" (b ("Cage-Control-Plane/" +:+ CLIENT_VERSION)) in
  hm_append h "accept" (b ("application/json;version=" +:+ CLIENT_MAJOR_VERSION)).

Definition prov_send (self : CertProvisionerClient) (path method : string) (body : bytes) : PM (option bytes) :=
  let uri := construct_uri CERT_PROVISIONER_MTLS_PORT path in
  if uri_ok uri then
    let request := mkOutgoing method uri prov_headers body in
    let! request_sender := get_connection self in
    let! (status, response) := or_error SeHyper (mn_send request_sender request) in
    if is_success status then mret response else mthrow (SeFailedRequest (status_text status))
  else mpanic.

Definition prov_parse_response {T} {C : Codec T} (response : option bytes) : PM T :=
  let! response_body := mlift (ok_or response SeHyper) in
  mlift (ok_or (dec response_body) SeJson).

Context {CR : Codec GetCertTokenRequestControlPlane}.

Definition prov_get_token {T} {C : Codec T} (self : CertProvisionerClient) (path : ConfigServerPath) : PM T :=
  match get_token_request_metadata_from_env env with
  | None => mpanic
  | Some metadata =>
      let body := enc metadata in
      let! response := prov_send self (ConfigServerPath_display path) "GET" body in
      prov_parse_response response
  end.
End CertProvisioner.

(** ** Properties *)

(** The identity the environment gives the enclave. *)
Definition own_metadata (env : string → option string) (m : GetCertTokenRequestControlPlane) : Prop :=
  env "CAGE_UUID" = Some (tr_cage_uuid m) ∧ env "EV_CAGE_NAME" = Some (tr_cage_name m) ∧
  env "EV_APP_UUID" = Some (tr_app_uuid m) ∧ env "EV_TEAM_UUID" = Some (tr_team_uuid m) ∧
  ∃ v, env "EV_CAGE_VERSION_ID" = Some v ∧ parse_i32 v = Some (tr_version_id m).

Lemma metadata_own env m : get_token_request_metadata_from_env env = Some m → own_metadata env m.
Proof.
  unfold get_token_request_metadata_from_env.
  intros (u & Hu & (v & Hv & (i & Hi & (n & Hn & (a & Ha & (t & Ht & [= <-])%bind_Some)%bind_Some)%bind_Some)%bind_Some)%bind_Some)%bind_Some.
  unfold own_metadata. cbn. eauto 10.
Qed.

Section MtlsProperties.
Context {PF : PemFile}.

Lemma client_certs_ok raw l : parse_client_certs raw = Ok l → pem_certs raw = Ok (cert_der <$> l) ∧ l ≠ [].
Proof.
  unfold parse_client_certs. destruct (pem_certs raw) as [certs|e]; [|done]. cbn.
  destruct certs as [|c certs]; [done|]. intros [= <-]. cbn. split; [|done]. f_equal. f_equal.
  rewrite <-list_fmap_compose. by rewrite list_fmap_id.
Qed.

(** The certificates used come from the environment: all the client
    certificates of the variable and at least one, its first key, and the only
    root certificate. *)
Theorem mtls_certs_complete env c : mtls_from_env_vars env = Ok c →
  ∃ certs key root, env "CERT_PROVISIONER_MTLS_CLIENT_CERT" = Some certs ∧
    env "CERT_PROVISIONER_MTLS_CLIENT_KEY" = Some key ∧ env "CERT_PROVISIONER_MTLS_ROOT_CERT" = Some root ∧
    pem_certs (b certs) = Ok (cert_der <$> (client_key_pair c).1) ∧ (client_key_pair c).1 ≠ [] ∧
    (∃ keys, pem_pkcs8_private_keys (b key) = Ok (key_der (client_key_pair c).2 :: keys)) ∧
    pem_certs (b root) = Ok [cert_der (root_cert c)].
Proof.
  unfold mtls_from_env_vars, get_cert_provisioner_mtls_cert_env, get_cert_provisioner_mtls_key_env,
    get_cert_provisioner_mtls_root_cert_env.
  destruct (env "CERT_PROVISIONER_MTLS_CLIENT_CERT") as [certs|]; [|done].
  destruct (env "CERT_PROVISIONER_MTLS_CLIENT_KEY") as [key|]; [|done].
  destruct (env "CERT_PROVISIONER_MTLS_ROOT_CERT") as [root|]; [|done]. cbn [ok_or rbind].
  destruct (parse_client_certs (b certs)) as [l|] eqn:El; [|done]. cbn [rbind]. apply client_certs_ok in El as [El Hl].
  destruct (parse_client_key (b key)) as [k|] eqn:Ek; [|done]. cbn [rbind].
  destruct (parse_root_cert (b root)) as [r|] eqn:Er; [|done]. intros [= <-]. exists certs, key, root. cbn.
  split_and!; [done..| |].
  - unfold parse_client_key in Ek. destruct (pem_pkcs8_private_keys (b key)) as [[|k' ks]|]; cbn in Ek; simplify_eq.
    by exists ks.
  - unfold parse_root_cert in Er. destruct (pem_certs (b root)) as [[|r' [|r2 rs]]|]; cbn in Er; by simplify_eq.
Qed.
End MtlsProperties.

Section TokenProperties.
Context {H : HttpLib} {PW : Type} {MN : MtlsNet PW}.
Context (env : string → option string) (CLIENT_VERSION CLIENT_MAJOR_VERSION : string).
Context (uri_ok : string → bool) (status_text : N → string).
Context {CR : Codec GetCertTokenRequestControlPlane}.
#[local] Notation headers := (prov_headers CLIENT_VERSION CLIENT_MAJOR_VERSION).

(** [t] is what the provisioner answered to a request for [path] with the
    enclave's own identity, sent over a connection secured with the client's
    certificates under the provisioner's name. *)
Definition issued {T} {C : Codec T} (client : CertProvisionerClient) (path : ConfigServerPath) (t : T) : Prop :=
  ∃ metadata socket tls sender status body x1 x2 y1 y2 z1 z2,
    own_metadata env metadata ∧
    mn_secure (mtls_connector client) (prov_server_name client) socket x1 = (Some tls, x2) ∧
    mn_handshake tls y1 = (Some sender, y2) ∧
    mn_send sender (mkOutgoing "GET" (construct_uri env CERT_PROVISIONER_MTLS_PORT (ConfigServerPath_display path))
      headers (enc metadata)) z1 = (Some (status, Some body), z2) ∧
    is_success status = true ∧ dec body = Some t.

Lemma or_error_ret {A} e (o : PW → option A * PW) w a w' : or_error e o w = (Ret a, w') → o w = (Some a, w').
Proof. unfold or_error. destruct (o w) as [[x|] w1]; by intros [= <- <-]. Qed.

Lemma get_token_issued {T} {C : Codec T} client path w (t : T) w' :
  prov_get_token env CLIENT_VERSION CLIENT_MAJOR_VERSION uri_ok status_text client path w = (Ret t, w') →
  issued client path t.
Proof.
  unfold prov_get_token. destruct (get_token_request_metadata_from_env env) as [m|] eqn:Em; [|done].
  intros (resp & w1 & Hs & Hp)%mbind_inv. unfold prov_send in Hs. destruct (uri_ok _); [|done].
  apply mbind_inv in Hs as (sender & w2 & Hc & ([status r] & w3 & Hsend%or_error_ret & Hs)%mbind_inv).
  destruct (is_success status) eqn:Est; [|done]. injection Hs as -> ->.
  apply mbind_inv in Hp as (body & w4 & [->%ok_or_ok ->]%mlift_ok & [Hd%ok_or_ok ->]%mlift_ok).
  apply mbind_inv in Hc as (sock & w5 & _ & (tls & w6 & Hsec%or_error_ret & Hh%or_error_ret)%mbind_inv).
  exists m, sock, tls, sender, status, body. do 6 eexists. split_and!; [by apply metadata_own|done..].
Qed.

(** *** Through the configuration server *)

Context {SW : Type} {ST : StorageClient SW} {O : OpenSsl}.
Context `{Codec GetCertTokenResponse, Codec GetE3TokenResponse, Codec GetClockSyncResponse,
  Codec PostTrxLogsRequest, Codec GetObjectRequest, Codec GetObjectResponse, Codec PutObjectRequest,
  Codec DeleteObjectRequest, Codec JwsRequest, Codec JwsResult, Codec Jwk}.
Context {C1 : Codec GetCertTokenResponseControlPlane} {C2 : Codec GetE3TokenResponseControlPlane}.
Context (client : CertProvisionerClient) (server_text : ServerError → string).
Context (trx_json : TrxContext → option string) (token_error : TokenType → string → string).
Context (now : result string (N * N)) (account : AcmeAccountDetails) (staging : bool) (b64 : bytes → string).
Context (header_json : JwsHeader → option string) (parse_order : string → option NewOrderPayload).
Context (display_acme : AcmeError → string) (ctx : CpContext).

(** The two calls of [config_server::get_token]. *)
Definition cert_token_from_provisioner : M PW string GetCertTokenResponse :=
  let! t := mmap_err server_text (prov_get_token (T := GetCertTokenResponseControlPlane) env CLIENT_VERSION
    CLIENT_MAJOR_VERSION uri_ok status_text client GetCertToken) in
  mret (mkCertToken (cct_token t)).

Definition e3_token_from_provisioner : M PW string GetE3TokenResponse :=
  let! t := mmap_err server_text (prov_get_token (T := GetE3TokenResponseControlPlane) env CLIENT_VERSION
    CLIENT_MAJOR_VERSION uri_ok status_text client GetE3Token) in
  mret (mkE3Token (cet_token t) (cet_token_id t)).

#[local] Notation exchange := (to_server (SW := SW) trx_json cert_token_from_provisioner e3_token_from_provisioner
  token_error now account staging b64 header_json parse_order display_acme server_text ctx).

Lemma map_err_ret {W E F A} (f : E → F) (m : M W E A) w a w' : mmap_err f m w = (Ret a, w') → m w = (Ret a, w').
Proof. unfold mmap_err. destruct (m w) as [[]]; by intros [= <- <-]. Qed.

Lemma on_prov_ret {A} (m : M PW string A) (w : CpWorld (SW := SW) (PW := PW)) a w' : on_prov m w = (Ret a, w') →
  ∃ x x', m x = (Ret a, x').
Proof. unfold on_prov. destruct (m (w_provisioner w)) as [r x] eqn:Em. intros [= -> _]. by eexists _, _. Qed.

(** What a token handler answers with success. *)
Lemma token_answer ty (w w' : CpWorld (SW := SW) (PW := PW)) res :
  handle_token_request cert_token_from_provisioner e3_token_from_provisioner token_error ty w = (Ret res, w') →
  status_success (cs_status res) = true →
  match ty with
  | Cert _ => ∃ t x x', cert_token_from_provisioner x = (Ret t, x') ∧ cs_body res = Some (enc t)
  | E3Tok _ => ∃ t x x', e3_token_from_provisioner x = (Ret t, x') ∧ cs_body res = Some (enc t)
  end.
Proof.
  intros (r & w1 & Hm & Hr)%mbind_inv Hs. unfold mtry in Hm.
  destruct (Config.get_token _ _ ty w) as [[res'|e|] w2] eqn:Eg; simplify_eq; [|by injection Hr as <- _].
  injection Hr as <- <-. apply mbind_inv in Eg as (body & w3 & Hb & Hr). injection Hr as <- <-.
  destruct ty as [p|p]; apply mbind_inv in Hb as ([] & w4 & (x & x' & Hx)%on_prov_ret & Hb); injection Hb as <- <-;
    by eexists _, x, x'.
Qed.

Lemma token_exchange path ty w res w' : ConfigServerPath_from_str (ConfigServerPath_display path) = Some path →
  (path = GetCertToken ∧ ty = Cert GetCertToken ∨ path = GetE3Token ∧ ty = E3Tok GetE3Token) →
  cfg_send exchange path "GET" [] w = (Ret res, w') →
  handle_token_request cert_token_from_provisioner e3_token_from_provisioner token_error ty w = (Ret res, w').
Proof.
  intros Hp Ht. unfold cfg_send, to_server, handle_incoming_request. cbn [cq_path]. rewrite Hp.
  destruct Ht as [[-> ->]|[-> ->]]; destruct (handle_token_request _ _ _ _ w) as [[]]; by intros [= <- <-].
Qed.

Lemma parsed_response {T} {C : Codec T} res (x : T) (w : CpWorld (SW := SW) (PW := PW)) t w' : cs_body res = Some (enc x) →
  parse_response (T := T) res w = (Ret t, w') → t = x.
Proof.
  intros Hb. unfold parse_response, Prelude.mbind. rewrite Hb. cbn [ok_or mlift mret]. rewrite dec_enc. by intros [= <- _].
Qed.

(** C31. The tokens the enclave starts with were issued to it: a token the data
    plane gets from the configuration server is the one the provisioner
    answered to a request that named this very enclave, over a connection
    secured with the control plane's certificates; with any other answer the
    data plane gets an error. *)
Theorem enclave_tokens_are_issued (w w' : CpWorld (SW := SW) (PW := PW)) :
  (∀ t, get_cert_token exchange w = (Ret t, w') →
    issued client GetCertToken (mkCpCertToken (ct_token t))) ∧
  (∀ t, get_e3_token exchange w = (Ret t, w') →
    issued client GetE3Token (mkCpE3Token (et_token t) (et_token_id t))).
Proof.
  split; intros t (res & w1 & Hx & Hr)%mbind_inv; (destruct (status_success (cs_status res)) eqn:Es; [|done]).
  - eapply (token_exchange _ (Cert GetCertToken)) in Hx; [|done|by left].
    apply token_answer in Hx as (t' & x & x' & Hx & Hb); [|done]. eapply parsed_response in Hr as ->; [|exact Hb].
    apply mbind_inv in Hx as (c & x1 & Hx%map_err_ret & Hc). injection Hc as <- _.
    apply get_token_issued in Hx. by destruct c.
  - eapply (token_exchange _ (E3Tok GetE3Token)) in Hx; [|done|by right].
    apply token_answer in Hx as (t' & x & x' & Hx & Hb); [|done]. eapply parsed_response in Hr as ->; [|exact Hb].
    apply mbind_inv in Hx as (c & x1 & Hx%map_err_ret & Hc). injection Hc as <- _.
    apply get_token_issued in Hx. by destruct c.
Qed.
End TokenProperties.

(** ** Witness: a provisioner that answers with its own tokens *)

#[local] Instance token_request_eq : EqDecision GetCertTokenRequestControlPlane. Proof. solve_decision. Defined.
#[local] Instance cp_cert_token_eq : EqDecision GetCertTokenResponseControlPlane. Proof. solve_decision. Defined.
#[local] Instance cp_e3_token_eq : EqDecision GetE3TokenResponseControlPlane. Proof. solve_decision. Defined.
#[local] Instance token_request_c : Countable GetCertTokenRequestControlPlane.
Proof.
  by refine (inj_countable' (fun t => (tr_cage_uuid t, tr_version_id t, tr_cage_name t, tr_app_uuid t, tr_team_uuid t))
    (fun '(x, y, z, u, v) => mkTokenRequest x y z u v) _); intros [].
Defined.
#[local] Instance cp_cert_token_c : Countable GetCertTokenResponseControlPlane.
Proof. by refine (inj_countable' cct_token mkCpCertToken _); intros []. Defined.
#[local] Instance cp_e3_token_c : Countable GetE3TokenResponseControlPlane.
Proof. by refine (inj_countable' (fun t => (cet_token t, cet_token_id t)) (fun '(x, y) => mkCpE3Token x y) _); intros []. Defined.

Definition toy_net : MtlsNet (H := http_ref) unit := {|
  TlsConnector := unit;
  TcpStream := unit;
  TlsStream := unit;
  SendRequest := unit;
  with_mtls _ _ _ := Some tt;
  mn_connect _ w := (Some tt, w);
  mn_secure _ _ _ w := (Some tt, w);
  mn_handshake _ w := (Some tt, w);
  mn_send _ r w :=
    (Some (200%N, Some (if contains (o_uri r) "/cert/token" then enc (mkCpCertToken "c") else enc (mkCpE3Token "e" "1"))), w)
|}.

Definition toy_env (v : string) : option string :=
  if String.eqb v "EV_CAGE_VERSION_ID" then Some "3" else if String.eqb v "RUST_ENV" then None else Some "x".

Definition toy_client : CertProvisionerClient (MN := toy_net) := mkProvClient (MN := toy_net) tt "localhost".

Definition toy_exchange := to_server (SW := gmap string string) (O := toy_ssl) (fun _ => None)
  (cert_token_from_provisioner (MN := toy_net) toy_env "1.0" "1" (fun _ => true) (fun _ => "") toy_client (fun _ => "e"))
  (e3_token_from_provisioner (MN := toy_net) toy_env "1.0" "1" (fun _ => true) (fun _ => "") toy_client (fun _ => "e"))
  (fun _ e => e) (Ok (12, 34)%N) toy_account false String.string_of_list_ascii (fun h => Some (h_url h)) toy_order
  (fun _ => "acme") (fun _ => "e") (enclave_of "one").

Lemma enclave_tokens_are_issued_witness :
  get_cert_token toy_exchange empty_world = (Ret (mkCertToken "c"), empty_world) ∧
  issued (MN := toy_net) toy_env "1.0" "1" toy_client GetCertToken (mkCpCertToken "c").
Proof.
  assert (get_cert_token toy_exchange empty_world = (Ret (mkCertToken "c"), empty_world)) as He
    by (vm_compute; reflexivity).
  split; [exact He|].
  apply (enclave_tokens_are_issued (MN := toy_net) toy_env "1.0" "1" (fun _ => true) (fun _ => "") (O := toy_ssl)
    toy_client (fun _ => "e") (fun _ => None) (fun _ e => e) (Ok (12, 34)%N) toy_account false
    String.string_of_list_ascii (fun h => Some (h_url h)) toy_order (fun _ => "acme") (enclave_of "one")
    empty_world empty_world) in He. exact He.
Defined.
