(* ===== verification/Listeners.v ===== *)
(** * Listeners

    shared/src/server/{mod,tcp,vsock}.rs: the addresses of the two planes and
    the servers that accept connections, with and without the proxy protocol;
    the TLS server's [accept] (data-plane/src/server/tls/tls_server.rs) and the
    accept loop of data-plane/src/server/server.rs. Accepting reads from the
    connection (the proxy-protocol header, the TLS handshake), so it can wait
    for the peer: [Waiting] is an [accept] that does not return. *)
From Stdlib Require Import Ascii String NArith ZArith Lia.
From stdpp Require Import base strings list.
From S2P Require Import Prelude Net Context ProxyProtocol.
#[local] Open Scope string_scope.
#[local] Open Scope list_scope.
#[local] Open Scope enclave_scope.

(** ** Addresses *)

Inductive CID : Type := Parent | Enclave.

Definition ENCLAVE_CID : N := 2021.
Definition PARENT_CID : N := 3.

(** The context identifier a server binds to and a client connects to. *)
Definition context_id (cid : CID) : N := match cid with Parent => PARENT_CID | Enclave => ENCLAVE_CID end.

Definition get_vsock_server (port : N) (cid : CID) : N * N := (context_id cid, port).
Definition get_vsock_server_with_proxy_protocol (port : N) (cid : CID) : N * N := (context_id cid, port).
Definition get_vsock_client (port : N) (cid : CID) : N * N := (context_id cid, port).

Definition ENCLAVE_CONNECT_PORT : N := 7777.

(** ** Accepting *)

(** A connection the peer has opened: what it has sent so far, and whether it
    keeps the connection open without sending more. *)
Record Incoming : Type := mkIncoming { in_conn : Conn; in_open : bool }.

Inductive Accepted (A : Type) : Type :=
| Got (a : A)
| Failed
| Crashed
| Waiting.
#[global] Arguments Got {A} a.
#[global] Arguments Failed {A}.
#[global] Arguments Crashed {A}.
#[global] Arguments Waiting {A}.

(** [TcpServer] and [VsockServer]: the stream as it is. [None] is an error of
    the listener. *)
Definition plain_accept (o : option Incoming) : Accepted Incoming :=
  match o with Some i => Got i | None => Failed end.

Section ProxyProtocolServer.
Context (parse : bytes → PPResult).

(** [TcpServerWithProxyProtocol] and [VsockServerWithProxyProtocol]: the read
    that would find the end of what was sent waits while the peer is there. *)
Definition proxied_accept (o : option Incoming) : Accepted (AcceptedConn * bool) :=
  match plain_accept o with
  | Got i =>
      match try_parse_proxy_protocol parse (in_conn i) with
      | (Ret proxy_protocol_conn, _) => Got (proxy_protocol_conn, in_open i)
      | (Throw UnexpectedEOF, _) => if in_open i then Waiting else Failed
      | (Throw PPIo, _) => Failed
      | (Panic, _) => Crashed
      end
  | Failed => Failed
  | Crashed => Crashed
  | Waiting => Waiting
  end.

(** rustls on what the peer has sent: the session, an error, or it needs more. *)
Context {Session : Type} (handshake : AcceptedConn → option (result unit Session)).

(** [Listener for TlsServer] *)
Definition tls_accept (o : option Incoming) : Accepted Session :=
  match proxied_accept o with
  | Got (conn, open) =>
      match handshake conn with
      | Some (Ok accepted_tls_conn) => Got accepted_tls_conn
      | Some (Err _) => Failed
      | None => if open then Waiting else Failed
      end
  | Failed => Failed
  | Crashed => Crashed
  | Waiting => Waiting
  end.
End ProxyProtocolServer.

(** ** Accept loops *)

(** [loop { match accept().await { Ok(c) => spawn(c), Err(_) => continue } }] on
    what the listener delivers: the connections handed to a task. A panic ends
    the task of the loop. *)
Fixpoint accept_loop {I A} (accept : option I → Accepted A) (l : list (option I)) : list A :=
  match l with
  | [] => []
  | o :: l' =>
      match accept o with
      | Got a => a :: accept_loop accept l'
      | Failed => accept_loop accept l'
      | Crashed | Waiting => []
      end
  end.

Section Run.
Context {TlsConfig Session : Type}.
Context (parse : bytes → PPResult) (handshake : TlsConfig → AcceptedConn → option (result unit Session)).

(** [server::run]: whether the task that ships logs was started, and the
    connections served. [expect] on the TLS server. *)
Definition run {E} (tls_server : exec E TlsConfig) (trx_logging_enabled : bool)
    (enclave_context : option EnclaveContext) (incoming : list (option Incoming)) :
    exec E (bool * list Session) :=
  match tls_server with
  | Ret server =>
      match EnclaveContext_get enclave_context with
      | Ok _ => Ret (trx_logging_enabled, accept_loop (tls_accept parse (handshake server)) incoming)
      | Err _ => Ret (trx_logging_enabled, [])
      end
  | Throw _ | Panic => Panic
  end.

(** ** Properties *)

Lemma accept_loop_app {I A} (accept : option I → Accepted A) l1 l2 :
  Forall (fun o => match accept o with Got _ | Failed => True | _ => False end) l1 →
  accept_loop accept (l1 ++ l2) = accept_loop accept l1 ++ accept_loop accept l2.
Proof.
  induction 1 as [|o l1 Ho _ IH]; [done|]. cbn [accept_loop app]. destruct (accept o); [|done|by destruct Ho..].
  by rewrite IH.
Qed.

Lemma accept_loop_stuck {I A} (accept : option I → Accepted A) before o after : accept o = Waiting →
  accept_loop accept (before ++ o :: after) = accept_loop accept before.
Proof.
  intros Ho. induction before as [|x before IH]; cbn [accept_loop app]; [by rewrite Ho|].
  destruct (accept x); [by rewrite IH|done..].
Qed.

Lemma silent_waits c : c_in c = [] → proxied_accept parse (Some (mkIncoming c true)) = Waiting.
Proof.
  intros Hc. unfold proxied_accept, plain_accept, try_parse_proxy_protocol, conn_size, conn_bytes. cbn [in_conn].
  rewrite Hc. cbn [length Nat.add pp_loop]. unfold conn_read. by rewrite Hc.
Qed.

(** C32. One silent client stops the enclave: a client that opens a connection
    and sends nothing is waited for inside [accept], in which the header of the
    proxy protocol and the TLS handshake are read, so that no connection made
    after it is ever served, with or without TLS termination; whereas without
    the proxy protocol and TLS in [accept] every connection would be. *)
Theorem silent_client_blocks_server server c before after :
  c_in c = [] →
  accept_loop (tls_accept parse (handshake server)) (before ++ Some (mkIncoming c true) :: after)
    = accept_loop (tls_accept parse (handshake server)) before ∧
  accept_loop (proxied_accept parse) (before ++ Some (mkIncoming c true) :: after)
    = accept_loop (proxied_accept parse) before ∧
  accept_loop plain_accept (before ++ Some (mkIncoming c true) :: after)
    = omap id before ++ mkIncoming c true :: omap id after.
Proof.
  intros Hc. split_and!.
  - apply accept_loop_stuck. unfold tls_accept. by rewrite silent_waits.
  - by apply accept_loop_stuck, silent_waits.
  - assert (∀ l, accept_loop plain_accept l = omap id l) as Hp.
    { induction l as [|[i|] l IH]; [done| |done]. cbn. by f_equal. }
    rewrite Hp. by rewrite omap_app.
Qed.
End Run.

(** ** Witness *)

Definition no_header (d : bytes) : PPResult := PPInvalid.
Definition at_once (_ : unit) (a : AcceptedConn) : option (result unit bytes) := Some (Ok (accepted_bytes a)).

Lemma silent_client_blocks_server_witness :
  accept_loop (tls_accept no_header (at_once tt))
    [Some (mkIncoming (conn_of [b "one"]) true); Some (mkIncoming (conn_of []) true);
     Some (mkIncoming (conn_of [b "two"]) true)] = [b "one"].
Proof.
  refine (eq_trans (proj1 (silent_client_blocks_server no_header at_once tt (conn_of [])
    [Some (mkIncoming (conn_of [b "one"]) true)] [Some (mkIncoming (conn_of [b "two"]) true)] _)) _); reflexivity.
Defined.
