(* ===== verification/Relay.v ===== *)
(** * Relays

    The code that pipes one connection to another: [pipe_streams]
    (shared/src/utils.rs), the ingress of the control plane ([tcp_server] of
    control-plane/src/main.rs), the data plane without TLS termination
    ([run_tcp_passthrough] of data-plane/src/main.rs), the way to E3
    (control-plane/src/e3proxy.rs, dns.rs), and the statistics packets of both
    planes (data-plane/src/stats.rs, control-plane/src/stats_proxy.rs).
    tokio's [copy_bidirectional] is a class with its documented behaviour. *)
From Stdlib Require Import Ascii String NArith ZArith Lia.
From stdpp Require Import base gmap strings list.
From S2P Require Import Prelude Libs Net Addr CpError ProxyProtocol Listeners.
#[local] Open Scope string_scope.
#[local] Open Scope list_scope.
#[local] Open Scope enclave_scope.

(** ** Piping *)

Inductive ErrorKind : Type := BrokenPipe | OtherKind.

(** What was written to each side, and how it ended. *)
Record Copied : Type := mkCopied { to_dest : bytes; to_src : bytes; copy_result : result ErrorKind unit }.

(** [copy_bidirectional] on what the two streams deliver. *)
Class Copier : Type := { copy_bidirectional : bytes → bytes → Copied }.

(** Each side receives what the other delivers, in order; all of it unless
    there is an error. *)
Class CopierLaws (C : Copier) : Prop := {
  copy_dest s d : to_dest (copy_bidirectional s d) `prefix_of` s;
  copy_src s d : to_src (copy_bidirectional s d) `prefix_of` d;
  copy_all s d : copy_result (copy_bidirectional s d) = Ok tt →
    to_dest (copy_bidirectional s d) = s ∧ to_src (copy_bidirectional s d) = d
}.

#[export] Instance copy_ref : Copier := { copy_bidirectional s d := mkCopied s d (Ok tt) }.
#[export] Instance copy_ref_laws : CopierLaws copy_ref.
Proof. by split. Qed.

(** What became of an accepted connection. *)
Record Relayed : Type := mkRelayed {
  rl_dest : bytes;
  rl_src : bytes;
  (** [connection.shutdown()] was called *)
  rl_shutdown : bool;
  rl_error : bool
}.

Definition not_relayed (shutdown : bool) : Relayed := mkRelayed [] [] shutdown true.

Section Relay.
Context {C : Copier}.

(** A broken pipe is not an error. *)
Definition pipe_streams (src dest : bytes) : Copied :=
  let c := copy_bidirectional src dest in
  mkCopied (to_dest c) (to_src c)
    (match copy_result c with
     | Ok _ => Ok tt
     | Err BrokenPipe => Ok tt
     | Err e => Err e
     end).

Definition piped (before : bytes) (src dest : bytes) : Relayed :=
  let c := pipe_streams src dest in
  mkRelayed (before ++ to_dest c) (to_src c) false (negb (is_ok (copy_result c))).

(** ** Ingress of the control plane: [enclave_stream] is what the enclave will
    send, or [None] when it cannot be reached; a failing shutdown panics the
    task. *)
Definition ingress_connection (shutdown_ok : bool) (enclave_stream : option bytes) (connection : bytes) :
    exec unit Relayed :=
  match enclave_stream with
  | None => if shutdown_ok then Ret (not_relayed true) else Panic
  | Some enclave => Ret (piped [] connection enclave)
  end.

(** One task per accepted connection, and one count of a request for each. *)
Definition tcp_server (enclave : nat → option bytes) (shutdown_ok : nat → bool) (accepts : list (option bytes)) :
    list (exec unit Relayed) * nat :=
  let conns := omap id accepts in
  (imap (fun i c => ingress_connection (shutdown_ok i) (enclave i) c) conns, length conns).

(** ** The data plane without TLS termination *)

(** [customer]: what the process will send, [None] when it does not listen;
    [writable]: whether it takes the header. *)
Definition passthrough_connection (should_forward_proxy_protocol writable : bool) (customer : option bytes)
    (incoming_conn : AcceptedConn) : Relayed :=
  match customer with
  | None => not_relayed false
  | Some customer_stream =>
      match proxy_protocol incoming_conn with
      | Some header =>
          if has_proxy_protocol incoming_conn && should_forward_proxy_protocol then
            if writable then piped (pp_as_bytes header) (accepted_bytes incoming_conn) customer_stream
            else not_relayed false
          else piped [] (accepted_bytes incoming_conn) customer_stream
      | None => piped [] (accepted_bytes incoming_conn) customer_stream
      end
  end.

(** [run_tcp_passthrough]: the result of the start is only logged; without
    the feature context nothing is served. *)
Definition run_tcp_passthrough (parse : bytes → PPResult) (forward : option bool) (env_result : bool)
    (customer : nat → option bytes) (writable : nat → bool) (incoming : list (option Incoming)) : list Relayed :=
  match forward with
  | None => []
  | Some should_forward_proxy_protocol =>
      imap (fun i c => passthrough_connection should_forward_proxy_protocol (writable i) (customer i) c.1)
        (accept_loop (proxied_accept parse) incoming)
  end.

(** ** The way to E3 *)

(** [choose] is the random draw; an empty answer has no address. *)
Definition get_ip_for_host_with_dns_resolver (lookup_ip : string → option (list IpAddr))
    (choose : list IpAddr → option IpAddr) (host : string) (port : N) : result ServerError (option SocketAddr) :=
  let? ips := ok_or (lookup_ip host) SeDns in
  Ok ((fun ip => mkSocketAddr ip port 0) <$> choose ips).

Definition get_ip_for_e3 (lookup_ip : string → option (list IpAddr)) (choose : list IpAddr → option IpAddr) :
    result ServerError (option SocketAddr) :=
  get_ip_for_host_with_dns_resolver lookup_ip choose "e3.cages-e3.internal." 443.

(** One turn of [E3Proxy::listen] and its task; [e3] is what E3 will send at an
    address, [None] when it does not answer there. *)
Definition e3_connection (lookup_ip : string → option (list IpAddr)) (choose : list IpAddr → option IpAddr)
    (e3 : SocketAddr → option bytes) (connection : bytes) : option SocketAddr * Relayed :=
  match get_ip_for_e3 lookup_ip choose with
  | Ok (Some e3_ip) =>
      match e3 e3_ip with
      | Some e3_stream => (Some e3_ip, piped [] connection e3_stream)
      | None => (Some e3_ip, not_relayed true)
      end
  | Ok None => (None, not_relayed true)
  | Err _ => (None, not_relayed true)
  end.

Definition E3Proxy_listen (lookup_ip : nat → string → option (list IpAddr)) (choose : nat → list IpAddr → option IpAddr)
    (e3 : SocketAddr → option bytes) (accepts : list (option bytes)) : list (option SocketAddr * Relayed) :=
  imap (fun i c => e3_connection (lookup_ip i) (choose i) e3 c) (omap id accepts).
End Relay.

(** ** Statistics *)

Definition stats_buffer_size : nat := 512.
Definition CLOUDWATCH_STATSD_PORT : N := 8125.
Definition EXTERNAL_STATSD_PORT : N := 8126.

(** [StatsProxy::listen] of the data plane: every datagram, as far as the
    buffer holds it, is sent on a connection of its own; [None] is an error of
    the socket. [reach] is whether a connection can be made. *)
Fixpoint stats_forwarded (reach : nat → bool) (i : nat) (datagrams : list (option bytes)) : list bytes :=
  match datagrams with
  | [] => []
  | None :: l => stats_forwarded reach (S i) l
  | Some d :: l =>
      if reach i then take stats_buffer_size d :: stats_forwarded reach (S i) l else stats_forwarded reach (S i) l
  end.

(** [proxy_connection] of the control plane: the packets sent to the local
    statsd ports; [sends] is whether a port takes them. *)
Definition stats_connection (external_metrics_enabled : bool) (sends : N → bool) (stream : Conn) :
    result ServerError (list (N * bytes)) :=
  let? packet := map_err (fun _ => SeIo) (fst (conn_read stats_buffer_size stream)) in
  let send_metrics port := if sends port then Ok [(port, packet)] else Err SeIo in
  if external_metrics_enabled then
    Ok (default [] (ok (send_metrics CLOUDWATCH_STATSD_PORT)) ++ default [] (ok (send_metrics EXTERNAL_STATSD_PORT)))
  else send_metrics CLOUDWATCH_STATSD_PORT.

(** [val.to_lowercase() == "true"]; no other letter is lower-cased to these. *)
Definition get_external_metrics_enabled (env : string → option string) : bool :=
  match env "EXTERNAL_METRICS_ENABLED" with Some val => String.eqb (to_lower val) "true" | None => false end.

(** [StatsProxy::listen] of the control plane: the setting is read once, and
    every accepted connection is proxied in a task of its own. *)
Definition StatsProxy_listen (binds : bool) (env : string → option string) (sends : N → bool)
    (accepts : list (option Conn)) : result ServerError (list (result ServerError (list (N * bytes)))) :=
  let external_metrics_enabled := get_external_metrics_enabled env in
  if binds then Ok (stats_connection external_metrics_enabled sends <$> omap id accepts) else Err SeIo.

(** ** Properties *)

(** The datagrams of the enclave's statsd clients, as far as the buffers hold
    them and the host can be reached, arrive at the host's statsd in order and
    each in a packet of its own, when a packet is read in one piece; those the
    host cannot be given are lost. *)
Lemma stats_reach_statsd reach env sends (datagrams : list (option bytes)) :
  sends CLOUDWATCH_STATSD_PORT = true → sends EXTERNAL_STATSD_PORT = true →
  StatsProxy_listen true env sends ((fun d => Some (conn_of [d])) <$> stats_forwarded reach 0 datagrams)
  = Ok ((fun d => Ok ((fun port => (port, d)) <$>
      (CLOUDWATCH_STATSD_PORT :: if get_external_metrics_enabled env then [EXTERNAL_STATSD_PORT] else [])))
    <$> stats_forwarded reach 0 datagrams).
Proof.
  intros Hc He. unfold StatsProxy_listen. f_equal. generalize 0 as i.
  induction datagrams as [|[d|] l IH]; intros i; [done| |exact (IH (S i))]. cbn [stats_forwarded].
  destruct (reach i); [|exact (IH (S i))]. rewrite !fmap_cons. cbn [omap list_omap id]. rewrite !fmap_cons. f_equal; [|exact (IH (S i))].
  unfold stats_connection, conn_read. cbn [conn_of c_in fmap list_fmap].
  assert (length (take stats_buffer_size d) <=? stats_buffer_size = true)%nat as ->.
  { apply Nat.leb_le. rewrite length_take. lia. }
  cbn [fst map_err rbind]. rewrite Hc, He. by destruct (get_external_metrics_enabled env).
Qed.

Section RelayProperties.
Context {C : Copier} {CL : CopierLaws C} (parse : bytes → PPResult).
(** ppp: a header is the beginning of what it was parsed from. *)
Context (parse_prefix : ∀ s h, parse s = PPOk h → pp_bytes h `prefix_of` s).

Lemma piped_dest before src dest : ∃ d, rl_dest (piped before src dest) = before ++ d ∧ d `prefix_of` src.
Proof. eexists. split; [done|]. apply copy_dest. Qed.

(** C30. Through both planes, the user process receives what the client sent:
    when the control plane's ingress pipes a connection to the enclave and the
    data plane hands it to the process without TLS termination, the process
    gets a prefix of the client's bytes, in order and unchanged, less the
    header of the proxy protocol unless it is to be forwarded; and all of them
    when both pipes end without an error. *)
Theorem ingress_reaches_user_process client enclave customer shutdown_ok forward r (c c' : Conn) conn :
  ingress_connection shutdown_ok (Some enclave) client = Ret r →
  conn_bytes c `prefix_of` rl_dest r → try_parse_proxy_protocol parse c = (Ret conn, c') →
  ∃ hd d, rl_dest (passthrough_connection forward true (Some customer) conn)
      = (if forward then hd else []) ++ d ∧
    hd ++ d `prefix_of` client ∧ hd = match ac_header conn with Some h => pp_as_bytes h | None => [] end ∧
    (copy_result (copy_bidirectional client enclave) = Ok tt → conn_bytes c = rl_dest r →
     copy_result (copy_bidirectional (accepted_bytes conn) customer) = Ok tt → hd ++ d = client).
Proof.
  intros [= <-] Hc Hp. cbn [rl_dest piped app pipe_streams to_dest] in *.
  destruct (pp_loop_spec _ _ _ _ _ _ _ Hp conn eq_refl) as (hd & Hb & Hhd). cbn [app] in Hb.
  set (d := to_dest (copy_bidirectional (accepted_bytes conn) customer)).
  assert (d `prefix_of` accepted_bytes conn) as Hd by apply copy_dest.
  assert (hd = match ac_header conn with Some h => pp_as_bytes h | None => [] end) as Hhead.
  { destruct (ac_header conn) as [h|]; [|by destruct Hhd as [-> _]]. destruct Hhd as (rest & Hparse & Hlen).
    apply parse_prefix in Hparse as [rest' Hr]. by apply app_inj_1 in Hr as [-> _]. }
  exists hd, d. split_and!.
  - unfold passthrough_connection, proxy_protocol, has_proxy_protocol.
    destruct (ac_header conn) as [h|]; rewrite Hhead; [|by destruct forward]. by destruct forward.
  - trans (conn_bytes c); [rewrite Hb; by apply prefix_app|]. trans (to_dest (copy_bidirectional client enclave)); [done|].
    apply copy_dest.
  - exact Hhead.
  - intros H1 H2 H3. destruct (copy_all _ _ H1) as [E1 _]. destruct (copy_all _ _ H3) as [E3 _].
    unfold d. by rewrite E3, <-Hb, H2.
Qed.
End RelayProperties.

(** ** Witness: a header of a mark and a byte of its own *)

Definition parse_mark (d : bytes) : PPResult :=
  match d with
  | [] => PPIncomplete
  | p :: d' =>
      if Ascii.eqb p "P" then match d' with x :: _ => PPOk (mkPP [p; x] AddrOther) | [] => PPIncomplete end
      else PPInvalid
  end.

Definition parsed_mark : AcceptedConn :=
  mkAccepted (mkConn [] [] false true) (Some (mkPP (b "P7") AddrOther)) (Some (b "GET /")).

Lemma parse_mark_prefix s h : parse_mark s = PPOk h → pp_bytes h `prefix_of` s.
Proof.
  destruct s as [|p d]; [done|]. cbn. destruct (Ascii.eqb p "P"); [|done]. destruct d as [|x d]; [done|].
  intros [= <-]. by exists d.
Qed.

Lemma ingress_reaches_user_process_witness : ∃ hd d,
  rl_dest (passthrough_connection true true (Some (b "ok")) parsed_mark) = hd ++ d ∧ hd ++ d = b "P7GET /".
Proof.
  destruct (ingress_reaches_user_process parse_mark parse_mark_prefix (b "P7GET /") (b "ok") (b "ok") true true
    (mkRelayed (b "P7GET /") (b "ok") false false) (conn_of [b "P7GET /"]) (mkConn [] [] false true) parsed_mark)
    as (hd & d & H1 & _ & _ & H2).
  - reflexivity.
  - reflexivity.
  - vm_compute. reflexivity.
  - exists hd, d. split; [exact H1|]. apply H2; reflexivity.
Defined.
