(* ===== verification/HealthServer.v ===== *)
(** * Health servers and shutdown

    The loops around the checks of Health.v: the agent's loop and the health
    server of the data plane (data-plane/src/health/agent.rs, mod.rs), the
    health server of the control plane (control-plane/src/health.rs), and the
    task that drains and terminates the enclave on a signal
    ([listen_for_shutdown_signal] of control-plane/src/main.rs). The loops run
    on what the listeners, the timer and the signal handler deliver; the
    shutdown is a step relation over time. *)
From Stdlib Require Import Ascii String NArith ZArith Lia.
From stdpp Require Import base strings sets list.
From S2P Require Import Prelude Libs Net Context Jws CpError Config Health.
#[local] Open Scope string_scope.
#[local] Open Scope list_scope.
#[local] Open Scope enclave_scope.

Lemma fold_left_inv {A B} (P : A → Prop) (f : A → B → A) l a :
  P a → (∀ a x, P a → P (f a x)) → P (fold_left f l a).
Proof. intros Ha Hf. revert a Ha. induction l; cbn; auto. Qed.

(** Two ways to cut a list: an element that is not in the tail of the second
    cut, and differs from its middle, lies before it. *)
Lemma split_before {A} (x y : A) post pre mid old : x ≠ y → post ++ x :: pre = mid ++ y :: old → x ∉ old →
  ∃ mid', mid = post ++ x :: mid' ∧ pre = mid' ++ y :: old.
Proof.
  intros Hne. revert mid. induction post as [|z post IH]; intros [|w mid]; cbn.
  - congruence.
  - intros [= <- ->] _. by exists mid.
  - intros [= _ <-] []. set_solver.
  - intros [= <- H] Hn. destruct (IH mid H Hn) as (mid' & -> & ->). by exists mid'.
Qed.

Section Servers.
Context {J : Json}.
Context (debug_context_error : ContextError → string).

(** ** The data plane *)

(** What a health check finds at one tick of the interval. *)
Record Tick : Type := mkTick {
  tk_env : EnvRead;
  tk_ctx : option EnclaveContext;
  tk_client : string → ProbeReply
}.

(** The branches of [select!]. *)
Inductive AgentEvent : Type :=
| EvRequest
| EvTick (t : Tick).

Definition agent_step (e : AgentEvent) (a : HealthcheckAgent) : HealthcheckAgent * option UserProcessHealth :=
  match e with
  | EvRequest => (a, Some (serve_healthcheck_request a))
  | EvTick t => (perform_healthcheck debug_context_error (tk_env t) (tk_ctx t) (tk_client t) a, None)
  end.

(** [HealthcheckAgent::run]: the replies sent. *)
Fixpoint agent_loop (es : list AgentEvent) (a : HealthcheckAgent) : HealthcheckAgent * list UserProcessHealth :=
  match es with
  | [] => (a, [])
  | e :: es =>
      let '(a1, reply) := agent_step e a in
      let '(a2, replies) := agent_loop es a1 in
      (a2, option_list reply ++ replies)
  end.

Definition spawn_customer_healthcheck_agent (customer_process_port : N) (healthcheck : option string)
    (use_tls : bool) : HealthcheckAgent :=
  if use_tls then build_tls_agent customer_process_port healthcheck
  else build_agent customer_process_port healthcheck.

(** The response of the service: status, content type and the state in the body. *)
Record HealthResponse : Type := mkHealthResponse {
  hr_status : N;
  hr_content_type : string;
  hr_state : DataPlaneState
}.

(** One request on a connection; the agent ran [before] it. The requests are
    the only senders on the channel, and both of its ends live. *)
Definition serve_health_request (before : list Tick) (a : HealthcheckAgent) : HealthcheckAgent * HealthResponse :=
  let '(a1, _) := agent_loop (EvTick <$> before) a in
  let user_process_health := check_user_process_health true true a1 in
  (a1, mkHealthResponse 200 "application/json;version=1" (Initialized (mkDiagnostic user_process_health))).

Fixpoint serve_health_connection (requests : list (list Tick)) (a : HealthcheckAgent) :
    HealthcheckAgent * list HealthResponse :=
  match requests with
  | [] => (a, [])
  | r :: requests =>
      let '(a1, response) := serve_health_request r a in
      let '(a2, responses) := serve_health_connection requests a1 in
      (a2, response :: responses)
  end.

(** The accept loop: a connection is served to its end before the next is
    accepted, and an error of the listener is skipped. *)
Fixpoint health_check_loop (accepts : list (option (list (list Tick)))) (a : HealthcheckAgent) :
    HealthcheckAgent * list HealthResponse :=
  match accepts with
  | [] => (a, [])
  | None :: accepts => health_check_loop accepts a
  | Some requests :: accepts =>
      let '(a1, responses) := serve_health_connection requests a in
      let '(a2, more) := health_check_loop accepts a1 in
      (a2, responses ++ more)
  end.

(** [unwrap] on the listener. *)
Definition start_health_check_server (binds : bool) (customer_process_port : N) (healthcheck : option string)
    (use_tls : bool) (accepts : list (option (list (list Tick)))) :
    exec unit (HealthcheckAgent * list HealthResponse) :=
  let agent := spawn_customer_healthcheck_agent customer_process_port healthcheck use_tls in
  if binds then Ret (health_check_loop accepts agent) else Panic.

(** ** The control plane *)

Definition CONTROL_PLANE_HEALTH_CHECK_PORT : N := 3032.

Definition HealthCheckServer_new (binds : bool) : result ServerError N :=
  if binds then Ok CONTROL_PLANE_HEALTH_CHECK_PORT else Err SeServer.

Section ControlPlane.
Context (parse_v1 : bytes → option DataPlaneState) (parse_v0 : bytes → option HealthCheckLog).

(** A request: its user agent, whether [IS_DRAINING] is set when it is
    served, and what the enclave answers. *)
Record EcsRequest : Type := mkEcs { ecs_agent : option bytes; ecs_draining : bool; ecs_reply : EnclaveReply }.

(** The statuses sent, and the error that ended the loop: [accept] is followed
    by [?]. *)
Fixpoint HealthCheckServer_start (accepts : list (option (list EcsRequest))) : list N * option ServerError :=
  match accepts with
  | [] => ([], None)
  | None :: _ => ([], Some SeServer)
  | Some requests :: accepts =>
      let '(more, ended) := HealthCheckServer_start accepts in
      (((fun r => health_request parse_v1 parse_v0 (ecs_agent r) (ecs_draining r) (ecs_reply r)) <$> requests) ++ more, ended)
  end.

(** ** Shutdown *)

(** The task of [listen_for_shutdown_signal]. *)
Inductive ShutdownTask : Type :=
| WaitSignal
| Sleeping (until : Z)
| Finished.

(** The signals the handler of [ctrlc], built with its feature [termination],
    is registered for. *)
Inductive Signal : Type := SIGINT | SIGTERM | SIGHUP.

(** A health check has a number; it begins when the flag is read. *)
Inductive Happened : Type :=
| SignalReceived (s : Signal)
| DrainingSet
| CheckBegan (n : nat) (user_agent : option bytes)
| CheckAnswered (n : nat) (status : N)
| EnclaveTerminated.

(** The check in flight: its number, its user agent and the flag it has read. *)
Record Check : Type := mkCheck { ck_number : nat; ck_agent : option bytes; ck_draining : bool }.

(** Time in milliseconds; what happened, latest first, with its time. The
    server takes one connection, and that one request, at a time. *)
Record CpState : Type := mkCpState {
  cp_now : Z;
  cp_signals : nat;
  IS_DRAINING : option bool;
  cp_task : ShutdownTask;
  cp_checks : nat;
  cp_check : option Check;
  cp_log : list (Z * Happened)
}.

(** [OnceLock::set] *)
Definition once_set (cell : option bool) (v : bool) : option bool := match cell with Some x => Some x | None => Some v end.

Definition DRAIN_MILLIS : Z := 55000.

(** The signal handler and its channel: without a handler the sender is
    dropped, [recv] gives [None] and the task ends. *)
Definition listen_for_shutdown_signal (rust_env : Environment) (set_handler : bool) (now : Z) : CpState :=
  mkCpState now 0 None
    (match rust_env with
     | Development => Finished
     | _ => if set_handler then WaitSignal else Finished
     end) 0 None [].

Definition cp_add (h : Happened) (s : CpState) : list (Z * Happened) := (cp_now s, h) :: cp_log s.

Inductive CpEvent : Type :=
(** a signal reaches the handler *)
| Caught (sg : Signal)
(** time passes *)
| Pass (ms : Z)
(** the task gets to run; [terminates]: whether the command starts *)
| RunTask (terminates : bool)
(** a health check is received; the enclave has answered it; its client has gone *)
| CheckReceived (user_agent : option bytes)
| CheckReplied (reply : EnclaveReply)
| CheckDropped.

Definition cp_step (e : CpEvent) (s : CpState) : CpState :=
  let '(mkCpState now signals draining task checks check log) := s in
  match e with
  | Caught sg => mkCpState now (S signals) draining task checks check (cp_add (SignalReceived sg) s)
  | Pass ms => mkCpState (now + Z.max 0 ms) signals draining task checks check log
  | RunTask terminates =>
      match task, signals with
      | WaitSignal, S n =>
          mkCpState now n (once_set draining true) (Sleeping (now + DRAIN_MILLIS)) checks check (cp_add DrainingSet s)
      | Sleeping until, _ =>
          if (until <=? now)%Z then
            mkCpState now signals draining Finished checks check (if terminates then cp_add EnclaveTerminated s else log)
          else s
      | _, _ => s
      end
  | CheckReceived user_agent =>
      match check with
      | Some _ => s
      | None => mkCpState now signals draining task (S checks) (Some (mkCheck checks user_agent (is_some draining)))
                  (cp_add (CheckBegan checks user_agent) s)
      end
  | CheckReplied reply =>
      match check with
      | Some c => mkCpState now signals draining task checks None
          (cp_add (CheckAnswered (ck_number c) (health_request parse_v1 parse_v0 (ck_agent c) (ck_draining c) reply)) s)
      | None => s
      end
  | CheckDropped => mkCpState now signals draining task checks None log
  end.

Definition cp_run (es : list CpEvent) (s : CpState) : CpState := fold_left (fun s e => cp_step e s) es s.

(** ** Properties of the shutdown *)

Definition ecs_agent_value : option bytes := Some (b "ECS-HealthCheck").

Definition began (n : nat) (ua : option bytes) (log : list (Z * Happened)) : Prop := ∃ t, (t, CheckBegan n ua) ∈ log.
Definition answered (n : nat) (status : N) (log : list (Z * Happened)) : Prop := ∃ t, (t, CheckAnswered n status) ∈ log.

(** Every check of ECS that began in [log] and was answered in it failed. *)
Definition ecs_unhealthy (log : list (Z * Happened)) : Prop :=
  ∀ n status, began n ecs_agent_value log → answered n status log → status = 500%N.

(** At most one check was answered that had begun before. *)
Definition one_earlier (log : list (Z * Happened)) : Prop := ∀ n n' status status',
  answered n status log → answered n' status' log →
  (∀ ua, ¬ began n ua log) → (∀ ua, ¬ began n' ua log) → n = n'.

Definition no_event (h : Happened) (log : list (Z * Happened)) : Prop := ∀ t, (t, h) ∉ log.

(** The checks, after draining was announced while [c0] was in flight and
    [mid] has happened. *)
Record checks_inv (c0 : option nat) (mid : list (Z * Happened)) (checks : nat) (check : option Check) : Prop := {
  ci_began : ∀ n ua, began n ua mid → n < checks;
  ci_unique : ∀ n ua ua', began n ua mid → began n ua' mid → ua = ua';
  ci_answered : ∀ n status, answered n status mid → n < checks ∧ ((∃ ua, began n ua mid) ∨ Some n = c0);
  ci_flight : ∀ c, check = Some c → ck_number c < checks ∧
    (began (ck_number c) (ck_agent c) mid ∧ ck_draining c = true ∨
     Some (ck_number c) = c0 ∧ ∀ ua, ¬ began (ck_number c) ua mid);
  ci_unhealthy : ecs_unhealthy mid
}.

(** Draining was announced at [t0]. *)
Record drained (t0 : Z) (mid old : list (Z * Happened)) (s : CpState) : Prop := {
  dr_log : cp_log s = mid ++ (t0, DrainingSet) :: old;
  dr_flag : IS_DRAINING s = Some true;
  dr_signal : ∃ t sg, (t, SignalReceived sg) ∈ old;
  dr_checks : ∃ c0, checks_inv c0 mid (cp_checks s) (cp_check s);
  dr_old : no_event EnclaveTerminated old;
  dr_after : ∀ t, (t, EnclaveTerminated) ∈ mid → (t0 + DRAIN_MILLIS <= t)%Z;
  dr_now : (t0 <= cp_now s)%Z
}.

(** The states of the task on a machine in [rust_env]. *)
Definition shutdown_inv (rust_env : Environment) (s : CpState) : Prop :=
  match cp_task s with
  | WaitSignal => rust_env ≠ Development ∧ IS_DRAINING s = None ∧ no_event EnclaveTerminated (cp_log s) ∧
      (cp_signals s ≠ 0 ↔ ∃ t sg, (t, SignalReceived sg) ∈ cp_log s) ∧
      (∀ c, cp_check s = Some c → ck_number c < cp_checks s)
  | Sleeping until => rust_env ≠ Development ∧ ∃ t0 mid old, drained t0 mid old s ∧ until = (t0 + DRAIN_MILLIS)%Z
  | Finished => no_event EnclaveTerminated (cp_log s) ∨ rust_env ≠ Development ∧ ∃ t0 mid old, drained t0 mid old s
  end.

Lemma began_cons n ua t h log : began n ua ((t, h) :: log) ↔ h = CheckBegan n ua ∨ began n ua log.
Proof.
  unfold began. split.
  - intros [t' [[= -> <-]|Hin]%elem_of_cons]; [by left|right; by exists t'].
  - intros [->|[t' Hin]]; [exists t; by left|exists t'; by right].
Qed.

Lemma answered_cons n st t h log : answered n st ((t, h) :: log) ↔ h = CheckAnswered n st ∨ answered n st log.
Proof.
  unfold answered. split.
  - intros [t' [[= -> <-]|Hin]%elem_of_cons]; [by left|right; by exists t'].
  - intros [->|[t' Hin]]; [exists t; by left|exists t'; by right].
Qed.

Lemma no_event_cons h t h' log : h ≠ h' → no_event h log → no_event h ((t, h') :: log).
Proof. intros Hne Hn t' [[= ? ?]|Hin]%elem_of_cons; [congruence|by apply (Hn t')]. Qed.

(** What is no event of a check is nothing to the checks. *)
Lemma checks_other c0 mid checks check t h : checks_inv c0 mid checks check →
  (∀ n ua, h ≠ CheckBegan n ua) → (∀ n st, h ≠ CheckAnswered n st) → checks_inv c0 ((t, h) :: mid) checks check.
Proof.
  intros [Hb Hu Ha Hf He] Hnb Hna.
  assert (∀ n ua, began n ua ((t, h) :: mid) ↔ began n ua mid) as Eb by (intros; rewrite began_cons; naive_solver).
  assert (∀ n st, answered n st ((t, h) :: mid) ↔ answered n st mid) as Ea by (intros; rewrite answered_cons; naive_solver).
  split; unfold ecs_unhealthy in *; setoid_rewrite Eb; try setoid_rewrite Ea; done.
Qed.

Lemma checks_dropped c0 mid checks check : checks_inv c0 mid checks check → checks_inv c0 mid checks None.
Proof. intros []. by split. Qed.

(** A check that begins has read the flag. *)
Lemma checks_begin c0 mid checks t ua : checks_inv c0 mid checks None →
  checks_inv c0 ((t, CheckBegan checks ua) :: mid) (S checks) (Some (mkCheck checks ua true)).
Proof.
  intros [Hb Hu Ha Hf He]. split.
  - intros n ua' [[= -> ->]|H%Hb]%began_cons; lia.
  - intros n ua1 ua2 [[= -> ->]|H1]%began_cons [[= <-]|H2]%began_cons; [done| |apply Hb in H1; lia|by eapply Hu].
    apply Hb in H2. lia.
  - intros n st [[=]|H]%answered_cons. destruct (Ha n st H) as [Hl [[ua' Hx]|Hx]]; (split; [lia|]); [left|by right].
    exists ua'. apply began_cons. by right.
  - intros c [= <-]. cbn. split; [lia|]. left. split; [|done]. apply began_cons. by left.
  - intros n st [[= <- _]|H1]%began_cons [[=]|H2]%answered_cons; [apply Ha in H2 as [? _]; lia|by eapply He].
Qed.

(** A draining control plane fails the ECS check. *)
Lemma draining_answers_500 reply : health_request parse_v1 parse_v0 ecs_agent_value true reply = 500%N.
Proof. unfold health_request, ecs_agent_value. by rewrite bool_decide_true. Qed.

Lemma checks_answer c0 mid checks c t reply : checks_inv c0 mid checks (Some c) →
  checks_inv c0 ((t, CheckAnswered (ck_number c) (health_request parse_v1 parse_v0 (ck_agent c) (ck_draining c) reply)) :: mid)
    checks None.
Proof.
  intros [Hb Hu Ha Hf He]. destruct (Hf c eq_refl) as [Hl Hc].
  assert (∀ st, ∀ n ua, began n ua ((t, CheckAnswered (ck_number c) st) :: mid) ↔ began n ua mid) as Eb.
  { intros st n ua. rewrite began_cons. naive_solver. }
  split.
  - intros n ua Hn%Eb. by eapply Hb.
  - intros n ua ua' H1%Eb H2%Eb. by eapply Hu.
  - intros n st [[= <- _]|H]%answered_cons.
    + split; [done|]. destruct Hc as [[Hc _]|[Hc _]]; [left; exists (ck_agent c); by apply Eb|by right].
    + destruct (Ha n st H) as [Hn [[ua Hx]|Hx]]; (split; [done|]); [left; exists ua; by apply Eb|by right].
  - done.
  - intros n st Hn%Eb [[= <- <-]|H]%answered_cons; [|by eapply He].
    destruct Hc as [[Hc Hd]|[_ Hc]]; [|by apply Hc in Hn]. rewrite (Hu _ _ _ Hc Hn), Hd. apply draining_answers_500.
Qed.

(** The step of a drained state, which neither its task nor its flag leaves. *)
Lemma drained_step t0 mid old e s : drained t0 mid old s →
  (∀ terminates, e = RunTask terminates → cp_task s = Finished ∨ (t0 + DRAIN_MILLIS <= cp_now s)%Z ∧ cp_task s ≠ WaitSignal) →
  ∃ mid', drained t0 mid' old (cp_step e s).
Proof.
  destruct s as [now signals draining task checks check log].
  intros [Hl Hd Hs (c0 & Hc) Ho Ha Hn] Hrun. cbn in *. subst log draining.
  destruct e as [sg|ms|terminates|ua|reply|]; cbn [cp_step]; unfold cp_add; cbn [cp_now cp_log].
  - exists ((now, SignalReceived sg) :: mid). split; cbn; try done.
    + exists c0. by apply checks_other.
    + intros t [[=]|Ht]%elem_of_cons. by apply Ha.
  - exists mid. split; cbn; try done; [by exists c0|lia].
  - destruct (Hrun terminates eq_refl) as [->|[Hle Hw]]; [exists mid; split; try done; by exists c0|].
    destruct task as [|until|]; [done| |exists mid; split; try done; by exists c0].
    destruct (until <=? now)%Z; [|exists mid; split; try done; by exists c0].
    destruct terminates; [|exists mid; split; try done; by exists c0].
    exists ((now, EnclaveTerminated) :: mid). split; cbn; try done.
    + exists c0. by apply checks_other.
    + intros t [[= ->]|Ht]%elem_of_cons; [done|by apply Ha].
  - destruct check as [c|]; [exists mid; split; try done; by exists c0|].
    exists ((now, CheckBegan checks ua) :: mid). split; cbn; try done.
    + exists c0. by apply checks_begin.
    + intros t [[=]|Ht]%elem_of_cons. by apply Ha.
  - destruct check as [c|]; [|exists mid; split; try done; by exists c0]. eexists (_ :: mid). split; cbn; try done.
    + exists c0. by apply checks_answer.
    + intros t [[=]|Ht]%elem_of_cons. by apply Ha.
  - exists mid. split; cbn; try done. exists c0. by eapply checks_dropped.
Qed.

(** While it waits for a signal, and when it does not wait at all. *)
Lemma waiting_step env e s : cp_task s = WaitSignal → shutdown_inv env s → shutdown_inv env (cp_step e s).
Proof.
  destruct s as [now signals draining task checks check log]. unfold shutdown_inv. cbn. intros -> (He & -> & Hn & Hs & Hc).
  destruct e as [sg|ms|terminates|ua|reply|]; cbn [cp_step cp_task]; unfold cp_add; cbn.
  - split_and!; [done|done|by apply no_event_cons| |done]. split; [intros _; exists now, sg; by left|done].
  - done.
  - destruct signals as [|n]; cbn; [done|]. split; [done|]. exists now, [], log. split; [|done].
    split; cbn; try done; [by apply Hs| |by intros ?[]%not_elem_of_nil].
    exists (ck_number <$> check). split; [by intros ?? [? []%not_elem_of_nil]|by intros ??? [? []%not_elem_of_nil]
      |by intros ?? [? []%not_elem_of_nil]| |by intros ?? [? []%not_elem_of_nil]].
    intros c ->. split; [by apply Hc|]. right. split; [done|]. by intros ua [? []%not_elem_of_nil].
  - destruct check as [c|]; cbn; [done|]. split_and!; [done|done|by apply no_event_cons| |by intros c [= <-]; cbn; lia].
    rewrite Hs. split; [intros (t & sg & Ht); exists t, sg; by right|intros (t & sg & [[=]|Ht]%elem_of_cons); by exists t, sg].
  - destruct check as [c|]; cbn; [|done]. split_and!; [done|done|by apply no_event_cons| |done].
    rewrite Hs. split; [intros (t & sg & Ht); exists t, sg; by right|intros (t & sg & [[=]|Ht]%elem_of_cons); by exists t, sg].
  - by split_and!.
Qed.

Lemma finished_step e s : cp_task s = Finished → no_event EnclaveTerminated (cp_log s) →
  cp_task (cp_step e s) = Finished ∧ no_event EnclaveTerminated (cp_log (cp_step e s)).
Proof.
  destruct s as [now signals draining task checks check log]. cbn. intros -> Hn.
  destruct e, check; cbn; unfold cp_add; cbn; (split; [done|]); try done; by apply no_event_cons.
Qed.

Lemma step_task e s : cp_task s ≠ WaitSignal → cp_task (cp_step e s) = cp_task s ∨
  ∃ until, cp_task s = Sleeping until ∧ (until <= cp_now s)%Z ∧ cp_task (cp_step e s) = Finished ∧ ∃ b, e = RunTask b.
Proof.
  destruct s as [now signals draining task checks check log]. cbn. intros Hw.
  destruct e as [sg|ms|terminates|ua|reply|], task as [|until|], check; cbn; try done; try (by left);
    (destruct (Z.leb_spec until now); [right; exists until|by left]); split_and!; (done || by eexists).
Qed.

Lemma shutdown_step env e s : shutdown_inv env s → shutdown_inv env (cp_step e s).
Proof.
  intros Hi. destruct (cp_task s) as [|until|] eqn:Et; [by apply waiting_step| |]; unfold shutdown_inv in Hi; rewrite Et in Hi.
  - destruct Hi as (He & t0 & mid & old & Hd & ->).
    destruct (step_task e s) as [Hs|(until & Hu & Hle & Hs & _)]; [by rewrite Et| |].
    + unfold shutdown_inv. rewrite Hs, Et. split; [done|]. exists t0.
      assert (∃ mid', drained t0 mid' old (cp_step e s)) as [mid' Hd'].
      { destruct e; try (eapply drained_step; [exact Hd|done]).
        destruct (Z.leb_spec (t0 + DRAIN_MILLIS) (cp_now s)).
        - eapply drained_step; [exact Hd|]. intros b' _. right. by rewrite Et.
        - exists mid. destruct s as [now signals draining task checks check log]. cbn in *. subst task.
          by rewrite (proj2 (Z.leb_gt _ _)) by done. }
      by exists mid', old.
    + rewrite Et in Hu. injection Hu as <-. unfold shutdown_inv. rewrite Hs. right. split; [done|].
      destruct (drained_step t0 mid old e s Hd) as [mid' Hd']; [|by exists t0, mid', old].
      intros b' _. right. by rewrite Et.
  - destruct Hi as [Hn|(He & t0 & mid & old & Hd)].
    + destruct (finished_step e s Et Hn) as [Hs Hn']. unfold shutdown_inv. rewrite Hs. by left.
    + destruct (drained_step t0 mid old e s Hd) as [mid' Hd']; [intros b' _; by left|].
      destruct (step_task e s) as [Hs|(until & Hu & _)]; [by rewrite Et| |congruence].
      unfold shutdown_inv. rewrite Hs, Et. right. split; [done|]. by exists t0, mid', old.
Qed.

Lemma shutdown_run env set_handler now es : shutdown_inv env (cp_run es (listen_for_shutdown_signal env set_handler now)).
Proof.
  unfold cp_run. apply (fold_left_inv (shutdown_inv env)); [|intros; by apply shutdown_step].
  unfold shutdown_inv, listen_for_shutdown_signal. cbn.
  assert (no_event EnclaveTerminated []) as Hn by (intros ?; apply not_elem_of_nil).
  destruct env; [by left|..]; destruct set_handler; try (by left); (split_and!; [done|done|done| |done]);
    (split; [done|by intros (? & ? & []%not_elem_of_nil)]).
Qed.

(** The part of a log without the termination tells the same of the checks. *)
Lemma checks_without c0 post t mid checks check : checks_inv c0 (post ++ (t, EnclaveTerminated) :: mid) checks check →
  ecs_unhealthy (post ++ mid) ∧ one_earlier (post ++ mid).
Proof.
  intros [Hb Hu Ha Hf He].
  assert (∀ n ua, began n ua (post ++ (t, EnclaveTerminated) :: mid) ↔ began n ua (post ++ mid)) as Eb.
  { intros n ua. unfold began. set_solver. }
  assert (∀ n st, answered n st (post ++ (t, EnclaveTerminated) :: mid) ↔ answered n st (post ++ mid)) as Ea.
  { intros n st. unfold answered. set_solver. }
  split.
  - intros n st Hn%Eb Hs%Ea. by eapply He.
  - intros n n' st st' H1%Ea H2%Ea Hn Hn'.
    destruct (Ha n st H1) as [_ [[ua Hx%Eb]|Hx]]; [by apply Hn in Hx|].
    destruct (Ha n' st' H2) as [_ [[ua Hx'%Eb]|Hx']]; [by apply Hn' in Hx'|]. congruence.
Qed.

(** C28. The enclave is terminated only after it was drained: the command that
    terminates it runs only outside the development environment and only after
    one of the signals the handler is registered for (SIGINT, SIGTERM, SIGHUP)
    was caught, at least 55 seconds after draining was announced; every health
    check of ECS received from that moment on, also after the termination, was
    answered with 500, and at most one check that was already in flight when
    draining was announced was answered later, with what it found. *)
Theorem shutdown_drains_first env set_handler now es t post pre :
  cp_log (cp_run es (listen_for_shutdown_signal env set_handler now)) = post ++ (t, EnclaveTerminated) :: pre →
  env ≠ Development ∧
  ∃ t0 mid old, pre = mid ++ (t0, DrainingSet) :: old ∧ (t0 + 55000 <= t)%Z ∧
    (∃ ts sg, (ts, SignalReceived sg) ∈ old) ∧ ecs_unhealthy (post ++ mid) ∧ one_earlier (post ++ mid).
Proof.
  pose proof (shutdown_run env set_handler now es) as Hi. set (s := cp_run _ _) in *. intros Hl.
  assert (¬ no_event EnclaveTerminated (cp_log s)) as Ht by (intros H; apply (H t); rewrite Hl; set_solver).
  assert (env ≠ Development ∧ ∃ t0 mid old, drained t0 mid old s) as (He & t0 & mid & old & Hd).
  { unfold shutdown_inv in Hi. destruct (cp_task s); naive_solver. }
  split; [done|]. destruct Hd as [H1 H2 H3 (c0 & H4) H5 H6]. rewrite Hl in H1.
  destruct (split_before (t, EnclaveTerminated) (t0, DrainingSet) post pre mid old) as (mid' & -> & ->);
    [done|done|apply H5|].
  exists t0, mid', old. split_and!; [done|apply H6; set_solver|done|by eapply checks_without..].
Qed.

(** Once a signal came the task finishes: it only needs to run, to let the 55
    seconds pass and to run again. *)
Lemma shutdown_completes env set_handler now es :
  let s := cp_run es (listen_for_shutdown_signal env set_handler now) in
  (∃ t sg, (t, SignalReceived sg) ∈ cp_log s) →
  cp_task (cp_run [RunTask true; Pass DRAIN_MILLIS; RunTask true] s) = Finished.
Proof.
  intros s Hs. pose proof (shutdown_run env set_handler now es) as Hi. fold s in Hi. clearbody s.
  unfold shutdown_inv in Hi. destruct s as [now' signals draining task checks check log]. cbn in Hi, Hs.
  unfold cp_run. cbn [fold_left cp_step]. destruct task as [|until|].
  - destruct Hi as (_ & _ & _ & Hn & _). apply Hn in Hs. destruct signals as [|n]; [done|]. cbn.
    by rewrite (proj2 (Z.leb_le _ _)) by lia.
  - destruct Hi as (_ & t0 & mid & old & Hd & ->). pose proof (dr_now _ _ _ _ Hd) as Hle. cbn in Hle.
    destruct (Z.leb_spec (t0 + DRAIN_MILLIS) now'); cbn; [done|]. by rewrite (proj2 (Z.leb_le _ _)) by lia.
  - done.
Qed.
End ControlPlane.
End Servers.

(** ** Witness: a check in flight, a signal, a check while draining, and the end *)

Definition shutdown_events : list CpEvent :=
  [CheckReceived ecs_agent_value; Caught SIGTERM; RunTask true; Pass 500; CheckReplied (Err "gone"); Pass 500;
   CheckReceived ecs_agent_value; CheckReplied (Err "gone"); Pass 54000; RunTask true].

Definition shutdown_log : list (Z * Happened) :=
  [(1000%Z, CheckAnswered 1 500); (1000%Z, CheckBegan 1 ecs_agent_value); (500%Z, CheckAnswered 0 500);
   (0%Z, DrainingSet); (0%Z, SignalReceived SIGTERM); (0%Z, CheckBegan 0 ecs_agent_value)].

Lemma shutdown_drains_first_witness : Production ≠ Development ∧
  ∃ t0 mid old, shutdown_log = mid ++ (t0, DrainingSet) :: old ∧ (t0 + 55000 <= 55000)%Z ∧
    (∃ ts sg, (ts, SignalReceived sg) ∈ old) ∧ ecs_unhealthy ([] ++ mid) ∧ one_earlier ([] ++ mid).
Proof.
  apply (shutdown_drains_first (J := json_ref) (fun _ => None) (fun _ => None) Production true 0 shutdown_events 55000).
  vm_compute. reflexivity.
Defined.
