(* ===== verification/Processes.v ===== *)
(** * Processes

    How the two programs are put together: the start of the control plane and
    of the data plane (control-plane/src/main.rs, data-plane/src/main.rs), the
    accept loops that hand connections to the handlers of the other files
    (both egressproxy.rs, config_server.rs), the clock loop
    (data-plane/src/time/mod.rs) and the metrics (both stats_client.rs,
    data-plane/src/stats.rs). *)
From Stdlib Require Import Ascii String NArith ZArith Lia.
From stdpp Require Import base gmap strings sets list pretty.
From S2P Require Import Prelude Libs Net Addr Egress EgressProxy Context Logging E3 Jws CpError Config ConfigRef Host.
From S2P Require Import TlsProxy DnsDriver Provisioner.
#[local] Open Scope string_scope.
#[local] Open Scope list_scope.
#[local] Open Scope enclave_scope.

(** ** Environment variables and ports *)

Definition Env : Type := string → option string.

(** [env_var_present_and_true!] *)
Definition env_var_present_and_true (env : Env) (v : string) : bool :=
  match env v with Some s => String.eqb s "true" | None => false end.

Definition ALLOW_PRIVATE_EGRESS_OVERRIDE_KEY : string := "EV_ALLOW_PRIVATE_IP_EGRESS".
Definition ALLOW_EGRESS_TO_INTERNAL_IPS (env : Env) : bool :=
  env_var_present_and_true env ALLOW_PRIVATE_EGRESS_OVERRIDE_KEY.

Definition ENCLAVE_CERT_PORT : N := 7775.
Definition ENCLAVE_ACME_PORT : N := 7780.
Definition ENCLAVE_CLOCK_SYNC_INTERVAL : N := 300.

(** ** Metrics *)

Section Metrics.
Context {F : Type} (f64_of_N : N → F).

Inductive MetricValue : Type :=
| Count (n : N)
| Gauge (v : F).

(** What the statsd client is given: the two identifiers are tags. *)
Record Metric : Type := mkMetric { mt_label : string; mt_value : MetricValue; mt_tags : list (string * string) }.

Definition publish (label : string) (v : MetricValue) (enclave_uuid app_uuid : string) : Metric :=
  mkMetric label v [("enclave_uuid", enclave_uuid); ("app_uuid", app_uuid)].

Definition publish_count (label : string) (n : N) (c : EnclaveContext) : Metric :=
  publish label (Count n) (Context.uuid c) (Context.app_uuid c).
Definition publish_gauge (label : string) (v : F) (c : EnclaveContext) : Metric :=
  publish label (Gauge v) (Context.uuid c) (Context.app_uuid c).

(** Nothing is published before the context of the enclave is set. *)
Definition with_context (cell : option EnclaveContext) (f : EnclaveContext → list Metric) : list Metric :=
  match EnclaveContext_get cell with Ok context => f context | Err _ => [] end.

Definition record_decrypt (cell : option EnclaveContext) : list Metric :=
  with_context cell (fun c => [publish_count "evervault.enclaves.decrypt.count" 1 c]).
Definition record_encrypt (cell : option EnclaveContext) : list Metric :=
  with_context cell (fun c => [publish_count "evervault.enclaves.encrypt.count" 1 c]).

Definition record_cert_order (cell : option EnclaveContext) (provider : string) (success : bool) : list Metric :=
  with_context cell (fun c =>
    let success_key := if success then "success" else "failure" in
    [publish_count (provider +:+ "." +:+ success_key +:+ ".count") 1 c]).

Inductive StatsError : Type := SysInfoError | MetricError | StatsIOError.

(** [sys_info]: total and available memory, load average, number of cores. *)
Record SysInfo : Type := mkSysInfo {
  mem_info : option (N * N);
  loadavg : option F;
  cpu_num : option N
}.

Definition try_record_system_metrics (sys : SysInfo) (cell : option EnclaveContext) : result StatsError (list Metric) :=
  let? mem := ok_or (mem_info sys) SysInfoError in
  let? cpu_one := ok_or (loadavg sys) SysInfoError in
  let? cpus := ok_or (cpu_num sys) SysInfoError in
  Ok (with_context cell (fun c =>
    [publish_gauge "evervault.enclaves.memory.total" (f64_of_N mem.1) c;
     publish_gauge "evervault.enclaves.memory.avail" (f64_of_N mem.2) c;
     publish_gauge "evervault.enclaves.cpu.cores" (f64_of_N cpus) c;
     publish_gauge "evervault.enclaves.cpu.one" cpu_one c])).

Definition record_system_metrics (sys : SysInfo) (cell : option EnclaveContext) : list Metric :=
  default [] (ok (try_record_system_metrics sys cell)).

(** [StatsProxy::record_system_metrics]: the interval in seconds, and the task
    at its first ticks; tokio's [interval] panics on a period of zero. *)
Definition system_stats_interval (env : Env) : N :=
  default 60%N (env "SYSTEM_STATS_INTERVAL" ≫= parse_unsigned 18446744073709551615).

Definition record_system_metrics_task (env : Env) (sys : nat → SysInfo) (cell : nat → option EnclaveContext)
    (ticks : nat) : exec unit (list (N * list Metric)) :=
  let interval := system_stats_interval env in
  if (interval =? 0)%N then Panic
  else Ret ((fun i => (N.of_nat i * interval, record_system_metrics (sys i) (cell i))%N) <$> seq 0 ticks).

(** The control plane reads its context from the environment every time. *)
Definition record_request (env : Env) : exec unit (list Metric) :=
  match from_env_vars env with
  | Some context => Ret [publish "request.count" (Count 1) (cp_uuid context) (cp_app_uuid context)]
  | None => Panic
  end.
End Metrics.

(** ** Accept loops *)

Section Egress.
Context {T : TtlLib} {R : RpcLib} {D : DnsLib}.

(** [EgressProxy::listen] of the control plane: a task per connection, which
    finds the cache as the lookups so far have left it. *)
Section ControlPlane.
Context (connects : IpAddr → N → bool) (accepts : bytes → bool) (pipe : IpAddr → N → bool).

Definition egress_task (env : gmap string string) (c : Conn * IpCache) : exec ServerError unit * EgressWorld :=
  handle_connection connects accepts pipe (ALLOW_EGRESS_TO_INTERNAL_IPS (fun v => env !! v))
    (get_egress_allow_list_from_env env) (mkEgress c.1 c.2 []).

Definition EgressProxy_listen (binds : bool) (env : gmap string string) (conns : list (option (Conn * IpCache))) :
    result ServerError (list (exec ServerError unit * EgressWorld)) :=
  if binds then Ok (egress_task env <$> omap id conns) else Err SeServer.

(** Every connection opened to the outside. *)
Definition dialled (tasks : list (exec ServerError unit * EgressWorld)) : list (IpAddr * N * bytes) :=
  tasks ≫= (fun t => ew_dialled t.2).
End ControlPlane.

Inductive EgressProxyError : Type := EpContext (e : ContextError) | EpServer | EpIO.

(** [EgressProxy::listen] of the data plane; the errors of the tasks are
    dropped. *)
Definition enclave_egress_listen (cell : option FeatureContext) (binds : bool)
    (conns : list (option (SockOpts * bool * HandOver))) :
    result EgressProxyError (list (exec DNSError unit * HandOver)) :=
  let? context := map_err EpContext (FeatureContext_get cell) in
  let allowed_domains := allow_list (egress context) in
  if binds then
    Ok ((fun c => handle_egress_connection c.1.1 c.1.2 allowed_domains c.2) <$> omap id conns)
  else Err EpIO.
End Egress.

(** [ConfigServer::listen]: the requests in the order they are handled; a
    failing request ends its own connection only. *)
Section ConfigServer.
Context {Wd : Type} (handle : CReq → M Wd ServerError CRes).

Fixpoint config_listen (requests : list CReq) (w : Wd) : list (exec ServerError CRes) * Wd :=
  match requests with
  | [] => ([], w)
  | req :: requests =>
      let '(r, w1) := handle req w in
      let '(rs, w2) := config_listen requests w1 in
      (r :: rs, w2)
  end.
End ConfigServer.

(** [ClockSync::run]: [elapsed] per tick of the interval; errors are logged. *)
Section Clock.
Context {W CE : Type} {SC : StorageConfigClient W CE}.

Fixpoint ClockSync_run (ticks : list (option Z)) : M (ClockWorld (W := W)) unit unit :=
  match ticks with
  | [] => mret tt
  | elapsed :: ticks => fun w =>
      match sync_time_from_host elapsed w with
      | (Panic, w') => (Panic, w')
      | (_, w') => ClockSync_run ticks w'
      end
  end.
End Clock.

(** ** The data plane's [main] *)

(** What runs concurrently under [join!]. *)
Inductive DataTask : Type :=
| StartDataPlane (data_plane_port : N) (context : FeatureContext)
| StartHealthCheckServer (port : N) (healthcheck : option string) (use_tls : bool)
| BindDnsServer (allow_list : EgressDestinations)
| CryptoApiListen
| EnclaveEgressListen
| StatsListen
| ClockSyncRun (interval : N).

(** The first argument after the path of the executable. *)
Definition data_plane_port (args : list string) : N :=
  default 8008%N (args !! 1 ≫= parse_unsigned u16_max).

(** [start]; [network_egress] is the feature of the build. *)
Definition start (network_egress : bool) (port : N) (cell : option FeatureContext) : list DataTask :=
  match FeatureContext_get cell with
  | Err _ => []
  | Ok context =>
      if network_egress then
        [StartDataPlane port context; BindDnsServer (allow_list (egress context)); CryptoApiListen;
         EnclaveEgressListen; StatsListen; ClockSyncRun ENCLAVE_CLOCK_SYNC_INTERVAL]
      else
        [StartDataPlane port context; CryptoApiListen; StatsListen; ClockSyncRun ENCLAVE_CLOCK_SYNC_INTERVAL]
  end.

(** [main] on the configuration file; [expect] on the context just set. *)
Definition data_plane_main (network_egress : bool) (args : list string)
    (read : result ContextError FeatureContext) : exec unit (list DataTask) :=
  let port := data_plane_port args in
  match FeatureContext_set read None with
  | (Ok _, cell) =>
      match FeatureContext_get cell with
      | Ok ctx =>
          Ret (start network_egress port cell ++
            [StartHealthCheckServer (default port (healthcheck_port ctx)) (healthcheck ctx)
               (default false (healthcheck_use_tls ctx))])
      | Err _ => Panic
      end
  | (Err _, _) => Ret []
  end.

(** ** The control plane's [main] *)

Record TlsProxyConfig : Type := mkTlsProxy { tp_targets : TlsTargetDetails; tp_vsock_port : N; tp_resolver : IpAddr }.

Definition TlsProxy_new (hosts : list string) (port vsock_port : N) (resolver : IpAddr) : TlsProxyConfig :=
  mkTlsProxy (mkTargets hosts port) vsock_port resolver.

(** The name servers of [InternalAsyncDnsResolver] and [ExternalAsyncDnsResolver]. *)
Definition internal_resolver : IpAddr := V4 169 254 169 253.
Definition external_resolver : IpAddr := V4 8 8 8 8.

Definition get_acme_hosts : list string := ["acme-v02.api.letsencrypt.org"; "acme.zerossl.com"].

Definition provisioner_proxy (env : Env) : TlsProxyConfig :=
  TlsProxy_new [get_cert_provisoner_host env] 3000 ENCLAVE_CERT_PORT internal_resolver.
Definition acme_proxy : TlsProxyConfig := TlsProxy_new get_acme_hosts 443 ENCLAVE_ACME_PORT external_resolver.

Inductive Service : Type :=
| TcpServer | DnsProxyService | EgressService | E3Service | HealthService | ConfigService
| ProvisionerProxy | AcmeProxy | StatsService.

(** In the order of [join!]. *)
Definition services (network_egress : bool) : list Service :=
  [TcpServer] ++ (if network_egress then [DnsProxyService; EgressService] else []) ++
  [E3Service; HealthService; ConfigService; ProvisionerProxy; AcmeProxy; StatsService].

(** The result of the statistics is not looked at. *)
Definition reported (s : Service) : bool := match s with StatsService => false | _ => true end.

(** [join!] gives its results when every task has ended. *)
Definition join {A} (tasks : list (option A)) : option (list A) := mapM id tasks.

(** The errors logged after [join!]. *)
Fixpoint logged_errors (results : list (Service * result ServerError unit)) : list (Service * ServerError) :=
  match results with
  | [] => []
  | (s, Err e) :: results => if reported s then (s, e) :: logged_errors results else logged_errors results
  | (_, Ok _) :: results => logged_errors results
  end.

Section Main.
Context {O : OpenSsl} {P : PemFile} {H : HttpLib} {PW : Type} {MN : MtlsNet PW}.
Context (b64_dec : string → option bytes).
(** [EcKey::private_key_from_pem] and [PKey::from_ec_key] *)
Context (ec_key_from_pem : bytes → option PKey).

Definition get_acme_s3_bucket (env : Env) : option string := env "ACME_S3_BUCKET".
Definition get_acme_hmac_key (env : Env) : option string := env "ACME_ACCOUNT_HMAC_KEY".
Definition get_acme_hmac_key_id (env : Env) : option string := env "ACME_ACCOUNT_HMAC_KEY_ID".
Definition get_acme_ec_key (env : Env) : option PKey := env "ACME_ACCOUNT_EC_KEY" ≫= (fun s => ec_key_from_pem (b s)).

(** [expect] makes a missing variable a panic. *)
Definition expect {E A} (o : option A) : exec E A := match o with Some a => Ret a | None => Panic end.

Definition ebind {E A B} (m : exec E A) (f : A → exec E B) : exec E B :=
  match m with Ret a => f a | Throw e => Throw e | Panic => Panic end.

Definition new_from_env (env : Env) : exec AcmeError AcmeAccountDetails :=
  ebind (expect (get_acme_ec_key env)) (fun ec_key =>
  ebind (expect (get_acme_hmac_key_id env)) (fun hmac_key_id =>
  ebind (expect (get_acme_hmac_key env)) (fun hmac_key_raw =>
  match hmac_from_b64_string b64_dec hmac_key_raw with
  | Ok hmac_key => Ret (mkAccount ec_key (Some (mkEab hmac_key_id hmac_key)))
  | Err e => Throw e
  end))).

Record ConfigServer : Type := mkConfigServer {
  cfs_client : CertProvisionerClient (MN := MN);
  cfs_bucket : string;
  cfs_context : CpContext;
  cfs_account : AcmeAccountDetails
}.

Definition ConfigServer_new {E} (env : Env) (client : CertProvisionerClient (MN := MN)) (bucket : string) :
    exec E ConfigServer :=
  match new_from_env env with
  | Ret account => ebind (expect (from_env_vars env)) (fun context => Ret (mkConfigServer client bucket context account))
  | _ => Panic
  end.

(** Everything before the services are started. *)
Definition prepare (env : Env) : exec ServerError ConfigServer :=
  match mtls_from_env_vars env with
  | Err _ => Panic
  | Ok mtls_config =>
      ebind (expect (CertProvisionerClient_new env (client_key_pair mtls_config) (root_cert mtls_config))) (fun client =>
      ebind (expect (get_acme_s3_bucket env)) (fun bucket => ConfigServer_new env client bucket))
  end.

(** [main]: [outcome] is how a service ends, [None] when it does not. The
    result is what is logged at the end, [None] when the end is not reached. *)
Definition control_plane_main (network_egress : bool) (env : Env) (health_binds : bool)
    (outcome : Service → option (result ServerError unit)) :
    exec ServerError (option (list (Service * ServerError))) :=
  ebind (prepare env) (fun _ =>
  if health_binds then
    Ret (option_map logged_errors (join (map (fun s => option_map (pair s) (outcome s)) (services network_egress))))
  else Throw SeServer).
End Main.

(** ** Properties *)

Section EgressProperties.
Context {T : TtlLib} {R : RpcLib}.
Context (connects : IpAddr → N → bool) (accepts : bytes → bool) (pipe : IpAddr → N → bool).

(** C15. The egress listener of the control plane opens no connection it should
    not: whatever connections it accepts, every address it dials passes the
    allow list of its environment with the cache at that time, and lies in no
    special-purpose block unless the environment says EV_ALLOW_PRIVATE_IP_EGRESS
    is [true], exactly. *)
Theorem egress_listener_dials_only_allowed binds env conns tasks ip port data :
  EgressProxy_listen connects accepts pipe binds env conns = Ok tasks → (ip, port, data) ∈ dialled tasks →
  ∃ c cache, Some (c, cache) ∈ conns ∧
    check_ip_allow_list (ip_to_string ip) (get_egress_allow_list_from_env env) cache = Ok tt ∧
    (env !! ALLOW_PRIVATE_EGRESS_OVERRIDE_KEY ≠ Some "true" → wf_ip ip → special_block ip = false).
Proof.
  unfold EgressProxy_listen. destruct binds; [|done]. intros [= <-].
  intros (t & Ht & Hin)%list_elem_of_bind. apply list_elem_of_fmap in Hin as ((c & cache) & -> & Hin).
  apply list_elem_of_omap in Hin as (o & Ho & Hid). cbn in Hid. subst o.
  exists c, cache. split; [done|]. revert Ht. unfold egress_task. cbn [fst snd].
  destruct (handle_connection _ _ _ _ _ _) as [r w'] eqn:E. cbn [snd].
  apply egress_connects_only_allowed in E as [->|(ip' & port' & data' & -> & Hc & Hs)]; cbn; [by intros []%not_elem_of_nil|].
  intros [= <- <- <-]%list_elem_of_singleton. split; [exact Hc|]. intros Hne. apply Hs.
  unfold ALLOW_EGRESS_TO_INTERNAL_IPS, env_var_present_and_true. destruct (env !! _) as [v|]; [|done].
  destruct (String.eqb_spec v "true"); congruence.
Qed.
End EgressProperties.

Section MainProperties.
Context {O : OpenSsl} {P : PemFile} {H : HttpLib} {PW : Type} {MN : MtlsNet PW}.
Context (b64_dec : string → option bytes) (ec_key_from_pem : bytes → option PKey).
#[local] Notation cp_main := (control_plane_main b64_dec ec_key_from_pem).

Lemma prepare_context env c : prepare b64_dec ec_key_from_pem env = Ret c → from_env_vars env = Some (cfs_context c).
Proof.
  unfold prepare, ConfigServer_new. destruct (mtls_from_env_vars env) as [m|]; [|done].
  destruct (CertProvisionerClient_new _ _ _); [|done]. destruct (get_acme_s3_bucket env); [|done].
  destruct (new_from_env _ _ env); [|done..]. cbn. destruct (from_env_vars env); [|done]. by intros [= <-].
Qed.

(** Counting a request cannot stop the ingress of a control plane that has
    started: it read the same variables before. *)
Lemma request_counted {F} network_egress env health_binds outcome r :
  cp_main network_egress env health_binds outcome = Ret r →
  ∃ m : Metric (F := F), record_request env = Ret [m].
Proof.
  unfold control_plane_main. destruct (prepare _ _ env) as [c|?|] eqn:Ep; [|done..]. intros _.
  apply prepare_context in Ep. unfold record_request. rewrite Ep. by eexists.
Qed.

Lemma join_none {A} (tasks : list (option A)) : None ∈ tasks → join tasks = None.
Proof.
  unfold join. induction tasks as [|o tasks IH]; [by intros []%not_elem_of_nil|].
  intros [<-|Hin]%elem_of_cons; [done|]. cbn. destruct o; [|done]. cbn. by rewrite IH.
Qed.

(** While one service runs, the failure of another is not reported. *)
Lemma failures_unreported network_egress env outcome c s :
  prepare b64_dec ec_key_from_pem env = Ret c → s ∈ services network_egress → outcome s = None →
  cp_main network_egress env true outcome = Ret None.
Proof.
  intros Hp Hs Ho. unfold control_plane_main. rewrite Hp. cbn [ebind]. rewrite join_none; [done|].
  apply list_elem_of_fmap. exists s. by rewrite Ho.
Qed.
End MainProperties.

(** ** Witness *)

Lemma egress_listener_dials_only_allowed_witness :
  let env : gmap string string := {["EV_EGRESS_ALLOW_LIST" := "1.2.3.4"]} in
  ∃ tasks, EgressProxy_listen yes2 yes1 yes2 true env [None; Some (conn_of [sample_bytes], sample_cache)] = Ok tasks ∧
  dialled tasks = [(V4 1 2 3 4, 443%N, b "hi")] ∧
  ∃ c cache, Some (c, cache) ∈ [None; Some (conn_of [sample_bytes], sample_cache)] ∧
    check_ip_allow_list (ip_to_string (V4 1 2 3 4)) (get_egress_allow_list_from_env env) cache = Ok tt ∧
    (env !! ALLOW_PRIVATE_EGRESS_OVERRIDE_KEY ≠ Some "true" → wf_ip (V4 1 2 3 4) → special_block (V4 1 2 3 4) = false).
Proof.
  cbn zeta. eexists. split; [vm_compute; reflexivity|]. split; [vm_compute; reflexivity|].
  eapply (egress_listener_dials_only_allowed yes2 yes1 yes2 true _ _ _ (V4 1 2 3 4) 443 (b "hi"));
    [vm_compute; reflexivity|vm_compute; by left].
Defined.
