(* ===== verification/EgressSystem.v ===== *)
(** * Egress through both planes

    The two egress proxies as one system: what the data plane writes to the
    vsock (data-plane/src/dns/egressproxy.rs) is what arrives at the control
    plane (control-plane/src/egressproxy.rs), in segments of any length. The
    theorem says exactly when a connection of the user process comes out of the
    host, and as what, and which bytes are lost. *)
From Stdlib Require Import Ascii String NArith ZArith Lia.
From stdpp Require Import base strings list.
From S2P Require Import Prelude Net Egress CpError EgressProxy ProxyProtocol.
#[local] Open Scope string_scope.
#[local] Open Scope list_scope.
#[local] Open Scope enclave_scope.

Section System.
Context {T : TtlLib} {R : RpcLib} {RL : RpcLaws R}.
(** The network outside. *)
Context (connects : IpAddr → N → bool) (accepts : bytes → bool) (pipe : IpAddr → N → bool).
(** The control plane's configuration. *)
Context (allow_internal : bool) (host_destinations : EgressDestinations).

(** The control plane on a connection of the enclave. *)
Definition host_side (h : Conn) (cache : IpCache) : exec ServerError unit * EgressWorld :=
  handle_connection connects accepts pipe allow_internal host_destinations (mkEgress h cache []).

(** What the only read of the request gives. *)
Definition first_read (h : Conn) : bytes := match fst (conn_read 4096 h) with Ok d => d | Err _ => [] end.

(** What the control plane checks of a request it could decode. *)
Definition host_admits (ip : IpAddr) (port : N) (cache : IpCache) : bool :=
  is_ok (validate_requested_ip ip allow_internal) &&
  is_ok (check_ip_allow_list (ip_to_string ip) host_destinations cache) && connects ip port.

(** A stream that brings the message [e], in any segments. *)
Lemma first_read_cases h e more : conn_bytes h `prefix_of` e ++ more →
  (∃ n, (n < length e)%nat ∧ first_read h = take n e) ∨ (∃ lost, first_read h = e ++ lost).
Proof.
  intros Hp. assert (first_read h `prefix_of` e ++ more) as [k Hk].
  { unfold first_read. destruct (conn_read 4096 h) as [[d|] h'] eqn:Er; cbn; [|apply prefix_nil].
    apply conn_read_bytes in Er as [Hb _]; [|lia]. destruct Hp as [k Hk]. exists (conn_bytes h' ++ k). by rewrite (assoc_L app), <-Hb, Hk. }
  destruct (decide (length e ≤ length (first_read h))%nat) as [Hl|Hl].
  - right. exists (drop (length e) (first_read h)).
    rewrite <-(take_drop (length e) (first_read h)) at 1. f_equal.
    apply (f_equal (take (length e))) in Hk. by rewrite take_app_length, take_app_le in Hk by done.
  - left. exists (length (first_read h)). split; [lia|].
    apply (f_equal (take (length (first_read h)))) in Hk. by rewrite take_app_le, take_app_length in Hk by lia.
Qed.

(** The control plane on a stream that begins with a message. *)
Lemma host_side_dials ip data port e h more cache :
  to_bytes (mkRequest ip data port) = Some e → conn_bytes h `prefix_of` e ++ more →
  let w := snd (host_side h cache) in
  if (length e <=? length (first_read h))%nat && host_admits ip port cache
  then ew_dialled w = [(ip, port, if accepts data then data else [])] ∧
    ∃ lost, conn_bytes h = e ++ lost ++ conn_bytes (ew_stream w) ∧ first_read h = e ++ lost
  else ew_dialled w = [].
Proof.
  intros He Hp. cbn zeta. pose proof (first_read_cases h e more Hp) as Hf. pose proof (rpc_length _ _ He) as Hne. revert Hf.
  unfold host_side, first_read, handle_connection, Prelude.mbind, mget. cbn [ew_stream].
  destruct (conn_read 4096 h) as [[d|] h'] eqn:Er; cbn [fst mmodify map_err mlift mret].
  2: { intros _. by destruct e as [|x e]; [cbn in Hne; lia|]. }
  apply conn_read_bytes in Er as [Hb _]; [|lia]. intros [(n & Hn & ->)|[lost ->]].
  - rewrite (proj2 (Nat.leb_gt _ _)) by (rewrite length_take; lia). by rewrite (rpc_prefix _ _ n He).
  - rewrite (proj2 (Nat.leb_le _ _)) by (rewrite length_app; lia).
    rewrite (rpc_trailing _ _ lost He). unfold host_admits. cbn [ok_or mlift mret er_ip er_port er_data ew_cache andb].
    destruct (validate_requested_ip ip allow_internal); [|done]. cbn [is_ok andb].
    destruct (check_ip_allow_list _ _ _); [|done]. cbn [is_ok andb].
    destruct (connects ip port); [|done]. rewrite Hb, <-(assoc_L app).
    destruct (accepts data); [destruct (pipe ip port)|]; (split; [done|]); by exists lost.
Qed.

(** C17. The two egress proxies together carry a connection to its destination,
    or nowhere, and where bytes are lost is known. However the enclave's side
    ends, it wrote nothing to the vsock and failed, or one message for the
    original destination with the first bytes of the process, which is longer
    than those bytes. Whatever piped bytes [more] follow, and in whatever
    segments the host's stream [h] brings them (all or, if it breaks, the
    beginning): if the single read of the control plane, of up to 4096 bytes,
    holds the whole message and the host's own checks admit the address, then
    exactly one connection is opened, to the original destination and beginning
    with the first bytes of the process, and the bytes [lost] that were read
    together with the message are neither written to it nor left in the stream
    that is piped; otherwise, in particular when the message arrives in two
    reads or is longer than 4096 bytes, no connection is opened. *)
Theorem egress_system_delivers so piped dests stream v c r w' v' h more cache :
  handle_egress_connection so piped dests (mkHandOver stream (Some v) c) = (r, w') →
  c_out v = [] → ho_vsock w' = Some v' → conn_bytes h `prefix_of` c_out v' ++ more →
  (v' = v ∧ r ≠ Ret tt) ∨
  ∃ ip port data, get_destination so = Ok (ip, port) ∧ fst (conn_read 4096 stream) = Ok data ∧
    to_bytes (mkRequest ip data port) = Some (c_out v') ∧ (length data < length (c_out v'))%nat ∧
    let w := snd (host_side h cache) in
    if (length (c_out v') <=? length (first_read h))%nat && host_admits ip port cache
    then ew_dialled w = [(ip, port, if accepts data then data else [])] ∧
      ∃ lost, conn_bytes h = c_out v' ++ lost ++ conn_bytes (ew_stream w) ∧ first_read h = c_out v' ++ lost
    else ew_dialled w = [].
Proof.
  intros [[Hv Hr]|(ip & port & data & e & v0 & v1 & [= <-] & Hv & Ho & Hd & Hs & He & _)]%hand_over_cases Hv0 Hv' Hp;
    rewrite Hv in Hv'; injection Hv' as <-; [by left|right].
  rewrite Hv0 in Ho. cbn [app] in Ho. rewrite Ho in *.
  exists ip, port, data. split_and!; [done..|apply (rpc_length _ _ He)|by eapply host_side_dials].
Qed.
End System.

(** ** Witness: a connection to 1.2.3.4:443 that begins with [hi]; what is
    piped next reaches the host together with the message *)

Definition handed : exec DNSError unit * HandOver :=
  handle_egress_connection (mkSockOpts (Some (0x04030201, 0xbb01)%N) None) true sample_dests
    (mkHandOver (conn_of [b "hi"]) (Some (conn_of [])) sample_cache).

Definition handed_vsock : Conn := mkConn [] (default [] (to_bytes (mkRequest (V4 1 2 3 4) (b "hi") 443))) false true.

Definition coalesced : Conn := conn_of [c_out handed_vsock ++ b "lost"; b "kept"].

Lemma egress_system_delivers_witness :
  let w := snd (host_side yes2 yes1 yes2 false sample_dests coalesced sample_cache) in
  ew_dialled w = [(V4 1 2 3 4, 443%N, b "hi")] ∧
  ∃ lost, conn_bytes coalesced = c_out handed_vsock ++ lost ++ conn_bytes (ew_stream w) ∧
    first_read coalesced = c_out handed_vsock ++ lost ∧ lost = b "lost".
Proof.
  destruct (egress_system_delivers yes2 yes1 yes2 false sample_dests
    (mkSockOpts (Some (0x04030201, 0xbb01)%N) None) true sample_dests (conn_of [b "hi"]) (conn_of []) sample_cache
    (Ret tt) handed.2 handed_vsock coalesced (b "lostkept") sample_cache)
    as [[_ Hr]|(ip & port & data & [= <- <-] & [= <-] & _ & _ & Hw)];
    [vm_compute; reflexivity|vm_compute; reflexivity|vm_compute; reflexivity|by exists []|by destruct Hr|].
  destruct Hw as [Hw (lost & Hb & Hf)]. split; [exact Hw|]. exists lost. split; [exact Hb|]. split; [exact Hf|].
  apply (app_inv_head (c_out handed_vsock)). rewrite <-Hf. vm_compute. reflexivity.
Defined.

(** A message that arrives in two reads is dropped. *)
Example split_message_is_dropped : to_bytes (mkRequest (V4 1 2 3 4) (b "hi") 443) = Some (c_out handed_vsock) ∧
  host_side yes2 yes1 yes2 false sample_dests (conn_of [take 8 (c_out handed_vsock); drop 8 (c_out handed_vsock)]) sample_cache
    = (Throw SeRpc, mkEgress (conn_of [drop 8 (c_out handed_vsock)]) sample_cache []).
Proof. split; vm_compute; reflexivity. Qed.
