(* ===== verification/TlsAccept.v ===== *)
(** * The TLS server under handshakes

    The accept loop of data-plane/src/server/server.rs with the certificate
    resolver inside it: the handshake of a connection reads the ClientHello and
    asks the resolver (data-plane/src/server/tls/cert_resolver.rs) for a
    certificate, all inside [accept] (tls_server.rs). The container of the base
    certificate lives from one handshake to the next, and a panic in a
    handshake is a panic of the loop. *)
From Stdlib Require Import Ascii String NArith ZArith Lia.
From stdpp Require Import base gmap strings sets list.
From S2P Require Import Prelude Libs Net Context E3 Jws Config Acme AcmeCert AcmeRef Attest CertResolver TlsRef.
From S2P Require Import ProxyProtocol Listeners.
#[local] Open Scope string_scope.
#[local] Open Scope list_scope.
#[local] Open Scope enclave_scope.

Section Accept.
Context {W Key : Type} {XL : X509Lib Key} {CG : CertGen W Key XL} {RT : Runtime W} {NS : Nsm W}.
Context (base64_decode : string → option bytes) (get_expiry_time : bytes → M W AttestationError Z).
Context (staging : bool).
#[local] Notation World := (ResolverWorld (W := W) (Key := Key)).

(** [ResolvesServerCert::resolve], on the server name of the ClientHello. *)
Definition resolve (self : AttestableCertResolver) (server_name : option string) :
    M World TlsError (option CertifiedKey) :=
  resolve_cert_using_sni base64_decode get_expiry_time staging self server_name.

(** ppp and rustls on what the peer has sent: the server name of its
    ClientHello, and the session with a certificate; [None] needs more. *)
Context (parse : bytes → PPResult) {Session : Type}.
Context (client_hello : AcceptedConn → option (result unit (option string))).
Context (finish : AcceptedConn → CertifiedKey → option (result unit Session)).

(** A session with the server name it asked for and the certificate it got. *)
Record Served : Type := mkServed { sv_name : option string; sv_cert : CertifiedKey; sv_session : Session }.

Definition need_more {A} (open : bool) : Accepted A := if open then Waiting else Failed.

(** rustls aborts the handshake when the resolver gives no certificate. *)
Definition resolving_accept (self : AttestableCertResolver) (o : option Incoming) (w : World) :
    Accepted Served * World :=
  match proxied_accept parse o with
  | Got (conn, open) =>
      match client_hello conn with
      | None => (need_more open, w)
      | Some (Err _) => (Failed, w)
      | Some (Ok server_name) =>
          match resolve self server_name w with
          | (Ret (Some cert), w') =>
              (match finish conn cert with
               | Some (Ok session) => Got (mkServed server_name cert session)
               | Some (Err _) => Failed
               | None => need_more open
               end, w')
          | (Ret None, w') => (Failed, w')
          | (Throw _, w') => (Failed, w')
          | (Panic, w') => (Crashed, w')
          end
      end
  | Failed => (Failed, w)
  | Crashed => (Crashed, w)
  | Waiting => (Waiting, w)
  end.

(** The sessions served, the resolver's world, and whether the loop still
    accepts. *)
Fixpoint tls_loop (self : AttestableCertResolver) (l : list (option Incoming)) (w : World) :
    list Served * World * bool :=
  match l with
  | [] => ([], w, true)
  | o :: l' =>
      match resolving_accept self o w with
      | (Got s, w1) => let '(ss, w2, running) := tls_loop self l' w1 in (s :: ss, w2, running)
      | (Failed, w1) => tls_loop self l' w1
      | (Crashed, w1) | (Waiting, w1) => ([], w1, false)
      end
  end.

(** ** Properties *)

Lemma resolving_accept_cert self o w s w' : resolving_accept self o w = (Got s, w') →
  resolve self (sv_name s) w = (Ret (Some (sv_cert s)), w').
Proof.
  unfold resolving_accept. destruct (proxied_accept parse o) as [[conn open]| | |]; [|done..].
  destruct (client_hello conn) as [[name|]|]; [| |by destruct open]; [|done].
  destruct (resolve self name w) as [[[cert|]|e|] w1] eqn:Er; [|done..].
  destruct (finish conn cert) as [[session|]|]; [|done|by destruct open]. by intros [= <- <-].
Qed.

Lemma tls_loop_app self l1 l2 w ss w1 : tls_loop self l1 w = (ss, w1, true) →
  tls_loop self (l1 ++ l2) w = let '(ss2, w2, running) := tls_loop self l2 w1 in (ss ++ ss2, w2, running).
Proof.
  revert w ss. induction l1 as [|o l1 IH]; intros w ss; cbn [tls_loop app].
  - intros [= <- <-]. by destruct (tls_loop self l2 w) as [[]].
  - destruct (resolving_accept self o w) as [[s| | |] w2]; [|by apply IH|done..].
    destruct (tls_loop self l1 w2) as [[ss1 w3] running] eqn:El. intros [= <- <- ->].
    rewrite (IH _ _ El). by destruct (tls_loop self l2 w3) as [[]].
Qed.

(** Every session got the certificate the resolver gave for its name. *)
Lemma tls_loop_served self l w ss w' running s : tls_loop self l w = (ss, w', running) → s ∈ ss →
  ∃ w1 w2, resolve self (sv_name s) w1 = (Ret (Some (sv_cert s)), w2).
Proof.
  revert w ss. induction l as [|o l IH]; intros w ss; cbn [tls_loop].
  - intros [= <- _ _] []%not_elem_of_nil.
  - destruct (resolving_accept self o w) as [[s1| | |] w1] eqn:Ea; [| |by intros [= <- _ _] []%not_elem_of_nil..].
    + destruct (tls_loop self l w1) as [[ss1 w2] r] eqn:El. intros [= <- <- <-] [->|Hs]%elem_of_cons; [|by eapply IH].
      do 2 eexists. by apply resolving_accept_cert in Ea.
    + by apply IH.
Qed.

(** C37. Whoever connects to the enclave with a nonce in the server name is
    served with an attested certificate or not at all: in every run of the
    server, whatever the other connections do, a session whose name carries a
    nonce got a certificate whose names hold a document that the secure module
    issued for the public key of that certificate and for that nonce. *)
Theorem sessions_with_nonce_attested self accepts w ss w' running s name nonce :
  tls_loop self accepts w = (ss, w', running) → s ∈ ss → sv_name s = Some name →
  extract_nonce_from_servername base64_decode name = Some nonce →
  attests (re_internal_ca self) (re_internal_pk self) [name] (Some nonce) (sv_cert s).
Proof.
  intros Hl Hs Hname Hn. destruct (tls_loop_served _ _ _ _ _ _ _ Hl Hs) as (w1 & w2 & Hr). rewrite Hname in Hr.
  unfold resolve in Hr. by apply (nonce_certificate_is_attested base64_decode get_expiry_time staging self name nonce) in Hr as (_ & Ha & _).
Qed.

(** One failure of the secure module at the wrong moment stops the server:
    when the base certificate has expired, the next connection for a name that
    is neither trusted nor has a nonce, while the module fails, panics the
    accept loop; none of the later connections is served, whatever names they
    ask for, and the lock of the certificate is left poisoned. *)
Theorem module_failure_stops_server self before i after w ss w1 conn open name :
  tls_loop self before w = (ss, w1, true) →
  proxied_accept parse (Some i) = Got (conn, open) → client_hello conn = Some (Ok name) →
  is_trusted_cert_domain name = false → (s ← name; extract_nonce_from_servername base64_decode s) = None →
  cc_poisoned (rw_base w1) = false → (∀ x, cc_expiry (rw_base w1) ≤ (rt_now x).1 / 1000)%Z →
  (∀ x, (generate_self_signed_cert get_expiry_time (re_internal_ca self) (re_internal_pk self)
     (get_cert_names staging (re_context self)) None x).1 = Panic) →
  ∃ w2, tls_loop self (before ++ Some i :: after) w = (ss, w2, false) ∧ cc_poisoned (rw_base w2) = true.
Proof.
  intros Hb Hi Hc Ht Hn Hp He Hg. rewrite (tls_loop_app _ _ _ _ _ _ Hb).
  destruct (module_failure_poisons_resolver base64_decode get_expiry_time staging self name w1 Ht Hn Hp He Hg)
    as [(w2 & Hr & Hp2) _].
  exists w2. split; [|done]. cbn [tls_loop]. unfold resolving_accept, resolve. rewrite Hi, Hc, Hr. cbn. by rewrite app_nil_r.
Qed.
End Accept.

(** ** Witnesses: a connection names its server in what it sends *)

Definition hello_name (c : AcceptedConn) : option (result unit (option string)) :=
  Some (Ok (Some (String.string_of_list_ascii (accepted_bytes c)))).
Definition finish_at_once (_ : AcceptedConn) (_ : CertifiedKey (XL := toy_x509)) : option (result unit unit) := Some (Ok tt).

Definition toy_loop (fd : Z) (names : list string) w :=
  tls_loop (CG := toy_gen) (RT := hundred_runtime) (NS := open_nsm fd) toy_decode later_expiry false no_header
    hello_name finish_at_once toy_resolver ((fun n => Some (mkIncoming (conn_of [b n]) true)) <$> names) w.

Lemma sessions_with_nonce_attested_witness :
  attests (CG := toy_gen) (NS := open_nsm 3) toy_ca "cakey" [nonce_name] (Some (b "n1")) nonce_cert.
Proof.
  refine (sessions_with_nonce_attested (CG := toy_gen) (RT := hundred_runtime) (NS := open_nsm 3) toy_decode later_expiry
    false no_header hello_name finish_at_once toy_resolver [Some (mkIncoming (conn_of [b nonce_name]) true)]
    (resolver_world 0 None) [mkServed (Some nonce_name) nonce_cert tt] _ true (mkServed (Some nonce_name) nonce_cert tt)
    nonce_name (b "n1") _ _ _ _).
  - vm_compute. reflexivity.
  - by left.
  - reflexivity.
  - reflexivity.
Defined.

Lemma module_failure_stops_server_witness : ∃ w2,
  toy_loop (-1) ["a.app_1.cages.evervault.com"; "a.app-1.enclave.evervault.com"] (resolver_world 0 None)
    = ([], w2, false) ∧ cc_poisoned (rw_base w2) = true.
Proof.
  apply (module_failure_stops_server (CG := toy_gen) (RT := hundred_runtime) (NS := open_nsm (-1)) toy_decode later_expiry
    false no_header hello_name finish_at_once toy_resolver [] (mkIncoming (conn_of [b "a.app_1.cages.evervault.com"]) true)
    [Some (mkIncoming (conn_of [b "a.app-1.enclave.evervault.com"]) true)] (resolver_world 0 None) [] (resolver_world 0 None)
    (mkAccepted (conn_of [b "ervault.com"]) None (Some (b "a.app_1.cages.ev"))) true (Some "a.app_1.cages.evervault.com")).
  - reflexivity.
  - vm_compute. reflexivity.
  - vm_compute. reflexivity.
  - vm_compute. reflexivity.
  - vm_compute. reflexivity.
  - reflexivity.
  - intros x. vm_compute. discriminate.
  - intros x. reflexivity.
Defined.
