(* ===== verification/Startup.v ===== *)
(** * Starting up: limits, statistics, and what is logged

    The parts of both [main.rs] around the services of [Processes]: the limit
    on file descriptors, the statsd client of both planes
    (data-plane/src/stats_client.rs, control-plane/src/stats_client.rs) with
    what publishing does without it, the start of the enclave's server, and
    the errors logged when the services of the data plane have ended. *)
From Stdlib Require Import Ascii String NArith ZArith Lia.
From stdpp Require Import base gmap strings list.
From S2P Require Import Prelude Libs Net Context Addr CpError Config ProxyProtocol Listeners Relay Processes.
#[local] Open Scope string_scope.
#[local] Open Scope list_scope.
#[local] Open Scope enclave_scope.

(** ** File descriptors *)

Definition ENCLAVE_NOFILE_SOFT_LIMIT : N := 4096.
Definition ENCLAVE_NOFILE_HARD_LIMIT : N := 16384.

Inductive LimitLine : Type := LimitFailed | LimitIs (soft hard : N).

(** [setrlimit] gives the new limits or fails; [getrlimit] reads them. *)
Definition try_update_fd_limit (setrlimit : N → N → N * N → option (N * N)) (getrlimit : N * N → option (N * N))
    (soft_limit hard_limit : N) (limits : N * N) : (N * N) * list LimitLine :=
  let set := setrlimit soft_limit hard_limit limits in
  let limits' := default limits set in
  (limits', (if set then [] else [LimitFailed]) ++
    match getrlimit limits' with Some (s, h) => [LimitIs s h] | None => [] end).

(** ** The statsd client *)

Section Stats.
Context {F : Type}.

(** The global client of [cadence_macros] with its target, and what was given
    to it; the errors logged. *)
Record StatsWorld : Type := mkStats {
  st_client : option (IpAddr * N);
  st_metrics : list (Metric (F := F));
  st_errors : list StatsError
}.

#[local] Notation SM := (M StatsWorld).

Definition set_global_default {E} (target : IpAddr * N) : SM E unit :=
  mmodify (fun w => mkStats (Some target) (st_metrics w) (st_errors w)).

(** The macros panic when no client was set. *)
Definition statsd {E} (m : Metric (F := F)) : SM E unit := fun w =>
  match st_client w with
  | Some _ => (Ret tt, mkStats (st_client w) (st_metrics w ++ [m]) (st_errors w))
  | None => (Panic, w)
  end.

Fixpoint statsd_all {E} (ms : list (Metric (F := F))) : SM E unit :=
  match ms with [] => mret tt | m :: ms => statsd m ;! statsd_all ms end.

(** What the operating system does: binding a socket, and the sink on it. *)
Record SinkIo : Type := mkSinkIo { udp_bind : bool; udp_sink : bool }.

Definition initialize_sink (io : SinkIo) (target : IpAddr * N) : SM StatsError unit :=
  (if udp_bind io then mret tt else mthrow StatsIOError) ;!
  (if udp_sink io then mret tt else mthrow MetricError) ;!
  set_global_default target.

Definition StatsClient_init {E} (io : SinkIo) (target : IpAddr * N) : SM E unit :=
  let! r := mtry (initialize_sink io target) in
  match r with
  | Ok _ => mret tt
  | Err e => mmodify (fun w => mkStats (st_client w) (st_metrics w) (st_errors w ++ [e]))
  end.

(** [enclave] is the feature of the build. *)
Definition ENCLAVE_STATSD_PORT (enclave : bool) : N := if enclave then 8125 else 8122.
Definition dp_stats_init {E} (enclave : bool) (io : SinkIo) : SM E unit :=
  StatsClient_init io (V4 127 0 0 1, ENCLAVE_STATSD_PORT enclave).
Definition cp_stats_init {E} (enclave : bool) (io : SinkIo) : SM E unit :=
  StatsClient_init io (if enclave then V4 127 0 0 1 else V4 172 20 0 6, 8125%N).

(** Publishing on the global client. *)
Definition publish_decrypt {E} (cell : option EnclaveContext) : SM E unit := statsd_all (record_decrypt cell).

Definition publish_request {E} (env : Env) : SM E unit := fun w =>
  match record_request env with
  | Ret ms => statsd_all ms w
  | _ => (Panic, w)
  end.

(** ** The ingress of the control plane

    A request is counted in the accept loop, before its task is spawned; the
    tasks spawned are the connections with their numbers. *)
Fixpoint ingress_loop (env : Env) (accepts : list (option bytes)) (spawned : list bytes) :
    M StatsWorld (list bytes) (list bytes) :=
  match accepts with
  | [] => mret spawned
  | None :: accepts => ingress_loop env accepts spawned
  | Some connection :: accepts =>
      publish_request env ;! ingress_loop env accepts (spawned ++ [connection])
  end.
End Stats.

(** ** The data plane *)

Inductive StartLog : Type :=
| DnsServerError | EgressServerError | E3ApiError | StatsProxyError | ServerNotCreated.

#[export] Instance StartLog_eq_dec : EqDecision StartLog.
Proof. solve_decision. Defined.

(** The results of [join!] in [start], in the order they are looked at. *)
Definition start_logged (network_egress : bool) (dns e3_api egress stats : bool) : list StartLog :=
  let report (l : StartLog) (failed : bool) := if failed then [l] else [] in
  if network_egress then
    report DnsServerError dns ++ report EgressServerError egress ++ report E3ApiError e3_api ++
    report StatsProxyError stats
  else report E3ApiError e3_api ++ report StatsProxyError stats.

(** [CryptoApi::listen]: hyper's [bind] panics when the address is taken, the
    result of serving is dropped, and [Ok] is returned. *)
Definition CRYPTO_API_ADDRESS : IpAddr * N := (V4 127 0 0 1, 9999%N).
Definition CryptoApi_listen (bind : IpAddr * N → bool) (serve : result unit unit) : exec unit (result ServerError unit) :=
  if bind CRYPTO_API_ADDRESS then let _ := serve in Ret (Ok tt) else Panic.

(** [start]: what is logged once every service has ended; a panic of one of
    the joined services ends the program. *)
Definition start_ended (network_egress : bool) (dns egress stats : bool)
    (e3_api : exec unit (result ServerError unit)) : exec unit (list StartLog) :=
  match e3_api with
  | Ret r => Ret (start_logged network_egress dns (if r then false else true) egress stats)
  | Throw e => Throw e
  | Panic => Panic
  end.

(** [start_data_plane]: [serve] is the TLS server or the passthrough, by the
    feature of the build. *)
Definition start_data_plane {A} (created : bool) (tls_termination : bool) (run_tls run_tcp_passthrough : A) :
    sum StartLog A :=
  if created then inr (if tls_termination then run_tls else run_tcp_passthrough) else inl ServerNotCreated.

(** ** Properties *)

Section Properties.
Context {F : Type}.
#[local] Notation SW := (StatsWorld (F := F)).

Lemma init_sets {E} io target (w : SW) : (StatsClient_init (E := E) io target w).1 = Ret tt ∧
  st_client (StatsClient_init (E := E) io target w).2 = (if udp_bind io && udp_sink io then Some target else st_client w) ∧
  st_metrics (StatsClient_init (E := E) io target w).2 = st_metrics w.
Proof. by destruct io as [[] []]. Qed.

Lemma ingress_runs env accepts ctx t spawned (w : SW) : from_env_vars env = Some ctx → st_client w = Some t →
  ∃ ms, ingress_loop env accepts spawned w =
    (Ret (spawned ++ omap id accepts), mkStats (Some t) (st_metrics w ++ ms) (st_errors w)) ∧
    length ms = length (omap id accepts) ∧ Forall (fun m => mt_label m = "request.count") ms.
Proof.
  intros He. revert spawned w. induction accepts as [|[c|] accepts IH]; intros spawned [cl ms0 es]; cbn; intros ->.
  - exists []. rewrite !app_nil_r. by split.
  - unfold mbind, publish_request, record_request. rewrite He. cbn.
    set (m := publish "request.count" (Count 1) (cp_uuid ctx) (cp_app_uuid ctx)).
    destruct (IH (spawned ++ [c]) (mkStats (Some t) (ms0 ++ [m]) es)) as (ms & -> & Hl & Hf); [done|]. cbn.
    exists (m :: ms). rewrite <- !(assoc_L (++)). split; [done|]. split; [cbn; f_equal; exact Hl|by constructor].
  - by apply IH.
Qed.

Lemma ingress_stops env accepts spawned (w : SW) : st_client w = None →
  (ingress_loop env accepts spawned w).2 = w ∧ ((ingress_loop env accepts spawned w).1 = Panic ↔ omap id accepts ≠ []).
Proof.
  intros Hw. induction accepts as [|[c|] accepts IH]; cbn [ingress_loop]; [by cbn| |exact IH].
  assert (publish_request (E := list bytes) env w = (Panic, w)) as Hp.
  { unfold publish_request, record_request. destruct (from_env_vars env); [|done]. cbn. unfold mbind, statsd. by rewrite Hw. }
  unfold mbind. rewrite Hp. by split.
Qed.

(** The message for an error of the crypto API is never logged: with its port
    taken the data plane panics, and every other end of it is a success. *)
Lemma crypto_api_error_is_never_logged network_egress dns egress stats bind serve :
  match start_ended network_egress dns egress stats (CryptoApi_listen bind serve) with
  | Ret logged => bind CRYPTO_API_ADDRESS = true ∧ E3ApiError ∉ logged
  | Throw _ => False
  | Panic => bind CRYPTO_API_ADDRESS = false
  end.
Proof.
  unfold start_ended, CryptoApi_listen. destruct (bind CRYPTO_API_ADDRESS) eqn:Hb; [|done]. cbn.
  split; [done|]. apply (bool_decide_unpack _). by destruct network_egress, dns, egress, stats.
Qed.

(** In the enclave a decryption that E3 has answered panics as well. *)
Lemma decrypt_needs_statistics enclave io context :
  ((dp_stats_init enclave io ;! publish_decrypt (E := unit) (Some context)) (mkStats (F := F) None [] [])).1 = Panic ↔
  udp_bind io && udp_sink io = false.
Proof. by destruct io as [[] []]. Qed.

(** The statistics decide over the ingress: a control plane whose statsd client
    could be set up serves every accepted connection and counts each once;
    one whose client could not be set up logs that, goes on, and panics at
    the first connection it accepts. *)
Theorem ingress_needs_statistics enclave io env ctx accepts : from_env_vars env = Some ctx →
  let r := (cp_stats_init enclave io ;! ingress_loop env accepts []) (mkStats (F := F) None [] []) in
  if udp_bind io && udp_sink io
  then r.1 = Ret (omap id accepts) ∧ length (st_metrics r.2) = length (omap id accepts) ∧
    Forall (fun m => mt_label m = "request.count") (st_metrics r.2)
  else st_errors r.2 ≠ [] ∧ st_metrics r.2 = [] ∧ (r.1 = Panic ↔ omap id accepts ≠ []).
Proof.
  intros He r. unfold r. clear r. unfold mbind. destruct io as [[] []]; cbn [udp_bind udp_sink andb].
  - destruct (ingress_runs env accepts ctx (if enclave then V4 127 0 0 1 else V4 172 20 0 6, 8125%N) []
      (mkStats (Some (if enclave then V4 127 0 0 1 else V4 172 20 0 6, 8125%N)) [] [])) as (ms & Hr & Hl & Hf); [done..|].
    cbn. rewrite Hr. by cbn.
  - destruct (ingress_stops env accepts [] (mkStats None [] [MetricError])) as [Hw Hp]; [done|]. cbn. by rewrite Hw.
  - destruct (ingress_stops env accepts [] (mkStats None [] [StatsIOError])) as [Hw Hp]; [done|]. cbn. by rewrite Hw.
  - destruct (ingress_stops env accepts [] (mkStats None [] [StatsIOError])) as [Hw Hp]; [done|]. cbn. by rewrite Hw.
Qed.
End Properties.

(** ** Witness *)

Lemma ingress_needs_statistics_witness :
  let run io := (cp_stats_init true io ;! ingress_loop Some [None; Some (b "hello"); Some (b "bye")] [])
    (mkStats (F := N) None [] []) in
  (run (mkSinkIo true true)).1 = Ret [b "hello"; b "bye"] ∧
  ((run (mkSinkIo false true)).1 = Panic ↔ [b "hello"; b "bye"] ≠ []).
Proof.
  cbn zeta. split.
  - eapply (ingress_needs_statistics true (mkSinkIo true true) Some _ [None; Some (b "hello"); Some (b "bye")]); reflexivity.
  - eapply (ingress_needs_statistics true (mkSinkIo false true) Some _ [None; Some (b "hello"); Some (b "bye")]); reflexivity.
Defined.
