(* ===== verification/Tower.v ===== *)
(** * The services as objects (data-plane/src/server/layers, server.rs)

    [Stack] composes the [call]s of the layers. Here are the objects the code
    has: each layer with its constructor and its [layer], each service with its
    fields, [poll_ready] and [call], and the builder of [run] that puts them
    together. tower's [ServiceBuilder] is a class with its documented order;
    what [run] builds is the service of [Stack], and it is always ready, so
    that [run] may call it without polling it first. *)
From Stdlib Require Import Ascii String NArith Lia.
From stdpp Require Import base gmap strings list.
From S2P Require Import Prelude Nom CiphertextParser CiphertextStream Libs Net Egress Context Logging.
From S2P Require Import TrxHandler E3 Layers Stack.
#[local] Open Scope string_scope.
#[local] Open Scope list_scope.
#[local] Open Scope enclave_scope.

(** ** tower *)

(** [Poll<Result<(), Error>>] *)
Inductive Readiness : Type := Ready (r : result string unit) | Pending.

Section Tower.
Context {H : HttpLib} {J : Json} {R : Retry} {N0 : Nom} {EW : Type} {A : E3Api EW}.

(** A service: what the two methods of the trait do. *)
Record TowerService : Type := mkService {
  poll_ready : Readiness;
  call : Service (EW := EW)
}.

(** [ServiceBuilder]; a layer is what its [layer] method does. *)
Class ServiceBuilder : Type := {
  Builder : Type;
  sb_new : Builder;
  sb_layer : (TowerService → TowerService) → Builder → Builder;
  sb_option_layer : option (TowerService → TowerService) → Builder → Builder;
  sb_service : TowerService → Builder → TowerService
}.

(** The layer registered first gets the request first; an absent optional layer
    changes nothing. *)
Class ServiceBuilderLaws (B : ServiceBuilder) : Prop := {
  sb_service_new s : sb_service s sb_new = s;
  sb_service_layer l s b : sb_service s (sb_layer l b) = sb_service (l s) b;
  sb_option_some l s b : sb_service s (sb_option_layer (Some l) b) = sb_service (l s) b;
  sb_option_none s b : sb_service s (sb_option_layer None b) = sb_service s b
}.

(** ** Forwarding (forward.rs) *)

Section Objects.
Context (s : Surroundings (H := H)).

Definition ForwardService : TowerService :=
  mkService (Ready (Ok tt)) (ForwardService_call (s_http_client s)).

(** ** Decryption (decrypt.rs)

    The client of E3 is the interface [E3Api]. *)

Record DecryptLayer : Type := mkDecryptLayer {}.
Definition DecryptLayer_new : DecryptLayer := mkDecryptLayer.

Record DecryptService : Type := mkDecryptService { dsv_inner : TowerService }.

Definition DecryptService_poll_ready (d : DecryptService) : Readiness := poll_ready (dsv_inner d).

Definition DecryptService_service (d : DecryptService) : TowerService :=
  mkService (DecryptService_poll_ready d)
    (DecryptService_call (s_read_frames s) (s_display_decrypt s) (call (dsv_inner d))).

Definition DecryptLayer_layer (_ : DecryptLayer) (inner : TowerService) : DecryptService := mkDecryptService inner.

(** ** Authentication (auth.rs) *)

Record AuthLayer : Type := mkAuthLayer { al_context : EnclaveContext }.
Definition AuthLayer_new (context : EnclaveContext) : AuthLayer := mkAuthLayer context.

Record AuthService : Type := mkAuthService { asv_context : EnclaveContext; asv_inner : TowerService }.

Definition AuthService_poll_ready (a : AuthService) : Readiness := poll_ready (asv_inner a).

Definition AuthService_service (a : AuthService) : TowerService :=
  mkService (AuthService_poll_ready a)
    (AuthService_call (s_sha512 s) (s_display_auth s) (asv_context a) (call (asv_inner a))).

Definition AuthLayer_layer (l : AuthLayer) (inner : TowerService) : AuthService := mkAuthService (al_context l) inner.

(** ** Context and logs (context_log.rs)

    [tx_sender] is the channel: whether it is open. *)

Record ContextLogLayer : Type := mkContextLogLayer {
  cl_context : EnclaveContext;
  cl_feature_context : FeatureContext;
  cl_tx_sender : bool
}.
Definition ContextLogLayer_new (context : EnclaveContext) (feature_context : FeatureContext) (tx_sender : bool) :
    ContextLogLayer := mkContextLogLayer context feature_context tx_sender.

Record ContextLogService : Type := mkContextLogService {
  cls_context : EnclaveContext;
  cls_feature_context : FeatureContext;
  cls_tx_sender : bool;
  cls_inner : TowerService
}.

Definition ContextLogService_poll_ready (c : ContextLogService) : Readiness := poll_ready (cls_inner c).

Definition ContextLogService_service (c : ContextLogService) : TowerService :=
  mkService (ContextLogService_poll_ready c)
    (ContextLogService_call (cls_context c) (cls_feature_context c) (s_timestamp s) (s_id s) (s_elapsed s)
      (cls_tx_sender c) (call (cls_inner c))).

Definition ContextLogLayer_layer (l : ContextLogLayer) (inner : TowerService) : ContextLogService :=
  mkContextLogService (cl_context l) (cl_feature_context l) (cl_tx_sender l) inner.

(** ** Attestation (attest.rs) *)

Record AttestService : Type := mkAttestService { atsv_inner : TowerService }.

Definition AttestService_poll_ready (a : AttestService) : Readiness := poll_ready (atsv_inner a).

Definition AttestService_service (a : AttestService) : TowerService :=
  mkService (AttestService_poll_ready a)
    (AttestService_call (s_attestation_doc s) (s_trusted_cert s) (s_base64 s) (s_attestation_json s)
      (call (atsv_inner a))).

Definition AttestLayer_layer (inner : TowerService) : AttestService := mkAttestService inner.

(** ** The builder of [run] (server.rs) *)

Context {B : ServiceBuilder}.

(** The attestation layer only in enclave mode. *)
Definition service_builder : Builder :=
  if s_enclave s then sb_layer (fun inner => AttestService_service (AttestLayer_layer inner)) sb_new else sb_new.

(** [api_key_auth.then(|| AuthLayer::new(..))] *)
Definition optional_auth (feature_context : FeatureContext) (enclave_context : EnclaveContext) : option AuthLayer :=
  if api_key_auth feature_context then Some (AuthLayer_new enclave_context) else None.

Definition built_service : TowerService :=
  let enclave_context := s_context s in
  let feature_context := s_features s in
  sb_service ForwardService
    (sb_layer (fun inner => DecryptService_service (DecryptLayer_layer DecryptLayer_new inner))
      (sb_option_layer
        ((fun l inner => AuthService_service (AuthLayer_layer l inner)) <$> optional_auth feature_context enclave_context)
        (sb_layer (fun inner => ContextLogService_service
            (ContextLogLayer_layer (ContextLogLayer_new enclave_context feature_context (s_channel_open s)) inner))
          service_builder))).
End Objects.

(** ** Properties *)

Lemma built_unfolds {B : ServiceBuilder} {BL : ServiceBuilderLaws B} s :
  built_service s = mkService (Ready (Ok tt)) (data_plane_service s).
Proof.
  unfold built_service, data_plane_service, context_layer, auth_layer, decrypt_and_forward, optional_auth, service_builder.
  rewrite sb_service_layer.
  destruct (api_key_auth (s_features s)); cbn [fmap option_fmap option_map];
    rewrite ?sb_option_some, ?sb_option_none, sb_service_layer;
    destruct (s_enclave s); rewrite ?sb_service_layer, sb_service_new; reflexivity.
Qed.

(** What [run] builds from the layers, in the order it registers them and for
    every setting of the features, answers every request exactly as the
    composition of the layers does, attestation outermost, then logging, then
    authentication, then decryption, then the user process; and it is always
    ready, so that a request may be handed to it without polling it. *)
Theorem built_service_is_the_stack {B : ServiceBuilder} {BL : ServiceBuilderLaws B} s :
  (∀ req w, call (built_service s) req w = data_plane_service s req w) ∧
  poll_ready (built_service s) = Ready (Ok tt).
Proof. rewrite built_unfolds. by split. Qed.

(** ** Witness *)

(** Layers as a list, the one registered last innermost. *)
Definition list_builder : ServiceBuilder := {|
  Builder := list (TowerService → TowerService);
  sb_new := [];
  sb_layer l b := b ++ [l];
  sb_option_layer l b := b ++ option_list l;
  sb_service s b := foldr (fun l s => l s) s b
|}.

Definition list_builder_laws : ServiceBuilderLaws list_builder.
Proof.
  split; intros; cbn; try done; rewrite ?foldr_app; by rewrite ?app_nil_r.
Qed.
End Tower.

Lemma built_service_is_the_stack_witness :
  (call (built_service (A := sample_e3) (B := list_builder) (sample_surroundings true)) sample_request sample_world).1
    = (data_plane_service (A := sample_e3) (sample_surroundings true) sample_request sample_world).1 ∧
  poll_ready (built_service (A := sample_e3) (B := list_builder) (sample_surroundings true)) = Ready (Ok tt).
Proof.
  destruct (built_service_is_the_stack (A := sample_e3) (B := list_builder) (BL := list_builder_laws)
    (sample_surroundings true)) as [Hc Hr].
  split; [by rewrite Hc|exact Hr].
Defined.
