(* ===== verification/TlsClient.v ===== *)
(** * TLS clients of the enclave (data-plane/src/base_tls_client, connection.rs)

    The client under E3 and the certificate provisioner: dialling the host
    ([get_socket]), the TLS configuration with its verifier, the connection of
    a request ([get_conn]), and the clients [E3Client::new] and
    [CertProvisionerClient::new] make of it. The handshake of rustls is an
    interface: the peer is what answers on the port of the host, and the
    handshake fails when the configured verifier refuses its certificate. *)
From Stdlib Require Import Ascii String NArith Lia.
From stdpp Require Import base gmap strings list pretty.
From S2P Require Import Prelude Nom CiphertextParser CiphertextStream Libs Net Egress Context Logging.
From S2P Require Import TrxHandler E3 Layers Stack Jws Config Acme AcmeClient AcmeOrder AcmeCert Host Attest CertResolver TlsServer.
#[local] Open Scope string_scope.
#[local] Open Scope list_scope.
#[local] Open Scope enclave_scope.

(** ** Names (configuration.rs) *)

(** [enclave] is the feature of the build. *)
Definition get_e3_host (enclave : bool) : string := if enclave then "e3.cages-e3.internal" else "localhost".

Section TlsClient.
Context {Certificate : Type} {H : HttpLib}.

(** ** Configuration (tls_client_config.rs, server_cert_verifier.rs) *)

(** [ServerCertVerifier]: the end entity, the intermediates, the name asked for. *)
Definition Verifier : Type := Certificate → list Certificate → string → bool.

Definition OpenServerCertVerifier : Verifier := fun _ _ _ => true.
Definition CertProvisionerCertVerifier : Verifier := verify_server_cert.

(** The roots of [webpki_roots], no client certificate, and the verifier in
    place of the one that would use the roots. *)
Record ClientConfig : Type := mkClientConfig {
  cc_roots : list Certificate;
  cc_client_auth : bool;
  cc_verifier : Verifier
}.

Definition get_tls_client_config (webpki_roots : list Certificate) (verifier : Verifier) : ClientConfig :=
  mkClientConfig webpki_roots false verifier.

(** ** Peers *)

(** What answers on a port of the host: its certificates, whether it completes
    the handshakes of TLS and HTTP, and its answers. *)
Record Peer : Type := mkPeer {
  pr_end_entity : Certificate;
  pr_intermediates : list Certificate;
  pr_completes : bool;
  pr_http : bool;
  pr_answer : Outgoing → result ClientError (N * bytes)
}.

(** The host, the connection of the request in progress, and what was sent. *)
Record Wire : Type := mkWire {
  wr_dial : N → result string Peer;
  wr_conn : option Peer;
  wr_sent : list Outgoing
}.

Definition get_socket (port : N) : M Wire ClientError Peer := fun w =>
  match wr_dial w port with
  | Ok peer => (Ret peer, w)
  | Err e => (Throw (IoError e), w)
  end.

(** [TlsConnector::connect] of rustls: the handshake asks the verifier of the
    configuration about the certificates of the peer, and ends well when the
    verifier accepts them and the peer does its part. *)
Class Handshake : Type := {
  TlsConnector_connect : ClientConfig → string → Peer → result ClientError unit
}.
Class HandshakeLaws (HS : Handshake) : Prop := {
  connect_accepted config server_name peer :
    cc_verifier config (pr_end_entity peer) (pr_intermediates peer) server_name = true → pr_completes peer = true →
    TlsConnector_connect config server_name peer = Ok tt;
  connect_refused config server_name peer :
    cc_verifier config (pr_end_entity peer) (pr_intermediates peer) server_name = false →
    ∃ e, TlsConnector_connect config server_name peer = Err e
}.
Context {HS : Handshake} {HSL : HandshakeLaws HS}.

(** ** The base client (mod.rs) *)

Record BaseClient : Type := mkBaseClient {
  bc_tls_connector : ClientConfig;
  bc_server_name : string;
  bc_port : N
}.

Definition BaseClient_new (tls_connector : ClientConfig) (server_name : string) (port : N) : BaseClient :=
  mkBaseClient tls_connector server_name port.

Definition get_conn (c : BaseClient) : M Wire ClientError unit :=
  let! client_connection := get_socket (bc_port c) in
  mlift (TlsConnector_connect (bc_tls_connector c) (bc_server_name c) client_connection) ;!
  if pr_http client_connection
  then mmodify (fun w => mkWire (wr_dial w) (Some client_connection) (wr_sent w))
  else mthrow (HyperError "handshake").

(** [request_sender.send_request] on the connection just made. *)
Definition send_request (request : Outgoing) : M Wire ClientError (N * bytes) := fun w =>
  match wr_conn w with
  | Some peer =>
      let w' := mkWire (wr_dial w) (wr_conn w) (wr_sent w ++ [request]) in
      match pr_answer peer request with Ok r => (Ret r, w') | Err e => (Throw e, w') end
  | None => (Throw (HyperError "closed"), w)
  end.

(** [E3Client::new] and [CertProvisionerClient::new]. *)
Definition E3Client_new (webpki_roots : list Certificate) : BaseClient :=
  BaseClient_new (get_tls_client_config webpki_roots OpenServerCertVerifier) (get_e3_host true) ENCLAVE_CRYPTO_PORT.
Definition CertProvisionerClient_new (webpki_roots : list Certificate) : BaseClient :=
  BaseClient_new (get_tls_client_config webpki_roots CertProvisionerCertVerifier) get_cert_provisioner_host ENCLAVE_CERT_PORT.

(** The client of the health checks for a process that speaks TLS
    (data-plane/src/health/agent.rs): HTTPS only. *)
Record HttpsConnector : Type := mkHttpsConnector { hc_config : ClientConfig; hc_https_only : bool }.
Definition build_tls_client (webpki_roots : list Certificate) : HttpsConnector :=
  mkHttpsConnector (get_tls_client_config webpki_roots OpenServerCertVerifier) true.

(** ** Properties *)

(** A health check reaches a process with any certificate. *)
Lemma health_check_connects roots server_name peer : pr_completes peer = true →
  TlsConnector_connect (hc_config (build_tls_client roots)) server_name peer = Ok tt.
Proof. intros Hc. by apply connect_accepted. Qed.

(** A client whose verifier accepts the peer has a connection to it. *)
Lemma accepted_connects c w peer : wr_dial w (bc_port c) = Ok peer →
  cc_verifier (bc_tls_connector c) (pr_end_entity peer) (pr_intermediates peer) (bc_server_name c) = true →
  pr_completes peer = true → pr_http peer = true →
  get_conn c w = (Ret tt, mkWire (wr_dial w) (Some peer) (wr_sent w)).
Proof.
  intros Hd Hv Hc Hh. unfold get_conn, Prelude.mbind, get_socket. rewrite Hd. rewrite connect_accepted by done.
  cbn. by rewrite Hh.
Qed.

(** The verifiers do not look at certificates: both clients connect to whatever
    completes the handshake. *)
Lemma e3_connects roots w peer : wr_dial w ENCLAVE_CRYPTO_PORT = Ok peer → pr_completes peer = true → pr_http peer = true →
  get_conn (E3Client_new roots) w = (Ret tt, mkWire (wr_dial w) (Some peer) (wr_sent w)).
Proof.
  intros Hd Hc Hh. by apply accepted_connects.
Qed.

Lemma provisioner_connects roots w peer : wr_dial w ENCLAVE_CERT_PORT = Ok peer → pr_completes peer = true →
  pr_http peer = true →
  get_conn (CertProvisionerClient_new roots) w = (Ret tt, mkWire (wr_dial w) (Some peer) (wr_sent w)).
Proof.
  intros Hd Hc Hh. by apply accepted_connects.
Qed.

Context {J : Json} {TC : TokenCache} {R : Retry} {N0 : Nom} {HL : HttpLaws H}.
Context (roots : list Certificate) (client_version client_major_version : string).
Context (get_e3_token : M Wire TokenError (string * string)) (get_attestation_doc_token : bytes → result TokenError string).
Context (ser_ad : AutoDecryptRequest → option bytes) (de_ad : bytes → option AutoDecryptRequest).
Context (ser_cr : CryptoRequest → option bytes) (de_cr : bytes → option CryptoResponse).
Context (ser_ar : AuthRequest → option bytes).

(** The client of E3 over the connections it makes. *)
Definition enclave_e3 : E3Api (E3World (TC := TC) (X := Wire)) :=
  e3_client (get_conn (E3Client_new roots)) send_request client_version client_major_version
    get_e3_token get_attestation_doc_token (get_e3_host true) ser_ad de_ad ser_cr de_cr ser_ar.

Lemma peer_authenticates (key : HeaderValue) context payload peer (w : E3World (TC := TC) (X := Wire)) :
  wr_dial (e3_inner w) ENCLAVE_CRYPTO_PORT = Ok peer → pr_completes peer = true → pr_http peer = true →
  (∀ o, ∃ body, pr_answer peer o = Ok (200%N, body)) → ser_ar (AuthRequest_from context) = Some payload →
  ∃ w' o, e3_authenticate (E3Api := enclave_e3) key (AuthRequest_from context) w = (Ret tt, w') ∧
    wr_sent (e3_inner w') = wr_sent (e3_inner w) ++ [o] ∧ hm_get_all (o_headers o) "api-key" = [key].
Proof.
  intros Hd Hc Hh Ha Hs. cbn [e3_authenticate enclave_e3 e3_client].
  unfold E3Client_authenticate. rewrite Hs. cbn [ok_or mlift]. rewrite mbind_ret_l.
  set (o := mkOutgoing "POST" (E3Client_uri (get_e3_host true) "/authenticate")
    (request_headers client_version client_major_version (Some (ApiKey key)) None) payload).
  destruct (Ha o) as [body Hb].
  unfold Prelude.mbind, inner, send. fold o. unfold Prelude.mbind.
  rewrite (e3_connects roots _ peer) by done. unfold send_request. cbn [wr_conn]. rewrite Hb. cbn.
  eexists _, o. split; [done|]. split; [done|]. apply request_headers_key; exact HL.
Qed.

(** C33. The authentication of API keys rests on the host: whoever answers on E3's
    port of the host with any certificate, and with success to everything, is
    taken for E3. Every request that carries an API key, whatever the key, is
    then passed on to the next layer, and that host is given the hash of the
    key. *)
Theorem any_peer_is_taken_for_e3 sha512 display_auth context (inner : Service) req (w : LayerWorld) key hk payload peer :
  hm_get (p_headers (rq_parts req)) "api-key" = Some key → hv_from_bytes (sha512 key) = Some hk →
  wr_dial (e3_inner (lw_e3 w)) ENCLAVE_CRYPTO_PORT = Ok peer → pr_completes peer = true → pr_http peer = true →
  (∀ o, ∃ body, pr_answer peer o = Ok (200%N, body)) → ser_ar (AuthRequest_from context) = Some payload →
  ∃ w' o, AuthService_call (A := enclave_e3) sha512 display_auth context inner req w = inner req w' ∧
    lw_forwarded w' = lw_forwarded w ∧
    wr_sent (e3_inner (lw_e3 w')) = wr_sent (e3_inner (lw_e3 w)) ++ [o] ∧ hm_get_all (o_headers o) "api-key" = [hk].
Proof.
  intros Hk Hh Hd Hc Ht Ha Hs.
  destruct (peer_authenticates hk context payload peer (lw_e3 w) Hd Hc Ht Ha Hs) as (w' & o & He & Hw & Ho).
  unfold AuthService_call. rewrite Hk.
  assert (auth_request (A := enclave_e3) sha512 context key (lw_e3 w) = (Ret tt, w')) as Hr.
  { unfold auth_request. rewrite Hh. cbn [ok_or mlift]. rewrite mbind_ret_l. unfold Prelude.mbind, mtry. by rewrite He. }
  exists (mkLW w' (lw_forwarded w) (lw_logs w)), o.
  unfold Prelude.mbind, mtry, on_e3. by rewrite Hr.
Qed.
End TlsClient.

(** ** Witness *)

(** The verifier is asked first. *)
Definition ask_first : Handshake (Certificate := string) (H := http_ref) := {|
  TlsConnector_connect config server_name peer :=
    if cc_verifier config (pr_end_entity peer) (pr_intermediates peer) server_name
    then if pr_completes peer then Ok tt else Err (IoError "handshake")
    else Err (IoError "invalid peer certificate")
|}.

Definition ask_first_laws : HandshakeLaws ask_first.
Proof. split; cbn; intros c n p ->; [by intros ->|by eexists]. Qed.

(** A host that answers for E3 with a certificate of its own. *)
Definition impostor : Peer (Certificate := string) (H := http_ref) :=
  mkPeer "self-signed" [] true true (fun _ => Ok (200%N, [])).

Definition impostor_wire : LayerWorld (EW := E3World (TC := no_cache) (X := Wire (Certificate := string))) :=
  mkLW (mkE3 (TC := no_cache) tt 0 0 0 (mkWire (fun _ => Ok impostor) None [])) [] [].

Definition passed : Service (EW := E3World (TC := no_cache) (X := Wire (Certificate := string))) :=
  fun _ => mret (mkRes "HTTP/1.1" 200 hm_empty (Some (b "passed")) None).

Definition guessed : Request :=
  mkReq (mkParts _ "GET" (mkUri "/" None) (hm_insert hm_empty "api-key" (b "guess"))) (Some []) None None.

Lemma any_peer_is_taken_for_e3_witness : ∃ w' o,
  AuthService_call (A := enclave_e3 (HS := ask_first) (J := json_ref) [] "1" "1" (mthrow TkIo) (fun _ => Err TkIo) (fun _ => None) (fun _ => None)
      (fun _ => None) (fun _ => None) (fun _ => Some [])) id (fun _ => "") (mkContext "team" "app" "uuid" "name")
    passed guessed impostor_wire = passed guessed w' ∧
  lw_forwarded w' = [] ∧ wr_sent (e3_inner (lw_e3 w')) = [o] ∧ hm_get_all (o_headers o) "api-key" = [b "guess"].
Proof.
  eapply (any_peer_is_taken_for_e3 (HS := ask_first) (HSL := ask_first_laws) (J := json_ref) [] "1" "1" (mthrow TkIo) (fun _ => Err TkIo) (fun _ => None) (fun _ => None)
    (fun _ => None) (fun _ => None) (fun _ => Some []) id (fun _ => "") (mkContext "team" "app" "uuid" "name")
    passed guessed impostor_wire (b "guess") (b "guess") [] impostor); try reflexivity.
  intros o. by exists [].
Defined.
