(* ===== verification/Wiring.v ===== *)
(** * The addresses of the planes

    The addresses of both planes in both builds (shared/src/server/mod.rs,
    tcp.rs, data-plane/src/connection.rs, control-plane/src/enclave_connection.rs):
    in the enclave the planes meet on vsock, in local runs on TCP. For a port,
    what one plane dials and what the other binds is the same address in both
    builds. *)
From Stdlib Require Import Ascii String NArith Lia.
From stdpp Require Import base gmap strings list.
From S2P Require Import Prelude Libs Net Egress Context CpError ProxyProtocol Listeners Processes.
#[local] Open Scope string_scope.
#[local] Open Scope list_scope.
#[local] Open Scope enclave_scope.

(** ** Addresses *)

Inductive PlaneAddress : Type :=
| Vsock (cid port : N)
| Tcp (ip : IpAddr) (port : N).

#[export] Instance address_eq_dec : EqDecision PlaneAddress.
Proof. solve_decision. Defined.

Definition ENCLAVE_IP : string := "172.20.0.7".
Definition PARENT_IP : string := "172.20.0.8".

(** [None] is the panic of the [expect]. *)
Definition get_local_ip (cid : CID) : option IpAddr :=
  parse_ipv4 (match cid with Parent => PARENT_IP | Enclave => ENCLAVE_IP end).

Section Build.
(** The feature [enclave]. *)
Context (enclave : bool).

Definition vsock_address (a : N * N) : PlaneAddress := Vsock a.1 a.2.

(** [get_vsock_server], [get_vsock_server_with_proxy_protocol] and
    [get_vsock_client]: what is bound or dialled. *)
Definition bound_address (port : N) (cid : CID) : option PlaneAddress :=
  if enclave then Some (vsock_address (get_vsock_server port cid))
  else (fun ip => Tcp ip port) <$> get_local_ip cid.
Definition bound_address_with_proxy_protocol (port : N) (cid : CID) : option PlaneAddress :=
  if enclave then Some (vsock_address (get_vsock_server_with_proxy_protocol port cid))
  else (fun ip => Tcp ip port) <$> get_local_ip cid.
Definition client_address (port : N) (cid : CID) : option PlaneAddress :=
  if enclave then Some (vsock_address (get_vsock_client port cid))
  else (fun ip => Tcp ip port) <$> get_local_ip cid.

(** data-plane/src/connection.rs and control-plane/src/enclave_connection.rs *)
Definition socket_address (port : N) : PlaneAddress :=
  if enclave then Vsock PARENT_CID port else Tcp (V4 172 20 0 8) port.
Definition connection_to_enclave (port : N) : PlaneAddress :=
  if enclave then Vsock ENCLAVE_CID port else Tcp (V4 172 20 0 7) port.

End Build.

(** ** Properties *)

(** The addresses of a port agree on both sides, in both builds. *)
Lemma addresses_agree enclave port : (∀ cid, client_address enclave port cid = bound_address enclave port cid) ∧
  bound_address enclave port Parent = Some (socket_address enclave port) ∧
  bound_address enclave port Enclave = Some (connection_to_enclave enclave port) ∧
  bound_address_with_proxy_protocol enclave port Enclave = Some (connection_to_enclave enclave port).
Proof. by destruct enclave. Qed.
